(** * Lunara Afiliados: the REST handlers over the relational store

    A shallow embedding of the Express route handlers (bookings,
    therapist availability, commission payment, affiliate creation)
    and of the SQL schema they run against.  Handlers are functions
    from a request and a connection to a response and a connection;
    every [client.query] / [pool.query] call is one step of a small
    state-and-exception monad that also records the statement issued.
    JavaScript numbers are binary64 values held as rationals. *)

From Stdlib Require Import List String Ascii ZArith QArith Qround Qabs.
From Stdlib Require Import Bool Lia Lqa DecimalString Sorted.
Import ListNotations.

Local Open Scope string_scope.
Local Open Scope Z_scope.

(** ** JavaScript values and coercions *)

Module Js.

(** Errors that reach a [catch] clause: [new Error(msg)] thrown by a
    handler, or a [DatabaseError] raised by the driver with its
    SQLSTATE code. *)
Inductive JsError :=
| Error (message : string)
| DatabaseError (code : string) (message : string).

Definition message (e : JsError) : string :=
  match e with
  | Error m => m
  | DatabaseError _ m => m
  end.


(** Truthiness of a possibly-undefined string: [undefined], [null]
    and [''] are falsy. *)
Definition truthy (v : option string) : bool :=
  match v with
  | None => false
  | Some s => negb (String.eqb s "")
  end.

(** [a || b] on strings. *)
Definition or_else (a : string) (b : string) : string :=
  if String.eqb a "" then b else a.

(** A number that may be [NaN]; [n || d] takes [d] for [NaN] and [0]. *)
Definition num_or (n : option Z) (d : Z) : Z :=
  match n with
  | None => d
  | Some 0 => d
  | Some z => z
  end.

(** *** Numbers

    A finite JavaScript number is a rational that binary64 holds, with
    a significand of 53 bits.  Every operation yields the number
    nearest to its exact result, a tie going to the even significand.
    Infinity, NaN and the subnormal range are left out: the decimals
    of the store's columns are far from both ends, and an integer too
    long for a number is a parameter the store refuses either way. *)

(** [ilog2 n d], for positive [n]: the [e] with
    [2 ^ e <= n / d < 2 ^ (e + 1)]. *)
Definition ilog2 (n : Z) (d : positive) : Z :=
  let k := Z.log2 n - Z.log2 (Zpos d) in
  if (if 0 <=? k then Zpos d * 2 ^ k <=? n else Zpos d <=? n * 2 ^ (- k))
  then k else k - 1.

(** [a / b], for positive [b], to the nearest integer; a tie goes to
    the even one. *)
Definition nearest_even (a b : Z) : Z :=
  let f := a / b in
  match 2 * (a mod b) ?= b with
  | Lt => f
  | Gt => f + 1
  | Eq => if Z.even f then f else f + 1
  end.

(** The number nearest to [n / d], for positive [n], in lowest
    terms. *)
Definition nearest53 (n : Z) (d : positive) : Q :=
  let e := ilog2 n d - 52 in
  Qred (if 0 <=? e
        then inject_Z (nearest_even n (Zpos d * 2 ^ e) * 2 ^ e)
        else nearest_even (n * 2 ^ (- e)) (Zpos d) # Z.to_pos (2 ^ (- e))).

(** The number nearest to a rational. *)
Definition binary64 (x : Q) : Q :=
  match Qnum x with
  | Z0 => 0%Q
  | Zpos n => nearest53 (Zpos n) (Qden x)
  | Zneg n => (- nearest53 (Zpos n) (Qden x))%Q
  end.

(** The number nearest to an integer; it is an integer. *)
Definition integer (n : Z) : Z := Qfloor (binary64 (inject_Z n)).

(** [a * b] and [a / b] on numbers. *)
Definition mul (a b : Q) : Q := binary64 (a * b).
Definition div (a b : Q) : Q := binary64 (a / b).

(** [Number(v)] for a NUMERIC column value, which the driver hands
    over as its decimal text; [null] coerces to [0] in arithmetic. *)
Definition to_number (v : option Q) : Q :=
  match v with
  | None => 0%Q
  | Some q => binary64 q
  end.

Fixpoint len10 (fuel : nat) (n : Z) : Z :=
  match fuel with
  | O => 0
  | S f => if n <? 1 then 0 else 1 + len10 f (n / 10)
  end.

(** The number of decimal digits of a positive integer. *)
Definition digits10 (n : Z) : Z := len10 (S (Z.to_nat (Z.log2 n))) n.

(** For positive [x]: the [n] with [10 ^ (n - 1) <= x < 10 ^ n] when
    [1 <= x], and with [10 ^ (n - 1) < x <= 10 ^ n] below. *)
Definition exponent10 (x : Q) : Z :=
  if Qle_bool 1 x then digits10 (Qfloor x)
  else 1 - digits10 (Qfloor (/ x)).

Definition pow10 (j : Z) : Q :=
  if 0 <=? j then inject_Z (10 ^ j) else 1 # Z.to_pos (10 ^ (- j)).

(** Of the two multiples of [g] next to [x], one that reads back as
    [x]: the closer one when both do, the even one when they are as
    close. *)
Definition candidate (x g : Q) : option Q :=
  let s := Qfloor (x / g) in
  let lo := (inject_Z s * g)%Q in
  let hi := (inject_Z (s + 1) * g)%Q in
  match Qeq_bool (binary64 lo) x, Qeq_bool (binary64 hi) x with
  | true, true =>
      Some match (x - lo ?= hi - x)%Q with
           | Lt => lo
           | Gt => hi
           | Eq => if Z.even s then lo else hi
           end
  | true, false => Some lo
  | false, true => Some hi
  | false, false => None
  end.

Fixpoint shortest_loop (fuel : nat) (x : Q) (j : Z) : Q :=
  match fuel with
  | O => x
  | S f =>
      match candidate x (pow10 j) with
      | Some c => c
      | None => shortest_loop f x (j - 1)
      end
  end.

(** The decimal that [String(x)] writes for a number: the one of
    fewest digits that reads back as [x].  Seventeen digits always
    do. *)
Definition shortest (x : Q) : Q :=
  match Qnum x with
  | Z0 => 0%Q
  | Zpos _ => shortest_loop 20 x (exponent10 x - 1)
  | Zneg _ => (- shortest_loop 20 (- x) (exponent10 (- x) - 1))%Q
  end.

Definition is_digit (c : ascii) : bool :=
  let n := nat_of_ascii c in (48 <=? n)%nat && (n <=? 57)%nat.

Definition digit_val (c : ascii) : Z := Z.of_nat (nat_of_ascii c) - 48.

Definition is_hex (c : ascii) : bool :=
  let n := nat_of_ascii c in
  is_digit c || ((65 <=? n)%nat && (n <=? 70)%nat)
             || ((97 <=? n)%nat && (n <=? 102)%nat).

Definition is_space (c : ascii) : bool :=
  let n := nat_of_ascii c in
  ((9 <=? n)%nat && (n <=? 13)%nat) || (n =? 32)%nat.

Definition lower_char (c : ascii) : ascii :=
  let n := nat_of_ascii c in
  if (65 <=? n)%nat && (n <=? 90)%nat then ascii_of_nat (n + 32) else c.

Fixpoint toLowerCase (s : string) : string :=
  match s with
  | EmptyString => EmptyString
  | String c r => String (lower_char c) (toLowerCase r)
  end.

(** Leading decimal digits of a string, accumulated left to right. *)
Fixpoint digits (acc : Z) (seen : bool) (s : string) : option Z :=
  match s with
  | String c r =>
      if is_digit c then digits (10 * acc + digit_val c) true r
      else if seen then Some acc else None
  | EmptyString => if seen then Some acc else None
  end.

Fixpoint skip_spaces (s : string) : string :=
  match s with
  | String c r => if is_space c then skip_spaces r else s
  | EmptyString => EmptyString
  end.

(** The integer [parseInt] reads: leading blanks, an optional sign,
    then the longest run of decimal digits. *)
Definition leading_integer (s : string) : option Z :=
  match skip_spaces s with
  | EmptyString => None
  | String c r =>
      if Ascii.eqb c "-" then option_map Z.opp (digits 0 false r)
      else if Ascii.eqb c "+" then digits 0 false r
      else digits 0 false (String c r)
  end.

(** [parseInt(v)]: the number nearest to the integer read; [NaN]
    ([None]) when there is none, and for [undefined].  (The [0x]
    prefix is not modelled: no string with it passes [isInt].) *)
Definition parseInt (v : option string) : option Z :=
  match v with
  | None => None
  | Some s => option_map integer (leading_integer s)
  end.

(** [Math.ceil(a / b)] on integers held as numbers. *)
Definition ceil_div (a b : Z) : Z := Qceiling (inject_Z a / inject_Z b).

(** [String.prototype.trim] on the ASCII blanks. *)
Fixpoint trim_end (s : string) : string :=
  match s with
  | EmptyString => EmptyString
  | String c r =>
      match trim_end r with
      | EmptyString => if is_space c then EmptyString else String c EmptyString
      | r' => String c r'
      end
  end.

Definition trim (s : string) : string := trim_end (skip_spaces s).

End Js.

Import Js.

(** ** Library functions the handlers call

    [validator.js] predicates and the PostgreSQL DATE and NUMERIC input
    routines are not part of the repository; the development is
    parametric in them. *)

Class Library := {
  isEmail : string -> bool;
  isISO8601 : string -> bool;
  isFloat : Q -> Q -> string -> bool;   (* isFloat({ min, max }) *)
  date_in : string -> option Z;
  numeric_in : string -> option Q
}.

(** ** express-validator chains *)

Module Validator.

Definition dash_position (i : nat) : bool :=
  (i =? 8)%nat || (i =? 13)%nat || (i =? 18)%nat || (i =? 23)%nat.

Fixpoint uuid_shape (i : nat) (s : string) : bool :=
  match s with
  | EmptyString => (i =? 36)%nat
  | String c r =>
      (if dash_position i then Ascii.eqb c "-" else is_hex c)
      && uuid_shape (S i) r
  end.

(** [isUUID()]: the 8-4-4-4-12 hexadecimal form, either case. *)
Definition isUUID (s : string) : bool := uuid_shape 0 s.

Fixpoint all_digits (s : string) : bool :=
  match s with
  | EmptyString => true
  | String c r => is_digit c && all_digits r
  end.

(** The integer a string denotes under [/^[-+]?[0-9]+$/]. *)
Definition int_value (s : string) : option Z :=
  match s with
  | EmptyString => None
  | String c r =>
      if Ascii.eqb c "-"
      then if all_digits r then option_map Z.opp (digits 0 false r) else None
      else if Ascii.eqb c "+"
      then if all_digits r then digits 0 false r else None
      else if all_digits s then digits 0 false s else None
  end.

(** [isInt({ min, max })]. *)
Definition isInt (min max : option Z) (s : string) : bool :=
  match int_value s with
  | None => false
  | Some v =>
      match min with Some m => m <=? v | None => true end
      && match max with Some m => v <=? m | None => true end
  end.

(** [isLength({ min, max })]. *)
Definition isLength (min max : option nat) (s : string) : bool :=
  match min with Some m => (m <=? String.length s)%nat | None => true end
  && match max with Some m => (String.length s <=? m)%nat | None => true end.

(** [isIn([...])]. *)
Definition isIn (l : list string) (s : string) : bool :=
  existsb (String.eqb s) l.

(** Minutes since midnight of a string in the shape
    [/^([0-1]?[0-9]|2[0-3]):[0-5][0-9]$/]. *)
Definition minutes_ok (m1 m2 : ascii) : bool :=
  is_digit m1 && (nat_of_ascii m1 <=? 53)%nat && is_digit m2.

Definition hhmm (s : string) : option Z :=
  match list_ascii_of_string s with
  | [h; c; m1; m2] =>
      if is_digit h && Ascii.eqb c ":" && minutes_ok m1 m2
      then Some (60 * digit_val h + 10 * digit_val m1 + digit_val m2)
      else None
  | [h1; h2; c; m1; m2] =>
      if ((Ascii.eqb h1 "0" || Ascii.eqb h1 "1") && is_digit h2
          || Ascii.eqb h1 "2" && is_digit h2 && (nat_of_ascii h2 <=? 51)%nat)
         && Ascii.eqb c ":" && minutes_ok m1 m2
      then Some (60 * (10 * digit_val h1 + digit_val h2)
                 + 10 * digit_val m1 + digit_val m2)
      else None
  | _ => None
  end.

Definition matches_time (s : string) : bool :=
  match hhmm s with Some _ => true | None => false end.

(** One chain: [body(f).optional()?.trim()?.<check>.withMessage(m)]. *)
Record Chain := {
  optional : bool;
  sanitizer : string -> string;
  check : string -> bool;
  withMessage : string
}.

Definition required (chk : string -> bool) (m : string) : Chain :=
  {| optional := false; sanitizer := fun s => s; check := chk;
     withMessage := m |}.

Definition opt (chk : string -> bool) (m : string) : Chain :=
  {| optional := true; sanitizer := fun s => s; check := chk;
     withMessage := m |}.

Definition trimmed (c : Chain) : Chain :=
  {| optional := optional c; sanitizer := trim; check := check c;
     withMessage := withMessage c |}.

(** The value the handler will read, and the messages recorded. *)
Definition sanitized (c : Chain) (v : option string) : option string :=
  option_map (sanitizer c) v.

Definition errors_of (c : Chain) (v : option string) : list string :=
  match v with
  | None =>
      if optional c then []
      else if check c (sanitizer c "") then [] else [withMessage c]
  | Some s => if check c (sanitizer c s) then [] else [withMessage c]
  end.

End Validator.

Import Validator.

(** ** The relational store

    Tables are lists of rows in insertion order.  Nullable columns are
    options and decimals are exact rationals.  The store enforces what
    the migration declares and the handlers can run into: the syntax
    of [uuid] parameters, NOT NULL, primary keys, the range of the
    [bigint] of LIMIT and OFFSET, and the precision and scale of the
    NUMERIC columns the handlers compute or pass a value for.  Foreign
    keys and VARCHAR lengths are not enforced. *)

Module Pg.

(** Column types: [uuid] values by their canonical text, dates by day
    number, times of day in minutes since midnight. *)
Abbreviation uuid := string (only parsing).
Abbreviation date := Z (only parsing).
Abbreviation time := Z (only parsing).
Abbreviation timestamp := Z (only parsing).

Inductive booking_status := Pending | Confirmed | Cancelled | Completed.
Inductive payment_status :=
  PaymentPending | PaymentPaid | PaymentCancelled | PaymentRefunded.
Inductive commission_status :=
  CommissionPending | CommissionPaid | CommissionCancelled.

Record User := {
  u_id : uuid;
  u_name : string;
  u_email : string
}.

Record Affiliate := {
  a_id : uuid;
  a_user_id : option uuid;
  a_referral_code : string;
  a_commission_rate : option Q;
  a_total_referrals : option Z;
  a_total_commission : option Q;
  a_is_active : option bool
}.

Record Therapist := {
  t_id : uuid;
  t_user_id : option uuid;
  t_specialty : string;
  t_bio : option string;
  t_commission_rate : option Q;
  t_is_available : option bool
}.

Record Service := {
  s_id : uuid;
  s_therapist_id : option uuid;
  s_name : string;
  s_price : Q;
  s_duration_minutes : option Z;
  s_is_active : option bool
}.

Record Booking := {
  b_id : uuid;
  b_service_id : option uuid;
  b_therapist_id : option uuid;
  b_affiliate_id : option uuid;
  b_client_name : string;
  b_client_email : string;
  b_client_phone : option string;
  b_scheduled_date : date;
  b_scheduled_time : time;
  b_status : booking_status;
  b_total_amount : Q;
  b_payment_status : payment_status;
  b_notes : option string;
  b_cancellation_reason : option string;
  b_created_at : timestamp;
  b_updated_at : timestamp
}.

Record Commission := {
  c_id : uuid;
  c_affiliate_id : option uuid;
  c_booking_id : option uuid;
  c_amount : Q;
  c_percentage : Q;
  c_status : commission_status;
  c_payment_date : option timestamp;
  c_payment_method : option string;
  c_payment_reference : option string;
  c_notes : option string;
  c_created_at : timestamp;
  c_updated_at : timestamp
}.

Record Store := {
  users : list User;
  affiliates : list Affiliate;
  therapists : list Therapist;
  services : list Service;
  bookings : list Booking;
  commissions : list Commission
}.

(** What [NOW()] and [gen_random_uuid()] yield during one request. *)
Record Env := {
  now : timestamp;
  booking_uuid : uuid;
  commission_uuid : uuid;
  affiliate_uuid : uuid;
  random_index : nat -> nat   (* Math.floor(Math.random() * 36), per call *)
}.

Definition Result (A : Type) : Type := (JsError + A)%type.

Definition and_then {A B} (r : Result A) (k : A -> Result B) : Result B :=
  match r with
  | inl e => inl e
  | inr a => k a
  end.

Notation "'let?' x ':=' r 'in' k" := (and_then r (fun x => k))
  (at level 10, x name, r at level 100, k at level 200).

Definition dq : string := String "034"%char EmptyString.

Definition invalid_text (ty s : string) : JsError :=
  DatabaseError "22P02"
    ("invalid input syntax for type " ++ ty ++ ": " ++ dq ++ s ++ dq).

Definition not_null_violation (col rel : string) : JsError :=
  DatabaseError "23502"
    ("null value in column " ++ dq ++ col ++ dq ++ " of relation "
     ++ dq ++ rel ++ dq ++ " violates not-null constraint").

Definition unique_violation (constraint : string) : JsError :=
  DatabaseError "23505"
    ("duplicate key value violates unique constraint "
     ++ dq ++ constraint ++ dq).

(** The sixteen bytes of a [uuid], two hexadecimal digits each; a
    hyphen may follow every second byte but the last.  [i] counts the
    bytes read; the digits come back in lower case with what is left
    of the text. *)
Fixpoint uuid_bytes (n i : nat) (s : string) : option (string * string) :=
  match n with
  | O => Some (EmptyString, s)
  | S n' =>
      match s with
      | String c1 (String c2 r) =>
          if is_hex c1 && is_hex c2
          then
            let r' :=
              match r with
              | String h r1 =>
                  if Ascii.eqb h "-" && Nat.odd i && (i <? 15)%nat
                  then r1 else r
              | EmptyString => r
              end in
            match uuid_bytes n' (S i) r' with
            | Some (ds, rest) =>
                Some (String (lower_char c1) (String (lower_char c2) ds),
                      rest)
            | None => None
            end
          else None
      | _ => None
      end
  end.

(** Thirty-two digits written 8-4-4-4-12. *)
Definition hyphenated (ds : string) : string :=
  String.substring 0 8 ds ++ "-" ++ String.substring 8 4 ds ++ "-"
  ++ String.substring 12 4 ds ++ "-" ++ String.substring 16 4 ds ++ "-"
  ++ String.substring 20 12 ds.

(** [uuid] input as PostgreSQL reads it: thirty-two hexadecimal
    digits of either case, a hyphen allowed after each group of four,
    the whole optionally in braces.  The value is its canonical text:
    lower case, 8-4-4-4-12. *)
Definition uuid_in (s : string) : option uuid :=
  let braces :=
    match s with
    | String c _ => Ascii.eqb c "{"
    | EmptyString => false
    end in
  let body :=
    match s with
    | String c r => if Ascii.eqb c "{" then r else s
    | EmptyString => s
    end in
  match uuid_bytes 16 0 body with
  | Some (ds, rest) =>
      if String.eqb rest (if braces then "}" else "")
      then Some (hyphenated ds)
      else None
  | None => None
  end.

Definition time_in (s : string) : option time := hhmm s.

(** A decimal rounded to [scale] digits after the point, a half going
    away from zero, as NUMERIC rounds; [p] is [10 ^ scale]. *)
Definition round_scale (p : Z) (q : Q) : Q :=
  let m := Qfloor (Qabs q * inject_Z p + (1 # 2)) in
  if Qnum q <? 0 then (- (m # Z.to_pos p))%Q else m # Z.to_pos p.

Definition numeric_overflow : JsError :=
  DatabaseError "22003" "numeric field overflow".

(** A value written to a column NUMERIC(precision, scale): it is
    rounded to the scale and must then be below
    [10 ^ (precision - scale)] in magnitude. *)
Definition numeric (precision scale : Z) (q : Q) : Result Q :=
  let r := round_scale (10 ^ scale) q in
  if Qle_bool (inject_Z (10 ^ (precision - scale))) (Qabs r)
  then inl numeric_overflow
  else inr r.

(** The same for a parameter that may be NULL. *)
Definition numeric_or_null (precision scale : Z) (v : option Q)
    : Result (option Q) :=
  match v with
  | None => inr None
  | Some q => let? r := numeric precision scale q in inr (Some r)
  end.

(** A number bound where the statement expects a [bigint], as LIMIT
    and OFFSET do.  The driver sends the number as text: from [10 ^ 21]
    on that is the exponent form, which is no integer to the store;
    below, the store refuses the digits at [2 ^ 63] and beyond. *)
Definition bigint (n : Z) : Result Z :=
  if 10 ^ 21 <=? Z.abs n
  then inl (DatabaseError "22P02" "invalid input syntax for type bigint")
  else if (n <? - 2 ^ 63) || (2 ^ 63 <=? n)
  then inl (DatabaseError "22003"
              "value is out of range for type bigint")
  else inr n.

(** A text parameter bound where the statement expects type [ty];
    [undefined] and [null] are sent as NULL. *)
Definition param {A} (ty : string) (input : string -> option A)
    (p : option string) : Result (option A) :=
  match p with
  | None => inr None
  | Some s =>
      match input s with
      | Some v => inr (Some v)
      | None => inl (invalid_text ty s)
      end
  end.

Definition not_null {A} (col rel : string) (v : option A) : Result A :=
  match v with
  | Some a => inr a
  | None => inl (not_null_violation col rel)
  end.

(** [a = b] in a WHERE clause: unknown, hence not selected, when
    either side is NULL. *)
Definition eq_sql {A} (eqb : A -> A -> bool) (a b : option A) : bool :=
  match a, b with
  | Some x, Some y => eqb x y
  | _, _ => false
  end.

Definition is_true (b : option bool) : bool :=
  match b with Some true => true | _ => false end.

(** [status NOT IN ('cancelled', 'completed')]. *)
Definition active (st : booking_status) : bool :=
  match st with
  | Cancelled | Completed => false
  | Pending | Confirmed => true
  end.

Section Statements.
Context {L : Library}.

(** SELECT * FROM services
    WHERE id = $1 AND therapist_id = $2 AND is_active = true *)
Definition select_service (service_id therapist_id : option string)
    (db : Store) : Result (list Service) :=
  let? sid := param "uuid" uuid_in service_id in
  let? tid := param "uuid" uuid_in therapist_id in
  inr (filter (fun s =>
                 eq_sql String.eqb (Some (s_id s)) sid
                 && eq_sql String.eqb (s_therapist_id s) tid
                 && is_true (s_is_active s))
              (services db)).

(** SELECT id FROM bookings
    WHERE therapist_id = $1 AND scheduled_date = $2
    AND scheduled_time = $3
    AND status NOT IN ('cancelled', 'completed') *)
Definition select_conflicts
    (therapist_id scheduled_date scheduled_time : option string)
    (db : Store) : Result (list Booking) :=
  let? tid := param "uuid" uuid_in therapist_id in
  let? d := param "date" date_in scheduled_date in
  let? t := param "time" time_in scheduled_time in
  inr (filter (fun b =>
                 eq_sql String.eqb (b_therapist_id b) tid
                 && eq_sql Z.eqb (Some (b_scheduled_date b)) d
                 && eq_sql Z.eqb (Some (b_scheduled_time b)) t
                 && active (b_status b))
              (bookings db)).

(** SELECT id FROM affiliates WHERE referral_code = $1 *)
Definition select_affiliate_by_code (referral_code : option string)
    (db : Store) : Result (list Affiliate) :=
  inr (filter (fun a =>
                 eq_sql String.eqb (Some (a_referral_code a))
                   referral_code)
              (affiliates db)).

(** SELECT commission_rate FROM affiliates WHERE id = $1 *)
Definition select_affiliate_rate (id : option string) (db : Store)
    : Result (list Affiliate) :=
  let? aid := param "uuid" uuid_in id in
  inr (filter (fun a => eq_sql String.eqb (Some (a_id a)) aid)
              (affiliates db)).

Definition with_bookings (db : Store) (l : list Booking) : Store :=
  {| users := users db; affiliates := affiliates db;
     therapists := therapists db;
     services := services db; bookings := l;
     commissions := commissions db |}.

Definition with_commissions (db : Store) (l : list Commission) : Store :=
  {| users := users db; affiliates := affiliates db;
     therapists := therapists db;
     services := services db; bookings := bookings db;
     commissions := l |}.

Definition with_affiliates (db : Store) (l : list Affiliate) : Store :=
  {| users := users db; affiliates := l;
     therapists := therapists db;
     services := services db; bookings := bookings db;
     commissions := commissions db |}.

Definition with_therapists (db : Store) (l : list Therapist) : Store :=
  {| users := users db; affiliates := affiliates db;
     therapists := l;
     services := services db; bookings := bookings db;
     commissions := commissions db |}.

(** INSERT INTO bookings (service_id, therapist_id, affiliate_id,
      client_name, client_email, client_phone, scheduled_date,
      scheduled_time, notes, total_amount, status, created_at)
    VALUES ($1, ..., $10, 'pending', NOW()) RETURNING * *)
Definition insert_booking (env : Env)
    (service_id therapist_id affiliate_id
     client_name client_email client_phone
     scheduled_date scheduled_time notes : option string)
    (total_amount : Q) (db : Store) : Result (Booking * Store) :=
  let? sid := param "uuid" uuid_in service_id in
  let? tid := param "uuid" uuid_in therapist_id in
  let? aid := param "uuid" uuid_in affiliate_id in
  let? d := param "date" date_in scheduled_date in
  let? t := param "time" time_in scheduled_time in
  let? name := not_null "client_name" "bookings" client_name in
  let? email := not_null "client_email" "bookings" client_email in
  let? d := not_null "scheduled_date" "bookings" d in
  let? t := not_null "scheduled_time" "bookings" t in
  if existsb (fun b => String.eqb (b_id b) (booking_uuid env)) (bookings db)
  then inl (unique_violation "bookings_pkey")
  else
    let row :=
      {| b_id := booking_uuid env;
         b_service_id := sid; b_therapist_id := tid;
         b_affiliate_id := aid;
         b_client_name := name; b_client_email := email;
         b_client_phone := client_phone;
         b_scheduled_date := d; b_scheduled_time := t;
         b_status := Pending;
         b_total_amount := total_amount;
         b_payment_status := PaymentPending;
         b_notes := notes; b_cancellation_reason := None;
         b_created_at := now env; b_updated_at := now env |} in
    inr (row, with_bookings db (bookings db ++ [row])).

(** INSERT INTO commissions
      (affiliate_id, booking_id, amount, percentage, status, created_at)
    VALUES ($1, $2, $3, $4, 'pending', NOW())

    [amount] is the number the handler computed: the driver sends
    the decimal [String(amount)] writes, and the column is
    DECIMAL(10,2). *)
Definition insert_commission (env : Env)
    (affiliate_id booking_id : option string)
    (amount : Q) (percentage : option Q) (db : Store)
    : Result (unit * Store) :=
  let? aid := param "uuid" uuid_in affiliate_id in
  let? bid := param "uuid" uuid_in booking_id in
  let? amount := numeric 10 2 (shortest amount) in
  let? pct := not_null "percentage" "commissions" percentage in
  if existsb (fun c => String.eqb (c_id c) (commission_uuid env))
             (commissions db)
  then inl (unique_violation "commissions_pkey")
  else
    let row :=
      {| c_id := commission_uuid env;
         c_affiliate_id := aid; c_booking_id := bid;
         c_amount := amount; c_percentage := pct;
         c_status := CommissionPending;
         c_payment_date := None; c_payment_method := None;
         c_payment_reference := None; c_notes := None;
         c_created_at := now env; c_updated_at := now env |} in
    inr (tt, with_commissions db (commissions db ++ [row])).

(** The filters GET /bookings appends to [WHERE 1=1], in order. *)
Record Where := {
  w_status : option string;
  w_therapist_id : option string;
  w_affiliate_id : option string;
  w_date_from : option string;
  w_date_to : option string
}.

Definition status_text (st : booking_status) : string :=
  match st with
  | Pending => "pending"
  | Confirmed => "confirmed"
  | Cancelled => "cancelled"
  | Completed => "completed"
  end.

(** An absent filter selects every row; a present one compares. *)
Definition filter_on {A} (p : option A) (test : A -> bool) : bool :=
  match p with
  | None => true
  | Some v => test v
  end.

Definition where_rows (w : Where) (db : Store) : Result (list Booking) :=
  let? tid := param "uuid" uuid_in (w_therapist_id w) in
  let? aid := param "uuid" uuid_in (w_affiliate_id w) in
  let? d1 := param "date" date_in (w_date_from w) in
  let? d2 := param "date" date_in (w_date_to w) in
  inr (filter (fun b =>
                 filter_on (w_status w)
                   (String.eqb (status_text (b_status b)))
                 && filter_on tid
                      (fun t => eq_sql String.eqb (b_therapist_id b) (Some t))
                 && filter_on aid
                      (fun a => eq_sql String.eqb (b_affiliate_id b) (Some a))
                 && filter_on d1 (fun d => d <=? b_scheduled_date b)
                 && filter_on d2 (fun d => b_scheduled_date b <=? d))
              (bookings db)).

(** ORDER BY b.scheduled_date DESC, b.scheduled_time DESC; rows that
    tie keep their table order. *)
Definition later (x y : Booking) : bool :=
  (b_scheduled_date y <? b_scheduled_date x)
  || ((b_scheduled_date y =? b_scheduled_date x)
      && (b_scheduled_time y <? b_scheduled_time x)).

Fixpoint insert_desc (x : Booking) (l : list Booking) : list Booking :=
  match l with
  | [] => [x]
  | y :: r => if later y x then y :: insert_desc x r else x :: l
  end.

Definition order_desc (l : list Booking) : list Booking :=
  fold_right insert_desc [] l.

(** SELECT b.*, ... FROM bookings b LEFT JOIN ... <where>
    ORDER BY ... LIMIT $n OFFSET $n+1.  The joined columns only
    decorate the booking rows and are left out. *)
Definition select_bookings_page (w : Where) (limit offset : Z)
    (db : Store) : Result (list Booking) :=
  let? rows := where_rows w db in
  let? limit := bigint limit in
  let? offset := bigint offset in
  if limit <? 0
  then inl (DatabaseError "2201W" "LIMIT must not be negative")
  else if offset <? 0
  then inl (DatabaseError "2201X" "OFFSET must not be negative")
  else inr (firstn (Z.to_nat limit)
              (skipn (Z.to_nat offset) (order_desc rows))).

(** SELECT COUNT( * ) as total FROM bookings b <where> *)
Definition count_bookings (w : Where) (db : Store) : Result Z :=
  let? rows := where_rows w db in
  inr (Z.of_nat (List.length rows)).

Definition set_status (b : Booking) (st : booking_status)
    (reason : option string) (at_ : timestamp) : Booking :=
  {| b_id := b_id b; b_service_id := b_service_id b;
     b_therapist_id := b_therapist_id b;
     b_affiliate_id := b_affiliate_id b;
     b_client_name := b_client_name b;
     b_client_email := b_client_email b;
     b_client_phone := b_client_phone b;
     b_scheduled_date := b_scheduled_date b;
     b_scheduled_time := b_scheduled_time b;
     b_status := st;
     b_total_amount := b_total_amount b;
     b_payment_status := b_payment_status b;
     b_notes := b_notes b;
     b_cancellation_reason := reason;
     b_created_at := b_created_at b; b_updated_at := at_ |}.

(** UPDATE <table> SET ... WHERE <hit> RETURNING *: the rows after
    the update, and the table with them replaced in place. *)
Definition update_where {A} (hit : A -> bool) (set : A -> A)
    (rows : list A) : list A * list A :=
  (map set (filter hit rows),
   map (fun r => if hit r then set r else r) rows).

(** UPDATE bookings SET status = 'confirmed', updated_at = NOW()
    WHERE id = $1 AND status = 'pending' RETURNING * *)
Definition update_booking_confirmed (env : Env) (id : option string)
    (db : Store) : Result (list Booking * Store) :=
  let? bid := param "uuid" uuid_in id in
  let hit b :=
    eq_sql String.eqb (Some (b_id b)) bid
    && match b_status b with Pending => true | _ => false end in
  let set b :=
    set_status b Confirmed (b_cancellation_reason b) (now env) in
  let (returning, table) := update_where hit set (bookings db) in
  inr (returning, with_bookings db table).

(** UPDATE bookings
    SET status = 'cancelled', cancellation_reason = $2,
        updated_at = NOW()
    WHERE id = $1 AND status IN ('pending', 'confirmed')
    RETURNING * *)
Definition update_booking_cancelled (env : Env)
    (id reason : option string) (db : Store)
    : Result (list Booking * Store) :=
  let? bid := param "uuid" uuid_in id in
  let hit b :=
    eq_sql String.eqb (Some (b_id b)) bid
    && match b_status b with
       | Pending | Confirmed => true
       | _ => false
       end in
  let set b := set_status b Cancelled reason (now env) in
  let (returning, table) := update_where hit set (bookings db) in
  inr (returning, with_bookings db table).

(** SELECT scheduled_time, s.duration_minutes
    FROM bookings b JOIN services s ON b.service_id = s.id
    WHERE b.therapist_id = $1 AND b.scheduled_date = $2
    AND b.status NOT IN ('cancelled', 'completed') *)
Definition select_busy_slots (id date_ : option string) (db : Store)
    : Result (list (time * option Z)) :=
  let? tid := param "uuid" uuid_in id in
  let? d := param "date" date_in date_ in
  inr (flat_map
         (fun b =>
            if eq_sql String.eqb (b_therapist_id b) tid
               && eq_sql Z.eqb (Some (b_scheduled_date b)) d
               && active (b_status b)
            then
              map (fun s => (b_scheduled_time b, s_duration_minutes s))
                  (filter (fun s =>
                             eq_sql String.eqb (b_service_id b)
                               (Some (s_id s)))
                          (services db))
            else [])
         (bookings db)).

(** SELECT c.*, au.name as affiliate_name, au.email as affiliate_email
    FROM commissions c
    JOIN affiliates af ON c.affiliate_id = af.id
    JOIN users au ON af.user_id = au.id
    WHERE c.id = $1 AND c.status = 'pending' *)
Definition select_pending_commission (id : option string) (db : Store)
    : Result (list (Commission * User)) :=
  let? cid := param "uuid" uuid_in id in
  inr (flat_map
         (fun c =>
            if eq_sql String.eqb (Some (c_id c)) cid
               && match c_status c with
                  | CommissionPending => true
                  | _ => false
                  end
            then
              flat_map
                (fun af =>
                   if eq_sql String.eqb (c_affiliate_id c) (Some (a_id af))
                   then
                     map (fun au => (c, au))
                         (filter (fun au =>
                                    eq_sql String.eqb (a_user_id af)
                                      (Some (u_id au)))
                                 (users db))
                   else [])
                (affiliates db)
            else [])
         (commissions db)).

(** UPDATE commissions
    SET status = 'paid', payment_date = NOW(), payment_method = $2,
        payment_reference = $3, notes = $4, updated_at = NOW()
    WHERE id = $1 RETURNING * *)
Definition update_commission_paid (env : Env)
    (id payment_method payment_reference notes : option string)
    (db : Store) : Result (list Commission * Store) :=
  let? cid := param "uuid" uuid_in id in
  let hit c := eq_sql String.eqb (Some (c_id c)) cid in
  let set c :=
    {| c_id := c_id c; c_affiliate_id := c_affiliate_id c;
       c_booking_id := c_booking_id c;
       c_amount := c_amount c; c_percentage := c_percentage c;
       c_status := CommissionPaid;
       c_payment_date := Some (now env);
       c_payment_method := payment_method;
       c_payment_reference := payment_reference;
       c_notes := notes;
       c_created_at := c_created_at c; c_updated_at := now env |} in
  let (returning, table) := update_where hit set (commissions db) in
  inr (returning, with_commissions db table).

(** UPDATE affiliates
    SET total_commission = total_commission + $1, updated_at = NOW()
    WHERE id = $2 *)
Definition update_affiliate_total (amount : Q) (id : option string)
    (db : Store) : Result (unit * Store) :=
  let? aid := param "uuid" uuid_in id in
  let hit a := eq_sql String.eqb (Some (a_id a)) aid in
  let set a :=
    {| a_id := a_id a; a_user_id := a_user_id a;
       a_referral_code := a_referral_code a;
       a_commission_rate := a_commission_rate a;
       a_total_referrals := a_total_referrals a;
       a_total_commission :=
         option_map (fun t => (t + amount)%Q) (a_total_commission a);
       a_is_active := a_is_active a |} in
  inr (tt, with_affiliates db (snd (update_where hit set (affiliates db)))).

(** SELECT id, name, email FROM users WHERE id = $1 *)
Definition select_user (id : option string) (db : Store)
    : Result (list User) :=
  let? uid := param "uuid" uuid_in id in
  inr (filter (fun u => eq_sql String.eqb (Some (u_id u)) uid) (users db)).

(** SELECT id FROM affiliates WHERE user_id = $1 *)
Definition select_affiliate_of_user (id : option string) (db : Store)
    : Result (list Affiliate) :=
  let? uid := param "uuid" uuid_in id in
  inr (filter (fun a => eq_sql String.eqb (a_user_id a) uid)
              (affiliates db)).

(** INSERT INTO affiliates
      (user_id, referral_code, commission_rate, created_at)
    VALUES ($1, $2, $3, NOW()) RETURNING *

    [commission_rate] is DECIMAL(5,2). *)
Definition insert_affiliate (env : Env)
    (user_id referral_code commission_rate : option string)
    (db : Store) : Result (Affiliate * Store) :=
  let? uid := param "uuid" uuid_in user_id in
  let? rate := param "numeric" numeric_in commission_rate in
  let? rate := numeric_or_null 5 2 rate in
  let? code := not_null "referral_code" "affiliates" referral_code in
  if existsb (fun a => String.eqb (a_id a) (affiliate_uuid env))
             (affiliates db)
  then inl (unique_violation "affiliates_pkey")
  else if existsb (fun a => String.eqb (a_referral_code a) code)
                  (affiliates db)
  then inl (unique_violation "affiliates_referral_code_key")
  else
    let row :=
      {| a_id := affiliate_uuid env; a_user_id := uid;
         a_referral_code := code; a_commission_rate := rate;
         a_total_referrals := Some 0;
         a_total_commission := Some 0%Q;
         a_is_active := Some true |} in
    inr (row, with_affiliates db (affiliates db ++ [row])).

(** SELECT id FROM therapists WHERE user_id = $1 *)
Definition select_therapist_of_user (id : option string) (db : Store)
    : Result (list Therapist) :=
  let? uid := param "uuid" uuid_in id in
  inr (filter (fun t => eq_sql String.eqb (t_user_id t) uid)
              (therapists db)).

(** INSERT INTO therapists
      (user_id, specialty, bio, commission_rate, is_available,
       created_at)
    VALUES ($1, $2, $3, $4, true, NOW()) RETURNING *

    [new_id] is what [gen_random_uuid()] yields; [commission_rate] is
    DECIMAL(5,2). *)
Definition insert_therapist (new_id : uuid)
    (user_id specialty bio commission_rate : option string)
    (db : Store) : Result (Therapist * Store) :=
  let? uid := param "uuid" uuid_in user_id in
  let? rate := param "numeric" numeric_in commission_rate in
  let? rate := numeric_or_null 5 2 rate in
  let? specialty := not_null "specialty" "therapists" specialty in
  if existsb (fun t => String.eqb (t_id t) new_id) (therapists db)
  then inl (unique_violation "therapists_pkey")
  else
    let row :=
      {| t_id := new_id; t_user_id := uid;
         t_specialty := specialty; t_bio := bio;
         t_commission_rate := rate;
         t_is_available := Some true |} in
    inr (row, with_therapists db (therapists db ++ [row])).

End Statements.

End Pg.

Import Pg.

(** ** Connections, statements and transactions *)

Module Db.

(** The statements the modelled handlers issue, with the parameters
    that identify them. *)
Inductive Stmt :=
| BEGIN
| COMMIT
| ROLLBACK
| SelectService (service_id therapist_id : option string)
| SelectConflicts (therapist_id scheduled_date scheduled_time : option string)
| SelectAffiliateByCode (referral_code : option string)
| InsertBooking (service_id therapist_id affiliate_id : option string)
                (total_amount : Q)
| SelectAffiliateRate (id : option string)
| InsertCommission (affiliate_id booking_id : option string)
                   (amount : Q) (percentage : option Q)
| SelectBookingsPage (limit offset : Z)
| CountBookings
| UpdateBookingConfirmed (id : option string)
| UpdateBookingCancelled (id reason : option string)
| SelectBusySlots (id date : option string)
| SelectPendingCommission (id : option string)
| UpdateCommissionPaid (id : option string)
| UpdateAffiliateTotal (id : option string)
| SelectUser (id : option string)
| SelectAffiliateOfUser (id : option string)
| InsertAffiliate (user_id referral_code commission_rate : option string)
| SelectTherapistOfUser (id : option string)
| InsertTherapist (user_id specialty bio commission_rate : option string).

(** A connection: the store it sees and the statements sent so far. *)
Record Conn := {
  db : Store;
  log : list Stmt
}.

(** An [async] computation against a connection: it throws or
    returns, and leaves the connection in a new state. *)
Definition Async (A : Type) : Type := Conn -> Result A * Conn.

Definition ret {A} (a : A) : Async A := fun c => (inr a, c).

Definition throw {A} (e : JsError) : Async A := fun c => (inl e, c).

Definition bind {A B} (m : Async A) (k : A -> Async B) : Async B :=
  fun c =>
    match m c with
    | (inl e, c') => (inl e, c')
    | (inr a, c') => k a c'
    end.

Notation "x <- m ;; k" := (bind m (fun x => k))
  (at level 61, m at next level, right associativity).

(** [await client.query(sql, params)] for a statement that reads. *)
Definition query {A} (s : Stmt) (run : Store -> Result A) : Async A :=
  fun c =>
    let c' := {| db := db c; log := log c ++ [s] |} in
    match run (db c) with
    | inl e => (inl e, c')
    | inr a => (inr a, c')
    end.

(** [await client.query(sql, params)] for a statement that writes. *)
Definition execute {A} (s : Stmt) (run : Store -> Result (A * Store))
    : Async A :=
  fun c =>
    let c' := {| db := db c; log := log c ++ [s] |} in
    match run (db c) with
    | inl e => (inl e, c')
    | inr (a, d) => (inr a, {| db := d; log := log c' |})
    end.

(** Modelled from the spec: [transaction] of ../config/database is
    not among the sources.  The spec has the callback "wrapped in a
    database transaction for atomicity": the callback runs between
    BEGIN and COMMIT; when it throws, the store is rolled back to
    its state at BEGIN and the error is thrown on to the caller. *)
Definition transaction {A} (callback : Async A) : Async A :=
  fun c =>
    let c0 := {| db := db c; log := log c ++ [BEGIN] |} in
    match callback c0 with
    | (inr a, c') => (inr a, {| db := db c'; log := log c' ++ [COMMIT] |})
    | (inl e, c') => (inl e, {| db := db c; log := log c' ++ [ROLLBACK] |})
    end.

End Db.

Import Db.

(** ** Responses *)

Inductive Data :=
| NoData
| ValidationErrors (errors : list string)
| BookingData (b : Booking)
| BookingsPage (rows : list Booking) (page limit total pages : Z)
| Availability (date : string) (available_slots : list string)
               (busy_slots : list time)
| CommissionData (c : option Commission)
                 (affiliate_name affiliate_email : string)
| AffiliateData (a : Affiliate)
| TherapistData (t : Therapist).

Record Response := {
  status : Z;
  success : bool;
  message_of : option string;
  data : Data
}.

(** [res.status(code).json({ success: false, message })] *)
Definition failure (code : Z) (m : string) : Response :=
  {| status := code; success := false; message_of := Some m; data := NoData |}.

Definition internal_error : string := "Erro interno do servidor".

(** ** The catch clauses of the route handlers *)

Module Router.

(** The handlers that have a [try]/[catch]: every handler of the route
    files except POST /auth/logout and GET /auth/verify, which touch no
    store, and GET /health of the server. *)
Inductive Route :=
| AuthRegister              (* POST   /auth/register *)
| AuthLogin                 (* POST   /auth/login *)
| AuthRefresh               (* POST   /auth/refresh *)
| UsersProfile              (* GET    /users/profile *)
| UsersUpdateProfile        (* PUT    /users/profile *)
| UsersPassword             (* PUT    /users/password *)
| UsersIndex                (* GET    /users *)
| UsersUpdate               (* PUT    /users/:id *)
| AffiliatesIndex           (* GET    /affiliates *)
| AffiliatesShow            (* GET    /affiliates/:id *)
| AffiliatesCreate          (* POST   /affiliates *)
| AffiliatesUpdate          (* PUT    /affiliates/:id *)
| AffiliatesStats           (* GET    /affiliates/:id/stats *)
| TherapistsIndex           (* GET    /therapists *)
| TherapistsShow            (* GET    /therapists/:id *)
| TherapistsCreate          (* POST   /therapists *)
| TherapistsUpdate          (* PUT    /therapists/:id *)
| TherapistsAvailability    (* GET    /therapists/:id/availability *)
| ServicesIndex             (* GET    /services *)
| ServicesShow              (* GET    /services/:id *)
| ServicesCreate            (* POST   /services *)
| ServicesUpdate            (* PUT    /services/:id *)
| ServicesDelete            (* DELETE /services/:id *)
| BookingsIndex             (* GET    /bookings *)
| BookingsCreate            (* POST   /bookings *)
| BookingsConfirm           (* PUT    /bookings/:id/confirm *)
| BookingsCancel            (* PUT    /bookings/:id/cancel *)
| CommissionsIndex          (* GET    /commissions *)
| CommissionsShow           (* GET    /commissions/:id *)
| CommissionsPay            (* POST   /commissions/:id/pay *)
| CommissionsSummary        (* GET    /commissions/stats/summary *)
| CommissionsByAffiliate    (* GET    /commissions/stats/by-affiliate *)
| Health.                   (* GET    /health *)

(** The handlers whose queries run inside [transaction]. *)
Definition runs_transaction (r : Route) : bool :=
  match r with
  | AffiliatesCreate | TherapistsCreate | BookingsCreate | CommissionsPay =>
      true
  | _ => false
  end.

(** [catch (error) { res.status(...).json({ success: false, message }) }]
    of each handler. *)
Definition on_error (r : Route) (error : JsError) : Response :=
  match r with
  | AffiliatesCreate | TherapistsCreate | CommissionsPay =>
      failure 400 (or_else (message error) internal_error)
  | BookingsCreate =>
      failure 500 (or_else (message error) internal_error)
  | Health => failure 503 "Serviço indisponível"
  | _ => failure 500 internal_error
  end.

End Router.

Import Router.

(** ** routes/bookings *)

Module Bookings.

Section Routes.
Context {L : Library}.

(** *** POST / *)

Record CreateBody := {
  therapist_id : option string;
  service_id : option string;
  client_name : option string;
  client_email : option string;
  client_phone : option string;
  scheduled_date : option string;
  scheduled_time : option string;
  notes : option string;
  affiliate_code : option string
}.

Definition v_therapist_id := required isUUID "ID do terapeuta inválido".
Definition v_service_id := required isUUID "ID do serviço inválido".
Definition v_client_name :=
  trimmed (required (isLength (Some 2%nat) None) "Nome do cliente obrigatório").
Definition v_client_email := required isEmail "Email inválido".
Definition v_client_phone :=
  trimmed (opt (isLength (Some 10%nat) None) "Telefone inválido").
Definition v_scheduled_date := required isISO8601 "Data inválida".
Definition v_scheduled_time := required matches_time "Hora inválida".
Definition v_affiliate_code :=
  trimmed (opt (isLength (Some 1%nat) None) "Código de afiliado inválido").
Definition v_notes :=
  trimmed (opt (isLength None (Some 500%nat)) "Observações muito longas").

(** [validationResult(req).array()] after the chains have run. *)
Definition create_errors (b : CreateBody) : list string :=
  (errors_of v_therapist_id (therapist_id b)
   ++ errors_of v_service_id (service_id b)
   ++ errors_of v_client_name (client_name b)
   ++ errors_of v_client_email (client_email b)
   ++ errors_of v_client_phone (client_phone b)
   ++ errors_of v_scheduled_date (scheduled_date b)
   ++ errors_of v_scheduled_time (scheduled_time b)
   ++ errors_of v_affiliate_code (affiliate_code b)
   ++ errors_of v_notes (notes b))%list.

(** [req.body] as the sanitizers leave it. *)
Definition create_sanitized (b : CreateBody) : CreateBody :=
  {| therapist_id := sanitized v_therapist_id (therapist_id b);
     service_id := sanitized v_service_id (service_id b);
     client_name := sanitized v_client_name (client_name b);
     client_email := sanitized v_client_email (client_email b);
     client_phone := sanitized v_client_phone (client_phone b);
     scheduled_date := sanitized v_scheduled_date (scheduled_date b);
     scheduled_time := sanitized v_scheduled_time (scheduled_time b);
     notes := sanitized v_notes (notes b);
     affiliate_code := sanitized v_affiliate_code (affiliate_code b) |}.

Definition service_not_found : string := "Serviço não encontrado ou inativo".
Definition slot_taken : string := "Horário não disponível".

(** The callback handed to [transaction]. *)
Definition create_callback (env : Env) (b : CreateBody) : Async Booking :=
  serviceRows <-
    query (SelectService (service_id b) (therapist_id b))
          (select_service (service_id b) (therapist_id b)) ;;
  match serviceRows with
  | [] => throw (Error service_not_found)
  | service :: _ =>
      conflictRows <-
        query (SelectConflicts (therapist_id b) (scheduled_date b)
                               (scheduled_time b))
              (select_conflicts (therapist_id b) (scheduled_date b)
                                (scheduled_time b)) ;;
      if (0 <? List.length conflictRows)%nat
      then throw (Error slot_taken)
      else
        affiliate_id <-
          (if truthy (affiliate_code b)
           then
             affiliateRows <-
               query (SelectAffiliateByCode (affiliate_code b))
                     (select_affiliate_by_code (affiliate_code b)) ;;
             match affiliateRows with
             | a :: _ => ret (Some (a_id a))
             | [] => ret None
             end
           else ret None) ;;
        booking <-
          execute (InsertBooking (service_id b) (therapist_id b)
                                 affiliate_id (s_price service))
                  (insert_booking env
                     (service_id b) (therapist_id b) affiliate_id
                     (client_name b) (client_email b) (client_phone b)
                     (scheduled_date b) (scheduled_time b) (notes b)
                     (s_price service)) ;;
        _ <-
          (if truthy affiliate_id
           then
             affiliateRows <-
               query (SelectAffiliateRate affiliate_id)
                     (select_affiliate_rate affiliate_id) ;;
             match affiliateRows with
             | a :: _ =>
                 let commissionRate := a_commission_rate a in
                 let commissionAmount :=
                   div (mul (to_number (Some (s_price service)))
                            (to_number commissionRate))
                       100 in
                 execute (InsertCommission affiliate_id
                            (Some (b_id booking))
                            commissionAmount commissionRate)
                         (insert_commission env affiliate_id
                            (Some (b_id booking))
                            commissionAmount commissionRate)
             | [] => ret tt
             end
           else ret tt) ;;
        ret booking
  end.

Definition create (env : Env) (body : CreateBody) (c : Conn)
    : Response * Conn :=
  let errors := create_errors body in
  if negb (List.length errors =? 0)%nat
  then ({| status := 400; success := false;
           message_of := Some "Dados inválidos";
           data := ValidationErrors errors |}, c)
  else
    match transaction (create_callback env (create_sanitized body)) c with
    | (inr result, c') =>
        ({| status := 201; success := true;
            message_of := Some "Agendamento criado com sucesso";
            data := BookingData result |}, c')
    | (inl error, c') => (on_error BookingsCreate error, c')
    end.

(** *** GET / *)

Record ListQuery := {
  q_page : option string;
  q_limit : option string;
  q_status : option string;
  q_therapist_id : option string;
  q_affiliate_id : option string;
  q_date_from : option string;
  q_date_to : option string
}.

Definition v_page := opt (isInt (Some 1) None) "Página inválida".
Definition v_limit := opt (isInt (Some 1) (Some 100)) "Limite inválido".
Definition v_status :=
  opt (isIn ["pending"; "confirmed"; "cancelled"; "completed"])
      "Status inválido".
Definition v_q_therapist_id := opt isUUID "ID do terapeuta inválido".
Definition v_q_affiliate_id := opt isUUID "ID do afiliado inválido".
Definition v_date_from := opt isISO8601 "Data inicial inválida".
Definition v_date_to := opt isISO8601 "Data final inválida".

Definition list_errors (q : ListQuery) : list string :=
  (errors_of v_page (q_page q)
   ++ errors_of v_limit (q_limit q)
   ++ errors_of v_status (q_status q)
   ++ errors_of v_q_therapist_id (q_therapist_id q)
   ++ errors_of v_q_affiliate_id (q_affiliate_id q)
   ++ errors_of v_date_from (q_date_from q)
   ++ errors_of v_date_to (q_date_to q))%list.

(** [if (req.query.f) { whereClause += ...; params.push(req.query.f) }] *)
Definition pushed (v : option string) : option string :=
  if truthy v then v else None.

Definition whereClause (q : ListQuery) : Where :=
  {| w_status := pushed (q_status q);
     w_therapist_id := pushed (q_therapist_id q);
     w_affiliate_id := pushed (q_affiliate_id q);
     w_date_from := pushed (q_date_from q);
     w_date_to := pushed (q_date_to q) |}.

(** [page] and [limit] are the numbers [parseInt] gives.  [offset],
    [total] and the quotient under [Math.ceil] are kept as the integers
    they stand for, which is what the numbers are while [page * limit]
    and the count stay below [2 ^ 53]. *)
Definition index (q : ListQuery) (c : Conn) : Response * Conn :=
  let errors := list_errors q in
  if negb (List.length errors =? 0)%nat
  then ({| status := 400; success := false;
           message_of := Some "Parâmetros inválidos";
           data := ValidationErrors errors |}, c)
  else
    let page := num_or (parseInt (q_page q)) 1 in
    let limit := num_or (parseInt (q_limit q)) 10 in
    let offset := (page - 1) * limit in
    let w := whereClause q in
    match (rows <- query (SelectBookingsPage limit offset)
                         (select_bookings_page w limit offset) ;;
           total <- query CountBookings (count_bookings w) ;;
           ret (rows, total)) c with
    | (inr (rows, total), c') =>
        ({| status := 200; success := true; message_of := None;
            data := BookingsPage rows page limit total
                      (ceil_div total limit) |}, c')
    | (inl error, c') => (on_error BookingsIndex error, c')
    end.

(** *** PUT /:id/confirm *)

Definition confirm (env : Env) (id : string) (c : Conn)
    : Response * Conn :=
  match execute (UpdateBookingConfirmed (Some id))
                (update_booking_confirmed env (Some id)) c with
  | (inr [], c') =>
      (failure 404 "Agendamento não encontrado ou já processado", c')
  | (inr (row :: _), c') =>
      ({| status := 200; success := true;
          message_of := Some "Agendamento confirmado com sucesso";
          data := BookingData row |}, c')
  | (inl error, c') => (on_error BookingsConfirm error, c')
  end.

(** *** PUT /:id/cancel *)

Definition cancel (env : Env) (id : string) (reason : option string)
    (c : Conn) : Response * Conn :=
  match execute (UpdateBookingCancelled (Some id) reason)
                (update_booking_cancelled env (Some id) reason) c with
  | (inr [], c') =>
      (failure 404 "Agendamento não encontrado ou não pode ser cancelado",
       c')
  | (inr (row :: _), c') =>
      ({| status := 200; success := true;
          message_of := Some "Agendamento cancelado com sucesso";
          data := BookingData row |}, c')
  | (inl error, c') => (on_error BookingsCancel error, c')
  end.

End Routes.

End Bookings.

(** ** routes/therapists *)

Module Therapists.

(** [hour.toString().padStart(2, '0')] *)
Definition toString (n : Z) : string :=
  NilEmpty.string_of_uint (N.to_uint (Z.to_N n)).

Definition padStart2 (s : string) : string :=
  if (String.length s <? 2)%nat then "0" ++ s else s.

(** [for (let hour = 8; hour < 18; hour++) { push :00; push :30 }];
    the fuel bounds the number of iterations. *)
Fixpoint slots_loop (fuel : nat) (hour : Z) (defaultSlots : list string)
    : list string :=
  match fuel with
  | O => defaultSlots
  | S fuel' =>
      if hour <? 18
      then slots_loop fuel' (hour + 1)
             (defaultSlots ++ [(padStart2 (toString hour) ++ ":00")%string;
                               (padStart2 (toString hour) ++ ":30")%string])%list
      else defaultSlots
  end.

Definition defaultSlots : list string := slots_loop 10 8 [].

(** A [Date] of 2000-01-01 local time, as minutes since its midnight;
    [None] is Invalid Date. *)
Definition JsDate := option Z.

(** [new Date(`2000-01-01T${slot}`)] for a slot string *)
Definition date_of_slot (slot : string) : JsDate :=
  if (String.length slot =? 5)%nat then hhmm slot else None.

(** [new Date(`2000-01-01T${busyStart}`)] for a TIME value *)
Definition date_of_time (t : time) : JsDate := Some t.

(** [d.setMinutes(d.getMinutes() + m)]; [null] adds nothing. *)
Definition plus_minutes (d : JsDate) (m : option Z) : JsDate :=
  match d, m with
  | Some x, Some k => Some (x + k)
  | Some x, None => Some x
  | None, _ => None
  end.

(** [a < b] on dates; false when either is invalid. *)
Definition before (a b : JsDate) : bool :=
  match a, b with
  | Some x, Some y => x <? y
  | _, _ => false
  end.

Definition overlaps (slot : string) (busy : time * option Z) : bool :=
  let busyStart := fst busy in
  let busyEnd := plus_minutes (date_of_time busyStart) (snd busy) in
  let slotTime := date_of_slot slot in
  let slotEnd := plus_minutes slotTime (Some 60) in
  before slotTime busyEnd && before (date_of_time busyStart) slotEnd.

Definition availableSlots (busySlots : list (time * option Z))
    : list string :=
  filter (fun slot => negb (existsb (overlaps slot) busySlots)) defaultSlots.

Section Routes.
Context {L : Library}.

(** *** POST / *)

Record CreateBody := {
  user_id : option string;
  specialty : option string;
  bio : option string;
  commission_rate : option string
}.

Definition v_user_id := required isUUID "ID do usuário inválido".
Definition v_specialty :=
  trimmed (required (isLength (Some 2%nat) None) "Especialidade obrigatória").
Definition v_bio :=
  trimmed (opt (isLength None (Some 1000%nat)) "Biografia muito longa").
Definition v_commission_rate :=
  required (isFloat 0 100) "Taxa de comissão inválida (0-100)".

Definition create_errors (b : CreateBody) : list string :=
  (errors_of v_user_id (user_id b)
   ++ errors_of v_specialty (specialty b)
   ++ errors_of v_bio (bio b)
   ++ errors_of v_commission_rate (commission_rate b))%list.

Definition create_sanitized (b : CreateBody) : CreateBody :=
  {| user_id := sanitized v_user_id (user_id b);
     specialty := sanitized v_specialty (specialty b);
     bio := sanitized v_bio (bio b);
     commission_rate := sanitized v_commission_rate (commission_rate b) |}.

(** The callback handed to [transaction]; [new_id] is the id the
    store generates for the row. *)
Definition create_callback (new_id : uuid) (b : CreateBody)
    : Async Therapist :=
  userRows <- query (SelectUser (user_id b)) (select_user (user_id b)) ;;
  match userRows with
  | [] => throw (Error "Usuário não encontrado")
  | _ :: _ =>
      existingRows <-
        query (SelectTherapistOfUser (user_id b))
              (select_therapist_of_user (user_id b)) ;;
      if (0 <? List.length existingRows)%nat
      then throw (Error "Usuário já é terapeuta")
      else
        execute (InsertTherapist (user_id b) (specialty b) (bio b)
                                 (commission_rate b))
                (insert_therapist new_id (user_id b) (specialty b) (bio b)
                                  (commission_rate b))
  end.

Definition create (new_id : uuid) (body : CreateBody) (c : Conn)
    : Response * Conn :=
  let errors := create_errors body in
  if negb (List.length errors =? 0)%nat
  then ({| status := 400; success := false;
           message_of := Some "Dados inválidos";
           data := ValidationErrors errors |}, c)
  else
    match transaction (create_callback new_id (create_sanitized body)) c with
    | (inr result, c') =>
        ({| status := 201; success := true;
            message_of := Some "Terapeuta criado com sucesso";
            data := TherapistData result |}, c')
    | (inl error, c') => (on_error TherapistsCreate error, c')
    end.

(** *** GET /:id/availability *)

Definition availability (id : string) (date_ : option string) (c : Conn)
    : Response * Conn :=
  if negb (truthy date_)
  then (failure 400 "Data é obrigatória", c)
  else
    match query (SelectBusySlots (Some id) date_)
                (select_busy_slots (Some id) date_) c with
    | (inr busySlots, c') =>
        ({| status := 200; success := true; message_of := None;
            data := Availability
                      (match date_ with Some d => d | None => "" end)
                      (availableSlots busySlots)
                      (map fst busySlots) |}, c')
    | (inl error, c') => (on_error TherapistsAvailability error, c')
    end.

End Routes.

End Therapists.

(** ** routes/commissions: POST /:id/pay *)

Module Commissions.

Section Routes.
Context {L : Library}.

Record PayBody := {
  payment_method : option string;
  payment_reference : option string;
  pay_notes : option string
}.

Definition v_payment_method :=
  trimmed (opt (isLength (Some 1%nat) None) "Método de pagamento inválido").
Definition v_payment_reference :=
  trimmed (opt (isLength (Some 1%nat) None)
               "Referência de pagamento inválida").
Definition v_pay_notes :=
  trimmed (opt (isLength None (Some 500%nat)) "Observações muito longas").

Definition pay_errors (b : PayBody) : list string :=
  (errors_of v_payment_method (payment_method b)
   ++ errors_of v_payment_reference (payment_reference b)
   ++ errors_of v_pay_notes (pay_notes b))%list.

Definition pay_sanitized (b : PayBody) : PayBody :=
  {| payment_method := sanitized v_payment_method (payment_method b);
     payment_reference :=
       sanitized v_payment_reference (payment_reference b);
     pay_notes := sanitized v_pay_notes (pay_notes b) |}.

Definition commission_not_found : string :=
  "Comissão não encontrada ou já processada".

Definition pay_callback (env : Env) (id : string) (b : PayBody)
    : Async Data :=
  commissionRows <-
    query (SelectPendingCommission (Some id))
          (select_pending_commission (Some id)) ;;
  match commissionRows with
  | [] => throw (Error commission_not_found)
  | (commission, au) :: _ =>
      updatedRows <-
        execute (UpdateCommissionPaid (Some id))
                (update_commission_paid env (Some id)
                   (payment_method b) (payment_reference b)
                   (pay_notes b)) ;;
      _ <-
        execute (UpdateAffiliateTotal (c_affiliate_id commission))
                (update_affiliate_total (c_amount commission)
                   (c_affiliate_id commission)) ;;
      ret (CommissionData (hd_error updatedRows) (u_name au) (u_email au))
  end.

Definition pay (env : Env) (id : string) (body : PayBody) (c : Conn)
    : Response * Conn :=
  let errors := pay_errors body in
  if negb (List.length errors =? 0)%nat
  then ({| status := 400; success := false;
           message_of := Some "Dados inválidos";
           data := ValidationErrors errors |}, c)
  else
    match transaction (pay_callback env id (pay_sanitized body)) c with
    | (inr result, c') =>
        ({| status := 200; success := true;
            message_of := Some "Comissão marcada como paga com sucesso";
            data := result |}, c')
    | (inl error, c') => (on_error CommissionsPay error, c')
    end.

End Routes.

End Commissions.

(** ** routes/affiliates: POST / *)

Module Affiliates.

Definition chars : string := "ABCDEFGHIJKLMNOPQRSTUVWXYZ0123456789".

(** [chars.charAt(i)]: the empty string out of range. *)
Definition charAt (i : nat) (s : string) : string :=
  match String.get i s with
  | Some c => String c EmptyString
  | None => EmptyString
  end.

(** utils/helpers [generateReferralCode(length = 8)]; [draw i] is what
    [Math.floor(Math.random() * chars.length)] gives in iteration [i]. *)
Fixpoint code_loop (draw : nat -> nat) (i n : nat) (result : string)
    : string :=
  match n with
  | O => result
  | S n' => code_loop draw (S i) n' (result ++ charAt (draw i) chars)
  end.

Definition generateReferralCode (draw : nat -> nat) : string :=
  code_loop draw 0 8 "".

Section Routes.
Context {L : Library}.

Record CreateBody := {
  user_id : option string;
  commission_rate : option string;
  referral_code : option string
}.

Definition v_user_id := required isUUID "ID do usuário inválido".
Definition v_commission_rate :=
  required (isFloat 0 100) "Taxa de comissão inválida (0-100)".
Definition v_referral_code :=
  trimmed (opt (isLength (Some 3%nat) (Some 20%nat))
               "Código de referência inválido").

Definition create_errors (b : CreateBody) : list string :=
  (errors_of v_user_id (user_id b)
   ++ errors_of v_commission_rate (commission_rate b)
   ++ errors_of v_referral_code (referral_code b))%list.

Definition create_sanitized (b : CreateBody) : CreateBody :=
  {| user_id := sanitized v_user_id (user_id b);
     commission_rate := sanitized v_commission_rate (commission_rate b);
     referral_code := sanitized v_referral_code (referral_code b) |}.

Definition create_callback (env : Env) (b : CreateBody)
    : Async Affiliate :=
  userRows <- query (SelectUser (user_id b)) (select_user (user_id b)) ;;
  match userRows with
  | [] => throw (Error "Usuário não encontrado")
  | _ :: _ =>
      existingRows <-
        query (SelectAffiliateOfUser (user_id b))
              (select_affiliate_of_user (user_id b)) ;;
      if (0 <? List.length existingRows)%nat
      then throw (Error "Usuário já é afiliado")
      else
        let finalReferralCode :=
          if truthy (referral_code b) then referral_code b
          else Some (generateReferralCode (random_index env)) in
        codeRows <-
          query (SelectAffiliateByCode finalReferralCode)
                (select_affiliate_by_code finalReferralCode) ;;
        if (0 <? List.length codeRows)%nat
        then throw (Error "Código de referência já existe")
        else
          execute (InsertAffiliate (user_id b) finalReferralCode
                                   (commission_rate b))
                  (insert_affiliate env (user_id b) finalReferralCode
                                    (commission_rate b))
  end.

Definition create (env : Env) (body : CreateBody) (c : Conn)
    : Response * Conn :=
  let errors := create_errors body in
  if negb (List.length errors =? 0)%nat
  then ({| status := 400; success := false;
           message_of := Some "Dados inválidos";
           data := ValidationErrors errors |}, c)
  else
    match transaction (create_callback env (create_sanitized body)) c with
    | (inr result, c') =>
        ({| status := 201; success := true;
            message_of := Some "Afiliado criado com sucesso";
            data := AffiliateData result |}, c')
    | (inl error, c') => (on_error AffiliatesCreate error, c')
    end.

End Routes.

End Affiliates.

(** ** supabase/migrations: the table definitions *)

Module Schema.

Inductive SqlType :=
| UUID
| VARCHAR (n : nat)
| TEXT
| BOOLEAN
| INTEGER
| DECIMAL (precision scale : nat)
| DATE
| TIME
| TIMESTAMP.

Inductive OnDelete := CASCADE | SET_NULL.

Inductive Constraint :=
| PRIMARY_KEY
| NOT_NULL
| UNIQUE
| DEFAULT (expr : string)
| CHECK_IN (values : list string)
| REFERENCES (table column : string) (on_delete : OnDelete).

Record Column := {
  name : string;
  sql_type : SqlType;
  constraints : list Constraint
}.

Record Table := {
  table_name : string;
  columns : list Column
}.

Definition col (n : string) (t : SqlType) (cs : list Constraint) : Column :=
  {| name := n; sql_type := t; constraints := cs |}.

Definition users : Table :=
  {| table_name := "users";
     columns :=
       [ col "id" UUID [PRIMARY_KEY; DEFAULT "gen_random_uuid()"];
         col "name" (VARCHAR 255) [NOT_NULL];
         col "email" (VARCHAR 255) [UNIQUE; NOT_NULL];
         col "password_hash" (VARCHAR 255) [NOT_NULL];
         col "role" (VARCHAR 50)
           [DEFAULT "'affiliate'";
            CHECK_IN ["admin"; "therapist"; "affiliate"]];
         col "is_active" BOOLEAN [DEFAULT "TRUE"];
         col "is_master" BOOLEAN [DEFAULT "FALSE"];
         col "created_at" TIMESTAMP [DEFAULT "NOW()"];
         col "updated_at" TIMESTAMP [DEFAULT "NOW()"] ] |}.

Definition affiliates : Table :=
  {| table_name := "affiliates";
     columns :=
       [ col "id" UUID [PRIMARY_KEY; DEFAULT "gen_random_uuid()"];
         col "user_id" UUID [REFERENCES "users" "id" CASCADE];
         col "referral_code" (VARCHAR 20) [UNIQUE; NOT_NULL];
         col "commission_rate" (DECIMAL 5 2) [DEFAULT "15.00"];
         col "total_referrals" INTEGER [DEFAULT "0"];
         col "total_commission" (DECIMAL 10 2) [DEFAULT "0"];
         col "is_active" BOOLEAN [DEFAULT "TRUE"];
         col "created_at" TIMESTAMP [DEFAULT "NOW()"];
         col "updated_at" TIMESTAMP [DEFAULT "NOW()"] ] |}.

Definition therapists : Table :=
  {| table_name := "therapists";
     columns :=
       [ col "id" UUID [PRIMARY_KEY; DEFAULT "gen_random_uuid()"];
         col "user_id" UUID [REFERENCES "users" "id" CASCADE];
         col "specialty" (VARCHAR 255) [NOT_NULL];
         col "bio" TEXT [];
         col "commission_rate" (DECIMAL 5 2) [DEFAULT "30.00"];
         col "is_available" BOOLEAN [DEFAULT "TRUE"];
         col "created_at" TIMESTAMP [DEFAULT "NOW()"];
         col "updated_at" TIMESTAMP [DEFAULT "NOW()"] ] |}.

Definition services : Table :=
  {| table_name := "services";
     columns :=
       [ col "id" UUID [PRIMARY_KEY; DEFAULT "gen_random_uuid()"];
         col "therapist_id" UUID [REFERENCES "therapists" "id" CASCADE];
         col "name" (VARCHAR 255) [NOT_NULL];
         col "description" TEXT [];
         col "price" (DECIMAL 10 2) [NOT_NULL];
         col "duration_minutes" INTEGER [DEFAULT "60"];
         col "is_active" BOOLEAN [DEFAULT "TRUE"];
         col "created_at" TIMESTAMP [DEFAULT "NOW()"];
         col "updated_at" TIMESTAMP [DEFAULT "NOW()"] ] |}.

Definition bookings : Table :=
  {| table_name := "bookings";
     columns :=
       [ col "id" UUID [PRIMARY_KEY; DEFAULT "gen_random_uuid()"];
         col "service_id" UUID [REFERENCES "services" "id" SET_NULL];
         col "therapist_id" UUID [REFERENCES "therapists" "id" SET_NULL];
         col "affiliate_id" UUID [REFERENCES "affiliates" "id" SET_NULL];
         col "client_name" (VARCHAR 255) [NOT_NULL];
         col "client_email" (VARCHAR 255) [NOT_NULL];
         col "client_phone" (VARCHAR 20) [];
         col "scheduled_date" DATE [NOT_NULL];
         col "scheduled_time" TIME [NOT_NULL];
         col "status" (VARCHAR 50)
           [DEFAULT "'pending'";
            CHECK_IN ["pending"; "confirmed"; "cancelled"; "completed"]];
         col "total_amount" (DECIMAL 10 2) [NOT_NULL];
         col "payment_status" (VARCHAR 50)
           [DEFAULT "'pending'";
            CHECK_IN ["pending"; "paid"; "cancelled"; "refunded"]];
         col "notes" TEXT [];
         col "cancellation_reason" TEXT [];
         col "created_at" TIMESTAMP [DEFAULT "NOW()"];
         col "updated_at" TIMESTAMP [DEFAULT "NOW()"] ] |}.

Definition commissions : Table :=
  {| table_name := "commissions";
     columns :=
       [ col "id" UUID [PRIMARY_KEY; DEFAULT "gen_random_uuid()"];
         col "affiliate_id" UUID [REFERENCES "affiliates" "id" CASCADE];
         col "booking_id" UUID [REFERENCES "bookings" "id" CASCADE];
         col "amount" (DECIMAL 10 2) [NOT_NULL];
         col "percentage" (DECIMAL 5 2) [NOT_NULL];
         col "status" (VARCHAR 50)
           [DEFAULT "'pending'";
            CHECK_IN ["pending"; "paid"; "cancelled"]];
         col "payment_date" TIMESTAMP [];
         col "payment_method" (VARCHAR 100) [];
         col "payment_reference" (VARCHAR 255) [];
         col "notes" TEXT [];
         col "created_at" TIMESTAMP [DEFAULT "NOW()"];
         col "updated_at" TIMESTAMP [DEFAULT "NOW()"] ] |}.

Definition licenses : Table :=
  {| table_name := "licenses";
     columns :=
       [ col "id" UUID [PRIMARY_KEY; DEFAULT "gen_random_uuid()"];
         col "serial_key" (VARCHAR 50) [UNIQUE; NOT_NULL];
         col "license_type" (VARCHAR 50) [NOT_NULL];
         col "status" (VARCHAR 50)
           [DEFAULT "'pending'";
            CHECK_IN ["pending"; "active"; "expired"; "revoked"]];
         col "activated_by" UUID [REFERENCES "users" "id" SET_NULL];
         col "activated_at" TIMESTAMP [];
         col "expires_at" TIMESTAMP [];
         col "max_users" INTEGER [DEFAULT "1"];
         col "current_users" INTEGER [DEFAULT "0"];
         col "created_at" TIMESTAMP [DEFAULT "NOW()"];
         col "updated_at" TIMESTAMP [DEFAULT "NOW()"] ] |}.

Definition schema : list Table :=
  [users; affiliates; therapists; services; bookings; commissions; licenses].

(** *** What a table admits *)

Inductive Value :=
| NULL
| Text (s : string)
| Number (q : Q)
| Boolean (b : bool).

(** A row gives every column a value. *)
Definition Row := string -> Value.

Definition is_null (v : Value) : bool :=
  match v with NULL => true | _ => false end.

(** Rounding to the nearest integer, halves away from zero. *)
Definition round (x : Q) : Z :=
  if Qle_bool 0 x then Qfloor (x + (1 # 2)) else - Qfloor (- x + (1 # 2)).

(** The values a column type holds; NUMERIC input is rounded to the
    scale and must then fit the precision. *)
Definition fits (t : SqlType) (v : Value) : bool :=
  match v, t with
  | NULL, _ => true
  | Text s, VARCHAR n => (String.length s <=? n)%nat
  | Text s, TEXT => true
  | Text s, UUID => isUUID s
  | Number q, DECIMAL p s =>
      Z.abs (round (q * inject_Z (10 ^ Z.of_nat s))) <? 10 ^ Z.of_nat p
  | Number q, INTEGER => Qeq_bool q (inject_Z (Qfloor q))
  | Number _, (DATE | TIME | TIMESTAMP) => true
  | Boolean _, BOOLEAN => true
  | _, _ => false
  end.

Definition satisfies (c : Constraint) (v : Value) : bool :=
  match c with
  | PRIMARY_KEY | NOT_NULL => negb (is_null v)
  | CHECK_IN values =>
      match v with
      | NULL => true
      | Text s => existsb (String.eqb s) values
      | _ => false
      end
  | UNIQUE | DEFAULT _ | REFERENCES _ _ _ => true
  end.

Definition accepts (c : Column) (v : Value) : bool :=
  fits (sql_type c) v && forallb (fun k => satisfies k v) (constraints c).

Definition is_unique (c : Column) : bool :=
  existsb (fun k => match k with PRIMARY_KEY | UNIQUE => true | _ => false end)
          (constraints c).

Definition is_check (k : Constraint) : bool :=
  match k with CHECK_IN _ => true | _ => false end.

Definition same_value (a b : Value) : bool :=
  match a, b with
  | Text x, Text y => String.eqb x y
  | Number x, Number y => Qeq_bool x y
  | Boolean x, Boolean y => Bool.eqb x y
  | _, _ => false
  end.

(** [admits t rows r]: INSERT of [r] into [t] holding [rows] passes
    the column types, NOT NULL, CHECK and UNIQUE / PRIMARY KEY. *)
Definition admits (t : Table) (rows : list Row) (r : Row) : bool :=
  forallb
    (fun c =>
       accepts c (r (name c))
       && (negb (is_unique c)
           || negb (existsb (fun r' => same_value (r' (name c)) (r (name c)))
                            rows)))
    (columns t).

Definition find_table (n : string) : option Table :=
  find (fun t => String.eqb (table_name t) n) schema.

Definition find_column (t c : string) : option Column :=
  match find_table t with
  | Some tb => find (fun k => String.eqb (name k) c) (columns tb)
  | None => None
  end.

(** affiliates.commission_rate as declared. *)
Definition commission_rate_column : Column :=
  col "commission_rate" (DECIMAL 5 2) [DEFAULT "15.00"].

Definition booking_statuses : list string :=
  ["pending"; "confirmed"; "cancelled"; "completed"].

Definition commission_statuses : list string :=
  ["pending"; "paid"; "cancelled"].

Definition license_statuses : list string :=
  ["pending"; "active"; "expired"; "revoked"].

End Schema.

(** ** A small deployment to run the handlers on *)

Module Sample.

Fixpoint fraction (s : string) (num den : Z) : option (Z * Z) :=
  match s with
  | EmptyString => Some (num, den)
  | String c r =>
      if is_digit c then fraction r (10 * num + digit_val c) (10 * den)
      else None
  end.

Fixpoint decimal (s : string) (acc : Z) (seen : bool) : option Q :=
  match s with
  | EmptyString => if seen then Some (inject_Z acc) else None
  | String c r =>
      if is_digit c then decimal r (10 * acc + digit_val c) true
      else if Ascii.eqb c "." && seen
      then match fraction r 0 1 with
           | Some (n, d) => Some (inject_Z acc + Qmake n (Z.to_pos d))%Q
           | None => None
           end
      else None
  end.

(** YYYY-MM-DD, numbered so that later days are larger. *)
Definition calendar_date (s : string) : option Z :=
  match list_ascii_of_string s with
  | [y1; y2; y3; y4; d1; m1; m2; d2; a; b] =>
      if forallb is_digit [y1; y2; y3; y4; m1; m2; a; b]
         && Ascii.eqb d1 "-" && Ascii.eqb d2 "-"
      then Some (10000 * (1000 * digit_val y1 + 100 * digit_val y2
                          + 10 * digit_val y3 + digit_val y4)
                 + 100 * (10 * digit_val m1 + digit_val m2)
                 + (10 * digit_val a + digit_val b))
      else None
  | _ => None
  end.

Fixpoint contains (c : ascii) (s : string) : bool :=
  match s with
  | EmptyString => false
  | String d r => Ascii.eqb c d || contains c r
  end.

#[export] Instance library : Library :=
  {| isEmail := contains "@";
     isISO8601 := fun s => match calendar_date s with
                           | Some _ => true
                           | None => false
                           end;
     isFloat := fun lo hi s => match decimal s 0 false with
                               | Some q => Qle_bool lo q && Qle_bool q hi
                               | None => false
                               end;
     date_in := calendar_date;
     numeric_in := fun s => decimal s 0 false |}.

Definition ana : uuid := "00000000-0000-0000-0000-000000000001".
Definition rui : uuid := "00000000-0000-0000-0000-000000000002".
Definition therapist : uuid := "11111111-1111-1111-1111-111111111111".
Definition massage : uuid := "22222222-2222-2222-2222-222222222222".
Definition reiki : uuid := "22222222-2222-2222-2222-222222222223".
Definition luna15 : uuid := "33333333-3333-3333-3333-333333333333".
Definition norate : uuid := "33333333-3333-3333-3333-333333333334".
Definition morning : uuid := "44444444-4444-4444-4444-444444444444".
Definition dropped : uuid := "44444444-4444-4444-4444-444444444445".
Definition finished : uuid := "44444444-4444-4444-4444-444444444446".
Definition owed : uuid := "66666666-6666-6666-6666-666666666661".

Definition ana_user : User :=
  {| u_id := ana; u_name := "Ana"; u_email := "ana@example.com" |}.

Definition rui_user : User :=
  {| u_id := rui; u_name := "Rui"; u_email := "rui@example.com" |}.

Definition luna_affiliate : Affiliate :=
  {| a_id := luna15; a_user_id := Some ana;
     a_referral_code := "LUNA15";
     a_commission_rate := Some (15 # 1);
     a_total_referrals := Some 0;
     a_total_commission := Some 0%Q;
     a_is_active := Some true |}.

(** An affiliate whose commission_rate is NULL. *)
Definition norate_affiliate : Affiliate :=
  {| a_id := norate; a_user_id := None;
     a_referral_code := "NORATE";
     a_commission_rate := None;
     a_total_referrals := Some 0;
     a_total_commission := Some 0%Q;
     a_is_active := Some true |}.

Definition ana_therapist : Therapist :=
  {| t_id := therapist; t_user_id := Some ana;
     t_specialty := "Massoterapia"; t_bio := None;
     t_commission_rate := Some (30 # 1);
     t_is_available := Some true |}.

Definition massage_service : Service :=
  {| s_id := massage; s_therapist_id := Some therapist;
     s_name := "Massagem"; s_price := 120 # 1;
     s_duration_minutes := Some 90; s_is_active := Some true |}.

Definition reiki_service : Service :=
  {| s_id := reiki; s_therapist_id := Some therapist;
     s_name := "Reiki"; s_price := 3333 # 100;
     s_duration_minutes := None; s_is_active := Some false |}.

(** 09:00 on 2025-08-01, confirmed. *)
Definition morning_booking : Booking :=
  {| b_id := morning; b_service_id := Some massage;
     b_therapist_id := Some therapist; b_affiliate_id := None;
     b_client_name := "Bia"; b_client_email := "bia@example.com";
     b_client_phone := None;
     b_scheduled_date := 20250801; b_scheduled_time := 540;
     b_status := Confirmed; b_total_amount := 120 # 1;
     b_payment_status := PaymentPending;
     b_notes := None; b_cancellation_reason := None;
     b_created_at := 10; b_updated_at := 10 |}.

(** 14:00 on 2025-08-01, cancelled. *)
Definition dropped_booking : Booking :=
  {| b_id := dropped; b_service_id := Some massage;
     b_therapist_id := Some therapist; b_affiliate_id := None;
     b_client_name := "Caio"; b_client_email := "caio@example.com";
     b_client_phone := None;
     b_scheduled_date := 20250801; b_scheduled_time := 840;
     b_status := Cancelled; b_total_amount := 120 # 1;
     b_payment_status := PaymentPending;
     b_notes := None; b_cancellation_reason := Some "viagem";
     b_created_at := 11; b_updated_at := 12 |}.

(** 16:00 on 2025-07-31, completed. *)
Definition finished_booking : Booking :=
  {| b_id := finished; b_service_id := Some massage;
     b_therapist_id := Some therapist; b_affiliate_id := None;
     b_client_name := "Edu"; b_client_email := "edu@example.com";
     b_client_phone := None;
     b_scheduled_date := 20250731; b_scheduled_time := 960;
     b_status := Completed; b_total_amount := 120 # 1;
     b_payment_status := PaymentPaid;
     b_notes := None; b_cancellation_reason := None;
     b_created_at := 5; b_updated_at := 9 |}.

Definition owed_commission : Commission :=
  {| c_id := owed; c_affiliate_id := Some luna15;
     c_booking_id := Some morning;
     c_amount := 18 # 1; c_percentage := 15 # 1;
     c_status := CommissionPending;
     c_payment_date := None; c_payment_method := None;
     c_payment_reference := None; c_notes := None;
     c_created_at := 10; c_updated_at := 10 |}.

Definition store : Store :=
  {| users := [ana_user; rui_user];
     affiliates := [luna_affiliate; norate_affiliate];
     therapists := [ana_therapist];
     services := [massage_service; reiki_service];
     bookings := [morning_booking; dropped_booking; finished_booking];
     commissions := [owed_commission] |}.

Definition conn : Conn := {| db := store; log := [] |}.

Definition env : Env :=
  {| now := 100;
     booking_uuid := "55555555-5555-5555-5555-555555555555";
     commission_uuid := "66666666-6666-6666-6666-666666666666";
     affiliate_uuid := "77777777-7777-7777-7777-777777777777";
     random_index := fun i => i |}.

(** A booking request for the free 10:30 slot. *)
Definition request (code : option string) : Bookings.CreateBody :=
  {| Bookings.therapist_id := Some therapist;
     Bookings.service_id := Some massage;
     Bookings.client_name := Some "Dora Lima";
     Bookings.client_email := Some "dora@example.com";
     Bookings.client_phone := None;
     Bookings.scheduled_date := Some "2025-08-01";
     Bookings.scheduled_time := Some "10:30";
     Bookings.notes := None;
     Bookings.affiliate_code := code |}.

(** The same request for the slot that is taken at 09:00. *)
Definition clash : Bookings.CreateBody :=
  {| Bookings.therapist_id := Some therapist;
     Bookings.service_id := Some massage;
     Bookings.client_name := Some "Dora Lima";
     Bookings.client_email := Some "dora@example.com";
     Bookings.client_phone := None;
     Bookings.scheduled_date := Some "2025-08-01";
     Bookings.scheduled_time := Some "9:00";
     Bookings.notes := None;
     Bookings.affiliate_code := Some "LUNA15" |}.

(** A payment request with no optional field. *)
Definition payment : Commissions.PayBody :=
  {| Commissions.payment_method := None;
     Commissions.payment_reference := None;
     Commissions.pay_notes := None |}.

(** An affiliates row with the given commission_rate. *)
Definition affiliate_row (rate : Q) : Schema.Row :=
  fun column =>
    if String.eqb column "id" then Schema.Text luna15
    else if String.eqb column "user_id" then Schema.Text ana
    else if String.eqb column "referral_code" then Schema.Text "LUNA15"
    else if String.eqb column "commission_rate" then Schema.Number rate
    else Schema.NULL.

End Sample.


(** ** Vocabulary for stating the properties *)

Module Spec.

(** Text that [uuid] input maps to itself: what the store holds and
    prints for a [uuid] column. *)
Definition canonical (u : uuid) : bool :=
  match uuid_in u with
  | Some v => String.eqb v u
  | None => false
  end.

Fixpoint distinct (l : list string) : bool :=
  match l with
  | [] => true
  | x :: r => negb (existsb (String.eqb x) r) && distinct r
  end.

(** The affiliates table as the migration constrains it: [id] is a
    primary key of type [uuid], [referral_code] is UNIQUE. *)
Definition affiliates_keyed (db : Store) : bool :=
  forallb (fun a => canonical (a_id a)) (affiliates db)
  && distinct (map a_id (affiliates db))
  && distinct (map a_referral_code (affiliates db)).

(** The bookings table: [id] is a primary key of type [uuid]. *)
Definition bookings_keyed (db : Store) : bool :=
  forallb (fun b => canonical (b_id b)) (bookings db)
  && distinct (map b_id (bookings db)).

(** The integer a query asks for in a field: the one written, or
    [default] when the field is absent. *)
Definition asked (v : option string) (default : Z) : option Z :=
  match v with
  | None => Some default
  | Some s => int_value s
  end.

(** The affiliate id POST /bookings settles on for a request. *)
Definition resolved (code : option string) (db : Store) : option string :=
  if truthy code
  then match filter (fun a => eq_sql String.eqb (Some (a_referral_code a)) code)
                    (affiliates db) with
       | a :: _ => Some (a_id a)
       | [] => None
       end
  else None.


(** A connection seen after some statements. *)
Definition on (d : Store) (l : list Stmt) : Conn := {| db := d; log := l |}.

(** The relative error of one rounding to a number: [2 ^ -53]. *)
Definition eps : Q := 1 # (2 ^ 53).

(** [X] is [x] up to the relative error [eta]. *)
Definition approx (X x eta : Q) : Prop :=
  (Qabs (X - x) <= Qabs x * eta)%Q.

(** The error that four roundings in a row leave. *)
Definition eta3 : Q :=
  let e2 := (eps + eps + eps * eps)%Q in
  let e3 := (e2 + eps + e2 * eps)%Q in
  (e3 + eps + e3 * eps)%Q.

(** The number POST /bookings computes for a commission: service
    price times rate, over a hundred. *)
Definition commission (price rate : Q) : Q :=
  div (mul (binary64 price) (binary64 rate)) 100.

(** A decimal of scale 2, as a DECIMAL(_, 2) column holds it. *)
Definition cents (q : Q) : bool :=
  Qeq_bool (q * inject_Z 100) (inject_Z (Qfloor (q * inject_Z 100))).

(** The services table: [price] is DECIMAL(10,2). *)
Definition services_priced (db : Store) : bool :=
  forallb (fun s => cents (s_price s)) (services db).

(** An affiliates row: [commission_rate] is DECIMAL(5,2). *)
Definition rate_scaled (a : Affiliate) : bool :=
  match a_commission_rate a with
  | Some r => cents r
  | None => true
  end.

Definition affiliate_lookup (b : Bookings.CreateBody) : list Stmt :=
  if truthy (Bookings.affiliate_code b)
  then [SelectAffiliateByCode (Bookings.affiliate_code b)]
  else [].

(** The same request with no affiliate_code in its body. *)
Definition without_code (b : Bookings.CreateBody) : Bookings.CreateBody :=
  {| Bookings.therapist_id := Bookings.therapist_id b;
     Bookings.service_id := Bookings.service_id b;
     Bookings.client_name := Bookings.client_name b;
     Bookings.client_email := Bookings.client_email b;
     Bookings.client_phone := Bookings.client_phone b;
     Bookings.scheduled_date := Bookings.scheduled_date b;
     Bookings.scheduled_time := Bookings.scheduled_time b;
     Bookings.notes := Bookings.notes b;
     Bookings.affiliate_code := None |}.

Definition is_insert_booking (s : Stmt) : bool :=
  match s with
  | InsertBooking _ _ _ _ => true
  | _ => false
  end.

(** The statuses from which PUT /:id/confirm and PUT /:id/cancel
    rewrite a booking. *)
Definition confirmable (st : booking_status) : bool :=
  match st with Pending => true | _ => false end.

Definition cancellable (st : booking_status) : bool :=
  match st with Pending | Confirmed => true | _ => false end.

(** The twenty half-hour slots from 08:00 to 17:30. *)
Definition grid : list string :=
  [ "08:00"; "08:30"; "09:00"; "09:30"; "10:00"; "10:30"; "11:00"; "11:30";
    "12:00"; "12:30"; "13:00"; "13:30"; "14:00"; "14:30"; "15:00"; "15:30";
    "16:00"; "16:30"; "17:00"; "17:30" ].

(** Slot [k] of the grid starts [30 * k] minutes after 08:00. *)
Definition on_grid (start : Z) : bool :=
  existsb (fun k => start =? 480 + 30 * Z.of_nat k) (seq 0 20).

(** Two intervals of minutes [[a, a + m)] and [[b, b + n)] share a
    minute. *)
Definition intervals_overlap (a m b n : Z) : Prop :=
  exists t, a <= t < a + m /\ b <= t < b + n.

End Spec.

(** ** Rows as the statements rewrite them *)

Module Outcome.

(** A commission as [UPDATE commissions SET status = 'paid', ...]
    leaves it. *)
Definition paid (at_ : timestamp)
    (payment_method payment_reference notes : option string)
    (c : Commission) : Commission :=
  {| c_id := c_id c; c_affiliate_id := c_affiliate_id c;
     c_booking_id := c_booking_id c;
     c_amount := c_amount c; c_percentage := c_percentage c;
     c_status := CommissionPaid;
     c_payment_date := Some at_;
     c_payment_method := payment_method;
     c_payment_reference := payment_reference;
     c_notes := notes;
     c_created_at := c_created_at c; c_updated_at := at_ |}.


(** The characters of a generated referral code: A-Z and 0-9. *)
Definition code_char (c : ascii) : bool :=
  let n := nat_of_ascii c in
  is_digit c || ((65 <=? n)%nat && (n <=? 90)%nat).


End Outcome.

(** ** The state-changing requests of routes/bookings, in sequence *)

Module Traffic.

Section Requests.
Context {L : Library}.

Inductive Request :=
| Index (q : Bookings.ListQuery)                 (* GET / *)
| Create (body : Bookings.CreateBody)            (* POST / *)
| Confirm (id : string)                          (* PUT /:id/confirm *)
| Cancel (id : string) (reason : option string). (* PUT /:id/cancel *)

(** One request served; [env] is what NOW() and the uuid generator
    yield while it runs. *)
Definition serve (env : Env) (r : Request) (c : Conn) : Response * Conn :=
  match r with
  | Index q => Bookings.index q c
  | Create body => Bookings.create env body c
  | Confirm id => Bookings.confirm env id c
  | Cancel id reason => Bookings.cancel env id reason c
  end.

(** Requests served one after the other on the same connection. *)
Fixpoint serve_all (rs : list (Env * Request)) (c : Conn) : Conn :=
  match rs with
  | [] => c
  | (env, r) :: rest => serve_all rest (snd (serve env r c))
  end.


(** The confirmed bookings of the sample therapist from 2025-08-01 on. *)
Definition confirmed_list : Bookings.ListQuery :=
  {| Bookings.q_page := None; Bookings.q_limit := None;
     Bookings.q_status := Some "confirmed";
     Bookings.q_therapist_id := Some Sample.therapist;
     Bookings.q_affiliate_id := None;
     Bookings.q_date_from := Some "2025-08-01";
     Bookings.q_date_to := None |}.

(** The second page of all bookings, two to a page. *)
Definition second_of_two : Bookings.ListQuery :=
  {| Bookings.q_page := Some "2"; Bookings.q_limit := Some "2";
     Bookings.q_status := None;
     Bookings.q_therapist_id := None;
     Bookings.q_affiliate_id := None;
     Bookings.q_date_from := None;
     Bookings.q_date_to := None |}.


(** A booking request for the sample service that is not offered. *)
Definition reiki_booking : Bookings.CreateBody :=
  {| Bookings.therapist_id := Some Sample.therapist;
     Bookings.service_id := Some Sample.reiki;
     Bookings.client_name := Some "Dora Lima";
     Bookings.client_email := Some "dora@example.com";
     Bookings.client_phone := None;
     Bookings.scheduled_date := Some "2025-08-02";
     Bookings.scheduled_time := Some "11:00";
     Bookings.notes := None;
     Bookings.affiliate_code := None |}.

End Requests.

(** Statuses ordered by how far a booking has come. *)
Definition rank (st : booking_status) : nat :=
  match st with
  | Pending => 0
  | Confirmed => 1
  | Cancelled => 2
  | Completed => 3
  end.

Definition terminal (st : booking_status) : bool :=
  match st with
  | Cancelled | Completed => true
  | Pending | Confirmed => false
  end.

(** [later_version bk bk']: [bk'] is the row [bk] with at most its
    status, cancellation reason and update time rewritten, and the
    status no less advanced. *)
Definition later_version (bk bk' : Booking) : Prop :=
  b_id bk' = b_id bk
  /\ b_service_id bk' = b_service_id bk
  /\ b_therapist_id bk' = b_therapist_id bk
  /\ b_affiliate_id bk' = b_affiliate_id bk
  /\ b_client_name bk' = b_client_name bk
  /\ b_client_email bk' = b_client_email bk
  /\ b_client_phone bk' = b_client_phone bk
  /\ b_scheduled_date bk' = b_scheduled_date bk
  /\ b_scheduled_time bk' = b_scheduled_time bk
  /\ b_total_amount bk' = b_total_amount bk
  /\ b_payment_status bk' = b_payment_status bk
  /\ b_notes bk' = b_notes bk
  /\ b_created_at bk' = b_created_at bk
  /\ (rank (b_status bk) <= rank (b_status bk'))%nat
  /\ (terminal (b_status bk) = true -> bk' = bk)
  /\ (b_status bk' = Completed -> b_status bk = Completed).

(** Every row of [l] is still at its place in [l'], as a later
    version of itself. *)
Definition carried (l l' : list Booking) : Prop :=
  forall n bk,
    nth_error l n = Some bk ->
    exists bk', nth_error l' n = Some bk' /\ later_version bk bk'.

End Traffic.

(** ** Further requests on the sample deployment *)

Module Requests.



(** The confirmed bookings of the sample therapist from 2025-08-01 on. *)
Definition confirmed_list : Bookings.ListQuery :=
  {| Bookings.q_page := None; Bookings.q_limit := None;
     Bookings.q_status := Some "confirmed";
     Bookings.q_therapist_id := Some Sample.therapist;
     Bookings.q_affiliate_id := None;
     Bookings.q_date_from := Some "2025-08-01";
     Bookings.q_date_to := None |}.

(** The second page of all bookings, two to a page. *)
Definition second_of_two : Bookings.ListQuery :=
  {| Bookings.q_page := Some "2"; Bookings.q_limit := Some "2";
     Bookings.q_status := None;
     Bookings.q_therapist_id := None;
     Bookings.q_affiliate_id := None;
     Bookings.q_date_from := None;
     Bookings.q_date_to := None |}.


(** A booking request for the sample service that is not offered. *)
Definition reiki_booking : Bookings.CreateBody :=
  {| Bookings.therapist_id := Some Sample.therapist;
     Bookings.service_id := Some Sample.reiki;
     Bookings.client_name := Some "Dora Lima";
     Bookings.client_email := Some "dora@example.com";
     Bookings.client_phone := None;
     Bookings.scheduled_date := Some "2025-08-02";
     Bookings.scheduled_time := Some "11:00";
     Bookings.notes := None;
     Bookings.affiliate_code := None |}.

End Requests.

(** ** Regular expressions: the subset of [RegExp] the sources use

    Character classes, sequence, alternation, [*], [+], [?], [{n}] and
    the [i] flag, over ASCII text.  A pattern is matched by taking its
    derivative by each character in turn. *)

Module RegExp.

(** What stands between the brackets of a character class. *)
Inductive Item :=
| Lit (c : ascii)           (* one character *)
| Range (lo hi : ascii)     (* lo-hi *)
| Digit                     (* \d *)
| Space.                    (* \s *)

Definition in_item (k : Item) (c : ascii) : bool :=
  match k with
  | Lit d => Ascii.eqb c d
  | Range lo hi =>
      (nat_of_ascii lo <=? nat_of_ascii c)%nat
      && (nat_of_ascii c <=? nat_of_ascii hi)%nat
  | Digit => is_digit c
  | Space => is_space c
  end.

Definition in_class (l : list Item) (c : ascii) : bool :=
  existsb (fun k => in_item k c) l.

Definition upper_char (c : ascii) : ascii :=
  let n := nat_of_ascii c in
  if (97 <=? n)%nat && (n <=? 122)%nat then ascii_of_nat (n - 32) else c.

(** The characters that stand for [c] when matching: [c] itself, and
    with the [i] flag its two cases. *)
Definition variants (i : bool) (c : ascii) : list ascii :=
  if i then [c; upper_char c; lower_char c] else [c].

Inductive Re :=
| Never                     (* matches nothing: a spent pattern *)
| Empty                     (* matches the empty string *)
| Chr (c : ascii)           (* a character *)
| OneOf (l : list Item)     (* [...] *)
| NoneOf (l : list Item)    (* [^...] *)
| Seq (a b : Re)            (* ab *)
| Alt (a b : Re)            (* a|b *)
| Star (a : Re).            (* a* *)

(** a+ *)
Definition Plus (a : Re) : Re := Seq a (Star a).

(** a? *)
Definition Opt (a : Re) : Re := Alt a Empty.

(** a{n} *)
Fixpoint Times (n : nat) (a : Re) : Re :=
  match n with
  | O => Empty
  | S n' => Seq a (Times n' a)
  end.

(** The characters of a word, in sequence. *)
Fixpoint word (s : string) : Re :=
  match s with
  | EmptyString => Empty
  | String c r => Seq (Chr c) (word r)
  end.

Fixpoint nullable (r : Re) : bool :=
  match r with
  | Never | Chr _ | OneOf _ | NoneOf _ => false
  | Empty | Star _ => true
  | Seq a b => nullable a && nullable b
  | Alt a b => nullable a || nullable b
  end.

(** Whether a one-character pattern takes [c]. *)
Definition takes (i : bool) (r : Re) (c : ascii) : bool :=
  match r with
  | Chr d => existsb (Ascii.eqb d) (variants i c)
  | OneOf l => existsb (in_class l) (variants i c)
  | NoneOf l => negb (existsb (in_class l) (variants i c))
  | _ => false
  end.

(** What is left of [r] to match once [c] has been read. *)
Fixpoint deriv (i : bool) (c : ascii) (r : Re) : Re :=
  match r with
  | Never | Empty => Never
  | Chr _ | OneOf _ | NoneOf _ => if takes i r c then Empty else Never
  | Seq a b =>
      if nullable a
      then Alt (Seq (deriv i c a) b) (deriv i c b)
      else Seq (deriv i c a) b
  | Alt a b => Alt (deriv i c a) (deriv i c b)
  | Star a => Seq (deriv i c a) (Star a)
  end.

(** [/^r$/.test(s)], with the [i] flag when [i] is set. *)
Fixpoint matches (i : bool) (r : Re) (s : string) : bool :=
  match s with
  | EmptyString => nullable r
  | String c s' => matches i (deriv i c r) s'
  end.

(** Any character at all. *)
Definition any : Re := NoneOf [].

(** [/r/.test(s)]: some part of [s] matches. *)
Definition test (i : bool) (r : Re) (s : string) : bool :=
  matches i (Seq (Star any) (Seq r (Star any))) s.

(** The strings a pattern stands for. *)
Inductive Matches (i : bool) : Re -> string -> Prop :=
| MEmpty : Matches i Empty EmptyString
| MChr r c : takes i r c = true -> Matches i r (String c EmptyString)
| MSeq a b s t :
    Matches i a s -> Matches i b t -> Matches i (Seq a b) (s ++ t)
| MAltL a b s : Matches i a s -> Matches i (Alt a b) s
| MAltR a b s : Matches i b s -> Matches i (Alt a b) s
| MStarNil a : Matches i (Star a) EmptyString
| MStarCons a s t :
    Matches i a s -> Matches i (Star a) t -> Matches i (Star a) (s ++ t).

End RegExp.

(** ** utils/helpers

    The pure helpers, over ASCII text: a string is the sequence of its
    bytes, which for ASCII text are the UTF-16 units that [length],
    [substring], [trim] and the patterns work on.  [generateSecureToken],
    [generateMD5], [formatCurrency] and [debounce] rest on crypto,
    Intl and timers and are left out. *)

Module Helpers.

Import RegExp.

(** *** String methods *)

(** [s.replace(/r/g, by)] for a pattern [r] of one character: every
    character it takes is replaced. *)
Fixpoint replace_each (r : Re) (by_ : string) (s : string) : string :=
  match s with
  | EmptyString => EmptyString
  | String c s' =>
      ((if takes false r c then by_ else String c EmptyString)
       ++ replace_each r by_ s')%string
  end.

(** [s.replace(/r+/g, by)] for a pattern [r] of one character: every
    maximal run of characters it takes is replaced by one [by]. *)
Fixpoint replace_runs (r : Re) (by_ : string) (s : string) : string :=
  match s with
  | EmptyString => EmptyString
  | String c s' =>
      if takes false r c
      then match s' with
           | String d _ =>
               if takes false r d then replace_runs r by_ s'
               else (by_ ++ replace_runs r by_ s')%string
           | EmptyString => by_
           end
      else String c (replace_runs r by_ s')
  end.

Fixpoint drop_last (c : ascii) (s : string) : string :=
  match s with
  | EmptyString => EmptyString
  | String d EmptyString => if Ascii.eqb d c then EmptyString else s
  | String d r => String d (drop_last c r)
  end.

(** [s.replace(/^c|c$/g, '')]: one leading and one trailing [c]. *)
Definition strip_edges (c : ascii) (s : string) : string :=
  match s with
  | String d r => if Ascii.eqb d c then drop_last c r else drop_last c s
  | EmptyString => EmptyString
  end.

(** [s.split(sep)] for a separator of one character. *)
Fixpoint split (sep : ascii) (s : string) : list string :=
  match s with
  | EmptyString => [EmptyString]
  | String c r =>
      match split sep r with
      | piece :: rest =>
          if Ascii.eqb c sep then EmptyString :: piece :: rest
          else String c piece :: rest
      | [] => []
      end
  end.

(** [s.substring(a, b)] for [a <= b], and [s.substring(a)]. *)
Definition substring (a b : nat) (s : string) : string :=
  String.substring a (b - a) s.

Fixpoint substring_from (a : nat) (s : string) : string :=
  match a, s with
  | O, _ => s
  | S a', String _ r => substring_from a' r
  | S _, EmptyString => EmptyString
  end.

(** A piece of a destructured array inside a template literal. *)
Definition interpolate (piece : option string) : string :=
  match piece with
  | Some s => s
  | None => "undefined"
  end.

(** The string behind a value already found truthy. *)
Definition text (v : option string) : string :=
  match v with
  | Some s => s
  | None => EmptyString
  end.

(** *** Numbers that may be NaN *)

Definition Number := option Z.

Definition mul (a b : Number) : Number :=
  match a, b with
  | Some x, Some y => Some (x * y)
  | _, _ => None
  end.

Definition add (a b : Number) : Number :=
  match a, b with
  | Some x, Some y => Some (x + y)
  | _, _ => None
  end.

(** [a === b] on numbers: NaN equals nothing. *)
Definition strict_eq (a b : Number) : bool :=
  match a, b with
  | Some x, Some y => x =? y
  | _, _ => false
  end.

(** *** isValidEmail *)

(** /^[^\s@]+@[^\s@]+\.[^\s@]+$/ *)
Definition emailRegex : Re :=
  Seq (Plus (NoneOf [Space; Lit "@"]))
      (Seq (Chr "@")
           (Seq (Plus (NoneOf [Space; Lit "@"]))
                (Seq (Chr ".") (Plus (NoneOf [Space; Lit "@"]))))).

Definition isValidEmail (email : string) : bool :=
  matches false emailRegex email.

(** *** isValidCPF *)

(** /^(.)\1*$/: one character, not a line terminator, and nothing but
    repetitions of it. *)
Definition line_terminator (c : ascii) : bool :=
  (nat_of_ascii c =? 10)%nat || (nat_of_ascii c =? 13)%nat.

Definition repeated (s : string) : bool :=
  match s with
  | EmptyString => false
  | String c r =>
      negb (line_terminator c)
      && forallb (Ascii.eqb c) (list_ascii_of_string r)
  end.

(** [for (let i = 0; i < n; i++)
       sum += parseInt(cpf.charAt(i)) * (top - i)],
    with [n - i] iterations left. *)
Fixpoint weigh (cpf : string) (top : Z) (left : nat) (i : nat)
    (sum : Number) : Number :=
  match left with
  | O => sum
  | S left' =>
      weigh cpf top left' (S i)
        (add sum (mul (parseInt (Some (Affiliates.charAt i cpf)))
                      (Some (top - Z.of_nat i))))
  end.

(** [let digit = 11 - (sum % 11);
     if (digit === 10 || digit === 11) digit = 0] *)
Definition check_digit (sum : Number) : Number :=
  option_map (fun s => let digit := 11 - Z.rem s 11 in
                       if (digit =? 10) || (digit =? 11) then 0 else digit)
             sum.

Definition isValidCPF (cpf : option string) : bool :=
  if negb (truthy cpf) then false
  else
    let cpf := replace_each (NoneOf [Digit]) "" (text cpf) in
    if negb (String.length cpf =? 11)%nat || repeated cpf then false
    else
      let sum := weigh cpf 10 9 0 (Some 0) in
      let digit := check_digit sum in
      if negb (strict_eq digit (parseInt (Some (Affiliates.charAt 9 cpf))))
      then false
      else
        let sum := weigh cpf 11 10 0 (Some 0) in
        let digit := check_digit sum in
        strict_eq digit (parseInt (Some (Affiliates.charAt 10 cpf))).

(** *** isValidPhone *)

(** /^(\+55\s?)?(\(?[1-9]{2}\)?)\s?[9]?\d{4}-?\d{4}$/ *)
Definition phoneRegex : Re :=
  Seq (Opt (Seq (Chr "+") (Seq (Chr "5") (Seq (Chr "5") (Opt (OneOf [Space]))))))
      (Seq (Seq (Opt (Chr "("))
                (Seq (Times 2 (OneOf [Range "1" "9"])) (Opt (Chr ")"))))
           (Seq (Opt (OneOf [Space]))
                (Seq (Opt (OneOf [Lit "9"]))
                     (Seq (Times 4 (OneOf [Digit]))
                          (Seq (Opt (Chr "-")) (Times 4 (OneOf [Digit]))))))).

Definition isValidPhone (phone : option string) : bool :=
  if negb (truthy phone) then false
  else matches false phoneRegex (text phone).

(** *** sanitizeString *)

Definition sanitizeString (str : option string) : string :=
  if negb (truthy str) then EmptyString
  else
    replace_each (Chr "/") "&#x2F;"
      (replace_each (Chr "'") "&#x27;"
         (replace_each (Chr "034") "&quot;"
            (replace_each (Chr "&") "&amp;"
               (replace_each (OneOf [Lit "<"; Lit ">"]) ""
                  (trim (text str)))))).

(** *** generateSlug

    [normalize('NFD')] and the removal of the combining marks
    U+0300-U+036F leave ASCII text as it is. *)
Definition generateSlug (text_ : string) : string :=
  strip_edges "-"
    (replace_runs (Chr "-") "-"
       (replace_runs (OneOf [Space]) "-"
          (replace_each
             (NoneOf [Range "a" "z"; Range "0" "9"; Space; Lit "-"]) ""
             (toLowerCase text_)))).

(** *** calculateAge *)

(** What the function reads of a valid [Date]. *)
Record Date := {
  getFullYear : Z;
  getMonth : Z;     (* 0 to 11 *)
  getDate : Z       (* 1 to 31 *)
}.

(** [today] is [new Date()], [birth] is [new Date(birthDate)]. *)
Definition calculateAge (today birth : Date) : Z :=
  let age := getFullYear today - getFullYear birth in
  let monthDiff := getMonth today - getMonth birth in
  if (monthDiff <? 0)
     || ((monthDiff =? 0) && (getDate today <? getDate birth))
  then age - 1
  else age.

(** *** maskSensitiveData *)

Definition maskSensitiveData (data : option string) (type : option string)
    : string :=
  let type := match type with Some t => t | None => "email" end in
  if negb (truthy data) then EmptyString
  else
    let data := text data in
    if String.eqb type "email" then
      let pieces := split "@" data in
      let user := nth_error pieces 0 in
      let domain := nth_error pieces 1 in
      (substring 0 2 (interpolate user) ++ "***@" ++ interpolate domain)%string
    else if String.eqb type "phone" then
      let phone := replace_each (NoneOf [Digit]) "" data in
      ("(" ++ substring 0 2 phone ++ ") *****-" ++ substring_from 7 phone)%string
    else if String.eqb type "cpf" then
      let cpf := replace_each (NoneOf [Digit]) "" data in
      ("***.***." ++ substring 6 9 cpf ++ "-**")%string
    else (substring 0 3 data ++ "***")%string.

(** *** isStrongPassword *)

(** The class of /[!@#$%^&*(),.?:{}|<>]/ with the double quote that the
    source has after the question mark. *)
Definition symbols : list Item :=
  [ Lit "!"; Lit "@"; Lit "#"; Lit "$"; Lit "%"; Lit "^"; Lit "&"; Lit "*";
    Lit "("; Lit ")"; Lit ","; Lit "."; Lit "?"; Lit "034"; Lit ":"; Lit "{";
    Lit "}"; Lit "|"; Lit "<"; Lit ">" ].

Definition isStrongPassword (password : option string) : bool :=
  if negb (truthy password) || (String.length (text password) <? 8)%nat
  then false
  else
    let hasUpper := test false (OneOf [Range "A" "Z"]) (text password) in
    let hasLower := test false (OneOf [Range "a" "z"]) (text password) in
    let hasNumber := test false (OneOf [Digit]) (text password) in
    let hasSymbol := test false (OneOf symbols) (text password) in
    hasUpper && hasLower && hasNumber && hasSymbol.

End Helpers.

(** ** Vocabulary for the helpers' properties *)

Module Text.

(** The characters of a string satisfy [p]. *)
Definition all_chars (p : ascii -> bool) (s : string) : bool :=
  forallb p (list_ascii_of_string s).

(** The five characters [sanitizeString] removes or escapes besides
    the ampersand. *)
Definition markup (c : ascii) : bool :=
  RegExp.in_class
    [RegExp.Lit "<"; RegExp.Lit ">"; RegExp.Lit "034"; RegExp.Lit "'";
     RegExp.Lit "/"] c.

(** [s] begins with [pre]. *)
Fixpoint starts (pre s : string) : bool :=
  match pre with
  | EmptyString => true
  | String c p =>
      match s with
      | String d r => Ascii.eqb c d && starts p r
      | EmptyString => false
      end
  end.

(** Every ampersand starts one of the four entities the function
    writes. *)
Fixpoint escaped (s : string) : bool :=
  match s with
  | EmptyString => true
  | String c r =>
      (if Ascii.eqb c "&"
       then starts "amp;" r || starts "quot;" r
            || starts "#x27;" r || starts "#x2F;" r
       else true)
      && escaped r
  end.

(** A character an address may hold on either side of the at sign:
    neither blank nor the at sign itself. *)
Definition address_char (c : ascii) : bool :=
  negb (is_space c) && negb (Ascii.eqb c "@").

(** Some character of [s] is in the class [l]. *)
Definition holds (l : list RegExp.Item) (s : string) : bool :=
  existsb (RegExp.in_class l) (list_ascii_of_string s).

(** The day [year]-[month]-[day] is [today] or earlier. *)
Definition reached (year month day : Z) (today : Helpers.Date) : Prop :=
  year < Helpers.getFullYear today
  \/ (year = Helpers.getFullYear today
      /\ (month < Helpers.getMonth today
          \/ (month = Helpers.getMonth today
              /\ day <= Helpers.getDate today))).

(** The decimal digits of a string, in order; everything else is
    skipped. *)
Definition digits_of (s : string) : list Z :=
  map digit_val (filter is_digit (list_ascii_of_string s)).

(** [top] times the first digit, [top - 1] times the second, and so
    on. *)
Fixpoint weighted (top : Z) (l : list Z) : Z :=
  match l with
  | [] => 0
  | d :: r => top * d + weighted (top - 1) r
  end.

(** The check digit of the Receita Federal: 0 when the weighted sum
    leaves a remainder below 2 on division by 11, else 11 less the
    remainder. *)
Definition verifier (top : Z) (l : list Z) : Z :=
  let r := weighted top l mod 11 in
  if r <? 2 then 0 else 11 - r.

(** Eleven digits, not all the same, the last two being the check
    digits of those before them. *)
Definition cpf_digits (ds : list Z) : bool :=
  match ds with
  | [d1; d2; d3; d4; d5; d6; d7; d8; d9; v1; v2] =>
      negb (forallb (Z.eqb d1) [d2; d3; d4; d5; d6; d7; d8; d9; v1; v2])
      && (v1 =? verifier 10 [d1; d2; d3; d4; d5; d6; d7; d8; d9])
      && (v2 =? verifier 11 [d1; d2; d3; d4; d5; d6; d7; d8; d9; v1])
  | _ => false
  end.

(** The letters a-z. *)
Definition lower_letter (c : ascii) : bool :=
  RegExp.in_class [RegExp.Range "a" "z"] c.

(** [s] holds [w] somewhere, in whatever letter case. *)
Definition mentions (w s : string) : Prop :=
  exists a b c, s = (a ++ b ++ c)%string /\ toLowerCase b = w.

(** Character codes below 128. *)
Definition is_ascii (c : ascii) : bool := (nat_of_ascii c <? 128)%nat.

(** The characters of a slug: a-z, 0-9 and the hyphen. *)
Definition slug_char (c : ascii) : bool :=
  RegExp.in_class
    [RegExp.Range "a" "z"; RegExp.Range "0" "9"; RegExp.Lit "-"] c.

(** No two [c] in a row. *)
Fixpoint no_double (c : ascii) (s : string) : bool :=
  match s with
  | EmptyString => true
  | String a r =>
      match r with
      | String b _ => negb (Ascii.eqb a c && Ascii.eqb b c)
      | EmptyString => true
      end
      && no_double c r
  end.

(** The last character is [c]. *)
Fixpoint ends (c : ascii) (s : string) : bool :=
  match s with
  | EmptyString => false
  | String a r =>
      match r with
      | EmptyString => Ascii.eqb a c
      | String _ _ => ends c r
      end
  end.

(** The digits an accepted telephone number is made of: 55 when the
    country code is written, two digits of area code from 1 to 9, and
    eight digits, or a 9 and eight digits. *)
Definition phone_digits (ds : list Z) : Prop :=
  exists country area local_,
    ds = (country ++ area ++ local_)%list
    /\ (country = [] \/ country = [5; 5])
    /\ List.length area = 2%nat
    /\ Forall (fun d => 1 <= d <= 9) area
    /\ Forall (fun d => 0 <= d <= 9) local_
    /\ (List.length local_ = 8%nat
        \/ (List.length local_ = 9%nat /\ hd_error local_ = Some 9)).

End Text.

(** ** server: the error handler of the application *)

Module Server.

Import RegExp.

(** /password/i, /token/i, /secret/i, /key/i, /connection/i,
    /database/i, /env/i *)
Definition sensitiveWords : list string :=
  ["password"; "token"; "secret"; "key"; "connection"; "database"; "env"].

Definition sensitivePatterns : list Re := map word sensitiveWords.

Definition hidden : string :=
  "Erro interno do servidor (dados sensíveis ocultados)".

(** [app.use((error, req, res, next) => { ... })]: [NODE_ENV] is
    [process.env.NODE_ENV]; the other two are [error.message] and
    [error.status]. *)
Definition errorHandler (NODE_ENV : option string)
    (error_message : option string) (error_status : option Z) : Response :=
  let message :=
    if match NODE_ENV with
       | Some e => String.eqb e "development"
       | None => false
       end
    then
      let originalMessage := Helpers.text error_message in
      let isSensitive :=
        existsb (fun pattern => test true pattern originalMessage)
                sensitivePatterns in
      if isSensitive then hidden else originalMessage
    else internal_error in
  failure (num_or error_status 500) message.

End Server.

(** ** middleware/auth

    Authentication and the routes of routes/auth read and write the
    users table for the columns [id], [name], [email], [password_hash],
    [role] and [is_active]; the table is passed to them as the rows
    with these columns.  Their statements are not entered in the log of
    the handlers' connection. *)

Module Auth.

Record UserRow := {
  id : uuid;
  name : string;
  email : string;
  password_hash : string;
  role : option string;
  is_active : option bool
}.

(** What [jwt.verify(token, process.env.JWT_SECRET)] does with a
    token: it returns the payload, of which [userId] is read, or throws
    an error that has a name. *)
Inductive Verified :=
| Payload (userId : option string)
| Thrown (name : string).

(** A middleware calls [next()], with [req.user] set, or responds. *)
Inductive Outcome :=
| Next (user : UserRow)
| Respond (r : Response).

(** SELECT id, email, role, is_active, name FROM users WHERE id = $1 *)
Definition select_user_row (userId : option string) (users : list UserRow)
    : Result (list UserRow) :=
  let? uid := param "uuid" uuid_in userId in
  inr (filter (fun u => eq_sql String.eqb (Some (id u)) uid) users).

Section Middleware.
Variable verify : string -> Verified.

Definition authenticateToken (authorization : option string)
    (users : list UserRow) : Outcome :=
  let authHeader := authorization in
  let token :=
    if truthy authHeader
    then nth_error (Helpers.split " " (Helpers.text authHeader)) 1
    else authHeader in
  if negb (truthy token)
  then Respond (failure 401 "Token de acesso requerido")
  else
    match verify (Helpers.text token) with
    | Thrown error_name =>
        if String.eqb error_name "JsonWebTokenError"
        then Respond (failure 403 "Token inválido")
        else if String.eqb error_name "TokenExpiredError"
        then Respond (failure 403 "Token expirado")
        else Respond (failure 500 internal_error)
    | Payload userId =>
        match select_user_row userId users with
        | inl _ => Respond (failure 500 internal_error)
        | inr [] => Respond (failure 401 "Usuário não encontrado")
        | inr (user :: _) =>
            if negb (is_true (is_active user))
            then Respond (failure 401 "Conta desativada")
            else Next user
        end
    end.

(** [requireRole(roles)] *)
Definition requireRole (roles : list string) (user : UserRow) : Outcome :=
  if negb (match role user with
           | Some r => existsb (String.eqb r) roles
           | None => false
           end)
  then Respond (failure 403 "Permissão negada")
  else Next user.

(** [a !== b] for a string and an environment variable. *)
Definition differs (a : string) (b : option string) : bool :=
  match b with
  | Some s => negb (String.eqb a s)
  | None => true
  end.

Definition requireMaster (MASTER_EMAIL MASTER_USER_ID : option string)
    (user : UserRow) : Outcome :=
  if differs (email user) MASTER_EMAIL && differs (id user) MASTER_USER_ID
  then Respond (failure 403 "Acesso restrito ao usuário master")
  else Next user.

(** [router.<verb>(path, authenticateToken, requireRole(roles), ...,
    handler)]: the handler runs once both middlewares have called
    [next()]; [roles] is [None] for a route without [requireRole]. *)
Definition route (roles : option (list string))
    (handler : Conn -> Response * Conn)
    (authorization : option string) (users : list UserRow) (c : Conn)
    : Response * Conn :=
  match authenticateToken authorization users with
  | Respond r => (r, c)
  | Next user =>
      match roles with
      | None => handler c
      | Some rs =>
          match requireRole rs user with
          | Respond r => (r, c)
          | Next _ => handler c
          end
      end
  end.

Section Routes.
Context {L : Library}.

(** POST /commissions/:id/pay *)
Definition commissions_pay env id body :=
  route (Some ["admin"]) (Commissions.pay env id body).

(** POST /affiliates *)
Definition affiliates_create env body :=
  route (Some ["admin"]) (Affiliates.create env body).

(** POST /bookings *)
Definition bookings_create env body :=
  route None (Bookings.create env body).

(** PUT /bookings/:id/confirm *)
Definition bookings_confirm env id :=
  route None (Bookings.confirm env id).

(** PUT /bookings/:id/cancel *)
Definition bookings_cancel env id reason :=
  route None (Bookings.cancel env id reason).

End Routes.

End Middleware.

End Auth.

(** ** routes/auth: POST /register and POST /login

    [bcrypt.hash], [bcrypt.compare] and [jwt.sign] belong to libraries;
    the routes are parametric in them.  [jwt.sign] throws when it has
    no secret to sign with. *)

Module AuthRoutes.

(** [req.body] of both routes. *)
Record Body := {
  name : option string;
  email : option string;
  password : option string;
  role : option string
}.

(** [data] of a successful answer: the user and the token. *)
Record Session := {
  user_id : uuid;
  user_name : string;
  user_email : string;
  user_role : option string;
  token : string
}.

(** What a route answers: status, [success] and [message] in [reply],
    the validation errors in its [data]; [session] is the [data] of a
    successful answer. *)
Record Reply := {
  reply : Response;
  session : option Session
}.

Definition refused (r : Response) : Reply :=
  {| reply := r; session := None |}.

Definition value_too_long : JsError :=
  DatabaseError "22001" "value too long for type character varying(255)".

Definition check_violation (rel constraint : string) : JsError :=
  DatabaseError "23514"
    ("new row for relation " ++ dq ++ rel ++ dq
     ++ " violates check constraint " ++ dq ++ constraint ++ dq).

(** SELECT ... FROM users WHERE email = $1 *)
Definition select_user_by_email (email : option string)
    (users : list Auth.UserRow) : list Auth.UserRow :=
  filter (fun u => eq_sql String.eqb (Some (Auth.email u)) email) users.

Definition fits (s : string) : bool := (String.length s <=? 255)%nat.

Definition roles : list string := ["admin"; "therapist"; "affiliate"].

(** INSERT INTO users (name, email, password_hash, role, is_active)
    VALUES ($1, $2, $3, $4, true)
    RETURNING id, name, email, role, created_at

    [new_id] is what [gen_random_uuid()] yields.  The table declares
    the three texts VARCHAR(255) NOT NULL, [role] to be one of
    [roles], [id] the primary key and [email] UNIQUE. *)
Definition insert_user (new_id : uuid)
    (name email password_hash role : option string)
    (users : list Auth.UserRow)
    : Result (Auth.UserRow * list Auth.UserRow) :=
  let? n := not_null "name" "users" name in
  let? e := not_null "email" "users" email in
  let? h := not_null "password_hash" "users" password_hash in
  if negb (fits n && fits e && fits h)
  then inl value_too_long
  else if negb (match role with
                | Some r => isIn roles r
                | None => true
                end)
  then inl (check_violation "users" "users_role_check")
  else if existsb (fun u => String.eqb (Auth.id u) new_id) users
  then inl (unique_violation "users_pkey")
  else if existsb (fun u => String.eqb (Auth.email u) e) users
  then inl (unique_violation "users_email_key")
  else
    let row :=
      {| Auth.id := new_id; Auth.name := n; Auth.email := e;
         Auth.password_hash := h; Auth.role := role;
         Auth.is_active := Some true |} in
    inr (row, (users ++ [row])%list).

Section Routes.
Context {L : Library}.

(** [bcrypt.hash(password, 12)] *)
Variable hash : string -> string.
(** [bcrypt.compare(password, hash)] *)
Variable compare : string -> string -> bool.
(** [jwt.sign({ userId, email, role }, process.env.JWT_SECRET,
    { expiresIn: '7d' })] *)
Variable sign : uuid -> string -> option string -> Result string.

Definition notEmpty (s : string) : bool := negb (String.eqb s "").

Definition v_name :=
  trimmed (required (isLength (Some 2%nat) None)
                    "Nome deve ter pelo menos 2 caracteres").
Definition v_email := required isEmail "Email inválido".
Definition v_password :=
  required (isLength (Some 6%nat) None)
           "Senha deve ter pelo menos 6 caracteres".
Definition v_role := opt (isIn roles) "Role inválido".
Definition v_login_password := required notEmpty "Senha é obrigatória".

Definition register_errors (b : Body) : list string :=
  (errors_of v_name (name b)
   ++ errors_of v_email (email b)
   ++ errors_of v_password (password b)
   ++ errors_of v_role (role b))%list.

Definition register_sanitized (b : Body) : Body :=
  {| name := sanitized v_name (name b);
     email := sanitized v_email (email b);
     password := sanitized v_password (password b);
     role := sanitized v_role (role b) |}.

Definition login_errors (b : Body) : list string :=
  (errors_of v_email (email b)
   ++ errors_of v_login_password (password b))%list.

Definition invalid (errors : list string) : Reply :=
  refused {| status := 400; success := false;
             message_of := Some "Dados inválidos";
             data := ValidationErrors errors |}.

(** The token for a row, and the answer that carries both. *)
Definition signed_in (code : Z) (m : string) (user : Auth.UserRow)
    (on_throw : Reply) : Reply :=
  match sign (Auth.id user) (Auth.email user) (Auth.role user) with
  | inl _ => on_throw
  | inr token =>
      {| reply := {| status := code; success := true;
                     message_of := Some m; data := NoData |};
         session :=
           Some {| user_id := Auth.id user; user_name := Auth.name user;
                   user_email := Auth.email user;
                   user_role := Auth.role user; token := token |} |}
  end.

(** POST /register *)
Definition register (new_id : uuid) (body : Body)
    (users : list Auth.UserRow) : Reply * list Auth.UserRow :=
  let errors := register_errors body in
  if negb (List.length errors =? 0)%nat
  then (invalid errors, users)
  else
    let b := register_sanitized body in
    let role := match role b with
                | Some r => Some r
                | None => Some "affiliate"
                end in
    let existingUsers := select_user_by_email (email b) users in
    if (0 <? List.length existingUsers)%nat
    then (refused (failure 400 "Email já cadastrado"), users)
    else
      match password b with
      | None =>
          (refused (on_error AuthRegister (Error "Illegal arguments")),
           users)
      | Some p =>
          let passwordHash := hash p in
          match insert_user new_id (name b) (email b) (Some passwordHash)
                            role users with
          | inl error => (refused (on_error AuthRegister error), users)
          | inr (user, users') =>
              (signed_in 201 "Usuário criado com sucesso" user
                 (refused (failure 500 internal_error)),
               users')
          end
      end.

(** POST /login *)
Definition login (body : Body) (users : list Auth.UserRow) : Reply :=
  let errors := login_errors body in
  if negb (List.length errors =? 0)%nat
  then invalid errors
  else
    match select_user_by_email (email body) users with
    | [] => refused (failure 401 "Credenciais inválidas")
    | user :: _ =>
        if negb (is_true (Auth.is_active user))
        then refused (failure 401 "Conta desativada")
        else
          match password body with
          | None => refused (on_error AuthLogin (Error "Illegal arguments"))
          | Some p =>
              let isValidPassword := compare p (Auth.password_hash user) in
              if negb isValidPassword
              then refused (failure 401 "Credenciais inválidas")
              else signed_in 200 "Login realizado com sucesso" user
                     (refused (failure 500 internal_error))
          end
    end.

End Routes.

End AuthRoutes.

(** ** routes/services: DELETE /:id

    The handler's two statements are run on the store directly: they
    are not among the statements the log records. *)

Module Services.

Definition with_services (db : Store) (l : list Service) : Store :=
  {| users := users db; affiliates := affiliates db;
     therapists := therapists db;
     services := l; bookings := bookings db;
     commissions := commissions db |}.

(** SELECT COUNT( * ) as count FROM bookings
    WHERE service_id = $1 AND status NOT IN ('cancelled', 'completed') *)
Definition count_active_bookings (id : option string) (db : Store)
    : Result Z :=
  let? sid := param "uuid" uuid_in id in
  inr (Z.of_nat
         (List.length
            (filter (fun b => eq_sql String.eqb (b_service_id b) sid
                              && active (b_status b))
                    (bookings db)))).

Definition deactivated (s : Service) : Service :=
  {| s_id := s_id s; s_therapist_id := s_therapist_id s;
     s_name := s_name s; s_price := s_price s;
     s_duration_minutes := s_duration_minutes s;
     s_is_active := Some false |}.

(** UPDATE services SET is_active = false, updated_at = NOW()
    WHERE id = $1 RETURNING * *)
Definition update_service_inactive (id : option string) (db : Store)
    : Result (list Service * Store) :=
  let? sid := param "uuid" uuid_in id in
  let hit s := eq_sql String.eqb (Some (s_id s)) sid in
  let (returning, table) := update_where hit deactivated (services db) in
  inr (returning, with_services db table).

Definition delete (id : string) (db : Store) : Response * Store :=
  match count_active_bookings (Some id) db with
  | inl error => (on_error ServicesDelete error, db)
  | inr count =>
      if 0 <? count
      then (failure 400
              "Não é possível excluir serviço com agendamentos ativos", db)
      else
        match update_service_inactive (Some id) db with
        | inl error => (on_error ServicesDelete error, db)
        | inr ([], db') => (failure 404 "Serviço não encontrado", db')
        | inr (_ :: _, db') =>
            ({| status := 200; success := true;
                message_of := Some "Serviço desativado com sucesso";
                data := NoData |}, db')
        end
  end.

End Services.

(** ** scripts/fix-encoding

    A file system as the script sees it: what each path names.  A
    buffer is the list of its bytes.  Reading anything but a file
    throws, and so does writing what is not a writable file; what the
    script prints is left out. *)

Module Scripts.

Inductive Node :=
| File (content : list Z) (writable : bool)
| Directory.

Definition Files : Type := string -> option Node.

Definition filesToCheck : list string :=
  ["server.js";
   "config/database.js";
   "middleware/auth.js";
   "routes/auth.js";
   "routes/users.js";
   "routes/affiliates.js";
   "routes/therapists.js";
   "routes/services.js";
   "routes/bookings.js";
   "routes/commissions.js";
   "utils/helpers.js";
   "scripts/setup.js"].

Definition existsSync (filePath : string) (fs : Files) : bool :=
  match fs filePath with
  | Some _ => true
  | None => false
  end.

Definition readFileSync (filePath : string) (fs : Files)
    : Result (list Z) :=
  match fs filePath with
  | Some (File content _) => inr content
  | Some Directory =>
      inl (Error "EISDIR: illegal operation on a directory, read")
  | None => inl (Error "ENOENT: no such file or directory")
  end.

Definition writeFileSync (filePath : string) (content : list Z)
    (fs : Files) : Result Files :=
  match fs filePath with
  | Some (File _ false) => inl (Error "EACCES: permission denied")
  | Some Directory =>
      inl (Error "EISDIR: illegal operation on a directory, open")
  | _ =>
      inr (fun p => if String.eqb p filePath
                    then Some (File content true)
                    else fs p)
  end.

(** [content.slice(3)] *)
Definition slice3 (content : list Z) : list Z := skipn 3 content.

(** [content[i]], [undefined] past the end. *)
Definition byte_is (content : list Z) (i : nat) (b : Z) : bool :=
  match nth_error content i with
  | Some c => c =? b
  | None => false
  end.

(** The [catch] clause only prints: a throw leaves the files as they
    were. *)
Definition removeBOM (filePath : string) (fs : Files) : Files :=
  if negb (existsSync filePath fs) then fs
  else
    match readFileSync filePath fs with
    | inl _ => fs
    | inr content =>
        if (3 <=? List.length content)%nat
           && byte_is content 0 239
           && byte_is content 1 187
           && byte_is content 2 191
        then
          let cleanContent := slice3 content in
          match writeFileSync filePath cleanContent fs with
          | inl _ => fs
          | inr fs' => fs'
          end
        else fs
    end.

Definition fixAllFiles (fs : Files) : Files :=
  fold_left (fun fs file => removeBOM file fs) filesToCheck fs.

(** The UTF-8 byte order mark. *)
Definition BOM : list Z := [239; 187; 191].

(** What may become of the thing a path names. *)
Definition cleaned (before after : option Node) : Prop :=
  match before, after with
  | Some (File content w), Some (File content' w') =>
      w' = w /\ (content' = content \/ content = (BOM ++ content')%list)
  | Some Directory, Some Directory => True
  | None, None => True
  | _, _ => False
  end.

End Scripts.

(** ** Callers of the sample deployment *)

Module Callers.

(** The id a newcomer, Eva, is given. *)
Definition eva : uuid := "00000000-0000-0000-0000-000000000003".

(** Tokens as a toy [jwt.verify] reads them: one token for each of the
    two sample users and for the newcomer, one that has expired, and
    the rest malformed. *)
Definition verify (token : string) : Auth.Verified :=
  if String.eqb token "token-of-ana" then Auth.Payload (Some Sample.ana)
  else if String.eqb token "token-of-rui" then Auth.Payload (Some Sample.rui)
  else if String.eqb token "token-of-eva" then Auth.Payload (Some eva)
  else if String.eqb token "old-token" then Auth.Thrown "TokenExpiredError"
  else Auth.Thrown "JsonWebTokenError".

(** Ana administers; Rui is an affiliate. *)
Definition ana : Auth.UserRow :=
  {| Auth.id := Sample.ana; Auth.name := "Ana";
     Auth.email := "ana@example.com";
     Auth.password_hash := "hash-of-ana-secret";
     Auth.role := Some "admin"; Auth.is_active := Some true |}.

Definition rui : Auth.UserRow :=
  {| Auth.id := Sample.rui; Auth.name := "Rui";
     Auth.email := "rui@example.com";
     Auth.password_hash := "hash-of-rui-secret";
     Auth.role := Some "affiliate"; Auth.is_active := Some true |}.

Definition users : list Auth.UserRow := [ana; rui].

(** A toy [jwt.sign], which has a secret for these three only, and a
    toy [bcrypt]. *)
Definition sign (userId : uuid) (email : string) (role : option string)
    : Result string :=
  if String.eqb userId Sample.ana then inr "token-of-ana"
  else if String.eqb userId Sample.rui then inr "token-of-rui"
  else if String.eqb userId eva then inr "token-of-eva"
  else inl (Error "secretOrPrivateKey must have a value").

Definition hash (password : string) : string := "hash-of-" ++ password.

Definition compare (password hashed : string) : bool :=
  String.eqb hashed (hash password).

(** Eva registers, and asks to administer. *)
Definition eva_body : AuthRoutes.Body :=
  {| AuthRoutes.name := Some " Eva ";
     AuthRoutes.email := Some "eva@example.com";
     AuthRoutes.password := Some "eva-secret";
     AuthRoutes.role := Some "admin" |}.

Definition eva_login : AuthRoutes.Body :=
  {| AuthRoutes.name := None;
     AuthRoutes.email := Some "eva@example.com";
     AuthRoutes.password := Some "eva-secret";
     AuthRoutes.role := None |}.

Definition eva_row : Auth.UserRow :=
  {| Auth.id := eva; Auth.name := "Eva";
     Auth.email := "eva@example.com";
     Auth.password_hash := "hash-of-eva-secret";
     Auth.role := Some "admin"; Auth.is_active := Some true |}.

End Callers.


(** ** The sample deployment at other prices *)

Module Prices.

(** The sample store with the massage priced [price] cents and the
    rate of LUNA15 at [rate] hundredths of a percent. *)
Definition store (price rate : Z) : Store :=
  {| users := users Sample.store;
     affiliates :=
       [ {| a_id := Sample.luna15; a_user_id := Some Sample.ana;
            a_referral_code := "LUNA15";
            a_commission_rate := Some (rate # 100);
            a_total_referrals := Some 0;
            a_total_commission := Some 0%Q;
            a_is_active := Some true |};
         Sample.norate_affiliate ];
     therapists := therapists Sample.store;
     services :=
       [ {| s_id := Sample.massage;
            s_therapist_id := Some Sample.therapist;
            s_name := "Massagem"; s_price := price # 100;
            s_duration_minutes := Some 90; s_is_active := Some true |};
         Sample.reiki_service ];
     bookings := bookings Sample.store;
     commissions := commissions Sample.store |}.

End Prices.


(** ** The handlers on the sample deployment *)

Section Examples.
Import Sample.

(** A booking through LUNA15: six statements in one transaction, and a
    commission of 15% of 120. *)
Example create_with_code_log :
  log (snd (Bookings.create env (request (Some "LUNA15")) conn))
  = [ BEGIN;
      SelectService (Some massage) (Some therapist);
      SelectConflicts (Some therapist) (Some "2025-08-01") (Some "10:30");
      SelectAffiliateByCode (Some "LUNA15");
      InsertBooking (Some massage) (Some therapist) (Some luna15) (120 # 1);
      SelectAffiliateRate (Some luna15);
      InsertCommission (Some luna15) (Some (booking_uuid env))
        (18 # 1) (Some (15 # 1));
      COMMIT ].
Proof. reflexivity. Qed.

Example create_with_code_response :
  status (fst (Bookings.create env (request (Some "LUNA15")) conn)) = 201
  /\ List.length
       (commissions
          (db (snd (Bookings.create env (request (Some "LUNA15")) conn))))
     = 2%nat.
Proof. split; reflexivity. Qed.

(** The taken 09:00 slot. *)
Example create_clash_response :
  fst (Bookings.create env clash conn) = failure 500 "Horário não disponível".
Proof. reflexivity. Qed.

(** A blank code does not pass validation. *)
Example create_blank_code :
  fst (Bookings.create env (request (Some "   ")) conn)
  = {| status := 400; success := false;
       message_of := Some "Dados inválidos";
       data := ValidationErrors ["Código de afiliado inválido"] |}.
Proof. reflexivity. Qed.

(** Page 2 of the bookings, one per page: the later booking of
    2025-08-01 comes first, so page 2 holds the morning one. *)
Example second_page :
  data (fst (Bookings.index
               {| Bookings.q_page := Some "2"; Bookings.q_limit := Some "1";
                  Bookings.q_status := None;
                  Bookings.q_therapist_id := None;
                  Bookings.q_affiliate_id := None;
                  Bookings.q_date_from := None;
                  Bookings.q_date_to := None |} conn))
  = BookingsPage [morning_booking] 2 1 3 3.
Proof. reflexivity. Qed.

Example limit_too_large :
  status (fst (Bookings.index
                 {| Bookings.q_page := None; Bookings.q_limit := Some "101";
                    Bookings.q_status := None;
                    Bookings.q_therapist_id := None;
                    Bookings.q_affiliate_id := None;
                    Bookings.q_date_from := None;
                    Bookings.q_date_to := None |} conn))
  = 400.
Proof. reflexivity. Qed.

(** The 09:00 booking lasts 90 minutes: 08:30 to 10:00 are withheld. *)
Example availability_on_the_day :
  data (fst (Therapists.availability therapist (Some "2025-08-01") conn))
  = Availability "2025-08-01"
      [ "08:00"; "10:30"; "11:00"; "11:30"; "12:00"; "12:30"; "13:00";
        "13:30"; "14:00"; "14:30"; "15:00"; "15:30"; "16:00"; "16:30";
        "17:00"; "17:30" ]
      [540].
Proof. reflexivity. Qed.

(** Paying the owed commission credits the affiliate. *)
Example pay_owed :
  status (fst (Commissions.pay env owed payment conn)) = 200
  /\ map a_total_commission
       (affiliates (db (snd (Commissions.pay env owed payment conn))))
     = [Some (0 + (18 # 1))%Q; Some 0%Q].
Proof. split; reflexivity. Qed.

End Examples.

(** * Properties *)

Local Open Scope list_scope.

(** ** The connection monad *)

Section AsyncFacts.
Context {A B : Type}.

Lemma bind_query (s : Stmt) (run : Store -> Result A) (k : A -> Async B) c :
  (x <- query s run ;; k x) c =
  match run (db c) with
  | inl e => (inl e, {| db := db c; log := log c ++ [s] |})
  | inr a => k a {| db := db c; log := log c ++ [s] |}
  end.
Proof. unfold bind, query. destruct (run (db c)); reflexivity. Qed.

Lemma bind_execute (s : Stmt) (run : Store -> Result (A * Store))
    (k : A -> Async B) c :
  (x <- execute s run ;; k x) c =
  match run (db c) with
  | inl e => (inl e, {| db := db c; log := log c ++ [s] |})
  | inr (a, d) => k a {| db := d; log := log c ++ [s] |}
  end.
Proof. unfold bind, execute. destruct (run (db c)) as [e | [a d]]; reflexivity. Qed.

Lemma bind_ret (a : A) (k : A -> Async B) c : (x <- ret a ;; k x) c = k a c.
Proof. reflexivity. Qed.

End AsyncFacts.

(** [transaction] hands back the store it was given whenever the
    callback throws, and the callback's store when it returns. *)
Lemma transaction_inl {A} (callback : Async A) c e c' :
  transaction callback c = (inl e, c') -> db c' = db c.
Proof.
  unfold transaction.
  destruct (callback _) as [[e0 | a] c1]; intros H; inversion H; reflexivity.
Qed.

Lemma transaction_inr {A} (callback : Async A) c a c' :
  transaction callback c = (inr a, c') ->
  exists c1,
    callback {| db := db c; log := log c ++ [BEGIN] |} = (inr a, c1)
    /\ db c' = db c1 /\ log c' = log c1 ++ [COMMIT].
Proof.
  unfold transaction.
  destruct (callback _) as [[e0 | a0] c1] eqn:E; intros H; inversion H; subst.
  exists c1. simpl. auto.
Qed.
(** ** Numbers *)

Section Numbers.
Import Spec.
Local Open Scope Z_scope.

Lemma ilog2_lower n d :
  0 < n ->
  (0 <= ilog2 n d -> Zpos d * 2 ^ ilog2 n d <= n)
  /\ (ilog2 n d < 0 -> Zpos d <= n * 2 ^ (- ilog2 n d)).
Proof.
  intros Hn. unfold ilog2. cbv zeta.
  set (k := Z.log2 n - Z.log2 (Zpos d)).
  pose proof (Z.log2_spec n Hn) as [Hn1 Hn2].
  pose proof (Z.log2_spec (Zpos d) (Pos2Z.is_pos d)) as [Hd1 Hd2].
  pose proof (Z.log2_nonneg n) as Ln.
  pose proof (Z.log2_nonneg (Zpos d)) as Ld.
  destruct (0 <=? k) eqn:Hk.
  - apply Z.leb_le in Hk.
    destruct (Zpos d * 2 ^ k <=? n) eqn:Hc.
    + apply Z.leb_le in Hc. split; [auto |].
      intros Hneg. exfalso. clear - Hk Hneg. lia.
    + apply Z.leb_gt in Hc. split.
      * intros Hk1.
        (* d * 2^(k-1) < 2^(log2 d + 1) * 2^(k-1) = 2^(log2 n) <= n *)
        assert (2 ^ (Z.succ (Z.log2 (Zpos d))) * 2 ^ (k - 1) = 2 ^ Z.log2 n) as E.
        { rewrite <- Z.pow_add_r by lia. f_equal. unfold k. lia. }
        assert (0 < 2 ^ (k - 1)) by (apply Z.pow_pos_nonneg; lia).
        rewrite Z.pow_succ_r in E by lia.
        rewrite Z.pow_succ_r in Hd2 by lia.
        assert (Z.pos d * 2 ^ (k - 1) <= 2 ^ Z.log2 (Z.pos d) * 2 * 2 ^ (k - 1))
          by (apply Z.mul_le_mono_nonneg_r; lia).
        lia.
      * intros Hneg. assert (k = 0) as K0 by lia.
        (* k - 1 = -1: d <= n * 2 *)
        replace (- (k - 1)) with 1 by lia. rewrite Z.pow_1_r.
        rewrite K0 in Hc. rewrite Z.pow_0_r in Hc.
        assert (Z.log2 n = Z.log2 (Zpos d)) as El by (unfold k in K0; lia).
        rewrite El in Hn1.
        rewrite Z.pow_succ_r in Hd2 by lia. lia.
  - apply Z.leb_gt in Hk.
    destruct (Zpos d <=? n * 2 ^ (- k)) eqn:Hc.
    + apply Z.leb_le in Hc. split; [| auto].
      intros Hpos. exfalso. clear - Hk Hpos. lia.
    + split; [intros Hpos; exfalso; clear - Hk Hpos; lia |]. intros _.
      replace (- (k - 1)) with (Z.succ (- k)) by lia.
      rewrite Z.pow_succ_r by lia.
      (* d < 2^(log2 d + 1) = 2^(log2 n) * 2^(-k) * 2 <= n * 2^(-k) * 2 *)
      assert (2 ^ Z.log2 n * 2 ^ (- k) = 2 ^ Z.log2 (Zpos d)) as E.
      { rewrite <- Z.pow_add_r by lia. f_equal. unfold k. lia. }
      assert (0 < 2 ^ (- k)) by (apply Z.pow_pos_nonneg; lia).
      rewrite Z.pow_succ_r in Hd2 by lia.
      assert (2 ^ Z.log2 n * 2 ^ (- k) <= n * 2 ^ (- k))
        by (apply Z.mul_le_mono_nonneg_r; lia).
      lia.
Qed.

Lemma nearest_even_err a b :
  0 < b -> 2 * Z.abs (nearest_even a b * b - a) <= b.
Proof.
  intros Hb. unfold nearest_even. cbv zeta.
  pose proof (Z.div_mod a b ltac:(lia)) as Hdm.
  pose proof (Z.mod_pos_bound a b Hb) as Hm.
  set (f := a / b) in *. set (r := a mod b) in *. clearbody f r. subst a.
  assert (f * b - (b * f + r) = - r) as Elo by ring.
  assert ((f + 1) * b - (b * f + r) = b - r) as Ehi by ring.
  destruct (2 * r ?= b) eqn:C.
  - apply Z.compare_eq in C. destruct (Z.even f); rewrite ?Elo, ?Ehi; lia.
  - rewrite Z.compare_lt_iff in C. rewrite Elo. lia.
  - rewrite Z.compare_gt_iff in C. rewrite Ehi. lia.
Qed.

Lemma nearest_even_lower a b m :
  0 < b -> m * b <= a -> m <= nearest_even a b.
Proof.
  intros Hb H. unfold nearest_even. cbv zeta.
  assert (m <= a / b) by (apply Z.div_le_lower_bound; lia).
  destruct (2 * (a mod b) ?= b); [destruct (Z.even (a / b)) | |]; lia.
Qed.


Lemma nearest53_err n d :
  0 < n ->
  (Qabs (nearest53 n d - (n # d)) <= (n # d) * eps)%Q.
Proof.
  intros Hn. unfold nearest53. cbv zeta. rewrite Qred_correct.
  pose proof (ilog2_lower n d Hn) as [Hlo1 Hlo2].
  set (E := ilog2 n d) in *.
  destruct (0 <=? E - 52) eqn:He.
  - apply Z.leb_le in He.
    assert (0 < 2 ^ (E - 52)) as Hp by (apply Z.pow_pos_nonneg; lia).
    set (B := Zpos d * 2 ^ (E - 52)).
    assert (0 < B) as HB by (unfold B; lia).
    pose proof (nearest_even_err n B HB) as Herr.
    set (m := nearest_even n B) in *.
    assert (2 ^ 52 * B <= n) as Hbig.
    { unfold B. replace (2 ^ 52 * (Zpos d * 2 ^ (E - 52)))
        with (Zpos d * (2 ^ 52 * 2 ^ (E - 52))) by ring.
      rewrite <- Z.pow_add_r by lia.
      replace (52 + (E - 52)) with E by lia. apply Hlo1. lia. }
    unfold Qle, Qabs, Qminus, Qplus, Qopp, Qmult, inject_Z, eps.
    cbn [Qnum Qden].
    change (1 * d)%positive with d. rewrite Pos2Z.inj_mul.
    change (Zpos (2 ^ 53)) with (2 * 2 ^ 52).
    replace (m * 2 ^ (E - 52) * Zpos d + - n * 1) with (m * B - n)
      by (unfold B; ring).
    set (D := Z.abs (m * B - n)) in *.
    assert (0 <= D) by apply Z.abs_nonneg.
    replace (D * (Zpos d * (2 * 2 ^ 52))) with ((2 * D * 2 ^ 52) * Zpos d)
      by ring.
    replace (n * 1 * Zpos d) with (n * Zpos d) by ring.
    apply Z.mul_le_mono_nonneg_r; [lia |].
    assert (2 * D * 2 ^ 52 <= B * 2 ^ 52)
      by (apply Z.mul_le_mono_nonneg_r; lia).
    lia.
  - apply Z.leb_gt in He.
    set (k := - (E - 52)) in *.
    assert (0 < k) as Hk by (unfold k; lia).
    assert (0 < 2 ^ k) as Hp by (apply Z.pow_pos_nonneg; lia).
    pose proof (nearest_even_err (n * 2 ^ k) (Zpos d) (Pos2Z.is_pos d)) as Herr.
    set (m := nearest_even (n * 2 ^ k) (Zpos d)) in *.
    assert (Zpos d * 2 ^ 52 <= n * 2 ^ k) as Hbig.
    { destruct (Z_le_gt_dec 0 E) as [HE | HE].
      - specialize (Hlo1 HE).
        assert (2 ^ 52 = 2 ^ E * 2 ^ k) as ->.
        { rewrite <- Z.pow_add_r by lia. f_equal. unfold k. lia. }
        rewrite Z.mul_assoc. apply Z.mul_le_mono_nonneg_r; lia.
      - specialize (Hlo2 ltac:(lia)).
        assert (2 ^ k = 2 ^ (- E) * 2 ^ 52) as ->.
        { rewrite <- Z.pow_add_r by lia. f_equal. unfold k. lia. }
        rewrite Z.mul_assoc. apply Z.mul_le_mono_nonneg_r; lia. }
    unfold Qle, Qabs, Qminus, Qplus, Qopp, Qmult, eps.
    cbn [Qnum Qden].
    rewrite !Pos2Z.inj_mul. rewrite Z2Pos.id by lia.
    change (Zpos (2 ^ 53)) with (2 * 2 ^ 52).
    replace (m * Zpos d + - n * 2 ^ k) with (m * Zpos d - n * 2 ^ k) by ring.
    set (D := Z.abs (m * Zpos d - n * 2 ^ k)) in *.
    assert (0 <= D) by apply Z.abs_nonneg.
    (* D * (d * (2 * 2^52)) <= n * 1 * (2^k * d);  2 D <= d; d 2^52 <= n 2^k *)
    assert (D * (Zpos d * (2 * 2 ^ 52)) = (2 * D) * (Zpos d * 2 ^ 52)) as -> by ring.
    replace (n * 1 * (2 ^ k * Zpos d)) with (Zpos d * (n * 2 ^ k)) by ring.
    apply Z.mul_le_mono_nonneg; lia.
Qed.

Local Open Scope Q_scope.

Lemma binary64_err x : Qabs (binary64 x - x) <= Qabs x * eps.
Proof.
  destruct x as [[| n | n] d]; unfold binary64; cbn [Qnum Qden].
  - apply Qle_bool_imp_le. reflexivity.
  - pose proof (nearest53_err (Zpos n) d ltac:(lia)) as H.
    rewrite (Qabs_pos (Zpos n # d)); [exact H |].
    unfold Qle. cbn. lia.
  - pose proof (nearest53_err (Zpos n) d ltac:(lia)) as H.
    assert (- nearest53 (Z.pos n) d - (Z.neg n # d)
            == - (nearest53 (Z.pos n) d - (Z.pos n # d))) as ->.
    { change (Z.neg n # d) with (- (Z.pos n # d)). ring. }
    rewrite Qabs_opp.
    assert (Qabs (Z.neg n # d) == (Zpos n # d)) as ->.
    { change (Z.neg n # d) with (- (Z.pos n # d)). rewrite Qabs_opp.
      apply Qabs_pos. unfold Qle. cbn. lia. }
    exact H.
Qed.


Lemma approx_round x : approx (binary64 x) x eps.
Proof. apply binary64_err. Qed.

Lemma approx_mul A a alpha B b beta :
  0 <= alpha -> 0 <= beta ->
  approx A a alpha -> approx B b beta ->
  approx (A * B) (a * b) (alpha + beta + alpha * beta).
Proof.
  unfold approx. intros Ha Hb HA HB.
  assert (A * B - a * b == (A - a) * b + a * (B - b) + (A - a) * (B - b))
    as -> by ring.
  eapply Qle_trans; [apply Qabs_triangle |].
  eapply Qle_trans; [apply Qplus_le_compat; [apply Qabs_triangle | apply Qle_refl] |].
  rewrite !Qabs_Qmult.
  pose proof (Qabs_nonneg a) as Na. pose proof (Qabs_nonneg b) as Nb.
  pose proof (Qabs_nonneg (A - a)) as NA. pose proof (Qabs_nonneg (B - b)) as NB.
  assert (Qabs (A - a) * Qabs b <= Qabs a * alpha * Qabs b) as H1.
  { apply Qmult_le_compat_r; assumption. }
  assert (Qabs a * Qabs (B - b) <= Qabs a * (Qabs b * beta)) as H2.
  { rewrite !(Qmult_comm (Qabs a)). apply Qmult_le_compat_r; assumption. }
  assert (Qabs (A - a) * Qabs (B - b) <= (Qabs a * alpha) * (Qabs b * beta)) as H3.
  { apply Qmult_le_compat_nonneg; split; assumption. }
  assert (Qabs a * Qabs b * (alpha + beta + alpha * beta)
          == Qabs a * alpha * Qabs b + Qabs a * (Qabs b * beta)
             + (Qabs a * alpha) * (Qabs b * beta)) as -> by ring.
  apply Qplus_le_compat; [apply Qplus_le_compat |]; assumption.
Qed.

Lemma approx_then A a alpha Z z :
  0 <= alpha -> 0 <= z ->
  approx A a alpha -> approx Z A z ->
  approx Z a (alpha + z + alpha * z).
Proof.
  unfold approx. intros Ha Hz HA HZ.
  assert (Z - a == (Z - A) + (A - a)) as -> by ring.
  eapply Qle_trans; [apply Qabs_triangle |].
  pose proof (Qabs_nonneg a) as Na.
  assert (Qabs A <= Qabs a + Qabs a * alpha) as HAa.
  { assert (A == a + (A - a)) as E by ring.
    rewrite E at 1. eapply Qle_trans; [apply Qabs_triangle |].
    apply Qplus_le_compat; [apply Qle_refl | assumption]. }
  assert (Qabs A * z <= (Qabs a + Qabs a * alpha) * z) as H1.
  { apply Qmult_le_compat_r; assumption. }
  assert (Qabs a * (alpha + z + alpha * z)
          == (Qabs a + Qabs a * alpha) * z + Qabs a * alpha) as -> by ring.
  apply Qplus_le_compat; [| assumption].
  eapply Qle_trans; [exact HZ | exact H1].
Qed.

Lemma approx_scale A a alpha k :
  approx A a alpha -> approx (A * k) (a * k) alpha.
Proof.
  unfold approx. intros H.
  assert (A * k - a * k == (A - a) * k) as -> by ring.
  rewrite !Qabs_Qmult.
  assert (Qabs a * Qabs k * alpha == Qabs a * alpha * Qabs k) as -> by ring.
  apply Qmult_le_compat_r; [assumption | apply Qabs_nonneg].
Qed.

Local Close Scope Q_scope.

Local Open Scope Q_scope.

Lemma binary64_opp x : binary64 (- x) = - binary64 x.
Proof.
  destruct x as [[| n | n] d]; unfold binary64, Qopp; cbn [Qnum Qden Z.opp];
    try reflexivity.
  destruct (nearest53 (Z.pos n) d) as [m p]. cbn [Qnum Qden].
  now rewrite Z.opp_involutive.
Qed.

Lemma shortest_loop_reads fuel x j :
  shortest_loop fuel x j = x \/ binary64 (shortest_loop fuel x j) == x.
Proof.
  revert j. induction fuel as [| f IH]; intros j; [now left |].
  cbn [shortest_loop]. unfold candidate. cbv zeta.
  set (lo := inject_Z (Qfloor (x / pow10 j)) * pow10 j).
  set (hi := inject_Z (Qfloor (x / pow10 j) + 1) * pow10 j).
  destruct (Qeq_bool (binary64 lo) x) eqn:Hlo;
    destruct (Qeq_bool (binary64 hi) x) eqn:Hhi.
  - right. destruct (x - lo ?= hi - x);
      [destruct (Z.even (Qfloor (x / pow10 j))) | |];
      apply Qeq_bool_eq; assumption.
  - right. now apply Qeq_bool_eq.
  - right. now apply Qeq_bool_eq.
  - apply IH.
Qed.

(** The decimal [String(x)] writes reads back as [x]. *)
Lemma shortest_close x : approx x (shortest x) eps.
Proof.
  assert (forall y c, c = y \/ binary64 c == y -> approx y c eps) as Hone.
  { intros y c [-> | H]; unfold approx.
    - assert (y - y == 0) as -> by ring.
      change (Qabs 0) with 0. apply Qmult_le_0_compat;
        [apply Qabs_nonneg | discriminate].
    - rewrite <- H. apply binary64_err. }
  destruct x as [[| n | n] d]; unfold shortest; cbn [Qnum].
  - apply Hone. right. unfold binary64, Qeq. cbn. reflexivity.
  - apply Hone. apply shortest_loop_reads.
  - set (y := - (Z.neg n # d)).
    pose proof (Hone y _ (shortest_loop_reads 20 y (exponent10 y - 1))) as H.
    unfold approx in *. rewrite Qabs_opp.
    assert ((Z.neg n # d) - - shortest_loop 20 y (exponent10 y - 1)
            == - (y - shortest_loop 20 y (exponent10 y - 1))) as ->.
    { unfold y. ring. }
    rewrite Qabs_opp. exact H.
Qed.

Lemma round_scale_cents q : exists C : Z, round_scale 100 q = C # 100.
Proof.
  unfold round_scale. cbv zeta.
  destruct (Qnum q <? 0)%Z; eexists; reflexivity.
Qed.

Lemma round_scale_err q : Qabs (round_scale 100 q - q) <= 1 # 200.
Proof.
  unfold round_scale. cbv zeta.
  set (a := Qabs q * inject_Z 100 + (1 # 2)).
  pose proof (Qfloor_le a) as Hlo. pose proof (Qlt_floor a) as Hhi.
  set (m := Qfloor a) in *.
  assert (inject_Z m == (m # 100) * inject_Z 100) as Em.
  { unfold Qeq, Qmult, inject_Z. cbn. lia. }
  assert (inject_Z (m + 1) == (m # 100) * inject_Z 100 + 1) as Em1.
  { unfold Qeq, Qmult, Qplus, inject_Z. cbn. lia. }
  rewrite Em in Hlo. rewrite Em1 in Hhi. unfold a in Hlo, Hhi.
  change (Z.to_pos 100) with 100%positive.
  assert (Qabs ((m # 100) - Qabs q) <= 1 # 200) as Habs.
  { apply Qabs_Qle_condition. change (inject_Z 100) with 100 in *.
    split; lra. }
  destruct (Qnum q <? 0)%Z eqn:Hs.
  - apply Z.ltb_lt in Hs.
    assert (q <= 0) as Hq by (unfold Qle; cbn; lia).
    rewrite (Qabs_neg q Hq) in Habs.
    assert (- (m # 100) - q == - ((m # 100) - - q)) as -> by ring.
    rewrite Qabs_opp. exact Habs.
  - apply Z.ltb_ge in Hs.
    assert (0 <= q) as Hq by (unfold Qle; cbn; lia).
    rewrite (Qabs_pos q Hq) in Habs. exact Habs.
Qed.


Lemma commission_approx price rate :
  approx (commission price rate) (price * rate / 100) eta3.
Proof.
  unfold commission, div, mul, eta3. cbv zeta.
  assert (0 <= eps) as He by discriminate.
  apply approx_then with (A := binary64 (binary64 price * binary64 rate) / 100).
  - apply Qle_bool_imp_le. reflexivity.
  - exact He.
  - unfold Qdiv. apply approx_scale.
    apply approx_then with (A := binary64 price * binary64 rate).
    + apply Qle_bool_imp_le. reflexivity.
    + exact He.
    + apply approx_mul; try exact He; apply approx_round.
    + apply approx_round.
  - apply approx_round.
Qed.

(** The amount of a commission as the DECIMAL(10,2) column stores it
    is the percentage of the price to the nearest cent. *)
Lemma stored_amount P R price rate :
  price == P # 100 -> rate == R # 100 ->
  let a := round_scale 100 (shortest (commission price rate)) in
  Qabs a < inject_Z (10 ^ 8) ->
  Qabs (a - price * rate / 100) <= 1 # 200.
Proof.
  intros Hp Hr a Hfit.
  set (D := commission price rate) in *.
  set (t := shortest D) in *.
  set (q := price * rate / 100).
  pose proof (commission_approx price rate) as HD. fold D q in HD.
  pose proof (shortest_close D) as Ht. fold t in Ht.
  pose proof (round_scale_err t) as Ha. fold a in Ha.
  unfold approx in HD, Ht.
  pose proof (Qabs_nonneg t) as Nt. pose proof (Qabs_nonneg q) as Nq.
  pose proof (Qabs_nonneg D) as ND.
  (* |t| <= 10^8 + 1/200 *)
  assert (Qabs t <= inject_Z (10 ^ 8) + (1 # 200)) as HT.
  { assert (t == a + - (a - t)) as E by ring.
    rewrite E. eapply Qle_trans; [apply Qabs_triangle |].
    rewrite Qabs_opp. apply Qplus_le_compat; [apply Qlt_le_weak |]; assumption. }
  (* |D| <= 2 |t| *)
  assert (Qabs D <= 2 * Qabs t) as HDt.
  { assert (D == t + (D - t)) as E by ring.
    rewrite E at 1. eapply Qle_trans; [apply Qabs_triangle |].
    assert (Qabs t * eps <= Qabs t * 1) as H1.
    { rewrite !(Qmult_comm (Qabs t)). apply Qmult_le_compat_r;
        [discriminate | assumption]. }
    lra. }
  (* |q| <= 2 |D| *)
  assert (Qabs q <= 2 * Qabs D) as HqD.
  { pose proof (Qabs_triangle_reverse q D) as Hrev.
    assert (Qabs (q - D) == Qabs (D - q)) as Esym.
    { assert (q - D == - (D - q)) as -> by ring. apply Qabs_opp. }
    rewrite Esym in Hrev.
    assert (Qabs q * eta3 <= Qabs q * (1 # 2)) as H1.
    { rewrite !(Qmult_comm (Qabs q)). apply Qmult_le_compat_r;
        [apply Qle_bool_imp_le; reflexivity | assumption]. }
    lra. }
  (* |t - q| <= (eps + 4 eta3) (10^8 + 1/200) < 1/10^6 *)
  assert (Qabs (t - q) <= (eps + 4 * eta3) * (inject_Z (10 ^ 8) + (1 # 200)))
    as Htq.
  { assert (t - q == - (D - t) + (D - q)) as -> by ring.
    eapply Qle_trans; [apply Qabs_triangle |]. rewrite Qabs_opp.
    assert (Qabs t * eps <= (inject_Z (10 ^ 8) + (1 # 200)) * eps) as H1.
    { apply Qmult_le_compat_r; [assumption | discriminate]. }
    assert (Qabs q * eta3 <= (4 * (inject_Z (10 ^ 8) + (1 # 200))) * eta3)
      as H2.
    { apply Qmult_le_compat_r; [lra | apply Qle_bool_imp_le; reflexivity]. }
    lra. }
  assert ((eps + 4 * eta3) * (inject_Z (10 ^ 8) + (1 # 200)) < 1 # 10 ^ 6)
    as Hsmall by reflexivity.
  assert (Qabs (a - q) < 5001 # 10 ^ 6) as Hclose.
  { assert (a - q == (a - t) + (t - q)) as -> by ring.
    eapply Qle_lt_trans; [apply Qabs_triangle |]. 
    assert ((5001 # 10 ^ 6) == (1 # 200) + (1 # 10 ^ 6)) as -> by reflexivity.
    lra. }
  (* cents against millionths *)
  destruct (round_scale_cents t) as [C HC]. fold a in HC.
  assert (q == (P * R) # 10 ^ 6) as Eq.
  { unfold q. rewrite Hp, Hr. unfold Qeq, Qdiv, Qmult, Qinv. cbn. lia. }
  clearbody a q. subst a. rewrite Eq in Hclose |- *.
  revert Hclose. unfold Qlt, Qle, Qabs, Qminus, Qplus, Qopp. cbn [Qnum Qden].
  change (Z.pos (100 * 10 ^ 6)) with (100000000)%Z.
  change (Z.pos (10 ^ 6)) with (1000000)%Z.
  change (Z.pos 100) with 100%Z. change (Z.pos 200) with 200%Z.
  lia.
Qed.

Local Close Scope Q_scope.


Lemma nearest_even_one a : nearest_even a 1 = a.
Proof.
  unfold nearest_even. cbv zeta. rewrite Z.div_1_r, Z.mod_1_r. reflexivity.
Qed.

Lemma ilog2_integer n : 0 < n -> ilog2 n 1 = Z.log2 n.
Proof.
  intros Hn. unfold ilog2. cbv zeta. change (Z.log2 1) with 0.
  rewrite Z.sub_0_r. pose proof (Z.log2_nonneg n) as Hl.
  pose proof (Z.log2_spec n Hn) as [H1 _].
  assert ((0 <=? Z.log2 n) = true) as -> by (apply Z.leb_le; lia).
  assert ((1 * 2 ^ Z.log2 n <=? n) = true) as -> by (apply Z.leb_le; lia).
  reflexivity.
Qed.

Lemma nearest53_integer_pos n : 0 < n -> 1 <= Qfloor (nearest53 n 1).
Proof.
  intros Hn. unfold nearest53. cbv zeta.
  rewrite (Qfloor_comp _ _ (Qred_correct _)), (ilog2_integer n Hn).
  pose proof (Z.log2_spec n Hn) as [H1 H2].
  pose proof (Z.log2_nonneg n) as Hl.
  destruct (0 <=? Z.log2 n - 52) eqn:He.
  - apply Z.leb_le in He. rewrite Qfloor_Z.
    assert (0 < 2 ^ (Z.log2 n - 52)) as Hp by (apply Z.pow_pos_nonneg; lia).
    assert (1 <= nearest_even n (1 * 2 ^ (Z.log2 n - 52))) as Hm.
    { apply nearest_even_lower; [lia |].
      assert (2 ^ (Z.log2 n - 52) <= 2 ^ Z.log2 n)
        by (apply Z.pow_le_mono_r; lia).
      lia. }
    nia.
  - apply Z.leb_gt in He. rewrite nearest_even_one.
    assert (0 < 2 ^ (- (Z.log2 n - 52))) as Hp
      by (apply Z.pow_pos_nonneg; lia).
    unfold Qfloor. rewrite Z2Pos.id by assumption.
    rewrite Z.div_mul by lia. lia.
Qed.

Lemma Qfloor_opp_integer (y : Q) (n : Z) :
  (y == inject_Z n)%Q -> Qfloor (- y) = - n.
Proof.
  intros H. rewrite (Qfloor_comp (- y) (inject_Z (- n))).
  - apply Qfloor_Z.
  - rewrite H. unfold Qeq, Qopp, inject_Z. cbn. lia.
Qed.

Lemma nearest53_integer_value n :
  0 < n -> n <= 2 ^ 53 -> (nearest53 n 1 == inject_Z n)%Q.
Proof.
  intros Hn Hle. unfold nearest53. cbv zeta.
  rewrite Qred_correct, (ilog2_integer n Hn).
  pose proof (Z.log2_spec n Hn) as [H1 H2].
  pose proof (Z.log2_nonneg n) as Hl.
  assert (Z.log2 n <= 53) as Hb.
  { destruct (Z_le_gt_dec (Z.log2 n) 53) as [H | H]; [exact H |].
    assert (2 ^ 54 <= 2 ^ Z.log2 n) by (apply Z.pow_le_mono_r; lia).
    change (2 ^ 54) with (2 * 2 ^ 53) in *. lia. }
  destruct (0 <=? Z.log2 n - 52) eqn:He.
  - apply Z.leb_le in He.
    assert (Z.log2 n = 52 \/ Z.log2 n = 53) as [E | E] by lia; rewrite E in *.
    + change (2 ^ (52 - 52)) with 1. rewrite Z.mul_1_r.
      change (1 * 1) with 1. now rewrite nearest_even_one.
    + change (2 ^ (53 - 52)) with 2. change (1 * 2) with 2.
      assert (n = 2 ^ 53) as -> by lia. reflexivity.
  - apply Z.leb_gt in He. rewrite nearest_even_one.
    assert (0 < 2 ^ (- (Z.log2 n - 52))) as Hp
      by (apply Z.pow_pos_nonneg; lia).
    unfold Qeq, inject_Z. cbn [Qnum Qden]. rewrite Z2Pos.id by assumption.
    lia.
Qed.

(** An integer of at most 53 bits is a number. *)
Lemma integer_exact n : Z.abs n <= 2 ^ 53 -> integer n = n.
Proof.
  intros H. unfold integer, binary64, inject_Z. cbn [Qnum Qden].
  destruct n as [| p | p]; [reflexivity | |].
  - rewrite (Qfloor_comp _ _ (nearest53_integer_value (Zpos p)
                                ltac:(lia) ltac:(lia))).
    apply Qfloor_Z.
  - apply (Qfloor_opp_integer _ (Zpos p)).
    apply nearest53_integer_value; lia.
Qed.

Lemma integer_pos n : 1 <= n -> 1 <= integer n.
Proof.
  intros H. unfold integer, binary64, inject_Z. cbn [Qnum Qden].
  destruct n as [| p | p]; try lia.
  apply nearest53_integer_pos. lia.
Qed.


Local Open Scope Q_scope.

Lemma cents_value q : cents q = true -> exists n : Z, q == n # 100.
Proof.
  unfold cents. intros H. apply Qeq_bool_eq in H.
  exists (Qfloor (q * inject_Z 100)).
  set (n := Qfloor (q * inject_Z 100)) in *. clearbody n.
  revert H. unfold Qeq, Qmult, inject_Z. cbn [Qnum Qden]. lia.
Qed.

Lemma value_cents q n : q == n # 100 -> cents q = true.
Proof.
  intros H. unfold cents. apply Qeq_eq_bool.
  assert (q * inject_Z 100 == inject_Z n) as E.
  { rewrite H. unfold Qeq, Qmult, inject_Z. cbn [Qnum Qden]. lia. }
  rewrite (Qfloor_comp _ _ E), Qfloor_Z. exact E.
Qed.

(** What [numeric 10 2] lets through. *)
Lemma numeric_stored t a :
  numeric 10 2 t = inr a ->
  a = round_scale 100 t /\ Qabs a < inject_Z (10 ^ 8).
Proof.
  unfold numeric. cbv zeta. change (10 ^ 2)%Z with 100%Z.
  change (10 ^ (10 - 2))%Z with (10 ^ 8)%Z.
  destruct (Qle_bool (inject_Z (10 ^ 8)) (Qabs (round_scale 100 t))) eqn:H;
    [discriminate |].
  intros E. injection E as <-. split; [reflexivity |].
  apply Qnot_le_lt. intros Hle. apply Qle_bool_iff in Hle. congruence.
Qed.

(** Two amounts in cents that are within half a cent of each other,
    strictly, are the same. *)
Lemma cents_apart a q :
  cents a = true -> cents q = true ->
  Qabs (a - q) <= 1 # 200 -> a == q.
Proof.
  intros Ha Hq. destruct (cents_value a Ha) as [C EC].
  destruct (cents_value q Hq) as [N EN]. rewrite EC, EN.
  unfold Qle, Qeq, Qabs, Qminus, Qplus, Qopp. cbn [Qnum Qden].
  change (Z.pos (100 * 100)) with 10000%Z.
  change (Z.pos 100) with 100%Z. change (Z.pos 200) with 200%Z. lia.
Qed.

Local Close Scope Q_scope.

End Numbers.

(** ** Statements *)

Section PgFacts.
Context {L : Library}.

Lemma param_some {A} ty (input : string -> option A) s v :
  input s = Some v -> param ty input (Some s) = inr (Some v).
Proof. intros H. unfold param. rewrite H. reflexivity. Qed.

Lemma param_inr {A} ty (input : string -> option A) p v :
  param ty input p = inr v ->
  match p with
  | None => v = None
  | Some s => exists a, input s = Some a /\ v = Some a
  end.
Proof.
  unfold param. destruct p as [s |].
  - destruct (input s) as [a |] eqn:E; intros H; inversion H. eauto.
  - intros H. inversion H. reflexivity.
Qed.

Lemma eq_sql_string (a b : option string) :
  eq_sql String.eqb a b = true <-> exists x, a = Some x /\ b = Some x.
Proof.
  destruct a as [x |], b as [y |]; simpl; split;
    try discriminate; try (intros [z [H1 H2]]; discriminate).
  - intros H. apply String.eqb_eq in H. subst. eauto.
  - intros [z [H1 H2]]. inversion H1; inversion H2; subst. apply String.eqb_refl.
Qed.

Lemma eq_sql_Z (a b : option Z) :
  eq_sql Z.eqb a b = true <-> exists x, a = Some x /\ b = Some x.
Proof.
  destruct a as [x |], b as [y |]; simpl; split;
    try discriminate; try (intros [z [H1 H2]]; discriminate).
  - intros H. apply Z.eqb_eq in H. subst. eauto.
  - intros [z [H1 H2]]. inversion H1; inversion H2; subst. apply Z.eqb_refl.
Qed.

(** A booking [bk] blocks a request for [(tid, d, t)]. *)
Lemma select_conflicts_hit tid d t db bk tv :
  In bk (bookings db) ->
  uuid_in tid = Some tv -> b_therapist_id bk = Some tv ->
  date_in d = Some (b_scheduled_date bk) ->
  time_in t = Some (b_scheduled_time bk) ->
  active (b_status bk) = true ->
  exists rows,
    select_conflicts (Some tid) (Some d) (Some t) db = inr rows
    /\ In bk rows.
Proof.
  intros Hin Ht Hbt Hd Htm Hact.
  unfold select_conflicts.
  rewrite (param_some _ _ _ _ Ht), (param_some _ _ _ _ Hd),
    (param_some _ _ _ _ Htm).
  simpl. eexists. split; [reflexivity |].
  apply filter_In. split; [assumption |].
  rewrite Hbt, Hact. simpl.
  rewrite String.eqb_refl, !Z.eqb_refl. reflexivity.
Qed.


Lemma insert_booking_inr env sid tid aid name email phone d t notes price
    db bk db1 :
  insert_booking env sid tid aid name email phone d t notes price db
  = inr (bk, db1) ->
  db1 = with_bookings db (bookings db ++ [bk])
  /\ b_id bk = booking_uuid env
  /\ param "uuid" uuid_in sid = inr (b_service_id bk)
  /\ param "uuid" uuid_in tid = inr (b_therapist_id bk)
  /\ param "uuid" uuid_in aid = inr (b_affiliate_id bk)
  /\ b_total_amount bk = price
  /\ b_status bk = Pending.
Proof.
  unfold insert_booking, and_then, not_null.
  destruct (param "uuid" uuid_in sid) as [? | s']; [discriminate |].
  destruct (param "uuid" uuid_in tid) as [? | t']; [discriminate |].
  destruct (param "uuid" uuid_in aid) as [? | a']; [discriminate |].
  destruct (param "date" date_in d) as [? | d']; [discriminate |].
  destruct (param "time" time_in t) as [? | tm']; [discriminate |].
  destruct name; [| discriminate].
  destruct email; [| discriminate].
  destruct d'; [| discriminate].
  destruct tm'; [| discriminate].
  destruct (existsb _ _); [discriminate |].
  intros H. inversion H; subst. simpl. repeat split; reflexivity.
Qed.

Lemma insert_commission_inr env aid bid amount pct db u db1 :
  insert_commission env aid bid amount pct db = inr (u, db1) ->
  exists cm,
    db1 = with_commissions db (commissions db ++ [cm])
    /\ param "uuid" uuid_in aid = inr (c_affiliate_id cm)
    /\ param "uuid" uuid_in bid = inr (c_booking_id cm)
    /\ numeric 10 2 (shortest amount) = inr (c_amount cm)
    /\ pct = Some (c_percentage cm)
    /\ c_status cm = CommissionPending.
Proof.
  unfold insert_commission, and_then, not_null.
  destruct (param "uuid" uuid_in aid) as [? | a']; [discriminate |].
  destruct (param "uuid" uuid_in bid) as [? | b']; [discriminate |].
  destruct (numeric 10 2 (shortest amount)) as [? | amt]; [discriminate |].
  destruct pct as [p |]; [| discriminate].
  destruct (existsb _ _); [discriminate |].
  intros H. inversion H; subst.
  eexists. repeat split; reflexivity.
Qed.

End PgFacts.

(** ** Booking creation, statement by statement *)

Section BookingCreation.
Context {L : Library}.
Import Bookings Spec.

Lemma select_affiliate_by_code_rows code d :
  select_affiliate_by_code code d
  = inr (filter (fun a => eq_sql String.eqb (Some (a_referral_code a)) code)
                (affiliates d)).
Proof. reflexivity. Qed.

(** [create_callback] run on a connection: each statement either
    throws, leaving the log at that statement, or hands its rows on. *)
Lemma create_callback_run env (b : CreateBody) c :
  create_callback env b c =
  let l1 := log c ++ [SelectService (service_id b) (therapist_id b)] in
  match select_service (service_id b) (therapist_id b) (db c) with
  | inl e => (inl e, on (db c) l1)
  | inr [] => (inl (Error service_not_found), on (db c) l1)
  | inr (service :: _) =>
      let l2 := l1 ++ [SelectConflicts (therapist_id b) (scheduled_date b)
                                       (scheduled_time b)] in
      match select_conflicts (therapist_id b) (scheduled_date b)
                             (scheduled_time b) (db c) with
      | inl e => (inl e, on (db c) l2)
      | inr rows =>
          if (0 <? List.length rows)%nat
          then (inl (Error slot_taken), on (db c) l2)
          else
            let aff := resolved (affiliate_code b) (db c) in
            let l3 := (l2 ++ affiliate_lookup b)
                      ++ [InsertBooking (service_id b) (therapist_id b) aff
                                        (s_price service)] in
            match insert_booking env (service_id b) (therapist_id b) aff
                    (client_name b) (client_email b) (client_phone b)
                    (scheduled_date b) (scheduled_time b) (notes b)
                    (s_price service) (db c) with
            | inl e => (inl e, on (db c) l3)
            | inr (bk, db1) =>
                if truthy aff
                then
                  let l4 := l3 ++ [SelectAffiliateRate aff] in
                  match select_affiliate_rate aff db1 with
                  | inl e => (inl e, on db1 l4)
                  | inr [] => (inr bk, on db1 l4)
                  | inr (a :: _) =>
                      let amount :=
                        (div (mul (to_number (Some (s_price service))) (to_number (a_commission_rate a))) 100) in
                      let l5 := l4 ++ [InsertCommission aff (Some (b_id bk))
                                         amount (a_commission_rate a)] in
                      match insert_commission env aff (Some (b_id bk)) amount
                              (a_commission_rate a) db1 with
                      | inl e => (inl e, on db1 l5)
                      | inr (_, db2) => (inr bk, on db2 l5)
                      end
                  end
                else (inr bk, on db1 l3)
            end
      end
  end.
Proof.
  unfold create_callback, on. cbv zeta.
  rewrite bind_query.
  destruct (select_service _ _ _) as [e | [| service rest]]; try reflexivity.
  rewrite bind_query. cbn [db log].
  destruct (select_conflicts _ _ _ _) as [e | rows]; try reflexivity.
  destruct (0 <? List.length rows)%nat; try reflexivity.
  unfold bind at 1.
  assert ((if truthy (affiliate_code b)
           then
             affiliateRows <-
               query (SelectAffiliateByCode (affiliate_code b))
                     (select_affiliate_by_code (affiliate_code b)) ;;
             match affiliateRows with
             | a :: _ => ret (Some (a_id a))
             | [] => ret None
             end
           else ret None)
            {| db := db c;
               log := (log c ++ [SelectService (service_id b) (therapist_id b)])
                      ++ [SelectConflicts (therapist_id b) (scheduled_date b)
                            (scheduled_time b)] |}
          = (inr (resolved (affiliate_code b) (db c)),
             {| db := db c;
                log := ((log c ++ [SelectService (service_id b) (therapist_id b)])
                        ++ [SelectConflicts (therapist_id b) (scheduled_date b)
                              (scheduled_time b)])
                       ++ affiliate_lookup b |})) as Hres.
  { unfold resolved, affiliate_lookup.
    destruct (truthy (affiliate_code b)).
    - unfold bind, query. rewrite select_affiliate_by_code_rows. cbn [db log].
      destruct (filter _ _); reflexivity.
    - unfold ret. rewrite app_nil_r. reflexivity. }
  rewrite Hres. clear Hres.
  rewrite bind_execute. cbn [db log].
  destruct (insert_booking _ _ _ _ _ _ _ _ _ _ _ _) as [e | [bk db1]];
    try reflexivity.
  unfold bind at 1.
  destruct (truthy (resolved (affiliate_code b) (db c))); [| reflexivity].
  rewrite bind_query. cbn [db log].
  destruct (select_affiliate_rate _ _) as [e | [| a rest']]; try reflexivity.
  unfold execute, ret. cbn [db log].
  destruct (insert_commission _ _ _ _ _ _) as [e | [[] db2]]; reflexivity.
Qed.

End BookingCreation.

Section BookingConflicts.
Context {L : Library}.
Import Bookings Spec.

Lemma sanitized_plain chk m v : sanitized (required chk m) v = v.
Proof. destruct v; reflexivity. Qed.

Lemma select_service_hit sid tid db svc sv tv :
  In svc (services db) ->
  uuid_in sid = Some sv -> s_id svc = sv ->
  uuid_in tid = Some tv -> s_therapist_id svc = Some tv ->
  s_is_active svc = Some true ->
  exists rows,
    select_service (Some sid) (Some tid) db = inr rows /\ In svc rows.
Proof.
  intros Hin Hs Hid Ht Hth Hact. unfold select_service.
  rewrite (param_some _ _ _ _ Hs), (param_some _ _ _ _ Ht). simpl.
  eexists. split; [reflexivity |].
  apply filter_In. split; [assumption |].
  rewrite Hid, Hth, Hact. simpl. rewrite !String.eqb_refl. reflexivity.
Qed.

(** C2. A request for a slot that an active booking of the same
    therapist already holds (same date, same time, status neither
    cancelled nor completed) is answered with an unsuccessful response,
    no INSERT into bookings is issued and the bookings table is left as
    it was; when the request is otherwise valid and its service is
    found, the response is the conflict error, status 500 with message
    "Horário não disponível". *)
Theorem conflict_rejected env (body : CreateBody) c bk tid d t tv :
  therapist_id body = Some tid ->
  scheduled_date body = Some d ->
  scheduled_time body = Some t ->
  In bk (bookings (db c)) ->
  uuid_in tid = Some tv -> b_therapist_id bk = Some tv ->
  date_in d = Some (b_scheduled_date bk) ->
  time_in t = Some (b_scheduled_time bk) ->
  active (b_status bk) = true ->
  let r := fst (create env body c) in
  let c' := snd (create env body c) in
  success r = false
  /\ bookings (db c') = bookings (db c)
  /\ (exists issued,
        log c' = log c ++ issued
        /\ forallb (fun s => negb (is_insert_booking s)) issued = true)
  /\ (create_errors body = [] ->
      forall sid svc sv,
        service_id body = Some sid -> uuid_in sid = Some sv ->
        In svc (services (db c)) -> s_id svc = sv ->
        s_therapist_id svc = Some tv -> s_is_active svc = Some true ->
        r = failure 500 slot_taken).
Proof.
  intros Htid Hd Ht Hin Hu Hbt Hdate Htime Hact r c'.
  subst r c'. unfold create.
  destruct (negb (List.length (create_errors body) =? 0)%nat) eqn:Hv.
  - cbn [fst snd success]. repeat split.
    + exists []. rewrite app_nil_r. split; reflexivity.
    + intros He. rewrite He in Hv. discriminate.
  - unfold transaction. rewrite create_callback_run. cbv zeta.
    unfold create_sanitized. cbn [therapist_id service_id scheduled_date
      scheduled_time affiliate_code client_name client_email client_phone
      notes db log].
    unfold v_therapist_id, v_service_id, v_scheduled_date, v_scheduled_time.
    rewrite !sanitized_plain, Htid, Hd, Ht.
    destruct (select_conflicts_hit tid d t (db c) bk tv Hin Hu Hbt Hdate
                Htime Hact) as [rows [Hrows Hbk]].
    rewrite Hrows.
    assert ((0 <? List.length rows)%nat = true) as Hpos.
    { destruct rows; [destruct Hbk | reflexivity]. }
    rewrite Hpos.
    destruct (select_service (service_id body) (Some tid) (db c))
      as [e | [| service rest]] eqn:Hs;
      cbn [fst snd success failure db log on].
    + repeat split.
      * eexists. rewrite <- !app_assoc. split; reflexivity.
      * intros _ sid svc sv Hsid Hsv Hsin Hsvid Hsth Hsact.
        destruct (select_service_hit sid tid (db c) svc sv tv Hsin Hsv Hsvid
                    Hu Hsth Hsact) as [rows' [Hr' _]].
        rewrite Hsid, Hr' in Hs. discriminate.
    + repeat split.
      * eexists. rewrite <- !app_assoc. split; reflexivity.
      * intros _ sid svc sv Hsid Hsv Hsin Hsvid Hsth Hsact.
        destruct (select_service_hit sid tid (db c) svc sv tv Hsin Hsv Hsvid
                    Hu Hsth Hsact) as [rows' [Hr' Hin']].
        rewrite Hsid, Hr' in Hs. inversion Hs; subst. destruct Hin'.
    + repeat split.
      eexists. rewrite <- !app_assoc. split; reflexivity.
Qed.

End BookingConflicts.

(** The sample request for 09:00 on 2025-08-01 meets the confirmed
    morning booking. *)
Lemma conflict_rejected_witness :
  fst (Bookings.create (L := Sample.library) Sample.env Sample.clash
         Sample.conn)
  = failure 500 Bookings.slot_taken
  /\ bookings (db (snd (Bookings.create (L := Sample.library) Sample.env
                          Sample.clash Sample.conn)))
     = bookings Sample.store.
Proof.
  destruct (@conflict_rejected Sample.library Sample.env Sample.clash
              Sample.conn Sample.morning_booking Sample.therapist
              "2025-08-01" "9:00" Sample.therapist
              eq_refl eq_refl eq_refl (or_introl eq_refl)
              eq_refl eq_refl eq_refl eq_refl eq_refl)
    as [_ [Hsame [_ Hconflict]]].
  split; [| exact Hsame].
  apply (Hconflict eq_refl Sample.massage Sample.massage_service
           Sample.massage eq_refl eq_refl (or_introl eq_refl)
           eq_refl eq_refl eq_refl).
Defined.

Section BookingSuccess.
Context {L : Library}.
Import Bookings Spec.

(** What a returning [create_callback] has done. *)
Lemma create_callback_inr env (b : CreateBody) c bk c1 :
  create_callback env b c = (inr bk, c1) ->
  exists service rest db1,
    select_service (service_id b) (therapist_id b) (db c)
    = inr (service :: rest)
    /\ select_conflicts (therapist_id b) (scheduled_date b)
         (scheduled_time b) (db c) = inr []
    /\ insert_booking env (service_id b) (therapist_id b)
         (resolved (affiliate_code b) (db c))
         (client_name b) (client_email b) (client_phone b)
         (scheduled_date b) (scheduled_time b) (notes b)
         (s_price service) (db c) = inr (bk, db1)
    /\ let aff := resolved (affiliate_code b) (db c) in
       let l3 := log c
                 ++ [SelectService (service_id b) (therapist_id b);
                     SelectConflicts (therapist_id b) (scheduled_date b)
                                     (scheduled_time b)]
                 ++ affiliate_lookup b
                 ++ [InsertBooking (service_id b) (therapist_id b) aff
                                   (s_price service)] in
       (truthy aff = false /\ c1 = on db1 l3)
       \/ (truthy aff = true
           /\ select_affiliate_rate aff db1 = inr []
           /\ c1 = on db1 (l3 ++ [SelectAffiliateRate aff]))
       \/ (truthy aff = true
           /\ exists a rest' db2 u,
                select_affiliate_rate aff db1 = inr (a :: rest')
                /\ insert_commission env aff (Some (b_id bk))
                     (div (mul (to_number (Some (s_price service))) (to_number (a_commission_rate a))) 100)
                     (a_commission_rate a) db1 = inr (u, db2)
                /\ c1 = on db2
                          (l3 ++ [SelectAffiliateRate aff;
                                  InsertCommission aff (Some (b_id bk))
                                    (div (mul (to_number (Some (s_price service))) (to_number (a_commission_rate a))) 100)
                                    (a_commission_rate a)])).
Proof.
  rewrite create_callback_run. cbv zeta.
  destruct (select_service _ _ _) as [e | [| service rest]];
    try discriminate.
  destruct (select_conflicts _ _ _ _) as [e | rows]; try discriminate.
  destruct rows as [| row rows]; [| discriminate]. cbn [List.length Nat.ltb Nat.leb].
  destruct (insert_booking _ _ _ _ _ _ _ _ _ _ _ _) as [e | [bk' db1]] eqn:Hins;
    try discriminate.
  intros H. exists service, rest, db1. revert H.
  destruct (truthy (resolved (affiliate_code b) (db c))) eqn:Haff.
  - destruct (select_affiliate_rate _ _) as [e | [| a rest']] eqn:Hrate;
      try discriminate.
    + intros H. inversion H; subst.
      repeat split; try reflexivity; try assumption. cbv zeta. right. left.
      repeat split. rewrite <- !app_assoc. reflexivity.
    + destruct (insert_commission _ _ _ _ _ _) as [e | [u db2]] eqn:Hcom;
        try discriminate.
      intros H. inversion H; subst.
      repeat split; try reflexivity; try assumption. cbv zeta. right. right.
      split; [reflexivity |].
      exists a, rest', db2, u. repeat split; try assumption.
      rewrite <- !app_assoc. reflexivity.
  - intros H. inversion H; subst.
    repeat split; try reflexivity; try assumption. cbv zeta. left.
    split; [reflexivity |]. rewrite <- !app_assoc. reflexivity.
Qed.

Lemma canonical_uuid_in u : canonical u = true -> uuid_in u = Some u.
Proof.
  unfold canonical. destruct (uuid_in u) as [v |]; [| discriminate].
  intros H. apply String.eqb_eq in H. subst. reflexivity.
Qed.

Lemma uuid_in_truthy s v : uuid_in s = Some v -> truthy (Some s) = true.
Proof.
  unfold uuid_in. destruct s; [discriminate | reflexivity].
Qed.

Lemma resolved_some code d i :
  resolved code d = Some i ->
  exists a c,
    In a (affiliates d) /\ a_id a = i
    /\ code = Some c /\ a_referral_code a = c /\ truthy code = true.
Proof.
  unfold resolved. destruct (truthy code) eqn:Ht; [| discriminate].
  destruct (filter _ _) as [| a rest] eqn:Hf; [discriminate |].
  intros H. inversion H; subst.
  assert (In a (a :: rest)) as Hin by (left; reflexivity).
  rewrite <- Hf in Hin. apply filter_In in Hin. destruct Hin as [Hin Heq].
  apply eq_sql_string in Heq. destruct Heq as [x [Hx Hc]].
  inversion Hx; subst.
  exists a, (a_referral_code a). repeat split; assumption.
Qed.

Lemma forallb_In {A} (f : A -> bool) l x :
  forallb f l = true -> In x l -> f x = true.
Proof. intros H. rewrite forallb_forall in H. apply H. Qed.

Lemma affiliates_keyed_canonical d a :
  affiliates_keyed d = true -> In a (affiliates d) -> canonical (a_id a) = true.
Proof.
  unfold affiliates_keyed. intros H Hin.
  apply andb_prop in H. destruct H as [H _].
  apply andb_prop in H. destruct H as [H _].
  apply (forallb_In _ _ _ H Hin).
Qed.

Lemma select_affiliate_rate_hit d a :
  In a (affiliates d) -> canonical (a_id a) = true ->
  exists rows,
    select_affiliate_rate (Some (a_id a)) d = inr rows /\ In a rows.
Proof.
  intros Hin Hc. unfold select_affiliate_rate.
  rewrite (param_some _ _ _ _ (canonical_uuid_in _ Hc)). simpl.
  eexists. split; [reflexivity |].
  apply filter_In. split; [assumption |]. apply String.eqb_refl.
Qed.

End BookingSuccess.
Section BookingKeys.
Context {L : Library}.
Import Bookings Spec.

Lemma existsb_key {A} (f : A -> string) l a :
  In a l -> existsb (String.eqb (f a)) (map f l) = true.
Proof.
  intros Hin. apply existsb_exists. exists (f a).
  split; [apply in_map; assumption | apply String.eqb_refl].
Qed.

(** A key that is distinct over a table selects at most one row. *)
Lemma filter_by_key {A} (f : A -> string) l a :
  distinct (map f l) = true -> In a l ->
  filter (fun x => String.eqb (f x) (f a)) l = [a].
Proof.
  induction l as [| x r IH]; intros Hd Hin; [destruct Hin |].
  cbn [map distinct] in Hd. apply andb_prop in Hd. destruct Hd as [Hx Hr].
  apply negb_true_iff in Hx. cbn [filter].
  destruct (String.eqb (f x) (f a)) eqn:E.
  - apply String.eqb_eq in E.
    destruct Hin as [Hin | Hin].
    + subst x. f_equal.
      assert (forall y, In y r -> String.eqb (f y) (f a) = false) as Hno.
      { intros y Hy. destruct (String.eqb (f y) (f a)) eqn:E'; [| reflexivity].
        apply String.eqb_eq in E'. rewrite <- E' in Hx.
        rewrite (existsb_key f r y Hy) in Hx. discriminate. }
      clear -Hno. induction r as [| y r IHr]; [reflexivity |].
      cbn [filter]. rewrite (Hno y (or_introl eq_refl)).
      apply IHr. intros z Hz. apply Hno. right. assumption.
    + rewrite E in Hx. rewrite (existsb_key f r a Hin) in Hx. discriminate.
  - destruct Hin as [Hin | Hin].
    + subst x. rewrite String.eqb_refl in E. discriminate.
    + apply IH; assumption.
Qed.

Lemma affiliates_keyed_ids d :
  affiliates_keyed d = true -> distinct (map a_id (affiliates d)) = true.
Proof.
  unfold affiliates_keyed. intros H.
  apply andb_prop in H. destruct H as [H _].
  apply andb_prop in H. destruct H as [_ H]. exact H.
Qed.

Lemma affiliates_keyed_codes d :
  affiliates_keyed d = true ->
  distinct (map a_referral_code (affiliates d)) = true.
Proof.
  unfold affiliates_keyed. intros H.
  apply andb_prop in H. destruct H as [_ H]. exact H.
Qed.

(** The code of an existing affiliate resolves to that affiliate. *)
Lemma resolved_affiliate d a :
  affiliates_keyed d = true -> In a (affiliates d) ->
  truthy (Some (a_referral_code a)) = true ->
  resolved (Some (a_referral_code a)) d = Some (a_id a).
Proof.
  intros Hk Hin Ht. unfold resolved. rewrite Ht. cbn [eq_sql].
  rewrite (filter_by_key a_referral_code (affiliates d) a
             (affiliates_keyed_codes d Hk) Hin).
  reflexivity.
Qed.

Lemma select_affiliate_rate_one d a :
  affiliates_keyed d = true -> In a (affiliates d) ->
  select_affiliate_rate (Some (a_id a)) d = inr [a].
Proof.
  intros Hk Hin. unfold select_affiliate_rate.
  rewrite (param_some _ _ _ _
             (canonical_uuid_in _ (affiliates_keyed_canonical d a Hk Hin))).
  cbn [and_then eq_sql].
  rewrite (filter_by_key a_id (affiliates d) a (affiliates_keyed_ids d Hk) Hin).
  reflexivity.
Qed.

Lemma app_nil_both {A} (x y : list A) : x ++ y = [] -> x = [] /\ y = [].
Proof. apply app_eq_nil. Qed.

(** A request that passes validation with a code has a code that is
    not blank once trimmed. *)
Lemma valid_code_truthy (body : CreateBody) raw :
  create_errors body = [] -> affiliate_code body = Some raw ->
  affiliate_code (create_sanitized body) = Some (trim raw)
  /\ truthy (Some (trim raw)) = true.
Proof.
  intros Hv Hraw. unfold create_errors in Hv.
  do 7 (apply app_nil_both in Hv; destruct Hv as [_ Hv]).
  apply app_nil_both in Hv. destruct Hv as [Hv _].
  unfold create_sanitized. cbn [affiliate_code]. rewrite Hraw in *.
  split; [reflexivity |].
  unfold errors_of, v_affiliate_code, trimmed, opt in Hv.
  cbn [check sanitizer optional withMessage] in Hv.
  destruct (isLength (Some 1%nat) None (trim raw)) eqn:Hlen; [| discriminate].
  unfold isLength in Hlen. cbn [truthy].
  destruct (trim raw); [discriminate | reflexivity].
Qed.

(** The row the rate query returns is a stored affiliate with the id
    asked for. *)
Lemma select_affiliate_rate_row id d a rest :
  select_affiliate_rate id d = inr (a :: rest) ->
  In a (affiliates d) /\ param "uuid" uuid_in id = inr (Some (a_id a)).
Proof.
  unfold select_affiliate_rate, and_then.
  destruct (param "uuid" uuid_in id) as [e | aid]; [discriminate |].
  intros H. injection H as H.
  assert (In a (a :: rest)) as Hin by (left; reflexivity).
  rewrite <- H in Hin. apply filter_In in Hin. destruct Hin as [Hin Heq].
  split; [assumption |].
  destruct aid as [y |]; [| discriminate].
  apply String.eqb_eq in Heq. congruence.
Qed.

End BookingKeys.


Section BookingAtomicity.
Context {L : Library}.
Import Bookings Spec.

Lemma param_falsy v w :
  truthy v = false -> param "uuid" uuid_in v = inr w -> v = None /\ w = None.
Proof.
  destruct v as [s |]; simpl.
  - destruct s; [| discriminate]. intros _ H. discriminate.
  - intros _ H. inversion H. split; reflexivity.
Qed.

Lemma param_truthy v w :
  truthy v = true -> param "uuid" uuid_in v = inr w ->
  exists s u, v = Some s /\ uuid_in s = Some u /\ w = Some u.
Proof.
  destruct v as [s |]; [| discriminate]. intros _ H.
  apply param_inr in H. destruct H as [u [Hu Hw]]. eauto.
Qed.

Lemma rate_rows_nonempty (b : CreateBody) d d1 :
  affiliates_keyed d = true ->
  affiliates d1 = affiliates d ->
  truthy (resolved (affiliate_code b) d) = true ->
  select_affiliate_rate (resolved (affiliate_code b) d) d1 = inr [] ->
  False.
Proof.
  intros Hk Haffs Ht Hrate.
  destruct (resolved (affiliate_code b) d) as [i |] eqn:Hres; [| discriminate].
  apply resolved_some in Hres.
  destruct Hres as [a [code [Hin [Hid _]]]]. subst i.
  assert (In a (affiliates d1)) as Hin1 by (rewrite Haffs; assumption).
  destruct (select_affiliate_rate_hit d1 a Hin1
              (affiliates_keyed_canonical d a Hk Hin)) as [rows [Hr Hrows]].
  pose proof (eq_trans (eq_sym Hr) Hrate) as Heq.
  inversion Heq; subst. destruct Hrows.
Qed.

(** C3. Booking creation is all or nothing.  Whenever the response
    is unsuccessful (validation failure, service not found or
    inactive, slot conflict, or any error the store raises in any
    statement) the store is exactly the one the request found.  When it
    is successful (over an affiliates table keyed as the migration
    declares), exactly one booking row has been appended, and with it
    exactly one commission row for that booking when the booking
    carries an affiliate, none otherwise; no other table changes. *)
Theorem create_atomic env (body : CreateBody) c :
  let r := fst (create env body c) in
  let c' := snd (create env body c) in
  (success r = false -> db c' = db c)
  /\ (affiliates_keyed (db c) = true ->
      success r = true ->
      exists bk,
        data r = BookingData bk
        /\ bookings (db c') = bookings (db c) ++ [bk]
        /\ match b_affiliate_id bk with
           | None => commissions (db c') = commissions (db c)
           | Some aid =>
               exists cm,
                 commissions (db c') = commissions (db c) ++ [cm]
                 /\ c_affiliate_id cm = Some aid
                 /\ c_booking_id cm = uuid_in (b_id bk)
           end
        /\ users (db c') = users (db c)
        /\ affiliates (db c') = affiliates (db c)
        /\ services (db c') = services (db c)).
Proof.
  intros r c'. subst r c'. unfold create.
  destruct (negb (List.length (create_errors body) =? 0)%nat).
  { cbn [fst snd success]. split; [reflexivity | discriminate]. }
  destruct (transaction (create_callback env (create_sanitized body)) c)
    as [[e | bk] c1] eqn:Ht; cbn [fst snd success failure data].
  { split; [| discriminate]. intros _. eapply transaction_inl; eassumption. }
  split; [discriminate |]. intros Hk _.
  apply transaction_inr in Ht. destruct Ht as [c2 [Hcb [Hdb _]]].
  apply create_callback_inr in Hcb.
  destruct Hcb as [service [rest [db1 [_ [_ [Hins Hcases]]]]]].
  apply insert_booking_inr in Hins.
  destruct Hins as [Hdb1 [_ [_ [_ [Haid _]]]]].
  cbn [db log] in *. cbv zeta in Hcases.
  exists bk. split; [reflexivity |]. rewrite Hdb.
  destruct Hcases as [[Haff Hc2] | [[Haff [Hrate _]] | [Haff Hcom]]].
  - subst c2 db1. cbn [db on]. split; [reflexivity |].
    destruct (param_falsy _ _ Haff Haid) as [_ Hnone]. rewrite Hnone.
    repeat split.
  - exfalso. eapply (rate_rows_nonempty (create_sanitized body) (db c) db1);
      try eassumption.
    subst db1. reflexivity.
  - destruct Hcom as [a [rest' [db2 [u [_ [Hcom Hc2]]]]]].
    apply insert_commission_inr in Hcom.
    destruct Hcom as [cm [Hdb2 [Hca [Hcb _]]]].
    subst c2 db2 db1. cbn [db on with_commissions with_bookings bookings
      commissions users affiliates services].
    split; [reflexivity |].
    destruct (param_truthy _ _ Haff Haid) as [s [v [Hs [Hv Hw]]]].
    rewrite Hw. rewrite Haid in Hca. inversion Hca as [Hca'].
    split; [| repeat split].
    exists cm. split; [reflexivity |]. split; [congruence |].
    apply param_inr in Hcb. destruct Hcb as [x [Hx1 Hx2]]. congruence.
Qed.

End BookingAtomicity.

(** The NORATE affiliate has a NULL commission_rate: the commission
    insert fails after the booking insert, and the booking is gone. *)
Lemma create_atomic_witness :
  db (snd (Bookings.create (L := Sample.library) Sample.env
             (Sample.request (Some "NORATE")) Sample.conn))
  = Sample.store.
Proof.
  apply (proj1 (@create_atomic Sample.library Sample.env
                  (Sample.request (Some "NORATE")) Sample.conn)).
  reflexivity.
Defined.

Section BookingSteps.
Context {L : Library}.
Import Bookings Spec.

Lemma select_service_row sid tid d service rest :
  select_service sid tid d = inr (service :: rest) ->
  In service (services d)
  /\ param "uuid" uuid_in sid = inr (Some (s_id service))
  /\ param "uuid" uuid_in tid = inr (s_therapist_id service)
  /\ s_is_active service = Some true.
Proof.
  unfold select_service, and_then.
  destruct (param "uuid" uuid_in sid) as [e | sv]; [discriminate |].
  destruct (param "uuid" uuid_in tid) as [e | tv]; [discriminate |].
  intros H. inversion H as [Hf].
  assert (In service (service :: rest)) as Hin by (left; reflexivity).
  rewrite <- Hf in Hin. apply filter_In in Hin. destruct Hin as [Hin Hc].
  apply andb_prop in Hc. destruct Hc as [Hc Hact].
  apply andb_prop in Hc. destruct Hc as [Hid Hth].
  destruct sv as [y |]; [| discriminate]. cbn [eq_sql] in Hid.
  apply String.eqb_eq in Hid.
  apply eq_sql_string in Hth. destruct Hth as [z [Hz1 Hz2]].
  repeat split; try assumption.
  - rewrite Hid. reflexivity.
  - congruence.
  - unfold is_true in Hact.
    destruct (s_is_active service) as [[|] |]; try discriminate. reflexivity.
Qed.




End BookingSteps.

Section BookingWithCode.
Import Sample Bookings.


End BookingWithCode.

Section BookingCommission.
Context {L : Library}.
Import Bookings Spec.

(** C6, as the code has it.  When a booking is created with an
    affiliate_code that is the referral_code of an existing affiliate,
    exactly one commission row is inserted: it belongs to that
    affiliate and to the new booking, its percentage is the
    affiliate's commission_rate and its status is 'pending'.  Its
    amount is what the DECIMAL(10,2) column makes of the number the
    handler computes, (price x commission_rate) / 100 in binary64:
    a whole number of cents within half a cent of
    (price x commission_rate) / 100, and equal to it whenever that is
    itself a whole number of cents.  Price and rate are decimals of
    scale 2, as their columns hold them. *)
Theorem commission_for_affiliate env (body : CreateBody) c raw a :
  affiliates_keyed (db c) = true ->
  services_priced (db c) = true ->
  rate_scaled a = true ->
  affiliate_code body = Some raw ->
  In a (affiliates (db c)) ->
  a_referral_code a = trim raw ->
  success (fst (create env body c)) = true ->
  exists bk service rate cm,
    data (fst (create env body c)) = BookingData bk
    /\ commissions (db (snd (create env body c)))
       = commissions (db c) ++ [cm]
    /\ a_commission_rate a = Some rate
    /\ c_percentage cm = rate
    /\ In service (services (db c))
    /\ param "uuid" uuid_in (service_id body) = inr (Some (s_id service))
    /\ b_total_amount bk = s_price service
    /\ numeric 10 2 (shortest (commission (s_price service) rate))
       = inr (c_amount cm)
    /\ cents (c_amount cm) = true
    /\ (Qabs (c_amount cm - s_price service * rate / 100) <= 1 # 200)%Q
    /\ (cents (s_price service * rate / 100) = true ->
        (c_amount cm == s_price service * rate / 100)%Q)
    /\ c_status cm = CommissionPending
    /\ c_affiliate_id cm = Some (a_id a)
    /\ b_affiliate_id bk = Some (a_id a)
    /\ c_booking_id cm = uuid_in (b_id bk).
Proof.
  intros Hk Hprices Hscaled Hraw Hin Hcode. unfold create.
  destruct (negb (List.length (create_errors body) =? 0)%nat) eqn:Hv;
    [discriminate |].
  assert (create_errors body = []) as Hnil.
  { destruct (create_errors body); [reflexivity | discriminate]. }
  destruct (valid_code_truthy body raw Hnil Hraw) as [Hsan Htruthy].
  destruct (transaction (create_callback env (create_sanitized body)) c)
    as [[e | bk] c1] eqn:Ht; cbn [fst snd success failure data];
    [discriminate |].
  intros _.
  apply transaction_inr in Ht. destruct Ht as [c2 [Hcb [Hdb _]]].
  apply create_callback_inr in Hcb.
  destruct Hcb as [service [rest [db1 [Hsvc [_ [Hins Hcases]]]]]].
  cbn [db log] in *. cbv zeta in Hcases.
  rewrite Hsan, <- Hcode in Hcases, Hins.
  rewrite <- Hcode in Htruthy.
  rewrite (resolved_affiliate (db c) a Hk Hin Htruthy) in Hcases, Hins.
  apply insert_booking_inr in Hins.
  destruct Hins as [Hdb1 [_ [_ [_ [Haid [Hamt _]]]]]].
  apply select_service_row in Hsvc. destruct Hsvc as [Hsin [Hsp _]].
  unfold create_sanitized, v_service_id in Hsp. cbn [service_id] in Hsp.
  rewrite sanitized_plain in Hsp.
  pose proof (canonical_uuid_in _ (affiliates_keyed_canonical _ _ Hk Hin))
    as Hcanon.
  pose proof (uuid_in_truthy _ _ Hcanon) as Htr.
  assert (affiliates_keyed db1 = true) as Hk1 by (subst db1; exact Hk).
  assert (In a (affiliates db1)) as Hin1 by (subst db1; exact Hin).
  pose proof (select_affiliate_rate_one db1 a Hk1 Hin1) as Hone.
  destruct Hcases as [[Haff _] | [[_ [Hrate _]] | [_ Hcom]]].
  - rewrite Htr in Haff. discriminate.
  - pose proof (eq_trans (eq_sym Hone) Hrate) as Hbad. discriminate.
  - destruct Hcom as [a' [rest' [db2 [u [Hrate [Hcom Hc2]]]]]].
    pose proof (eq_trans (eq_sym Hone) Hrate) as Hsame.
    inversion Hsame; subst a' rest'.
    apply insert_commission_inr in Hcom.
    destruct Hcom as [cm [Hdb2 [Hca [Hcbk [Hcamt [Hpct Hst]]]]]].
    rewrite Hpct in Hcamt. cbn [to_number] in Hcamt.
    fold (commission (s_price service) (c_percentage cm)) in Hcamt.
    destruct (numeric_stored _ _ Hcamt) as [Hround Hfit].
    assert (cents (s_price service) = true) as Hprice.
    { unfold services_priced in Hprices.
      exact (forallb_In _ _ _ Hprices Hsin). }
    assert (cents (c_percentage cm) = true) as Hrt.
    { unfold rate_scaled in Hscaled. now rewrite Hpct in Hscaled. }
    destruct (cents_value _ Hprice) as [P HP].
    destruct (cents_value _ Hrt) as [R HR].
    pose proof (stored_amount P R _ _ HP HR) as Hclose. cbv zeta in Hclose.
    rewrite <- Hround in Hclose. specialize (Hclose Hfit).
    assert (cents (c_amount cm) = true) as Hcents.
    { destruct (round_scale_cents
                  (shortest (commission (s_price service) (c_percentage cm))))
        as [C HC].
      apply (value_cents _ C). rewrite Hround, HC. reflexivity. }
    exists bk, service, (c_percentage cm), cm.
    rewrite Hdb. subst c2 db2 db1.
    cbn [db on with_commissions with_bookings commissions].
    rewrite (param_some _ _ _ _ Hcanon) in Hca, Haid.
    repeat split; try assumption; try reflexivity; try congruence.
    + intros Hq. now apply cents_apart.
    + apply param_inr in Hcbk. destruct Hcbk as [x [Hx1 Hx2]]. congruence.
Qed.

End BookingCommission.

Section Cents.
Import Sample.

Lemma commission_for_affiliate_witness :
  exists bk service rate cm,
    data (fst (Bookings.create env (request (Some " LUNA15 ")) conn))
    = BookingData bk
    /\ commissions
         (db (snd (Bookings.create env (request (Some " LUNA15 ")) conn)))
       = [owed_commission] ++ [cm]
    /\ Some (15 # 1) = Some rate
    /\ c_percentage cm = rate
    /\ In service [massage_service; reiki_service]
    /\ param "uuid" uuid_in (Some massage) = inr (Some (s_id service))
    /\ b_total_amount bk = s_price service
    /\ numeric 10 2 (shortest (Spec.commission (s_price service) rate))
       = inr (c_amount cm)
    /\ Spec.cents (c_amount cm) = true
    /\ (Qabs (c_amount cm - s_price service * rate / 100) <= 1 # 200)%Q
    /\ (Spec.cents (s_price service * rate / 100) = true ->
        (c_amount cm == s_price service * rate / 100)%Q)
    /\ c_status cm = CommissionPending
    /\ c_affiliate_id cm = Some luna15
    /\ b_affiliate_id bk = Some luna15
    /\ c_booking_id cm = uuid_in (b_id bk).
Proof.
  exact (@commission_for_affiliate library env
           (request (Some " LUNA15 ")) conn " LUNA15 "
           luna_affiliate eq_refl eq_refl eq_refl eq_refl
           (or_introl eq_refl) eq_refl eq_refl).
Defined.

(** C6 as stated fails: the amount is not always
    (price x commission_rate) / 100.  At a price of 33.33 and a rate
    of 15 that is 4.9995, and the row holds 5.00.  At a price of 30.00
    and a rate of 2.05 it is 0.615; the handler computes
    0.6149999999999999 and the row holds 0.61. *)
Lemma commission_rounded_counterexample :
  (let r := Bookings.create env (request (Some "LUNA15"))
              {| db := Prices.store 3333 1500; log := [] |} in
   success (fst r) = true
   /\ map c_amount (commissions (db (snd r))) = [18 # 1; 500 # 100]
   /\ ~ (500 # 100 == (3333 # 100) * (1500 # 100) / 100)%Q)
  /\ (let r := Bookings.create env (request (Some "LUNA15"))
                 {| db := Prices.store 3000 205; log := [] |} in
      success (fst r) = true
      /\ Qred (shortest (Spec.commission (3000 # 100) (205 # 100)))
         = 6149999999999999 # 10000000000000000
      /\ map c_amount (commissions (db (snd r))) = [18 # 1; 61 # 100]
      /\ ~ (61 # 100 == (3000 # 100) * (205 # 100) / 100)%Q).
Proof.
  split; cbv zeta.
  - split; [reflexivity |]. split; [reflexivity |]. discriminate.
  - split; [reflexivity |]. split; [vm_compute; reflexivity |].
    split; [reflexivity |]. discriminate.
Qed.

End Cents.

Section UnknownCode.
Context {L : Library}.
Import Bookings Spec.

Lemma resolved_unknown code d :
  (forall a, In a (affiliates d) -> a_referral_code a <> code) ->
  resolved (Some code) d = None.
Proof.
  intros Hno. unfold resolved.
  destruct (truthy (Some code)); [| reflexivity].
  destruct (filter _ _) as [| a rest] eqn:Hf; [reflexivity |].
  assert (In a (a :: rest)) as Hin by (left; reflexivity).
  rewrite <- Hf in Hin. apply filter_In in Hin. destruct Hin as [Hin Heq].
  cbn [eq_sql] in Heq. apply String.eqb_eq in Heq.
  destruct (Hno a Hin Heq).
Qed.

(** Two bodies that differ at most in a code that resolves to no
    affiliate get the same result and leave the same store. *)
Lemma create_callback_same env (b1 b2 : CreateBody) c1 c2 :
  db c1 = db c2 ->
  therapist_id b1 = therapist_id b2 -> service_id b1 = service_id b2 ->
  client_name b1 = client_name b2 -> client_email b1 = client_email b2 ->
  client_phone b1 = client_phone b2 ->
  scheduled_date b1 = scheduled_date b2 ->
  scheduled_time b1 = scheduled_time b2 -> notes b1 = notes b2 ->
  resolved (affiliate_code b1) (db c1) = None ->
  resolved (affiliate_code b2) (db c2) = None ->
  fst (create_callback env b1 c1) = fst (create_callback env b2 c2)
  /\ db (snd (create_callback env b1 c1))
     = db (snd (create_callback env b2 c2)).
Proof.
  intros Hdb H1 H2 H3 H4 H5 H6 H7 H8 Hr1 Hr2.
  rewrite !create_callback_run. cbv zeta.
  rewrite Hr1, Hr2, Hdb, H1, H2, H3, H4, H5, H6, H7, H8.
  destruct (select_service _ _ _) as [e | [| service rest]];
    try (split; reflexivity).
  destruct (select_conflicts _ _ _ _) as [e | rows]; try (split; reflexivity).
  destruct (0 <? List.length rows)%nat; try (split; reflexivity).
  destruct (insert_booking _ _ _ _ _ _ _ _ _ _ _ _) as [e | [bk db1]];
    split; reflexivity.
Qed.

Lemma create_errors_without (body : CreateBody) :
  create_errors body = [] -> create_errors (without_code body) = [].
Proof.
  unfold create_errors, without_code.
  cbn [therapist_id service_id client_name client_email client_phone
       scheduled_date scheduled_time notes affiliate_code].
  intros H.
  do 7 (apply app_nil_both in H; destruct H as [E H]; rewrite E; clear E;
        cbn [app]).
  apply app_nil_both in H. destruct H as [_ H]. exact H.
Qed.

(** C9. A valid request whose affiliate_code is the referral_code of
    no affiliate gets exactly the response, and leaves exactly the
    store, of the same request sent without a code: the unknown code
    raises no error, and a request that would succeed still succeeds.
    When it succeeds, the booking is inserted with affiliate_id NULL
    and the commissions table is unchanged. *)
Theorem unknown_code_ignored env (body : CreateBody) c raw :
  create_errors body = [] ->
  affiliate_code body = Some raw ->
  (forall a, In a (affiliates (db c)) -> a_referral_code a <> trim raw) ->
  fst (create env body c) = fst (create env (without_code body) c)
  /\ db (snd (create env body c))
     = db (snd (create env (without_code body) c))
  /\ (success (fst (create env body c)) = true ->
      exists bk,
        data (fst (create env body c)) = BookingData bk
        /\ b_affiliate_id bk = None
        /\ bookings (db (snd (create env body c)))
           = bookings (db c) ++ [bk]
        /\ commissions (db (snd (create env body c)))
           = commissions (db c)).
Proof.
  intros Hv Hraw Hno.
  pose proof (create_errors_without body Hv) as Hv'.
  destruct (valid_code_truthy body raw Hv Hraw) as [Hsan _].
  assert (resolved (affiliate_code (create_sanitized body)) (db c) = None)
    as Hres by (rewrite Hsan; apply resolved_unknown; assumption).
  unfold create. rewrite Hv, Hv'. cbn [List.length Nat.eqb negb].
  unfold transaction.
  set (c0 := {| db := db c; log := log c ++ [BEGIN] |}).
  destruct (create_callback_same env (create_sanitized body)
              (create_sanitized (without_code body)) c0 c0)
    as [Hfst Hsnd]; try reflexivity; try assumption.
  pose proof (create_callback_inr env (create_sanitized body) c0) as Hinv.
  destruct (create_callback env (create_sanitized body) c0)
    as [[e | bk] c1] eqn:E1;
    destruct (create_callback env (create_sanitized (without_code body)) c0)
      as [[e' | bk'] c1'] eqn:E2;
    cbn [fst snd] in Hfst, Hsnd; try discriminate;
    inversion Hfst; subst; cbn [fst snd success failure data db].
  - repeat split. discriminate.
  - split; [reflexivity |]. split; [assumption |]. intros _.
    destruct (Hinv bk' c1 eq_refl)
      as [service [rest [db1 [_ [_ [Hins Hcases]]]]]].
    cbv zeta in Hcases. unfold c0 in Hcases, Hins.
    cbn [db log] in Hcases, Hins. rewrite Hres in Hcases, Hins.
    apply insert_booking_inr in Hins.
    destruct Hins as [Hdb1 [_ [_ [_ [Haid _]]]]].
    cbn [param] in Haid. inversion Haid as [Hnone].
    destruct Hcases as [[_ Hc1] | [[Hbad _] | [Hbad _]]];
      try discriminate.
    exists bk'. subst c1 db1. cbn [db on c0 with_bookings bookings commissions].
    repeat split; congruence.
Qed.

End UnknownCode.

Lemma unknown_code_ignored_witness :
  success (fst (Bookings.create (L := Sample.library) Sample.env
                  (Sample.request (Some "nobody")) Sample.conn)) = true
  /\ exists bk,
       data (fst (Bookings.create (L := Sample.library) Sample.env
                    (Sample.request (Some "nobody")) Sample.conn))
       = BookingData bk
       /\ b_affiliate_id bk = None
       /\ bookings (db (snd (Bookings.create (L := Sample.library) Sample.env
                               (Sample.request (Some "nobody")) Sample.conn)))
          = bookings Sample.store ++ [bk]
       /\ commissions
            (db (snd (Bookings.create (L := Sample.library) Sample.env
                        (Sample.request (Some "nobody")) Sample.conn)))
          = commissions Sample.store.
Proof.
  split; [reflexivity |].
  refine (proj2 (proj2 (@unknown_code_ignored Sample.library Sample.env
                          (Sample.request (Some "nobody")) Sample.conn
                          "nobody" eq_refl eq_refl _)) eq_refl).
  intros a [H | [H | []]]; subst a; discriminate.
Defined.

(** ** Therapist availability *)

Section Availability.
Context {L : Library}.
Import Therapists Spec.

Lemma defaultSlots_grid : defaultSlots = grid.
Proof. reflexivity. Qed.

Lemma grid_starts slot :
  In slot grid ->
  exists start, date_of_slot slot = Some start /\ on_grid start = true.
Proof.
  assert (forallb (fun s => match date_of_slot s with
                            | Some start => on_grid start
                            | None => false
                            end) grid = true) as H by reflexivity.
  intros Hin. pose proof (forallb_In _ _ _ H Hin) as Hs. cbv beta in Hs.
  destruct (date_of_slot slot) as [start |]; [| discriminate].
  exists start. split; [reflexivity | assumption].
Qed.

Lemma on_grid_bounds start :
  on_grid start = true -> exists k, 0 <= k < 20 /\ start = 480 + 30 * k.
Proof.
  unfold on_grid. intros H. apply existsb_exists in H.
  destruct H as [k [Hk Heq]]. apply in_seq in Hk. apply Z.eqb_eq in Heq.
  exists (Z.of_nat k). split; [lia | assumption].
Qed.

(** The rows the busy-slot query returns include every active booking
    of the therapist on the day that has a service. *)
Lemma select_busy_slots_hit id dstr d bk svc tv rows :
  select_busy_slots (Some id) (Some dstr) d = inr rows ->
  In bk (bookings d) -> In svc (services d) ->
  uuid_in id = Some tv -> b_therapist_id bk = Some tv ->
  date_in dstr = Some (b_scheduled_date bk) ->
  active (b_status bk) = true ->
  b_service_id bk = Some (s_id svc) ->
  In (b_scheduled_time bk, s_duration_minutes svc) rows.
Proof.
  intros Hq Hbk Hsvc Hu Hth Hd Hact Hsid. unfold select_busy_slots in Hq.
  rewrite (param_some _ _ _ _ Hu), (param_some _ _ _ _ Hd) in Hq.
  cbn [and_then] in Hq. inversion Hq as [Hrows]. clear Hq Hrows.
  apply in_flat_map. exists bk. split; [assumption |].
  rewrite Hth, Hact. cbn [eq_sql]. rewrite String.eqb_refl, Z.eqb_refl.
  cbn [andb].
  apply (in_map (fun s => (b_scheduled_time bk, s_duration_minutes s))).
  apply filter_In. split; [assumption |].
  rewrite Hsid. cbn [eq_sql]. apply String.eqb_refl.
Qed.

Lemma not_overlaps slot start bt m :
  date_of_slot slot = Some start ->
  overlaps slot (bt, Some m) = false ->
  ~ intervals_overlap start 60 bt m.
Proof.
  unfold overlaps, intervals_overlap. intros Hs Ho [t [H1 H2]].
  rewrite Hs in Ho. cbn [fst snd date_of_time plus_minutes before] in Ho.
  apply andb_false_iff in Ho. destruct Ho as [Ho | Ho];
    apply Z.ltb_ge in Ho; lia.
Qed.

(** C10. Every slot returned by GET /therapists/:id/availability is
    one of the twenty half-hour slots 08:00, 08:30, ..., 17:30, and its
    60 minutes share no minute with the interval
    [start, start + duration_minutes) of any booking of that therapist
    on that date whose status is neither cancelled nor completed. *)
Theorem available_slots_free id date_ c dstr slots busy slot :
  data (fst (availability id date_ c)) = Availability dstr slots busy ->
  In slot slots ->
  In slot grid
  /\ List.length grid = 20%nat
  /\ exists start k,
       date_of_slot slot = Some start
       /\ 0 <= k < 20 /\ start = 480 + 30 * k
       /\ forall bk svc tv m,
            In bk (bookings (db c)) -> In svc (services (db c)) ->
            uuid_in id = Some tv -> b_therapist_id bk = Some tv ->
            date_in dstr = Some (b_scheduled_date bk) ->
            active (b_status bk) = true ->
            b_service_id bk = Some (s_id svc) ->
            s_duration_minutes svc = Some m ->
            ~ intervals_overlap start 60 (b_scheduled_time bk) m.
Proof.
  unfold availability.
  destruct (truthy date_) eqn:Hdate; cbn [negb fst data failure];
    [| discriminate].
  destruct date_ as [d0 |]; [| discriminate].
  unfold query. cbn [db log].
  destruct (select_busy_slots (Some id) (Some d0) (db c))
    as [e | busySlots] eqn:Hq; cbn [fst data failure]; [discriminate |].
  intros Hdata Hin. inversion Hdata; subst dstr slots busy. clear Hdata.
  unfold availableSlots in Hin. apply filter_In in Hin.
  destruct Hin as [Hgrid Hfree]. rewrite defaultSlots_grid in Hgrid.
  split; [assumption |]. split; [reflexivity |].
  destruct (grid_starts slot Hgrid) as [start [Hstart Hon]].
  destruct (on_grid_bounds start Hon) as [k [Hk Heq]].
  exists start, k. repeat split; try assumption; try lia.
  intros bk svc tv m Hbk Hsvc Hu Hth Hd Hact Hsid Hdur.
  apply (not_overlaps slot); [assumption |].
  apply negb_true_iff in Hfree.
  pose proof (select_busy_slots_hit id d0 (db c) bk svc tv busySlots Hq Hbk
                Hsvc Hu Hth Hd Hact Hsid) as Hrow.
  rewrite Hdur in Hrow.
  destruct (overlaps slot (b_scheduled_time bk, Some m)) eqn:Ho;
    [| reflexivity].
  assert (existsb (overlaps slot) busySlots = true) as Hbad.
  { apply existsb_exists. eexists. split; eassumption. }
  rewrite Hbad in Hfree. discriminate.
Qed.

End Availability.

(** With the 09:00 booking of 90 minutes, 10:30 is offered. *)
Lemma available_slots_free_witness :
  In "10:30" Spec.grid
  /\ List.length Spec.grid = 20%nat
  /\ exists start k,
       Therapists.date_of_slot "10:30" = Some start
       /\ 0 <= k < 20 /\ start = 480 + 30 * k
       /\ forall bk svc tv m,
            In bk (bookings Sample.store) -> In svc (services Sample.store) ->
            uuid_in Sample.therapist = Some tv -> b_therapist_id bk = Some tv ->
            date_in (Library := Sample.library) "2025-08-01"
            = Some (b_scheduled_date bk) ->
            active (b_status bk) = true ->
            b_service_id bk = Some (s_id svc) ->
            s_duration_minutes svc = Some m ->
            ~ Spec.intervals_overlap start 60 (b_scheduled_time bk) m.
Proof.
  apply (@available_slots_free Sample.library Sample.therapist
           (Some "2025-08-01") Sample.conn "2025-08-01"
           (Therapists.availableSlots [(540, Some 90)]) [540] "10:30"
           eq_refl).
  vm_compute. tauto.
Defined.

(** ** Confirming and cancelling *)

Section StatusUpdates.
Context {L : Library}.
Import Bookings Spec.

Lemma filter_and {A} (p q : A -> bool) l :
  filter (fun x => p x && q x) l = filter q (filter p l).
Proof.
  induction l as [| x r IH]; [reflexivity |]. cbn [filter].
  destruct (p x); cbn [andb filter]; [destruct (q x) |]; rewrite IH;
    reflexivity.
Qed.

(** Rows of a table with a distinct key that share the key are one
    row. *)
Lemma key_injective {A} (f : A -> string) l a b :
  distinct (map f l) = true -> In a l -> In b l -> f a = f b -> a = b.
Proof.
  intros Hd Ha Hb Heq.
  pose proof (filter_by_key f l a Hd Ha) as Hf.
  assert (In b (filter (fun x => String.eqb (f x) (f a)) l)) as Hin.
  { apply filter_In. split; [assumption |].
    rewrite Heq. apply String.eqb_refl. }
  rewrite Hf in Hin. destruct Hin as [Hin | []]. exact Hin.
Qed.

Lemma bookings_keyed_ids d :
  bookings_keyed d = true -> distinct (map b_id (bookings d)) = true.
Proof.
  unfold bookings_keyed. intros H. apply andb_prop in H. apply H.
Qed.

Lemma with_bookings_same d : with_bookings d (bookings d) = d.
Proof. destruct d; reflexivity. Qed.

(** UPDATE ... WHERE id = $1 AND <guard> on a table keyed by id: the
    one row with that id is rewritten when it passes the guard, and
    nothing is otherwise. *)
Lemma update_where_key (guard : Booking -> bool) (set : Booking -> Booking)
    l bk :
  distinct (map b_id l) = true -> In bk l ->
  update_where
    (fun b => eq_sql String.eqb (Some (b_id b)) (Some (b_id bk)) && guard b)
    set l
  = if guard bk
    then ([set bk],
          map (fun r => if String.eqb (b_id r) (b_id bk) then set bk else r) l)
    else ([], l).
Proof.
  intros Hd Hin. unfold update_where. cbn [eq_sql].
  rewrite filter_and, (filter_by_key b_id l bk Hd Hin). cbn [filter].
  assert (forall r, In r l -> String.eqb (b_id r) (b_id bk) = true -> r = bk)
    as Hsame.
  { intros r Hr He. apply String.eqb_eq in He.
    apply (key_injective b_id l); assumption. }
  destruct (guard bk) eqn:Hg; cbn [map]; f_equal.
  - apply map_ext_in. intros r Hr.
    destruct (String.eqb (b_id r) (b_id bk)) eqn:He; [| reflexivity].
    rewrite (Hsame r Hr He), Hg. reflexivity.
  - rewrite <- (map_id l) at 2. apply map_ext_in. intros r Hr.
    destruct (String.eqb (b_id r) (b_id bk)) eqn:He; [| reflexivity].
    rewrite (Hsame r Hr He), Hg. reflexivity.
Qed.

(** C4, as the code has it.  Both updates are guarded by the current
    status.  Confirm rewrites the booking to 'confirmed' exactly when
    it is 'pending'; cancel rewrites it to 'cancelled' (recording the
    reason) exactly when it is 'pending' or 'confirmed'.  For any other
    current status the UPDATE matches no row: the store is unchanged
    and the response is 404. *)
Theorem status_updates_guarded env id reason c bk :
  bookings_keyed (db c) = true ->
  In bk (bookings (db c)) ->
  uuid_in id = Some (b_id bk) ->
  let confirmed :=
    set_status bk Confirmed (b_cancellation_reason bk) (now env) in
  let cancelled := set_status bk Cancelled reason (now env) in
  (if confirmable (b_status bk)
   then status (fst (confirm env id c)) = 200
        /\ data (fst (confirm env id c)) = BookingData confirmed
        /\ bookings (db (snd (confirm env id c)))
           = map (fun r => if String.eqb (b_id r) (b_id bk)
                           then confirmed else r)
                 (bookings (db c))
   else fst (confirm env id c)
        = failure 404 "Agendamento não encontrado ou já processado"
        /\ db (snd (confirm env id c)) = db c)
  /\ (if cancellable (b_status bk)
      then status (fst (cancel env id reason c)) = 200
           /\ data (fst (cancel env id reason c)) = BookingData cancelled
           /\ bookings (db (snd (cancel env id reason c)))
              = map (fun r => if String.eqb (b_id r) (b_id bk)
                              then cancelled else r)
                    (bookings (db c))
      else fst (cancel env id reason c)
           = failure 404
               "Agendamento não encontrado ou não pode ser cancelado"
           /\ db (snd (cancel env id reason c)) = db c).
Proof.
  intros Hk Hin Hid confirmed cancelled.
  pose proof (bookings_keyed_ids _ Hk) as Hd.
  split.
  - unfold confirm, execute, update_booking_confirmed.
    rewrite (param_some _ _ _ _ Hid). cbn [and_then].
    change (fun b : Booking =>
              eq_sql String.eqb (Some (b_id b)) (Some (b_id bk))
              && match b_status b with Pending => true | _ => false end)
      with (fun b : Booking =>
              eq_sql String.eqb (Some (b_id b)) (Some (b_id bk))
              && confirmable (b_status b)).
    rewrite (update_where_key (fun b => confirmable (b_status b)) _ _ bk Hd Hin).
    destruct (confirmable (b_status bk)); cbn [fst snd status data db].
    + repeat split.
    + rewrite with_bookings_same. split; reflexivity.
  - unfold cancel, execute, update_booking_cancelled.
    rewrite (param_some _ _ _ _ Hid). cbn [and_then].
    change (fun b : Booking =>
              eq_sql String.eqb (Some (b_id b)) (Some (b_id bk))
              && match b_status b with
                 | Pending | Confirmed => true
                 | _ => false
                 end)
      with (fun b : Booking =>
              eq_sql String.eqb (Some (b_id b)) (Some (b_id bk))
              && cancellable (b_status b)).
    rewrite (update_where_key (fun b => cancellable (b_status b)) _ _ bk Hd Hin).
    destruct (cancellable (b_status bk)); cbn [fst snd status data db].
    + repeat split.
    + rewrite with_bookings_same. split; reflexivity.
Qed.

End StatusUpdates.

(** Confirming the cancelled sample booking and cancelling the
    completed one both answer 404 and change nothing. *)
Lemma status_updates_guarded_witness :
  (fst (Bookings.confirm Sample.env Sample.dropped Sample.conn)
   = failure 404 "Agendamento não encontrado ou já processado"
   /\ db (snd (Bookings.confirm Sample.env Sample.dropped Sample.conn))
      = Sample.store)
  /\ (fst (Bookings.cancel Sample.env Sample.dropped None Sample.conn)
      = failure 404 "Agendamento não encontrado ou não pode ser cancelado"
      /\ db (snd (Bookings.cancel Sample.env Sample.dropped None Sample.conn))
         = Sample.store).
Proof.
  exact (@status_updates_guarded Sample.env Sample.dropped None Sample.conn
           Sample.dropped_booking eq_refl (or_intror (or_introl eq_refl))
           eq_refl).
Defined.

(** C4 as stated fails: confirm answers 404 for the cancelled sample
    booking and leaves it cancelled, cancel answers 404 for the
    completed one and leaves it completed; so the updates are not
    unconditional. *)
Lemma status_update_unconditional_counterexample :
  (status (fst (Bookings.confirm Sample.env Sample.dropped Sample.conn)) = 404
   /\ In Sample.dropped_booking
        (bookings (db (snd (Bookings.confirm Sample.env Sample.dropped
                              Sample.conn))))
   /\ b_status Sample.dropped_booking = Cancelled)
  /\ (status (fst (Bookings.cancel Sample.env Sample.finished None
                     Sample.conn)) = 404
      /\ In Sample.finished_booking
           (bookings (db (snd (Bookings.cancel Sample.env Sample.finished
                                 None Sample.conn))))
      /\ b_status Sample.finished_booking = Completed)
  /\ ~ (forall env id reason c bk,
          In bk (bookings (db c)) -> uuid_in id = Some (b_id bk) ->
          (exists bk',
             In bk' (bookings (db (snd (Bookings.confirm env id c))))
             /\ b_id bk' = b_id bk /\ b_status bk' = Confirmed)
          /\ (exists bk',
                In bk' (bookings (db (snd (Bookings.cancel env id reason c))))
                /\ b_id bk' = b_id bk /\ b_status bk' = Cancelled)).
Proof.
  split; [| split].
  - split; [reflexivity |]. split; [| reflexivity].
    right. left. reflexivity.
  - split; [reflexivity |]. split; [| reflexivity].
    right. right. left. reflexivity.
  - intros H.
    destruct (H Sample.env Sample.finished None Sample.conn
                Sample.finished_booking
                (or_intror (or_intror (or_introl eq_refl))) eq_refl)
      as [_ [bk' [Hin [Hid Hst]]]].
    cbn in Hin.
    destruct Hin as [E | [E | [E | []]]]; subst bk'; discriminate.
Qed.

(** ** Listing bookings *)

Section Pagination.
Context {L : Library}.
Import Bookings Spec.

Lemma digit_not_space c : is_digit c = true -> is_space c = false.
Proof.
  unfold is_digit, is_space. intros H.
  apply andb_prop in H. destruct H as [H1 H2].
  apply Nat.leb_le in H1. apply Nat.leb_le in H2.
  apply orb_false_iff. split.
  - apply andb_false_iff. right. apply Nat.leb_gt. lia.
  - apply Nat.eqb_neq. lia.
Qed.

(** On a string that [isInt] accepts, [parseInt] reads the integer the
    validator compared, as a number. *)
Lemma parseInt_int_value s v :
  int_value s = Some v -> parseInt (Some s) = Some (integer v).
Proof.
  unfold int_value, parseInt, leading_integer.
  destruct s as [| c r]; [discriminate |].
  destruct (Ascii.eqb c "-") eqn:Em.
  - apply Ascii.eqb_eq in Em. subst c.
    change (skip_spaces (String "-" r)) with (String "-" r).
    cbn [Ascii.eqb Bool.eqb].
    destruct (all_digits r); [| discriminate].
    intros H. now rewrite H.
  - destruct (Ascii.eqb c "+") eqn:Ep.
    + apply Ascii.eqb_eq in Ep. subst c.
      change (skip_spaces (String "+" r)) with (String "+" r).
      cbn [Ascii.eqb Bool.eqb].
      destruct (all_digits r); [| discriminate].
      intros H. now rewrite H.
    + destruct (all_digits (String c r)) eqn:Ed; [| discriminate].
      cbn [all_digits] in Ed. apply andb_prop in Ed. destruct Ed as [Ed _].
      cbn [skip_spaces]. rewrite (digit_not_space c Ed), Em, Ep.
      intros H. now rewrite H.
Qed.

(** [Math.ceil(a / b)] for a positive divisor, in integer terms. *)
Lemma ceil_div_pos a b : 0 < b -> ceil_div a b = - ((- a) / b).
Proof.
  intros Hb. destruct b as [| p | p]; try lia.
  unfold ceil_div, Qceiling, Qfloor, Qdiv, Qmult, Qinv, Qopp, inject_Z.
  cbn [Qnum Qden]. rewrite Z.mul_1_r, Pos.mul_1_l. reflexivity.
Qed.

Lemma ceil_div_bounds a b :
  0 < b -> (ceil_div a b - 1) * b < a <= ceil_div a b * b.
Proof.
  intros Hb. rewrite (ceil_div_pos a b Hb).
  pose proof (Z.div_mod (- a) b ltac:(lia)) as Hdm.
  pose proof (Z.mod_pos_bound (- a) b Hb) as Hm.
  nia.
Qed.

Lemma isInt_value lo hi s :
  isInt lo hi s = true ->
  exists v,
    int_value s = Some v
    /\ match lo with Some m => m <= v | None => True end
    /\ match hi with Some m => v <= m | None => True end.
Proof.
  unfold isInt. destruct (int_value s) as [v |]; [| discriminate].
  intros H. apply andb_prop in H. destruct H as [H1 H2].
  exists v. split; [reflexivity |]. split.
  - destruct lo; [apply Z.leb_le; assumption | exact I].
  - destruct hi; [apply Z.leb_le; assumption | exact I].
Qed.

Lemma errors_of_opt chk m v :
  errors_of (opt chk m) v = [] ->
  match v with Some s => chk s = true | None => True end.
Proof.
  unfold errors_of, opt. cbn [optional check sanitizer withMessage].
  destruct v as [s |]; [| intros _; exact I].
  destruct (chk s); [reflexivity | discriminate].
Qed.

Lemma rejected (q : ListQuery) c :
  list_errors q <> [] ->
  status (fst (index q c)) = 400 /\ snd (index q c) = c.
Proof.
  intros H. unfold index.
  destruct (list_errors q); [contradiction |].
  cbn [List.length Nat.eqb negb fst snd status]. split; reflexivity.
Qed.

Lemma bigint_inr n m : bigint n = inr m -> m = n.
Proof.
  unfold bigint.
  destruct (10 ^ 21 <=? Z.abs n); [discriminate |].
  destruct ((n <? - 2 ^ 63) || (2 ^ 63 <=? n)); [discriminate |].
  congruence.
Qed.

Lemma where_rows_page w limit offset d rows :
  select_bookings_page w limit offset d = inr rows ->
  (List.length rows <= Z.to_nat limit)%nat.
Proof.
  unfold select_bookings_page, and_then.
  destruct (where_rows w d); [discriminate |].
  destruct (bigint limit) as [e | n] eqn:Hl; [discriminate |].
  apply bigint_inr in Hl. subst n.
  destruct (bigint offset) as [e | o]; [discriminate |].
  destruct (limit <? 0); [discriminate |].
  destruct (o <? 0); [discriminate |].
  intros H. inversion H. rewrite List.length_firstn. apply Nat.le_min_l.
Qed.

Lemma bigint_fits n : 0 <= n < 2 ^ 53 -> bigint n = inr n.
Proof.
  intros H. unfold bigint.
  assert ((10 ^ 21 <=? Z.abs n) = false) as ->
    by (apply Z.leb_gt; change (10 ^ 21) with 1000000000000000000000;
        change (2 ^ 53) with 9007199254740992 in H; lia).
  assert ((n <? - 2 ^ 63) = false) as -> by (apply Z.ltb_ge; lia).
  assert ((2 ^ 63 <=? n) = false) as ->
    by (apply Z.leb_gt; change (2 ^ 63) with 9223372036854775808;
        change (2 ^ 53) with 9007199254740992 in H; lia).
  reflexivity.
Qed.

(** C8. For GET /bookings: a page below 1, a limit below 1 or above
    100, and any page or limit that is not an integer, are rejected
    with 400 before a query is sent.  A query that passes validation is
    answered with 200 and a page: page is the integer asked for, 1
    when absent, and limit the integer asked for, 10 when absent; the
    page query is sent with LIMIT limit and OFFSET (page - 1) * limit
    and the count query after it; the rows are that slice of the
    matching bookings, total is their count, and pages is
    Math.ceil(total / limit), the least integer whose multiple of
    limit reaches total.  This is for page * limit and total below
    2^53, where the handler's numbers are the integers they stand for.
    Whatever the size, a response that carries a page comes from a
    query that passed validation, with 1 <= page, 1 <= limit <= 100
    and at most limit rows. *)
Theorem pagination (q : ListQuery) c :
  (forall s,
     q_page q = Some s -> (forall v, int_value s = Some v -> v < 1) ->
     status (fst (index q c)) = 400 /\ snd (index q c) = c)
  /\ (forall s,
        q_limit q = Some s ->
        (forall v, int_value s = Some v -> v < 1 \/ 100 < v) ->
        status (fst (index q c)) = 400 /\ snd (index q c) = c)
  /\ (forall page limit matching,
        list_errors q = [] ->
        asked (q_page q) 1 = Some page ->
        asked (q_limit q) 10 = Some limit ->
        where_rows (whereClause q) (db c) = inr matching ->
        page * limit < 2 ^ 53 ->
        Z.of_nat (List.length matching) < 2 ^ 53 ->
        let offset := (page - 1) * limit in
        let total := Z.of_nat (List.length matching) in
        1 <= page /\ 1 <= limit <= 100
        /\ fst (index q c)
           = {| status := 200; success := true; message_of := None;
                data := BookingsPage
                          (firstn (Z.to_nat limit)
                             (skipn (Z.to_nat offset) (order_desc matching)))
                          page limit total (ceil_div total limit) |}
        /\ snd (index q c)
           = on (db c)
               (log c ++ [SelectBookingsPage limit offset; CountBookings])
        /\ (ceil_div total limit - 1) * limit < total
           <= ceil_div total limit * limit)
  /\ (forall rows page limit total pages,
        data (fst (index q c)) = BookingsPage rows page limit total pages ->
        list_errors q = []
        /\ status (fst (index q c)) = 200
        /\ 1 <= page /\ 1 <= limit <= 100
        /\ asked (q_limit q) 10 = Some limit
        /\ (List.length rows <= Z.to_nat limit)%nat
        /\ pages = ceil_div total limit).
Proof.
  split; [| split; [| split]].
  - intros s Hs Hbad. apply rejected. unfold list_errors. rewrite Hs.
    unfold errors_of at 1, v_page, opt, isInt.
    cbn [optional check sanitizer withMessage].
    destruct (int_value s) as [v |]; [| discriminate].
    pose proof (Hbad v eq_refl) as Hv.
    assert ((1 <=? v) = false) as Hle by (apply Z.leb_gt; assumption).
    rewrite Hle. discriminate.
  - intros s Hs Hbad. apply rejected. unfold list_errors. rewrite Hs.
    intros H. apply app_nil_both in H. destruct H as [_ H].
    apply app_nil_both in H. destruct H as [H _]. revert H.
    unfold errors_of, v_limit, opt, isInt.
    cbn [optional check sanitizer withMessage].
    destruct (int_value s) as [v |]; [| discriminate].
    destruct (Hbad v eq_refl) as [Hv | Hv].
    + assert ((1 <=? v) = false) as Hle by (apply Z.leb_gt; assumption).
      rewrite Hle. discriminate.
    + assert ((v <=? 100) = false) as Hle by (apply Z.leb_gt; assumption).
      rewrite Hle, andb_false_r. discriminate.
  - intros page limit matching Hv Hpage Hlimit Hw Hbound Htotal.
    cbv zeta.
    pose proof Hv as Herr. unfold list_errors in Hv.
    apply app_nil_both in Hv. destruct Hv as [Hp Hv].
    apply app_nil_both in Hv. destruct Hv as [Hl _].
    apply errors_of_opt in Hp. apply errors_of_opt in Hl.
    assert (1 <= page) as Hp1.
    { destruct (q_page q) as [s |]; cbn [asked] in Hpage.
      - apply isInt_value in Hp. destruct Hp as [v [Hv [Hlo _]]].
        congruence.
      - injection Hpage as <-. lia. }
    assert (1 <= limit <= 100) as Hl1.
    { destruct (q_limit q) as [s |]; cbn [asked] in Hlimit.
      - apply isInt_value in Hl. destruct Hl as [v [Hv [Hlo Hhi]]].
        assert (v = limit) by congruence. subst v. lia.
      - injection Hlimit as <-. lia. }
    assert (page < 2 ^ 53) as Hpb by nia.
    assert (num_or (parseInt (q_page q)) 1 = page) as Hnp.
    { destruct (q_page q) as [s |]; cbn [asked] in Hpage.
      - rewrite (parseInt_int_value s page Hpage). cbn [option_map num_or].
        rewrite integer_exact by lia. destruct page; try reflexivity; lia.
      - injection Hpage as <-. reflexivity. }
    assert (num_or (parseInt (q_limit q)) 10 = limit) as Hnl.
    { destruct (q_limit q) as [s |]; cbn [asked] in Hlimit.
      - rewrite (parseInt_int_value s limit Hlimit). cbn [option_map num_or].
        rewrite integer_exact
          by (change (2 ^ 53) with 9007199254740992; lia).
        destruct limit; try reflexivity; lia.
      - injection Hlimit as <-. reflexivity. }
    split; [assumption |]. split; [assumption |].
    unfold index. rewrite Herr. cbn [List.length Nat.eqb negb].
    rewrite Hnp, Hnl. rewrite bind_query. cbn [db log].
    unfold select_bookings_page, and_then. rewrite Hw.
    rewrite (bigint_fits limit)
      by (change (2 ^ 53) with 9007199254740992; lia).
    rewrite (bigint_fits ((page - 1) * limit)) by nia.
    assert ((limit <? 0) = false) as -> by (apply Z.ltb_ge; lia).
    assert (((page - 1) * limit <? 0) = false) as ->
      by (apply Z.ltb_ge; nia).
    rewrite bind_query. cbn [db log]. unfold count_bookings, and_then.
    rewrite Hw. cbn [fst snd ret]. unfold on. rewrite <- app_assoc.
    split; [reflexivity |]. split; [reflexivity |].
    apply ceil_div_bounds. lia.
  - intros rows page limit total pages. unfold index.
    destruct (list_errors q) as [| m ms] eqn:Hv;
      cbn [List.length Nat.eqb negb fst snd data]; [| discriminate].
    unfold list_errors in Hv.
    apply app_nil_both in Hv. destruct Hv as [Hpage Hv].
    apply app_nil_both in Hv. destruct Hv as [Hlimit _].
    apply errors_of_opt in Hpage. apply errors_of_opt in Hlimit.
    assert (1 <= num_or (parseInt (q_page q)) 1) as Hp1.
    { destruct (q_page q) as [s |]; [| cbn; lia].
      apply isInt_value in Hpage. destruct Hpage as [v [Hv [Hlo _]]].
      rewrite (parseInt_int_value s v Hv). cbn [option_map num_or].
      pose proof (integer_pos v Hlo).
      destruct (integer v); lia. }
    assert (exists l,
              num_or (parseInt (q_limit q)) 10 = l /\ 1 <= l <= 100
              /\ asked (q_limit q) 10 = Some l) as [l [Hl [Hl1 Hlv]]].
    { destruct (q_limit q) as [s |].
      - apply isInt_value in Hlimit. destruct Hlimit as [v [Hv [Hlo Hhi]]].
        exists v. rewrite (parseInt_int_value s v Hv).
        cbn [option_map num_or asked].
        rewrite integer_exact
          by (change (2 ^ 53) with 9007199254740992; lia).
        split; [| split; [lia | assumption]].
        destruct v; try reflexivity; lia.
      - exists 10. repeat split; lia. }
    rewrite Hl. rewrite bind_query.
    destruct (select_bookings_page (whereClause q) l
                ((num_or (parseInt (q_page q)) 1 - 1) * l) (db c))
      as [e | rows'] eqn:Hrows; cbn [fst data failure status].
    { destruct e; discriminate. }
    rewrite bind_query. cbn [db log].
    destruct (count_bookings (whereClause q) (db c)) as [e | total'] eqn:Hcount;
      cbn [fst snd data failure ret log status].
    { destruct e; discriminate. }
    intros Hdata. inversion Hdata; subst rows' page limit total' pages.
    clear Hdata.
    split; [reflexivity |]. split; [reflexivity |].
    split; [assumption |]. split; [assumption |]. split; [assumption |].
    split; [| reflexivity].
    eapply where_rows_page. eassumption.
Qed.

End Pagination.

Section SecondPage.
Import Sample.

Lemma pagination_witness :
  fst (Bookings.index Requests.second_of_two conn)
  = {| status := 200; success := true; message_of := None;
       data := BookingsPage [finished_booking] 2 2 3 2 |}
  /\ snd (Bookings.index Requests.second_of_two conn)
     = Spec.on store [SelectBookingsPage 2 2; CountBookings]
  /\ (2 - 1) * 2 < 3 <= 2 * 2.
Proof.
  exact (proj2 (proj2
           (proj1 (proj2 (proj2
              (@pagination library Requests.second_of_two conn)))
              2 2 (bookings store)
              eq_refl eq_refl eq_refl eq_refl eq_refl eq_refl))).
Defined.

End SecondPage.

(** ** The migration's constraints *)

Section SchemaFacts.
Import Schema.

Lemma admits_column t rows r c :
  admits t rows r = true -> In c (columns t) ->
  accepts c (r (name c)) = true
  /\ (is_unique c = true ->
      forall r', In r' rows -> same_value (r' (name c)) (r (name c)) = false).
Proof.
  unfold admits. intros H Hin.
  pose proof (forallb_In _ _ _ H Hin) as Hc. cbv beta in Hc.
  apply andb_prop in Hc. destruct Hc as [Hacc Huniq].
  split; [assumption |]. intros Hu r' Hr'.
  rewrite Hu in Huniq. cbn [negb orb] in Huniq.
  apply negb_true_iff in Huniq.
  destruct (same_value (r' (name c)) (r (name c))) eqn:E; [| reflexivity].
  assert (existsb (fun r' => same_value (r' (name c)) (r (name c))) rows = true)
    as Hbad.
  { apply existsb_exists. exists r'. split; assumption. }
  rewrite Hbad in Huniq. discriminate.
Qed.

(** A column with CHECK (col IN (...)) holds NULL or a listed text. *)
Lemma accepts_enum c values v :
  In (CHECK_IN values) (constraints c) ->
  accepts c v = true ->
  v = NULL \/ exists s, v = Text s /\ In s values.
Proof.
  unfold accepts. intros Hin H. apply andb_prop in H. destruct H as [_ H].
  pose proof (forallb_In _ _ _ H Hin) as Hc. cbn [satisfies] in Hc.
  destruct v as [| s | q | b]; try discriminate.
  - left. reflexivity.
  - right. exists s. split; [reflexivity |].
    apply existsb_exists in Hc. destruct Hc as [x [Hx Heq]].
    apply String.eqb_eq in Heq. subst. assumption.
Qed.

(** C7, as the migration has it.  The tables admit no second row with
    the email of a user, the referral_code of an affiliate or the
    serial_key of a license; bookings.status, commissions.status and
    licenses.status hold NULL or one of their listed values; and
    affiliates.commission_rate is declared DECIMAL(5,2) DEFAULT 15.00
    with no CHECK: a number is accepted exactly when, rounded to two
    decimals, its magnitude is below 1000. *)
Theorem schema_constraints :
  (forall rows r r',
     admits users rows r = true -> In r' rows ->
     same_value (r' "email") (r "email") = false)
  /\ (forall rows r r',
        admits affiliates rows r = true -> In r' rows ->
        same_value (r' "referral_code") (r "referral_code") = false)
  /\ (forall rows r r',
        admits licenses rows r = true -> In r' rows ->
        same_value (r' "serial_key") (r "serial_key") = false)
  /\ (forall rows r,
        admits bookings rows r = true ->
        r "status" = NULL
        \/ exists s, r "status" = Text s /\ In s booking_statuses)
  /\ (forall rows r,
        admits commissions rows r = true ->
        r "status" = NULL
        \/ exists s, r "status" = Text s /\ In s commission_statuses)
  /\ (forall rows r,
        admits licenses rows r = true ->
        r "status" = NULL
        \/ exists s, r "status" = Text s /\ In s license_statuses)
  /\ find_column "affiliates" "commission_rate" = Some commission_rate_column
  /\ (forall q,
        accepts commission_rate_column (Number q) = true
        <-> Z.abs (round (q * inject_Z 100)) < 100000).
Proof.
  repeat split.
  - intros rows r r' H Hin.
    apply (proj2 (admits_column users rows r
                    (col "email" (VARCHAR 255) [UNIQUE; NOT_NULL]) H
                    ltac:(cbn; tauto)) eq_refl r' Hin).
  - intros rows r r' H Hin.
    apply (proj2 (admits_column affiliates rows r
                    (col "referral_code" (VARCHAR 20) [UNIQUE; NOT_NULL]) H
                    ltac:(cbn; tauto)) eq_refl r' Hin).
  - intros rows r r' H Hin.
    apply (proj2 (admits_column licenses rows r
                    (col "serial_key" (VARCHAR 50) [UNIQUE; NOT_NULL]) H
                    ltac:(cbn; tauto)) eq_refl r' Hin).
  - intros rows r H.
    apply (accepts_enum
             (col "status" (VARCHAR 50)
                [DEFAULT "'pending'"; CHECK_IN booking_statuses]));
      [cbn; tauto |].
    apply (proj1 (admits_column bookings rows r
                    (col "status" (VARCHAR 50)
                       [DEFAULT "'pending'"; CHECK_IN booking_statuses])
                    H ltac:(cbn; tauto))).
  - intros rows r H.
    apply (accepts_enum
             (col "status" (VARCHAR 50)
                [DEFAULT "'pending'"; CHECK_IN commission_statuses]));
      [cbn; tauto |].
    apply (proj1 (admits_column commissions rows r
                    (col "status" (VARCHAR 50)
                       [DEFAULT "'pending'"; CHECK_IN commission_statuses])
                    H ltac:(cbn; tauto))).
  - intros rows r H.
    apply (accepts_enum
             (col "status" (VARCHAR 50)
                [DEFAULT "'pending'"; CHECK_IN license_statuses]));
      [cbn; tauto |].
    apply (proj1 (admits_column licenses rows r
                    (col "status" (VARCHAR 50)
                       [DEFAULT "'pending'"; CHECK_IN license_statuses])
                    H ltac:(cbn; tauto))).
  - unfold accepts, commission_rate_column.
    cbn [sql_type constraints col fits forallb satisfies].
    rewrite andb_true_r. intros H. apply Z.ltb_lt in H. exact H.
  - unfold accepts, commission_rate_column.
    cbn [sql_type constraints col fits forallb satisfies].
    rewrite andb_true_r. intros H. apply Z.ltb_lt. exact H.
Qed.

(** C7 as stated fails on the range check: the commission_rate column
    carries no CHECK, and the affiliates table admits a row whose
    commission_rate is 150 as well as one whose rate is -5. *)
Lemma commission_rate_unchecked_counterexample :
  find_column "affiliates" "commission_rate" = Some commission_rate_column
  /\ existsb is_check (constraints commission_rate_column) = false
  /\ admits affiliates [] (Sample.affiliate_row (150 # 1)) = true
  /\ admits affiliates [] (Sample.affiliate_row (- 5 # 1)) = true.
Proof. repeat split. Qed.

End SchemaFacts.

(** ** Errors and responses *)

Section ErrorMapping.
Context {L : Library}.
Import Spec.

Lemma nonempty_errors (l : list string) :
  negb (List.length l =? 0)%nat = true <-> l <> [].
Proof.
  destruct l; cbn; split; intros H; try reflexivity; try discriminate.
  contradiction.
Qed.


End ErrorMapping.


(** ** POST /commissions/:id/pay: what a payment changes *)

Section Payment.
Import Commissions Spec Outcome.

Lemma pay_callback_run env id (b : PayBody) c :
  pay_callback env id b c =
  let l1 := log c ++ [SelectPendingCommission (Some id)] in
  match select_pending_commission (Some id) (db c) with
  | inl e => (inl e, on (db c) l1)
  | inr [] => (inl (Error commission_not_found), on (db c) l1)
  | inr ((commission, au) :: _) =>
      let l2 := l1 ++ [UpdateCommissionPaid (Some id)] in
      match update_commission_paid env (Some id) (payment_method b)
              (payment_reference b) (pay_notes b) (db c) with
      | inl e => (inl e, on (db c) l2)
      | inr (updatedRows, db1) =>
          let l3 := l2 ++ [UpdateAffiliateTotal (c_affiliate_id commission)] in
          match update_affiliate_total (c_amount commission)
                  (c_affiliate_id commission) db1 with
          | inl e => (inl e, on db1 l3)
          | inr (_, db2) =>
              (inr (CommissionData (hd_error updatedRows)
                      (u_name au) (u_email au)), on db2 l3)
          end
      end
  end.
Proof.
  unfold pay_callback. rewrite bind_query. cbv zeta.
  destruct (select_pending_commission (Some id) (db c))
    as [e | [| [commission au] rest]]; try reflexivity.
  rewrite bind_execute. cbn [db log].
  destruct (update_commission_paid env (Some id) (payment_method b)
              (payment_reference b) (pay_notes b) (db c))
    as [e | [updatedRows db1]]; try reflexivity.
  rewrite bind_execute. cbn [db log].
  destruct (update_affiliate_total (c_amount commission)
              (c_affiliate_id commission) db1) as [e | [u db2]];
    reflexivity.
Qed.

(** A successful payment ran its three statements. *)
Lemma pay_inr env id (body : PayBody) c :
  success (fst (pay env id body c)) = true ->
  exists cm au rest updated db1 u,
    select_pending_commission (Some id) (db c) = inr ((cm, au) :: rest)
    /\ update_commission_paid env (Some id)
         (payment_method (pay_sanitized body))
         (payment_reference (pay_sanitized body))
         (pay_notes (pay_sanitized body)) (db c) = inr (updated, db1)
    /\ update_affiliate_total (c_amount cm) (c_affiliate_id cm) db1
       = inr (u, db (snd (pay env id body c))).
Proof.
  unfold pay.
  destruct (negb (List.length (pay_errors body) =? 0)%nat);
    [discriminate |].
  unfold transaction. rewrite pay_callback_run. cbv zeta. cbn [db log].
  destruct (select_pending_commission (Some id) (db c))
    as [e | [| [cm au] rest]]; try discriminate.
  destruct (update_commission_paid env (Some id) _ _ _ (db c))
    as [e | [updated db1]] eqn:Hup; try discriminate.
  destruct (update_affiliate_total (c_amount cm) (c_affiliate_id cm) db1)
    as [e | [u db2]] eqn:Haff; try discriminate.
  intros _. cbn [fst snd db on].
  exists cm, au, rest, updated, db1, u. auto.
Qed.


Lemma update_commission_paid_rows env id pm pr notes d updated db1 :
  update_commission_paid env (Some id) pm pr notes d = inr (updated, db1) ->
  exists cid,
    uuid_in id = Some cid
    /\ db1 = with_commissions d
               (map (fun r => if String.eqb (c_id r) cid
                              then paid (now env) pm pr notes r else r)
                    (commissions d)).
Proof.
  unfold update_commission_paid, and_then, param.
  destruct (uuid_in id) as [cid |]; [| discriminate].
  unfold update_where. intros H. injection H as _ <-.
  exists cid. split; reflexivity.
Qed.



(** X2. A commission is paid at most once: after a successful payment,
    any further payment request for the same id, whatever its body, is
    answered with status 400 and leaves the store as it is; when the
    body is valid the message is that the commission was not found or
    has been processed. *)
Theorem payment_not_repeated env id (body : PayBody) c env' (body' : PayBody) :
  success (fst (pay env id body c)) = true ->
  let c1 := snd (pay env id body c) in
  status (fst (pay env' id body' c1)) = 400
  /\ db (snd (pay env' id body' c1)) = db c1
  /\ (pay_errors body' = [] ->
      fst (pay env' id body' c1) = failure 400 commission_not_found).
Proof.
  intros Hok. cbv zeta.
  destruct (pay_inr env id body c Hok)
    as [cm [au [rest [updated [db1 [u [Hsel [Hup Haff]]]]]]]].
  destruct (update_commission_paid_rows _ _ _ _ _ _ _ _ Hup)
    as [cid [Hid Hdb1]].
  set (c1 := snd (pay env id body c)) in *.
  assert (commissions (db c1) = commissions db1) as Hcs.
  { revert Haff. unfold update_affiliate_total, and_then.
    destruct (param "uuid" uuid_in (c_affiliate_id cm)); [discriminate |].
    intros H. injection H as _ H. rewrite <- H. reflexivity. }
  assert (select_pending_commission (Some id) (db c1) = inr []) as Hnone.
  { unfold select_pending_commission, and_then, param. rewrite Hid.
    f_equal. rewrite Hcs, Hdb1. cbn [commissions with_commissions].
    generalize (commissions (db c)) as l. clear.
    induction l as [| r l IH]; [reflexivity |].
    cbn [map flat_map]. rewrite IH, app_nil_r.
    destruct (String.eqb (c_id r) cid) eqn:Hr.
    - cbn [paid c_id c_status eq_sql]. rewrite Hr. reflexivity.
    - cbn [eq_sql]. rewrite Hr. reflexivity. }
  unfold pay.
  destruct (negb (List.length (pay_errors body') =? 0)%nat) eqn:Herr.
  - cbn [fst snd status]. repeat split.
    intros He. rewrite He in Herr. discriminate.
  - unfold transaction. rewrite pay_callback_run. cbv zeta. cbn [db log].
    rewrite Hnone. cbn [fst snd db on on_error]. repeat split.
Qed.

End Payment.


Lemma payment_not_repeated_witness :
  let c1 := snd (Commissions.pay Sample.env Sample.owed Sample.payment
                   Sample.conn) in
  status (fst (Commissions.pay Sample.env Sample.owed Sample.payment c1)) = 400
  /\ db (snd (Commissions.pay Sample.env Sample.owed Sample.payment c1))
     = db c1
  /\ (Commissions.pay_errors Sample.payment = [] ->
      fst (Commissions.pay Sample.env Sample.owed Sample.payment c1)
      = failure 400 Commissions.commission_not_found).
Proof.
  exact (payment_not_repeated Sample.env Sample.owed
           Sample.payment Sample.conn Sample.env Sample.payment eq_refl).
Defined.

(** ** POST /affiliates and the referral codes it generates *)

Section AffiliateCreation.
Context {L : Library}.
Import Affiliates Spec Outcome.

Lemma charAt_chars k :
  (k < 36)%nat ->
  exists ch, charAt k chars = String ch EmptyString /\ code_char ch = true.
Proof.
  intros Hk.
  do 36 (destruct k as [| k]; [eexists; split; reflexivity |]).
  lia.
Qed.

Lemma length_append (a b : string) :
  String.length (a ++ b)%string = (String.length a + String.length b)%nat.
Proof. induction a as [| ch a IH]; cbn; [reflexivity | now rewrite IH]. Qed.

Lemma list_ascii_append (a b : string) :
  list_ascii_of_string (a ++ b)%string
  = list_ascii_of_string a ++ list_ascii_of_string b.
Proof. induction a as [| ch a IH]; cbn; [reflexivity | now rewrite IH]. Qed.

Lemma code_loop_shape draw n :
  (forall i, (draw i < 36)%nat) ->
  forall i result,
    String.length (code_loop draw i n result)
    = (String.length result + n)%nat
    /\ (forallb code_char (list_ascii_of_string result) = true ->
        forallb code_char
          (list_ascii_of_string (code_loop draw i n result)) = true).
Proof.
  intros Hdraw. induction n as [| n IH]; intros i result; cbn [code_loop].
  - split; [lia | auto].
  - destruct (charAt_chars (draw i) (Hdraw i)) as [ch [Hch Hok]].
    rewrite Hch. destruct (IH (S i) (result ++ String ch EmptyString)%string)
      as [Hlen Hall].
    split.
    + rewrite Hlen, length_append. cbn. lia.
    + intros Hres. apply Hall. rewrite list_ascii_append, forallb_app, Hres.
      cbn. now rewrite Hok.
Qed.

Lemma code_char_not_space ch : code_char ch = true -> is_space ch = false.
Proof.
  unfold code_char, is_space, is_digit.
  generalize (nat_of_ascii ch) as n. intros n H.
  apply orb_true_iff in H. rewrite !andb_true_iff, !Nat.leb_le in H.
  apply orb_false_iff. rewrite andb_false_iff, !Nat.leb_gt, Nat.eqb_neq.
  lia.
Qed.

Lemma trim_end_code s :
  forallb code_char (list_ascii_of_string s) = true -> trim_end s = s.
Proof.
  induction s as [| ch s IH]; cbn; [reflexivity |].
  intros H. apply andb_true_iff in H. destruct H as [Hch Hs].
  rewrite (IH Hs). destruct s; [| reflexivity].
  destruct (is_space ch) eqn:Hsp; [| reflexivity].
  now rewrite (code_char_not_space _ Hch) in Hsp.
Qed.

Lemma trim_code s :
  forallb code_char (list_ascii_of_string s) = true -> trim s = s.
Proof.
  intros H. unfold trim.
  assert (skip_spaces s = s) as ->.
  { destruct s as [| ch s]; [reflexivity |]. cbn in *.
    apply andb_true_iff in H. destruct H as [Hch _].
    destruct (is_space ch) eqn:Hsp; [| reflexivity].
    now rewrite (code_char_not_space _ Hch) in Hsp. }
  now apply trim_end_code.
Qed.

(** X3. When every draw of [Math.floor(Math.random() * 36)] is below
    36, the generated referral code has exactly eight characters, each
    an upper-case letter or a digit; it passes the handler's own rule
    for referral codes unchanged by the trim and fits the
    VARCHAR(20) column. *)
Theorem generated_code_shape (draw : nat -> nat) :
  (forall i, (draw i < 36)%nat) ->
  let code := generateReferralCode draw in
  String.length code = 8%nat
  /\ forallb code_char (list_ascii_of_string code) = true
  /\ errors_of v_referral_code (Some code) = []
  /\ sanitized v_referral_code (Some code) = Some code
  /\ Schema.fits (Schema.VARCHAR 20) (Schema.Text code) = true.
Proof.
  intros Hdraw. cbv zeta. unfold generateReferralCode.
  destruct (code_loop_shape draw 8 Hdraw 0%nat "") as [Hlen Hall].
  specialize (Hall eq_refl). cbn [String.length Nat.add] in Hlen.
  pose proof (trim_code _ Hall) as Htrim.
  repeat split; auto.
  - unfold errors_of, v_referral_code, trimmed, opt, isLength.
    cbn [optional sanitizer check withMessage]. rewrite Htrim, Hlen.
    reflexivity.
  - unfold sanitized, v_referral_code, trimmed, opt.
    cbn [sanitizer option_map]. now rewrite Htrim.
  - cbn [Schema.fits]. rewrite Hlen. reflexivity.
Qed.



Lemma distinct_snoc l x :
  distinct l = true -> ~ In x l -> distinct (l ++ [x]) = true.
Proof.
  induction l as [| y l IH]; intros Hd Hx; [reflexivity |].
  cbn [app distinct] in *. apply andb_true_iff in Hd. destruct Hd as [Hy Hl].
  apply andb_true_iff. split.
  - rewrite existsb_app, negb_orb. apply andb_true_iff. split; auto.
    cbn [existsb]. rewrite orb_false_r. apply negb_true_iff.
    apply String.eqb_neq. intros ->. apply Hx. now left.
  - apply IH; auto. intros Hin. apply Hx. now right.
Qed.



End AffiliateCreation.

Lemma generated_code_shape_witness :
  let code := Affiliates.generateReferralCode (fun i => (i mod 36)%nat) in
  String.length code = 8%nat
  /\ forallb Outcome.code_char (list_ascii_of_string code) = true
  /\ errors_of Affiliates.v_referral_code (Some code) = []
  /\ sanitized Affiliates.v_referral_code (Some code) = Some code
  /\ Schema.fits (Schema.VARCHAR 20) (Schema.Text code) = true.
Proof.
  apply (generated_code_shape (fun i => (i mod 36)%nat)).
  intros i. apply Nat.mod_upper_bound. discriminate.
Defined.


(** ** routes/bookings: what no sequence of requests does to a booking *)

Section BookingTraffic.
Context {L : Library}.
Import Bookings Spec Traffic.

Lemma later_version_refl bk : later_version bk bk.
Proof. unfold later_version. repeat split; auto. Qed.

Lemma later_version_trans a b c :
  later_version a b -> later_version b c -> later_version a c.
Proof.
  unfold later_version.
  intros [A1 [A2 [A3 [A4 [A5 [A6 [A7 [A8 [A9 [A10 [A11 [A12 [A13
           [A14 [A15 A16]]]]]]]]]]]]]]]
         [B1 [B2 [B3 [B4 [B5 [B6 [B7 [B8 [B9 [B10 [B11 [B12 [B13
           [B14 [B15 B16]]]]]]]]]]]]]]].
  repeat split; try congruence; try lia.
  - intros Ht. specialize (A15 Ht). subst b. auto.
  - auto.
Qed.

Lemma carried_refl l : carried l l.
Proof. intros n bk H. exists bk. split; [assumption | apply later_version_refl]. Qed.

Lemma carried_trans l1 l2 l3 :
  carried l1 l2 -> carried l2 l3 -> carried l1 l3.
Proof.
  intros H12 H23 n bk H.
  destruct (H12 n bk H) as [bk2 [H2 Hv2]].
  destruct (H23 n bk2 H2) as [bk3 [H3 Hv3]].
  exists bk3. split; [assumption |].
  eapply later_version_trans; eassumption.
Qed.

Lemma carried_app l extra : carried l (l ++ extra).
Proof.
  intros n bk H. exists bk. split; [| apply later_version_refl].
  rewrite nth_error_app1; [assumption |].
  apply nth_error_Some. congruence.
Qed.

Lemma carried_map (f : Booking -> Booking) l :
  (forall bk, later_version bk (f bk)) -> carried l (map f l).
Proof.
  intros Hf n bk H. exists (f bk). split; [| apply Hf].
  rewrite nth_error_map, H. reflexivity.
Qed.

Lemma later_version_set bk st reason at_ :
  terminal (b_status bk) = false ->
  (rank (b_status bk) <= rank st)%nat ->
  st <> Completed ->
  later_version bk (set_status bk st reason at_).
Proof.
  intros Ht Hr Hc. unfold later_version, set_status.
  cbn [b_id b_service_id b_therapist_id b_affiliate_id b_client_name
       b_client_email b_client_phone b_scheduled_date b_scheduled_time
       b_total_amount b_payment_status b_notes b_created_at b_status].
  repeat split; auto; congruence.
Qed.

Lemma index_reads q c : db (snd (index q c)) = db c.
Proof.
  unfold index.
  destruct (negb (List.length (list_errors q) =? 0)%nat); [reflexivity |].
  rewrite bind_query. cbn [db log].
  destruct (select_bookings_page _ _ _ (db c)); [reflexivity |].
  rewrite bind_query. cbn [db log].
  destruct (count_bookings _ (db c)); reflexivity.
Qed.

Lemma create_appends env (body : CreateBody) c :
  bookings (db (snd (create env body c))) = bookings (db c)
  \/ exists bk,
       bookings (db (snd (create env body c))) = bookings (db c) ++ [bk].
Proof.
  unfold create.
  destruct (negb (List.length (create_errors body) =? 0)%nat);
    [left; reflexivity |].
  destruct (transaction (create_callback env (create_sanitized body)) c)
    as [[e | bk] c'] eqn:Htr; cbn [snd].
  - left. rewrite (transaction_inl _ _ _ _ Htr). reflexivity.
  - right. exists bk.
    destruct (transaction_inr _ _ _ _ Htr) as [c1 [Hcb [Hdb _]]].
    rewrite Hdb.
    destruct (create_callback_inr _ _ _ _ _ Hcb)
      as [service [rest [db1 [_ [_ [Hins Hcases]]]]]].
    apply insert_booking_inr in Hins. destruct Hins as [-> _].
    cbv zeta in Hcases. cbn [db] in Hcases.
    destruct Hcases as [[_ ->] | [[_ [_ ->]] | [_ Hc]]];
      try reflexivity.
    destruct Hc as [a [rest' [db2 [u [_ [Hic ->]]]]]].
    apply insert_commission_inr in Hic. destruct Hic as [cm [-> _]].
    reflexivity.
Qed.

Lemma confirm_carries env id c :
  carried (bookings (db c)) (bookings (db (snd (confirm env id c)))).
Proof.
  unfold confirm, execute, update_booking_confirmed, and_then.
  destruct (param "uuid" uuid_in (Some id)) as [e | bid];
    [apply carried_refl |].
  unfold update_where. cbn [db log].
  match goal with
  | |- context [map ?f (filter ?h _)] =>
      destruct (map f (filter h (bookings (db c))))
  end; cbn [snd db bookings with_bookings];
    (apply carried_map; intros bk;
     destruct (eq_sql String.eqb (Some (b_id bk)) bid);
     [| apply later_version_refl];
     destruct (b_status bk) eqn:Hst; cbn [andb];
     try apply later_version_refl;
     apply later_version_set; rewrite ?Hst; cbn; auto; discriminate).
Qed.

Lemma cancel_carries env id reason c :
  carried (bookings (db c)) (bookings (db (snd (cancel env id reason c)))).
Proof.
  unfold cancel, execute, update_booking_cancelled, and_then.
  destruct (param "uuid" uuid_in (Some id)) as [e | bid];
    [apply carried_refl |].
  unfold update_where. cbn [db log].
  match goal with
  | |- context [map ?f (filter ?h _)] =>
      destruct (map f (filter h (bookings (db c))))
  end; cbn [snd db bookings with_bookings];
    (apply carried_map; intros bk;
     destruct (eq_sql String.eqb (Some (b_id bk)) bid);
     [| apply later_version_refl];
     destruct (b_status bk) eqn:Hst; cbn [andb];
     try apply later_version_refl;
     apply later_version_set; rewrite ?Hst; cbn; auto; discriminate).
Qed.

(** X5. Whatever requests the bookings router serves, in whatever
    order, a booking row is never deleted or moved; of its columns only
    status, cancellation_reason and updated_at ever change; its status
    never moves backwards (pending, then confirmed, then cancelled);
    a cancelled or completed booking is never changed again; and no
    request makes a booking completed. *)
Theorem bookings_only_advance (rs : list (Env * Request)) c n bk :
  nth_error (bookings (db c)) n = Some bk ->
  exists bk',
    nth_error (bookings (db (serve_all rs c))) n = Some bk'
    /\ later_version bk bk'.
Proof.
  revert n bk. change (carried (bookings (db c))
                         (bookings (db (serve_all rs c)))).
  revert c. induction rs as [| [env r] rs IH]; intros c;
    cbn [serve_all]; [apply carried_refl |].
  eapply carried_trans; [| apply IH].
  destruct r as [q | body | id | id reason]; cbn [serve].
  - rewrite index_reads. apply carried_refl.
  - destruct (create_appends env body c) as [-> | [bk ->]];
      [apply carried_refl | apply carried_app].
  - apply confirm_carries.
  - apply cancel_carries.
Qed.

End BookingTraffic.

Lemma bookings_only_advance_witness :
  exists bk',
    nth_error
      (bookings
         (db (Traffic.serve_all (L := Sample.library)
                [ (Sample.env, Traffic.Cancel Sample.morning (Some "chuva"));
                  (Sample.env, Traffic.Confirm Sample.morning);
                  (Sample.env, Traffic.Create (Sample.request None)) ]
                Sample.conn))) 0
    = Some bk'
    /\ Traffic.later_version Sample.morning_booking bk'.
Proof.
  exact (@bookings_only_advance Sample.library
           [ (Sample.env, Traffic.Cancel Sample.morning (Some "chuva"));
             (Sample.env, Traffic.Confirm Sample.morning);
             (Sample.env, Traffic.Create (Sample.request None)) ]
           Sample.conn 0%nat Sample.morning_booking eq_refl).
Defined.

(** ** POST /bookings, then GET /therapists/:id/availability *)

Section BookedSlot.
Context {L : Library}.
Import Therapists Bookings Spec.

Lemma insert_booking_when env sid tid aid name email phone d t notes price
    db bk db1 :
  insert_booking env sid tid aid name email phone d t notes price db
  = inr (bk, db1) ->
  param "date" date_in d = inr (Some (b_scheduled_date bk))
  /\ param "time" time_in t = inr (Some (b_scheduled_time bk)).
Proof.
  unfold insert_booking, and_then.
  destruct (param "uuid" uuid_in sid); [discriminate |].
  destruct (param "uuid" uuid_in tid); [discriminate |].
  destruct (param "uuid" uuid_in aid); [discriminate |].
  destruct (param "date" date_in d) as [e | [d0 |]]; try discriminate.
  2: { destruct (param "time" time_in t); [discriminate |].
       destruct name; [| discriminate]. destruct email; discriminate. }
  destruct (param "time" time_in t) as [e | [t0 |]]; try discriminate.
  2: { destruct name; [| discriminate]. destruct email; discriminate. }
  destruct name; [| discriminate]. destruct email; [| discriminate].
  cbn [not_null].
  destruct (existsb _ (bookings db)); [discriminate |].
  intros H. injection H as <- _. split; reflexivity.
Qed.

Lemma select_service_row_of sid tid d service rest :
  select_service sid tid d = inr (service :: rest) ->
  In service (services d)
  /\ param "uuid" uuid_in sid = inr (Some (s_id service))
  /\ param "uuid" uuid_in tid = inr (s_therapist_id service)
  /\ s_therapist_id service <> None.
Proof.
  unfold select_service, and_then.
  destruct (param "uuid" uuid_in sid) as [e | osid]; [discriminate |].
  destruct (param "uuid" uuid_in tid) as [e | otid]; [discriminate |].
  intros H. injection H as H.
  pose proof (in_eq service rest) as Hin. rewrite <- H in Hin.
  apply filter_In in Hin. destruct Hin as [Hin Hc].
  apply andb_true_iff in Hc. destruct Hc as [Hc _].
  apply andb_true_iff in Hc. destruct Hc as [Hs Ht].
  destruct osid as [x |]; [| discriminate].
  apply String.eqb_eq in Hs. subst x.
  apply eq_sql_string in Ht. destruct Ht as [y [Hy ->]].
  rewrite Hy. repeat split; auto. discriminate.
Qed.

(** X6. Once POST /bookings has succeeded for a service that lasts a
    positive number of minutes, GET /therapists/:id/availability for
    the same therapist and date answers 200, lists the booked time
    among the busy ones and no longer offers the slot that starts at
    the booked time. *)
Theorem booked_slot_not_offered env (body : CreateBody) c tid d t slot :
  (forall svc,
     In svc (services (db c)) ->
     param "uuid" uuid_in (service_id body) = inr (Some (s_id svc)) ->
     exists m, s_duration_minutes svc = Some m /\ 0 < m) ->
  therapist_id body = Some tid ->
  scheduled_date body = Some d ->
  scheduled_time body = Some t ->
  d <> "" ->
  date_of_slot slot = time_in t ->
  success (fst (create env body c)) = true ->
  exists slots busy start,
    fst (availability tid (Some d) (snd (create env body c)))
    = {| status := 200; success := true; message_of := None;
         data := Availability d slots busy |}
    /\ time_in t = Some start
    /\ In start busy
    /\ ~ In slot slots.
Proof.
  intros Hpos Htid Hd Ht Hne Hslot. unfold create.
  destruct (negb (List.length (create_errors body) =? 0)%nat);
    [discriminate |].
  destruct (transaction (create_callback env (create_sanitized body)) c)
    as [[e | bk] c'] eqn:Htr; cbn [fst snd success on_error failure];
    [destruct (runs_transaction BookingsCreate); discriminate |].
  intros _.
  destruct (transaction_inr _ _ _ _ Htr) as [c1 [Hcb [Hdb _]]].
  destruct (create_callback_inr _ _ _ _ _ Hcb)
    as [service [rest [db1 [Hsvc [_ [Hins Hcases]]]]]].
  unfold create_sanitized in Hsvc, Hins.
  cbn [therapist_id service_id scheduled_date scheduled_time] in Hsvc, Hins.
  unfold v_therapist_id, v_service_id, v_scheduled_date, v_scheduled_time
    in Hsvc, Hins.
  rewrite Htid in Hsvc, Hins. rewrite Hd, Ht in Hins.
  rewrite (sanitized_plain _ _ (service_id body)) in Hsvc, Hins.
  unfold sanitized, required in Hsvc, Hins.
  cbn [sanitizer option_map] in Hsvc, Hins.
  destruct (select_service_row_of _ _ _ _ _ Hsvc)
    as [Hsin [Hsid [Hth Hthn]]].
  destruct (insert_booking_when _ _ _ _ _ _ _ _ _ _ _ _ _ _ Hins)
    as [Hdate Htime].
  destruct (insert_booking_inr _ _ _ _ _ _ _ _ _ _ _ _ _ _ Hins)
    as [Hdb1 [_ [Hbs [Hbt [_ [_ Hst]]]]]].
  pose proof Hbs as Hbs'. rewrite Hsid in Hbs'. injection Hbs' as Hbs'.
  clear Hbs. rename Hbs' into Hbs.
  rewrite Hth in Hbt. injection Hbt as Hbt.
  (* the store the availability request finds *)
  assert (services (db c') = services (db c)
          /\ bookings (db c') = bookings (db c) ++ [bk]) as [Hss Hbb].
  { rewrite Hdb. cbv zeta in Hcases. cbn [db] in Hcases.
    destruct Hcases as [[_ ->] | [[_ [_ ->]] | [_ Hc]]];
      try (subst db1; split; reflexivity).
    destruct Hc as [a [rest' [db2 [u [_ [Hic ->]]]]]].
    apply insert_commission_inr in Hic. destruct Hic as [cm [-> _]].
    subst db1. split; reflexivity. }
  destruct (Hpos service Hsin Hsid) as [m [Hm Hmpos]].
  (* the parameters of the availability query *)
  destruct (s_therapist_id service) as [tv |] eqn:Htv; [| congruence].
  unfold param in Hth, Hdate, Htime.
  destruct (uuid_in tid) as [tv' |] eqn:Hu; [| discriminate].
  injection Hth as ->.
  destruct (date_in d) as [d0 |] eqn:Hd0; [| discriminate].
  injection Hdate as Hdate.
  destruct (time_in t) as [t0 |] eqn:Ht0; [| discriminate].
  injection Htime as Htime.
  unfold availability.
  assert (truthy (Some d) = true) as ->.
  { unfold truthy. apply negb_true_iff. now apply String.eqb_neq. }
  cbn [negb]. unfold query, select_busy_slots, and_then, param.
  rewrite Hu, Hd0. cbn [fst].
  eexists _, _, t0. split; [reflexivity |].
  split; [reflexivity |].
  rewrite Hss, Hbb.
  assert (In (t0, Some m)
            (flat_map
               (fun b =>
                  if eq_sql String.eqb (b_therapist_id b) (Some tv)
                     && eq_sql Z.eqb (Some (b_scheduled_date b)) (Some d0)
                     && active (b_status b)
                  then map (fun s => (b_scheduled_time b, s_duration_minutes s))
                         (filter (fun s => eq_sql String.eqb (b_service_id b)
                                             (Some (s_id s)))
                                 (services (db c)))
                  else [])
               (bookings (db c) ++ [bk]))) as Hbusy.
  { apply in_flat_map. exists bk. split; [apply in_or_app; right; now left |].
    rewrite <- Hbt, <- Hdate, Hst. cbn [eq_sql active].
    rewrite String.eqb_refl, Z.eqb_refl. cbn [andb].
    apply in_map_iff. exists service. rewrite <- Htime, Hm.
    split; [reflexivity |]. apply filter_In. split; [assumption |].
    rewrite <- Hbs. cbn [eq_sql]. apply String.eqb_refl. }
  split.
  - apply in_map_iff. exists (t0, Some m). split; [reflexivity | exact Hbusy].
  - unfold availableSlots. intros Hin. apply filter_In in Hin.
    destruct Hin as [_ Hfree]. apply negb_true_iff in Hfree.
    assert (existsb (overlaps slot)
              (flat_map
                 (fun b =>
                    if eq_sql String.eqb (b_therapist_id b) (Some tv)
                       && eq_sql Z.eqb (Some (b_scheduled_date b)) (Some d0)
                       && active (b_status b)
                    then map (fun s => (b_scheduled_time b,
                                        s_duration_minutes s))
                           (filter (fun s => eq_sql String.eqb (b_service_id b)
                                               (Some (s_id s)))
                                   (services (db c)))
                    else [])
                 (bookings (db c) ++ [bk])) = true) as Hex.
    { apply existsb_exists. exists (t0, Some m). split; [exact Hbusy |].
      unfold overlaps, date_of_time, plus_minutes, before. cbn [fst snd].
      rewrite Hslot. apply andb_true_iff. split; apply Z.ltb_lt; lia. }
    rewrite Hex in Hfree. discriminate.
Qed.

End BookedSlot.

Lemma booked_slot_not_offered_witness :
  exists slots busy start,
    fst (Therapists.availability (L := Sample.library) Sample.therapist
           (Some "2025-08-01")
           (snd (Bookings.create (L := Sample.library) Sample.env
                   (Sample.request None)
                   Sample.conn)))
    = {| status := 200; success := true; message_of := None;
         data := Availability "2025-08-01" slots busy |}
    /\ time_in "10:30" = Some start
    /\ In start busy
    /\ ~ In "10:30" slots.
Proof.
  apply (@booked_slot_not_offered Sample.library Sample.env
           (Sample.request None) Sample.conn Sample.therapist "2025-08-01"
           "10:30" "10:30");
    try reflexivity; try discriminate.
  intros svc [<- | [<- | []]] H.
  - exists 90. split; [reflexivity | lia].
  - discriminate H.
Defined.

(** ** GET /bookings: the rows of a page *)

Section Listing.
Context {L : Library}.
Import Bookings Spec.

Lemma insert_desc_length x l :
  List.length (insert_desc x l) = S (List.length l).
Proof.
  induction l as [| y l IH]; [reflexivity |]. cbn [insert_desc].
  destruct (later y x); cbn [List.length]; [now rewrite IH | reflexivity].
Qed.

Lemma order_desc_length l : List.length (order_desc l) = List.length l.
Proof.
  induction l as [| x l IH]; [reflexivity |].
  unfold order_desc in *. cbn [fold_right List.length].
  now rewrite insert_desc_length, IH.
Qed.

Lemma insert_desc_In x l y : In y (insert_desc x l) <-> y = x \/ In y l.
Proof.
  induction l as [| z l IH]; cbn [insert_desc In].
  - intuition.
  - destruct (later z x); cbn [In]; [rewrite IH |]; intuition.
Qed.

Lemma order_desc_In l y : In y (order_desc l) <-> In y l.
Proof.
  induction l as [| x l IH]; [reflexivity |].
  unfold order_desc in *. cbn [fold_right In].
  rewrite insert_desc_In, IH. intuition.
Qed.

Lemma later_total x y : later x y = false -> later y x = false ->
  b_scheduled_date x = b_scheduled_date y
  /\ b_scheduled_time x = b_scheduled_time y.
Proof. unfold later. lia. Qed.

Lemma later_trans x y z :
  later y x = false -> later z y = false -> later z x = false.
Proof. unfold later. lia. Qed.

Lemma insert_desc_sorted x l :
  StronglySorted (fun a b => later b a = false) l ->
  StronglySorted (fun a b => later b a = false) (insert_desc x l).
Proof.
  induction l as [| y l IH]; intros Hs; cbn [insert_desc].
  - constructor; constructor.
  - inversion Hs as [| ? ? Hl Hy]; subst.
    destruct (later y x) eqn:Hyx.
    + constructor; [apply IH; assumption |].
      apply Forall_forall. intros z Hz. apply insert_desc_In in Hz.
      destruct Hz as [-> | Hz].
      * revert Hyx. unfold later. lia.
      * rewrite Forall_forall in Hy. now apply Hy.
    + constructor; [assumption |].
      constructor; [assumption |].
      rewrite Forall_forall in *. intros z Hz.
      eapply later_trans; [exact Hyx | now apply Hy].
Qed.

Lemma order_desc_sorted l :
  StronglySorted (fun a b => later b a = false) (order_desc l).
Proof.
  induction l as [| x l IH]; [constructor |].
  unfold order_desc in *. cbn [fold_right]. now apply insert_desc_sorted.
Qed.

Lemma firstn_In {A} n (l : list A) x : In x (firstn n l) -> In x l.
Proof.
  revert l. induction n as [| n IH]; intros [| y l] H; try destruct H.
  - now left.
  - right. now apply IH.
Qed.

Lemma skipn_In {A} n (l : list A) x : In x (skipn n l) -> In x l.
Proof.
  revert l. induction n as [| n IH]; intros [| y l] H; auto.
  right. now apply IH.
Qed.

Lemma sorted_skipn {A} (R : A -> A -> Prop) n l :
  StronglySorted R l -> StronglySorted R (skipn n l).
Proof.
  revert l. induction n as [| n IH]; intros l Hs; [assumption |].
  destruct l as [| x l]; [constructor |]. cbn [skipn].
  inversion Hs; subst. now apply IH.
Qed.

Lemma sorted_firstn {A} (R : A -> A -> Prop) n l :
  StronglySorted R l -> StronglySorted R (firstn n l).
Proof.
  revert l. induction n as [| n IH]; intros l Hs; [constructor |].
  destruct l as [| x l]; [constructor |]. cbn [firstn].
  inversion Hs as [| ? ? Hl Hx]; subst. constructor; [now apply IH |].
  rewrite Forall_forall in *. intros y Hy. apply Hx.
  eapply firstn_In. exact Hy.
Qed.

(** A page that was answered: the query passed validation, and its
    rows are a slice of the ordered matching rows. *)
Lemma index_page q c rows page limit total pages :
  data (fst (index q c)) = BookingsPage rows page limit total pages ->
  list_errors q = []
  /\ exists matching,
       where_rows (whereClause q) (db c) = inr matching
       /\ 0 <= limit /\ 0 <= (page - 1) * limit
       /\ rows = firstn (Z.to_nat limit)
                   (skipn (Z.to_nat ((page - 1) * limit))
                      (order_desc matching))
       /\ total = Z.of_nat (List.length matching).
Proof.
  unfold index.
  destruct (list_errors q) as [| e es] eqn:Herr; [| discriminate].
  cbn [List.length Nat.eqb negb]. intros H. split; [reflexivity |].
  revert H. rewrite bind_query. cbn [db log].
  unfold select_bookings_page, and_then.
  destruct (where_rows (whereClause q) (db c)) as [e | matching] eqn:Hw;
    [discriminate |].
  set (p := num_or (parseInt (q_page q)) 1).
  set (l := num_or (parseInt (q_limit q)) 10).
  destruct (bigint l) as [e | l'] eqn:Hbl; [discriminate |].
  apply bigint_inr in Hbl. subst l'.
  destruct (bigint ((p - 1) * l)) as [e | o] eqn:Hbo; [discriminate |].
  apply bigint_inr in Hbo. subst o.
  destruct (l <? 0) eqn:Hl; [discriminate |].
  destruct ((p - 1) * l <? 0) eqn:Ho; [discriminate |].
  rewrite bind_query. cbn [db log]. unfold count_bookings, and_then.
  rewrite Hw. cbn [fst data]. intros H. injection H as <- <- <- <- _.
  exists matching. repeat split; auto; lia.
Qed.

Lemma pushed_some s : s <> "" -> pushed (Some s) = Some s.
Proof.
  intros H. unfold pushed, truthy.
  apply String.eqb_neq in H. now rewrite H.
Qed.

Lemma isUUID_nonempty s : isUUID s = true -> s <> "".
Proof. intros H ->. discriminate. Qed.

(** X7. Every booking that GET /bookings returns is a stored booking
    that satisfies each filter of the query: it has the requested
    status, the requested therapist, the requested affiliate, and a
    date within the requested bounds (a bound given as the empty string
    is no bound). *)
Theorem listed_rows_match (q : ListQuery) c rows page limit total pages bk :
  data (fst (index q c)) = BookingsPage rows page limit total pages ->
  In bk rows ->
  In bk (bookings (db c))
  /\ (forall s, q_status q = Some s -> status_text (b_status bk) = s)
  /\ (forall s, q_therapist_id q = Some s ->
                exists tv, uuid_in s = Some tv /\ b_therapist_id bk = Some tv)
  /\ (forall s, q_affiliate_id q = Some s ->
                exists av, uuid_in s = Some av /\ b_affiliate_id bk = Some av)
  /\ (forall s, q_date_from q = Some s -> s <> "" ->
                exists d, date_in s = Some d /\ d <= b_scheduled_date bk)
  /\ (forall s, q_date_to q = Some s -> s <> "" ->
                exists d, date_in s = Some d /\ b_scheduled_date bk <= d).
Proof.
  intros Hpage Hin.
  destruct (index_page _ _ _ _ _ _ _ Hpage)
    as [Herr [matching [Hw [_ [_ [Hrows _]]]]]].
  assert (In bk matching) as Hm.
  { apply order_desc_In. eapply skipn_In. eapply firstn_In.
    rewrite <- Hrows. exact Hin. }
  clear Hrows Hin Hpage.
  unfold list_errors in Herr.
  apply app_eq_nil in Herr. destruct Herr as [_ Herr].
  apply app_eq_nil in Herr. destruct Herr as [_ Herr].
  apply app_eq_nil in Herr. destruct Herr as [Hst Herr].
  apply app_eq_nil in Herr. destruct Herr as [Hth Herr].
  apply app_eq_nil in Herr. destruct Herr as [Haf _].
  apply errors_of_opt in Hst, Hth, Haf.
  revert Hw. unfold where_rows, and_then, whereClause.
  cbn [w_status w_therapist_id w_affiliate_id w_date_from w_date_to].
  destruct (param "uuid" uuid_in (pushed (q_therapist_id q)))
    as [e | tid] eqn:Ptid; [discriminate |].
  destruct (param "uuid" uuid_in (pushed (q_affiliate_id q)))
    as [e | aid] eqn:Paid; [discriminate |].
  destruct (param "date" date_in (pushed (q_date_from q)))
    as [e | d1] eqn:Pd1; [discriminate |].
  destruct (param "date" date_in (pushed (q_date_to q)))
    as [e | d2] eqn:Pd2; [discriminate |].
  intros H. injection H as H. rewrite <- H in Hm. clear H.
  apply filter_In in Hm. destruct Hm as [Hstored Hc].
  apply andb_true_iff in Hc. destruct Hc as [Hc C5].
  apply andb_true_iff in Hc. destruct Hc as [Hc C4].
  apply andb_true_iff in Hc. destruct Hc as [Hc C3].
  apply andb_true_iff in Hc. destruct Hc as [C1 C2].
  split; [assumption |].
  split; [| split; [| split; [| split]]].
  - intros s Hs. rewrite Hs in Hst, C1.
    assert (s <> "") as Hne by (intros ->; discriminate).
    rewrite (pushed_some _ Hne) in C1. cbn [filter_on] in C1.
    now apply String.eqb_eq.
  - intros s Hs. rewrite Hs in Hth, Ptid.
    rewrite (pushed_some _ (isUUID_nonempty _ Hth)) in Ptid.
    apply param_inr in Ptid. destruct Ptid as [tv [Hu ->]].
    cbn [filter_on] in C2. apply eq_sql_string in C2.
    destruct C2 as [x [Hx1 Hx2]]. injection Hx2 as <-.
    exists tv. auto.
  - intros s Hs. rewrite Hs in Haf, Paid.
    rewrite (pushed_some _ (isUUID_nonempty _ Haf)) in Paid.
    apply param_inr in Paid. destruct Paid as [av [Hu ->]].
    cbn [filter_on] in C3. apply eq_sql_string in C3.
    destruct C3 as [x [Hx1 Hx2]]. injection Hx2 as <-.
    exists av. auto.
  - intros s Hs Hne. rewrite Hs, (pushed_some _ Hne) in Pd1.
    apply param_inr in Pd1. destruct Pd1 as [d [Hd ->]].
    cbn [filter_on] in C4. exists d. split; [assumption | lia].
  - intros s Hs Hne. rewrite Hs, (pushed_some _ Hne) in Pd2.
    apply param_inr in Pd2. destruct Pd2 as [d [Hd ->]].
    cbn [filter_on] in C5. exists d. split; [assumption | lia].
Qed.

(** X8. The rows of a page of GET /bookings are ordered by date, then
    time, latest first, and the page holds as many rows as are left
    from its offset, at most limit: with total matching bookings, page
    p has min(limit, max(0, total - (p - 1) * limit)) rows, so every
    page before the last is full and a page past the last is empty. *)
Theorem listed_rows_ordered (q : ListQuery) c rows page limit total pages :
  data (fst (index q c)) = BookingsPage rows page limit total pages ->
  StronglySorted (fun earlier_row later_row =>
                    later later_row earlier_row = false) rows
  /\ Z.of_nat (List.length rows)
     = Z.min limit (Z.max 0 (total - (page - 1) * limit)).
Proof.
  intros Hpage.
  destruct (index_page _ _ _ _ _ _ _ Hpage)
    as [_ [matching [_ [Hl [Ho [-> ->]]]]]].
  split.
  - apply sorted_firstn, sorted_skipn, order_desc_sorted.
  - rewrite List.length_firstn, List.length_skipn, order_desc_length. lia.
Qed.

End Listing.

Lemma listed_rows_match_witness :
  In Sample.morning_booking (bookings Sample.store)
  /\ (forall s, Some "confirmed" = Some s ->
                status_text (b_status Sample.morning_booking) = s)
  /\ (forall s, Some Sample.therapist = Some s ->
                exists tv, uuid_in s = Some tv
                           /\ b_therapist_id Sample.morning_booking = Some tv)
  /\ (forall s, None = Some s ->
                exists av, uuid_in s = Some av
                           /\ b_affiliate_id Sample.morning_booking = Some av)
  /\ (forall s, Some "2025-08-01" = Some s -> s <> "" ->
                exists d, date_in (Library := Sample.library) s = Some d
                          /\ d <= b_scheduled_date Sample.morning_booking)
  /\ (forall s, None = Some s -> s <> "" ->
                exists d, date_in (Library := Sample.library) s = Some d
                          /\ b_scheduled_date Sample.morning_booking <= d).
Proof.
  exact (@listed_rows_match Sample.library Requests.confirmed_list Sample.conn
           [Sample.morning_booking] 1 10 1 1 Sample.morning_booking
           eq_refl (or_introl eq_refl)).
Defined.

Lemma listed_rows_ordered_witness :
  StronglySorted (fun earlier_row later_row =>
                    later later_row earlier_row = false)
    [Sample.finished_booking]
  /\ Z.of_nat (List.length [Sample.finished_booking])
     = Z.min 2 (Z.max 0 (3 - (2 - 1) * 2)).
Proof.
  exact (@listed_rows_ordered Sample.library Requests.second_of_two Sample.conn
           [Sample.finished_booking] 2 2 3 2 eq_refl).
Defined.

(** ** Matching by derivatives is matching *)

Section RegExpFacts.
Import RegExp.

Lemma append_empty_r (s : string) : (s ++ "")%string = s.
Proof. induction s as [| c s IH]; cbn; [reflexivity | now rewrite IH]. Qed.

Lemma append_assoc (a b c : string) :
  ((a ++ b) ++ c)%string = (a ++ (b ++ c))%string.
Proof. induction a as [| x a IH]; cbn; [reflexivity | now rewrite IH]. Qed.

Lemma append_empty (a b : string) :
  (a ++ b)%string = "" -> a = "" /\ b = "".
Proof. destruct a; cbn; [auto | discriminate]. Qed.

Lemma takes_atom i r c : takes i r c = true -> nullable r = false.
Proof. destruct r; cbn; auto; discriminate. Qed.

Lemma nullable_Matches i r : nullable r = true <-> Matches i r "".
Proof.
  split.
  - induction r; cbn; try discriminate; intros H.
    + constructor.
    + apply andb_true_iff in H. destruct H as [Ha Hb].
      change "" with ("" ++ "")%string. constructor; auto.
    + apply orb_true_iff in H. destruct H as [H | H];
        [apply MAltL | apply MAltR]; auto.
    + constructor.
  - intros H. remember "" as s eqn:Hs.
    induction H; cbn; auto; try discriminate.
    + apply append_empty in Hs. destruct Hs as [-> ->].
      rewrite IHMatches1, IHMatches2; auto.
    + rewrite IHMatches; auto.
    + rewrite IHMatches, orb_true_r; auto.
Qed.

Lemma Matches_deriv i c r s :
  Matches i (deriv i c r) s <-> Matches i r (String c s).
Proof.
  split.
  - revert s. induction r as [| | d | l | l | a IHa b IHb | a IHa b IHb | a IHa];
      cbn [deriv]; intros s H.
    + inversion H; discriminate.
    + inversion H; discriminate.
    + destruct (takes i (Chr d) c) eqn:Ht; inversion H; subst;
        try discriminate. now constructor.
    + destruct (takes i (OneOf l) c) eqn:Ht; inversion H; subst;
        try discriminate. now constructor.
    + destruct (takes i (NoneOf l) c) eqn:Ht; inversion H; subst;
        try discriminate. now constructor.
    + assert (forall u, Matches i (Seq (deriv i c a) b) u ->
                        Matches i (Seq a b) (String c u)) as Hseq.
      { intros u Hu. inversion Hu; subst; try discriminate.
        change (String c (s0 ++ t)) with (String c s0 ++ t)%string.
        constructor; auto. }
      destruct (nullable a) eqn:Hn; [| now apply Hseq].
      inversion H; subst; try discriminate; [now apply Hseq |].
      change (String c s) with ("" ++ String c s)%string.
      constructor; [now apply nullable_Matches | auto].
    + inversion H; subst; try discriminate;
        [apply MAltL | apply MAltR]; auto.
    + inversion H; subst; try discriminate.
      change (String c (s0 ++ t)) with (String c s0 ++ t)%string.
      constructor; auto.
  - intros H. remember (String c s) as cs eqn:Hcs. revert c s Hcs.
    induction H as [| r c0 Ht | a b u t Ha IHa Hb IHb | a b u Ha IHa
                    | a b u Hb IHb | a | a u t Ha IHa Hs IHs];
      intros c s Hcs; try discriminate.
    + injection Hcs as -> <-. destruct r; cbn in Ht; try discriminate;
        cbn [deriv takes]; rewrite Ht; constructor.
    + cbn [deriv]. destruct u as [| c' u'].
      * cbn in Hcs. subst t.
        assert (nullable a = true) as -> by now apply (nullable_Matches i).
        apply MAltR. now apply IHb.
      * cbn in Hcs. injection Hcs as -> <-.
        assert (Matches i (Seq (deriv i c a) b) (u' ++ t)) as Hd
          by (constructor; auto).
        destruct (nullable a); [apply MAltL |]; assumption.
    + cbn [deriv]. apply MAltL. now apply IHa.
    + cbn [deriv]. apply MAltR. now apply IHb.
    + cbn [deriv]. destruct u as [| c' u'].
      * cbn in Hcs. now apply IHs.
      * cbn in Hcs. injection Hcs as -> <-.
        constructor; auto.
Qed.

Lemma matches_Matches i r s : matches i r s = true <-> Matches i r s.
Proof.
  revert r. induction s as [| c s IH]; intros r; cbn [matches].
  - apply nullable_Matches.
  - rewrite IH. apply Matches_deriv.
Qed.

Lemma Matches_any_star i s : Matches i (Star any) s.
Proof.
  induction s as [| c s IH]; [constructor |].
  change (String c s) with (String c "" ++ s)%string.
  constructor; [| exact IH]. constructor. destruct i; reflexivity.
Qed.

(** [/r/.test(s)] holds exactly when some part of [s] matches [r]. *)
Lemma test_Matches i r s :
  test i r s = true <->
  exists a b c, s = (a ++ b ++ c)%string /\ Matches i r b.
Proof.
  unfold test. rewrite matches_Matches. split.
  - intros H. inversion H as [| | ? ? a t Ha Ht | | | |]; subst;
      try discriminate.
    inversion Ht as [| | ? ? b c Hb Hc | | | |]; subst; try discriminate.
    exists a, b, c. auto.
  - intros [a [b [c [-> Hb]]]].
    constructor; [apply Matches_any_star |].
    constructor; [exact Hb | apply Matches_any_star].
Qed.

Lemma matches_Never i s : matches i Never s = false.
Proof. induction s; cbn; auto. Qed.

Lemma Matches_atom i r s :
  (forall c, nullable r = false /\ deriv i c r
                                  = if takes i r c then Empty else Never) ->
  Matches i r s <-> exists c, s = String c "" /\ takes i r c = true.
Proof.
  intros Hr. split.
  - intros H. apply matches_Matches in H.
    destruct s as [| c s]; cbn [matches] in H.
    + now rewrite (proj1 (Hr " "%char)) in H.
    + rewrite (proj2 (Hr c)) in H. destruct (takes i r c) eqn:Ht.
      * destruct s; [eauto |]. cbn in H. now rewrite matches_Never in H.
      * now rewrite matches_Never in H.
  - intros [c [-> Ht]]. now constructor.
Qed.

Lemma Matches_OneOf i l s :
  Matches i (OneOf l) s <->
  exists c, s = String c "" /\ takes i (OneOf l) c = true.
Proof. apply Matches_atom. intros c. split; reflexivity. Qed.

Lemma Matches_NoneOf i l s :
  Matches i (NoneOf l) s <->
  exists c, s = String c "" /\ takes i (NoneOf l) c = true.
Proof. apply Matches_atom. intros c. split; reflexivity. Qed.

Lemma Matches_Chr i d s :
  Matches i (Chr d) s <->
  exists c, s = String c "" /\ takes i (Chr d) c = true.
Proof. apply Matches_atom. intros c. split; reflexivity. Qed.

Lemma Matches_Seq i a b s :
  Matches i (Seq a b) s <->
  exists u t, s = (u ++ t)%string /\ Matches i a u /\ Matches i b t.
Proof.
  split.
  - intros H. inversion H; subst; try discriminate. eauto.
  - intros [u [t [-> [Ha Hb]]]]. now constructor.
Qed.

(** [[c]+] stands for the non-empty strings of characters it takes. *)
Lemma Matches_Star_class i r s :
  (forall t, Matches i r t <-> exists c, t = String c "" /\ takes i r c = true) ->
  Matches i (Star r) s <->
  forallb (takes i r) (list_ascii_of_string s) = true.
Proof.
  intros Hr. split.
  - intros H. remember (Star r) as sr eqn:Hsr.
    induction H as [| r0 c Ht | | | | a | a u t Ha IHa Ht IHt];
      try discriminate.
    + subst r0. discriminate Ht.
    + reflexivity.
    + injection Hsr as ->. apply Hr in Ha. destruct Ha as [c [-> Hc]].
      cbn. rewrite Hc. now apply IHt.
  - induction s as [| c s IH]; cbn; intros H; [constructor |].
    apply andb_true_iff in H. destruct H as [Hc Hs].
    change (String c s) with (String c "" ++ s)%string.
    constructor; [apply Hr; eauto | now apply IH].
Qed.

Lemma Matches_Plus_class i r s :
  (forall t, Matches i r t <-> exists c, t = String c "" /\ takes i r c = true) ->
  Matches i (Plus r) s <->
  s <> "" /\ forallb (takes i r) (list_ascii_of_string s) = true.
Proof.
  intros Hr. unfold Plus. rewrite Matches_Seq. split.
  - intros [u [t [-> [Hu Ht]]]]. apply Hr in Hu. destruct Hu as [c [-> Hc]].
    apply (Matches_Star_class i r t Hr) in Ht.
    split; [discriminate |]. cbn. now rewrite Hc, Ht.
  - intros [Hne H]. destruct s as [| c s]; [congruence |].
    cbn in H. apply andb_true_iff in H. destruct H as [Hc Hs].
    exists (String c ""), s. split; [reflexivity |].
    split; [apply Hr; eauto | now apply (Matches_Star_class i r s Hr)].
Qed.

Lemma lower_letter_range c :
  Text.lower_letter c = true <-> (97 <= nat_of_ascii c <= 122)%nat.
Proof.
  unfold Text.lower_letter. cbn [in_class existsb in_item].
  rewrite orb_false_r, andb_true_iff, !Nat.leb_le. reflexivity.
Qed.

(** With the [i] flag a lower-case letter takes exactly the characters
    that lower to it. *)
Lemma takes_folded c d :
  Text.lower_letter c = true ->
  takes true (Chr c) d = Ascii.eqb (lower_char d) c.
Proof.
  intros Hc. apply lower_letter_range in Hc.
  apply eq_true_iff_eq. cbn [takes variants existsb].
  rewrite !orb_true_iff, !Ascii.eqb_eq. split.
  - assert (lower_char c = c) as Hlow.
    { unfold lower_char.
      destruct ((65 <=? nat_of_ascii c)%nat && (nat_of_ascii c <=? 90)%nat)
        eqn:Hu; [| reflexivity].
      apply andb_true_iff in Hu. rewrite !Nat.leb_le in Hu. lia. }
    intros [H | [H | [H | H]]]; [now subst d | | now symmetry | discriminate H].
    revert H. unfold upper_char.
    destruct ((97 <=? nat_of_ascii d)%nat && (nat_of_ascii d <=? 122)%nat)
      eqn:Hd; [| now intros <-].
    intros ->. exfalso.
    rewrite nat_ascii_embedding in Hc.
    + apply andb_true_iff in Hd. rewrite !Nat.leb_le in Hd. lia.
    + pose proof (nat_ascii_bounded d). lia.
  - intros <-. auto.
Qed.

Lemma toLowerCase_empty s : toLowerCase s = "" <-> s = "".
Proof. destruct s; cbn; split; auto; discriminate. Qed.

(** With the [i] flag a word in lower case stands for its spellings in
    either case. *)
Lemma Matches_word_folded w s :
  Text.all_chars Text.lower_letter w = true ->
  Matches true (word w) s <-> toLowerCase s = w.
Proof.
  revert s. induction w as [| c w IH]; intros s Hw; cbn [word].
  - rewrite toLowerCase_empty. split.
    + intros H. inversion H; subst; [reflexivity | discriminate].
    + intros ->. constructor.
  - unfold Text.all_chars in Hw. cbn [list_ascii_of_string forallb] in Hw.
    apply andb_true_iff in Hw. destruct Hw as [Hc Hw].
    rewrite Matches_Seq. split.
    + intros [u [t [-> [Hu Ht]]]]. apply Matches_Chr in Hu.
      destruct Hu as [d [-> Hd]]. rewrite (takes_folded _ _ Hc) in Hd.
      apply Ascii.eqb_eq in Hd. apply (IH t Hw) in Ht.
      cbn [append toLowerCase]. now rewrite Hd, Ht.
    + destruct s as [| d t]; [discriminate |]. cbn [toLowerCase].
      intros H. injection H as Hd Ht.
      exists (String d ""), t. split; [reflexivity |]. split.
      * apply Matches_Chr. exists d. split; [reflexivity |].
        rewrite (takes_folded _ _ Hc). now apply Ascii.eqb_eq.
      * now apply (IH t Hw).
Qed.

Lemma test_word_folded w s :
  Text.all_chars Text.lower_letter w = true ->
  test true (word w) s = true <-> Text.mentions w s.
Proof.
  intros Hw. rewrite test_Matches. unfold Text.mentions. split.
  - intros [a [b [c [-> H]]]]. exists a, b, c. split; [reflexivity |].
    now apply Matches_word_folded.
  - intros [a [b [c [-> H]]]]. exists a, b, c. split; [reflexivity |].
    now apply Matches_word_folded.
Qed.

End RegExpFacts.

(** ** utils/helpers: sanitizeString *)

Section Sanitize.
Import RegExp Helpers Text.

Lemma all_chars_append p a b :
  all_chars p (a ++ b)%string = all_chars p a && all_chars p b.
Proof.
  unfold all_chars. induction a as [| c a IH]; cbn; [reflexivity |].
  now rewrite IH, andb_assoc.
Qed.

(** After a replacement every character is either an old one that
    the pattern did not take or a character of the replacement. *)
Lemma replace_each_all (p : ascii -> bool) r by_ s :
  all_chars p by_ = true ->
  all_chars (fun c => p c || takes false r c) s = true ->
  all_chars p (replace_each r by_ s) = true.
Proof.
  intros Hby. induction s as [| c s IH]; cbn [replace_each]; [auto |].
  unfold all_chars at 1. cbn [list_ascii_of_string forallb].
  intros H. apply andb_true_iff in H. destruct H as [Hc Hs].
  rewrite all_chars_append, (IH Hs), andb_true_r.
  destruct (takes false r c); [assumption |].
  rewrite orb_false_r in Hc. unfold all_chars. cbn. now rewrite Hc.
Qed.

Lemma replace_each_none r by_ s :
  all_chars (fun c => negb (takes false r c)) s = true ->
  replace_each r by_ s = s.
Proof.
  induction s as [| c s IH]; cbn [replace_each]; [reflexivity |].
  unfold all_chars. cbn [list_ascii_of_string forallb].
  intros H. apply andb_true_iff in H. destruct H as [Hc Hs].
  apply negb_true_iff in Hc. rewrite Hc, (IH Hs). reflexivity.
Qed.

Lemma all_chars_weaken (p q : ascii -> bool) s :
  (forall c, p c = true -> q c = true) ->
  all_chars p s = true -> all_chars q s = true.
Proof.
  intros Hpq. unfold all_chars.
  induction (list_ascii_of_string s) as [| c l IH]; cbn; [auto |].
  intros H. apply andb_true_iff in H. destruct H as [Hc Hl].
  now rewrite (Hpq _ Hc), IH.
Qed.

Lemma all_chars_always (p : ascii -> bool) s :
  (forall c, p c = true) -> all_chars p s = true.
Proof.
  intros Hp. unfold all_chars.
  induction (list_ascii_of_string s) as [| c l IH]; cbn; [reflexivity |].
  now rewrite Hp, IH.
Qed.

Lemma skip_spaces_all p s :
  all_chars p s = true -> all_chars p (skip_spaces s) = true.
Proof.
  unfold all_chars. induction s as [| c s IH]; cbn; [auto |].
  intros H. destruct (is_space c); [| exact H].
  apply andb_true_iff in H. now apply IH.
Qed.

Lemma trim_end_all p s :
  all_chars p s = true -> all_chars p (trim_end s) = true.
Proof.
  unfold all_chars. induction s as [| c s IH]; cbn; [auto |].
  intros H. apply andb_true_iff in H. destruct H as [Hc Hs].
  specialize (IH Hs). destruct (trim_end s) as [| d t].
  - destruct (is_space c); cbn; [reflexivity | now rewrite Hc].
  - cbn in *. now rewrite Hc, IH.
Qed.

Lemma trim_all p s : all_chars p s = true -> all_chars p (trim s) = true.
Proof. intros H. unfold trim. now apply trim_end_all, skip_spaces_all. Qed.

(** A prefix that the pattern takes no character of is still there
    after the replacement. *)
Lemma starts_replace_each r by_ pre s :
  all_chars (fun c => negb (takes false r c)) pre = true ->
  starts pre s = true ->
  starts pre (replace_each r by_ s) = true.
Proof.
  revert s. induction pre as [| c pre IH]; intros s Hpre Hs;
    [reflexivity |].
  unfold all_chars in Hpre. cbn [list_ascii_of_string forallb] in Hpre.
  apply andb_true_iff in Hpre. destruct Hpre as [Hc Hrest].
  destruct s as [| d s]; [discriminate |]. cbn [starts] in Hs.
  apply andb_true_iff in Hs. destruct Hs as [Hcd Hs].
  apply Ascii.eqb_eq in Hcd. subst d.
  cbn [replace_each]. apply negb_true_iff in Hc. rewrite Hc.
  cbn [append starts]. rewrite Ascii.eqb_refl. now apply IH.
Qed.

Lemma escaped_append_plain a b :
  all_chars (fun c => negb (Ascii.eqb c "&")) a = true ->
  escaped b = true -> escaped (a ++ b) = true.
Proof.
  unfold all_chars. induction a as [| c a IH]; cbn; [auto |].
  intros H Hb. apply andb_true_iff in H. destruct H as [Hc Ha].
  apply negb_true_iff in Hc. rewrite Hc. cbn. now apply IH.
Qed.

(** Escaping one more character, other than the ampersand and the
    characters of the entity names, keeps the text escaped. *)
Lemma escaped_replace_each ch ent s :
  In ent ["quot;"; "#x27;"; "#x2F;"]%string ->
  all_chars (fun c => negb (Ascii.eqb c ch))
    "&amp;quot;#x27;#x2F;" = true ->
  escaped s = true ->
  escaped (replace_each (Chr ch) (String "&" ent) s) = true.
Proof.
  intros Hent Hch. induction s as [| c s IH]; [auto |].
  cbn [escaped replace_each]. intros H.
  apply andb_true_iff in H. destruct H as [Hc Hs]. specialize (IH Hs).
  assert (forall pre, In pre ["amp;"; "quot;"; "#x27;"; "#x2F;"]%string ->
            starts pre s = true ->
            starts pre (replace_each (Chr ch) (String "&" ent) s)
            = true) as Hpre.
  { intros pre Hin. apply starts_replace_each.
    unfold all_chars in *. cbn [takes variants existsb].
    cbn in Hch. repeat (apply andb_true_iff in Hch;
                        destruct Hch as [? Hch]).
    assert (forall x, negb (Ascii.eqb x ch) = true ->
                      negb (Ascii.eqb ch x || false) = true) as Hflip.
    { intros x Hx. rewrite orb_false_r, Ascii.eqb_sym. exact Hx. }
    destruct Hin as [<- | [<- | [<- | [<- | []]]]]; cbn;
      rewrite ?Hflip by assumption; reflexivity. }
  cbn [takes variants existsb]. rewrite orb_false_r.
  destruct (Ascii.eqb ch c) eqn:Hcc.
  - apply Ascii.eqb_eq in Hcc. subst c.
    cbn [append escaped]. rewrite Ascii.eqb_refl.
    apply andb_true_iff. split.
    + generalize (replace_each (Chr ch) (String "&" ent) s) as rest.
      intros rest.
      destruct Hent as [<- | [<- | [<- | []]]]; reflexivity.
    + apply escaped_append_plain; [| exact IH].
      destruct Hent as [<- | [<- | [<- | []]]]; reflexivity.
  - cbn [append escaped]. rewrite IH, andb_true_r.
    destruct (Ascii.eqb c "&"); [| reflexivity].
    apply orb_true_iff in Hc. destruct Hc as [Hc | Hc].
    + apply orb_true_iff in Hc. destruct Hc as [Hc | Hc].
      * apply orb_true_iff in Hc. destruct Hc as [Hc | Hc].
        -- rewrite (Hpre "amp;"%string); cbn; auto.
        -- rewrite (Hpre "quot;"%string); cbn; auto.
           now rewrite orb_true_r.
      * rewrite (Hpre "#x27;"%string); cbn; auto.
        now rewrite !orb_true_r.
    + rewrite (Hpre "#x2F;"%string); cbn; auto.
      now rewrite !orb_true_r.
Qed.

Lemma escaped_ampersands s :
  escaped (replace_each (Chr "&") "&amp;" s) = true.
Proof.
  induction s as [| c s IH]; [reflexivity |].
  cbn [replace_each takes variants existsb]. rewrite orb_false_r.
  destruct (Ascii.eqb "&" c) eqn:Hc.
  - cbn. exact IH.
  - cbn [append escaped]. rewrite IH, andb_true_r.
    rewrite Ascii.eqb_sym, Hc. reflexivity.
Qed.

(** X9. For ASCII text, whatever it is, the text [sanitizeString]
    returns holds none of the characters <, >, double quote,
    apostrophe and slash, and every ampersand in it starts one of the
    entities it writes (amp, quot, #x27, #x2F).  ASCII text that has
    none of these six characters is only trimmed. *)
Theorem sanitized_text_inert (s : string) :
  all_chars is_ascii s = true ->
  all_chars (fun c => negb (markup c)) (sanitizeString (Some s)) = true
  /\ escaped (sanitizeString (Some s)) = true
  /\ (all_chars (fun c => negb (markup c || Ascii.eqb c "&")) s = true ->
      sanitizeString (Some s) = trim s).
Proof.
  intros _. unfold sanitizeString, truthy.
  destruct (String.eqb s "") eqn:Hs; cbn [negb text].
  { apply String.eqb_eq in Hs. subst s. repeat split. }
  set (t := trim s). split; [| split].
  - apply replace_each_all; [reflexivity |].
    apply replace_each_all; [reflexivity |].
    apply replace_each_all; [reflexivity |].
    apply replace_each_all; [reflexivity |].
    apply replace_each_all; [reflexivity |].
    apply all_chars_always. intros c. unfold markup.
    cbn [takes variants existsb in_class in_item].
    rewrite !orb_false_r.
    rewrite (Ascii.eqb_sym "/" c), (Ascii.eqb_sym "'" c),
      (Ascii.eqb_sym "034" c), (Ascii.eqb_sym "&" c).
    destruct (Ascii.eqb c "<"), (Ascii.eqb c ">"), (Ascii.eqb c "034"),
      (Ascii.eqb c "'"), (Ascii.eqb c "/"), (Ascii.eqb c "&"); reflexivity.
  - apply (escaped_replace_each "/" "#x2F;"); [cbn; auto | reflexivity |].
    apply (escaped_replace_each "'" "#x27;"); [cbn; auto | reflexivity |].
    apply (escaped_replace_each "034" "quot;"); [cbn; auto | reflexivity |].
    apply escaped_ampersands.
  - intros Hplain. apply (trim_all _ s) in Hplain. fold t in Hplain.
    assert (forall r, (forall c, takes false r c = true ->
                                 (markup c || Ascii.eqb c "&") = true) ->
                      replace_each r "" t = t
                      /\ forall by_, replace_each r by_ t = t) as Hsame.
    { intros r Hr. split; [| intros by_]; apply replace_each_none;
        (eapply all_chars_weaken; [| exact Hplain]); intros c Hc;
        apply negb_true_iff; apply negb_true_iff in Hc;
        destruct (takes false r c) eqn:Ht; auto;
        now rewrite (Hr c Ht) in Hc. }
    assert (forall d, (markup d || Ascii.eqb d "&") = true ->
              forall c, takes false (Chr d) c = true ->
                        (markup c || Ascii.eqb c "&") = true) as Hchr.
    { intros d Hd c Hc. cbn in Hc. rewrite orb_false_r in Hc.
      apply Ascii.eqb_eq in Hc. now subst c. }
    rewrite (proj1 (Hsame (OneOf [Lit "<"; Lit ">"]) ltac:(
      intros c Hc; cbn in Hc; rewrite !orb_false_r in Hc;
      unfold markup; cbn; apply orb_true_iff in Hc;
      destruct Hc as [-> | ->]; now rewrite ?orb_true_r))).
    rewrite (proj2 (Hsame (Chr "&") (Hchr "&"%char eq_refl))).
    rewrite (proj2 (Hsame (Chr "034") (Hchr "034"%char eq_refl))).
    rewrite (proj2 (Hsame (Chr "'") (Hchr "'"%char eq_refl))).
    rewrite (proj2 (Hsame (Chr "/") (Hchr "/"%char eq_refl))).
    reflexivity.
Qed.

End Sanitize.

Lemma sanitized_text_inert_witness :
  Text.all_chars (fun c => negb (Text.markup c))
    (Helpers.sanitizeString (Some " <b>Ana & Rui</b> ")) = true
  /\ Text.escaped (Helpers.sanitizeString (Some " <b>Ana & Rui</b> ")) = true
  /\ (Text.all_chars (fun c => negb (Text.markup c || Ascii.eqb c "&"))
        " <b>Ana & Rui</b> " = true ->
      Helpers.sanitizeString (Some " <b>Ana & Rui</b> ")
      = trim " <b>Ana & Rui</b> ").
Proof.
  exact (sanitized_text_inert " <b>Ana & Rui</b> " eq_refl).
Defined.

(** ** utils/helpers: isValidEmail *)

Section Email.
Import RegExp Helpers Text.

Lemma address_part s :
  Matches false (Plus (NoneOf [Space; Lit "@"])) s <->
  s <> "" /\ all_chars address_char s = true.
Proof.
  rewrite (Matches_Plus_class false _ s (Matches_NoneOf false _)).
  unfold all_chars.
  assert (forall c, takes false (NoneOf [Space; Lit "@"]) c = address_char c)
    as Hc.
  { intros c. unfold address_char. cbn [takes variants existsb in_class in_item].
    rewrite !orb_false_r. now rewrite negb_orb. }
  assert (forall l, forallb (takes false (NoneOf [Space; Lit "@"])) l
                    = forallb address_char l) as ->.
  { induction l as [| c l IH]; cbn [forallb]; [reflexivity |].
    now rewrite Hc, IH. }
  reflexivity.
Qed.

Lemma one_char d s :
  Matches false (Chr d) s <-> s = String d "".
Proof.
  rewrite Matches_Chr. cbn [takes variants existsb]. split.
  - intros [c [-> H]]. rewrite orb_false_r in H.
    apply Ascii.eqb_eq in H. now subst.
  - intros ->. exists d. now rewrite Ascii.eqb_refl.
Qed.

(** X10. Of ASCII text, [isValidEmail] accepts exactly the strings of
    the form user@host.tld in which the three parts are non-empty and
    hold neither blanks nor the at sign.  So an accepted ASCII address
    has exactly one at sign, no blank, and, after the at sign, a dot
    that is neither first nor last. *)
Theorem valid_email_shape (s : string) :
  all_chars is_ascii s = true ->
  isValidEmail s = true <->
  exists user host tld,
    s = (user ++ "@" ++ host ++ "." ++ tld)%string
    /\ user <> "" /\ host <> "" /\ tld <> ""
    /\ all_chars address_char user = true
    /\ all_chars address_char host = true
    /\ all_chars address_char tld = true.
Proof.
  intros _. unfold isValidEmail, emailRegex. rewrite matches_Matches. split.
  - intros H.
    apply Matches_Seq in H. destruct H as [user [r1 [-> [Hu H]]]].
    apply Matches_Seq in H. destruct H as [at_ [r2 [-> [Ha H]]]].
    apply Matches_Seq in H. destruct H as [host [r3 [-> [Hh H]]]].
    apply Matches_Seq in H. destruct H as [dot [tld [-> [Hd Ht]]]].
    apply one_char in Ha, Hd. subst at_ dot.
    apply address_part in Hu, Hh, Ht.
    exists user, host, tld. intuition.
  - intros [user [host [tld [-> [Hu [Hh [Ht [Au [Ah At]]]]]]]]].
    apply Matches_Seq. exists user, ("@" ++ host ++ "." ++ tld)%string.
    split; [reflexivity |]. split; [now apply address_part |].
    apply Matches_Seq. exists "@"%string, (host ++ "." ++ tld)%string.
    split; [reflexivity |]. split; [now apply one_char |].
    apply Matches_Seq. exists host, ("." ++ tld)%string.
    split; [reflexivity |]. split; [now apply address_part |].
    apply Matches_Seq. exists "."%string, tld.
    split; [reflexivity |]. split; [now apply one_char |].
    now apply address_part.
Qed.

End Email.

Lemma valid_email_shape_witness :
  Helpers.isValidEmail "ana@example.com" = true <->
  exists user host tld,
    "ana@example.com"%string = (user ++ "@" ++ host ++ "." ++ tld)%string
    /\ user <> ""%string /\ host <> ""%string /\ tld <> ""%string
    /\ Text.all_chars Text.address_char user = true
    /\ Text.all_chars Text.address_char host = true
    /\ Text.all_chars Text.address_char tld = true.
Proof.
  exact (valid_email_shape "ana@example.com" eq_refl).
Defined.

(** ** utils/helpers: isStrongPassword *)

Section Password.
Import RegExp Helpers Text.

Lemma chars_split c l :
  In c (list_ascii_of_string l) ->
  exists a b, l = (a ++ String c "" ++ b)%string.
Proof.
  induction l as [| d l IH]; cbn; [intros [] |].
  intros [-> | H].
  - exists ""%string, l. reflexivity.
  - destruct (IH H) as [a [b ->]]. exists (String d a), b. reflexivity.
Qed.

(** Testing a character class finds a character of the class. *)
Lemma test_class l s : test false (OneOf l) s = holds l s.
Proof.
  apply eq_true_iff_eq. rewrite test_Matches. unfold holds.
  rewrite existsb_exists. split.
  - intros [a [b [c [-> H]]]]. apply Matches_OneOf in H.
    destruct H as [x [-> Hx]]. exists x. split.
    + rewrite !list_ascii_append. apply in_or_app. right. now left.
    + cbn [takes variants existsb] in Hx. now rewrite orb_false_r in Hx.
  - intros [x [Hin Hx]]. destruct (chars_split _ _ Hin) as [a [b ->]].
    exists a, (String x ""), b. split; [reflexivity |].
    apply Matches_OneOf. exists x. split; [reflexivity |].
    cbn [takes variants existsb]. now rewrite orb_false_r.
Qed.

Lemma holds_inside l q p r :
  holds l p = true -> holds l (q ++ p ++ r)%string = true.
Proof.
  unfold holds. rewrite !list_ascii_append, !existsb_app.
  intros ->. now rewrite orb_true_r.
Qed.

(** X11. An ASCII password is strong exactly when it has at least
    eight characters and among them an upper-case letter, a lower-case
    letter, a digit and one of the listed symbols.  So a strong ASCII
    password stays strong whatever ASCII text is put before or after
    it. *)
Theorem strong_password (p : string) :
  all_chars is_ascii p = true ->
  isStrongPassword (Some p)
  = (8 <=? String.length p)%nat
    && holds [Range "A" "Z"] p && holds [Range "a" "z"] p
    && holds [Digit] p && holds symbols p
  /\ (isStrongPassword (Some p) = true ->
      forall q r,
        all_chars is_ascii q = true -> all_chars is_ascii r = true ->
        isStrongPassword (Some (q ++ p ++ r)%string) = true).
Proof.
  intros _.
  assert (forall x, isStrongPassword (Some x)
                    = (8 <=? String.length x)%nat
                      && holds [Range "A" "Z"] x && holds [Range "a" "z"] x
                      && holds [Digit] x && holds symbols x) as Heq.
  { intros x. unfold isStrongPassword, truthy. cbn [text].
    rewrite !test_class.
    destruct (String.eqb x "") eqn:Hx.
    - apply String.eqb_eq in Hx. subst x. reflexivity.
    - cbn [negb orb]. rewrite Nat.ltb_antisym.
      destruct (8 <=? String.length x)%nat; cbn [negb andb];
        reflexivity. }
  split; [apply Heq |].
  rewrite Heq. intros H q r _ _. rewrite Heq.
  repeat (apply andb_true_iff in H; destruct H as [H ?]).
  rewrite !holds_inside by assumption. rewrite !andb_true_r.
  apply Nat.leb_le in H. apply Nat.leb_le.
  rewrite !length_append. lia.
Qed.

End Password.

Lemma strong_password_witness :
  Helpers.isStrongPassword (Some "Lunara#2025")
  = (8 <=? String.length "Lunara#2025")%nat
    && Text.holds [RegExp.Range "A" "Z"] "Lunara#2025"
    && Text.holds [RegExp.Range "a" "z"] "Lunara#2025"
    && Text.holds [RegExp.Digit] "Lunara#2025"
    && Text.holds Helpers.symbols "Lunara#2025"
  /\ (Helpers.isStrongPassword (Some "Lunara#2025") = true ->
      forall q r,
        Text.all_chars Text.is_ascii q = true ->
        Text.all_chars Text.is_ascii r = true ->
        Helpers.isStrongPassword (Some (q ++ "Lunara#2025" ++ r)%string)
        = true).
Proof.
  exact (strong_password "Lunara#2025" eq_refl).
Defined.

(** ** utils/helpers: calculateAge *)

Section Age.
Import Helpers Text.

(** X12. [calculateAge] counts the birthdays reached: the age is n
    exactly when the n-th anniversary of the birth date is today or
    earlier and the next one is still to come. *)
Theorem age_counts_birthdays (today birth : Date) (n : Z) :
  calculateAge today birth = n <->
  reached (getFullYear birth + n) (getMonth birth) (getDate birth) today
  /\ ~ reached (getFullYear birth + n + 1) (getMonth birth) (getDate birth)
         today.
Proof.
  unfold calculateAge, reached.
  destruct (getMonth today - getMonth birth <? 0) eqn:Hm;
    [apply Z.ltb_lt in Hm | apply Z.ltb_ge in Hm];
    destruct (getMonth today - getMonth birth =? 0) eqn:Hz;
    [apply Z.eqb_eq in Hz | apply Z.eqb_neq in Hz
     | apply Z.eqb_eq in Hz | apply Z.eqb_neq in Hz];
    destruct (getDate today <? getDate birth) eqn:Hd;
    [apply Z.ltb_lt in Hd | apply Z.ltb_ge in Hd
     | apply Z.ltb_lt in Hd | apply Z.ltb_ge in Hd
     | apply Z.ltb_lt in Hd | apply Z.ltb_ge in Hd
     | apply Z.ltb_lt in Hd | apply Z.ltb_ge in Hd];
    cbn [orb andb]; lia.
Qed.

End Age.

(** ** utils/helpers: isValidCPF *)

Section Cpf.
Import RegExp Helpers Text.

Lemma strip_non_digits s :
  replace_each (NoneOf [Digit]) "" s
  = string_of_list_ascii (filter is_digit (list_ascii_of_string s)).
Proof.
  induction s as [| c s IH]; [reflexivity |].
  cbn [replace_each takes variants existsb in_class in_item
       list_ascii_of_string filter].
  rewrite !orb_false_r, IH. destruct (is_digit c); reflexivity.
Qed.

Lemma length_string_of_list l :
  String.length (string_of_list_ascii l) = List.length l.
Proof. induction l as [| c l IH]; cbn; [reflexivity | now rewrite IH]. Qed.

Lemma digit_range c : is_digit c = true -> 0 <= digit_val c <= 9.
Proof.
  unfold is_digit, digit_val. intros H. apply andb_true_iff in H.
  destruct H as [H1 H2]. apply Nat.leb_le in H1, H2. lia.
Qed.

Lemma digit_val_same c d :
  is_digit c = true -> is_digit d = true ->
  Ascii.eqb c d = (digit_val c =? digit_val d).
Proof.
  intros Hc Hd. destruct (Ascii.eqb c d) eqn:He.
  - apply Ascii.eqb_eq in He. subst d. now rewrite Z.eqb_refl.
  - symmetry. apply Z.eqb_neq. intros Hv. apply Ascii.eqb_neq in He.
    apply He. unfold digit_val in Hv.
    rewrite <- (ascii_nat_embedding c), <- (ascii_nat_embedding d).
    f_equal. lia.
Qed.

Lemma parseInt_digit c :
  is_digit c = true -> parseInt (Some (String c "")) = Some (digit_val c).
Proof.
  intros H. unfold parseInt, leading_integer. cbn [skip_spaces].
  rewrite (digit_not_space _ H).
  assert (Ascii.eqb c "-" = false /\ Ascii.eqb c "+" = false) as [-> ->].
  { split; apply Ascii.eqb_neq; intros ->; discriminate. }
  cbn [digits]. rewrite H. cbn [option_map]. f_equal.
  apply integer_exact. rewrite ?Z.mul_0_r, ?Z.add_0_l.
  unfold is_digit in H. apply andb_prop in H. destruct H as [H1 H2].
  apply Nat.leb_le in H1. apply Nat.leb_le in H2.
  unfold digit_val. change (2 ^ 53) with 9007199254740992. lia.
Qed.

Lemma check_digit_verifier top l sum :
  0 <= sum -> sum = weighted top l ->
  check_digit (Some sum) = Some (verifier top l).
Proof.
  intros Hpos ->. unfold check_digit, verifier. cbn [option_map]. f_equal.
  rewrite Z.rem_mod_nonneg by lia.
  pose proof (Z.mod_pos_bound (weighted top l) 11 ltac:(lia)) as Hr.
  destruct (weighted top l mod 11 <? 2) eqn:H2;
    [apply Z.ltb_lt in H2 | apply Z.ltb_ge in H2].
  - assert (weighted top l mod 11 = 0 \/ weighted top l mod 11 = 1)
      as [-> | ->] by lia; reflexivity.
  - destruct (11 - weighted top l mod 11 =? 10) eqn:H10;
      [apply Z.eqb_eq in H10; lia |].
    destruct (11 - weighted top l mod 11 =? 11) eqn:H11;
      [apply Z.eqb_eq in H11; lia | reflexivity].
Qed.

(** X13. [isValidCPF] looks at the decimal digits of its argument
    only, whatever stands between them, and accepts exactly when there
    are eleven of them, not all the same, of which the tenth and the
    eleventh are the official check digits of those before them. *)
Theorem valid_cpf_digits (s : string) :
  isValidCPF (Some s) = cpf_digits (digits_of s).
Proof.
  unfold isValidCPF, truthy, digits_of. cbn [text].
  destruct (String.eqb s "") eqn:Hs.
  { apply String.eqb_eq in Hs. subst s. reflexivity. }
  cbn [negb]. cbv zeta. rewrite strip_non_digits.
  assert (forallb is_digit (filter is_digit (list_ascii_of_string s)) = true)
    as Hall.
  { apply forallb_forall. intros c Hc. now apply filter_In in Hc. }
  revert Hall.
  generalize (filter is_digit (list_ascii_of_string s)) as l. clear.
  intros l Hall. rewrite length_string_of_list.
  destruct l as [| c0 [| c1 [| c2 [| c3 [| c4 [| c5 [| c6 [| c7 [| c8
             [| c9 [| c10 [| c11 l]]]]]]]]]]]]; try reflexivity.
  cbn [forallb] in Hall.
  repeat (apply andb_true_iff in Hall; destruct Hall as [? Hall]).
  cbn [List.length Nat.eqb negb orb map].
  cbn [string_of_list_ascii repeated list_ascii_of_string forallb].
  assert (line_terminator c0 = false) as ->.
  { pose proof (digit_range c0 H) as Hr. unfold line_terminator, digit_val in *.
    apply orb_false_iff. split; apply Nat.eqb_neq; lia. }
  cbn [negb andb].
  rewrite !(digit_val_same c0) by assumption. rewrite !andb_true_r.
  unfold cpf_digits. cbn [forallb]. rewrite !andb_true_r.
  destruct (_ && _)%bool; [reflexivity |]. cbn [negb andb].
  cbn [weigh Affiliates.charAt String.get].
  rewrite !parseInt_digit by assumption.
  cbn [mul add Z.of_nat Pos.of_succ_nat Pos.succ].
  pose proof (digit_range c0 H). pose proof (digit_range c1 H0).
  pose proof (digit_range c2 H1). pose proof (digit_range c3 H2).
  pose proof (digit_range c4 H3). pose proof (digit_range c5 H4).
  pose proof (digit_range c6 H5). pose proof (digit_range c7 H6).
  pose proof (digit_range c8 H7). pose proof (digit_range c9 H8).
  rewrite (check_digit_verifier 10
             (map digit_val [c0; c1; c2; c3; c4; c5; c6; c7; c8]));
    [| lia | cbn [map weighted]; lia].
  rewrite (check_digit_verifier 11
             (map digit_val [c0; c1; c2; c3; c4; c5; c6; c7; c8; c9]));
    [| lia | cbn [map weighted]; lia].
  cbn [map strict_eq]. rewrite (Z.eqb_sym (verifier 10 _)).
  rewrite (Z.eqb_sym (verifier 11 _)).
  destruct (digit_val c9 =? verifier 10 _); reflexivity.
Qed.

End Cpf.

(** ** utils/helpers: generateSlug *)

Section Slug.
Import RegExp Helpers Text.

Lemma all_chars_cons p c s :
  all_chars p (String c s) = p c && all_chars p s.
Proof. reflexivity. Qed.

Lemma replace_runs_all (p : ascii -> bool) r by_ s :
  all_chars p by_ = true ->
  all_chars (fun c => p c || takes false r c) s = true ->
  all_chars p (replace_runs r by_ s) = true.
Proof.
  intros Hby. induction s as [| c s IH]; [auto |].
  rewrite all_chars_cons. intros H.
  apply andb_true_iff in H. destruct H as [Hc Hs]. specialize (IH Hs).
  cbn [replace_runs]. destruct (takes false r c).
  - destruct s as [| d s]; [assumption |].
    destruct (takes false r d); [assumption |].
    now rewrite all_chars_append, Hby, IH.
  - rewrite orb_false_r in Hc. now rewrite all_chars_cons, Hc, IH.
Qed.

Lemma replace_runs_none r by_ s :
  all_chars (fun c => negb (takes false r c)) s = true ->
  replace_runs r by_ s = s.
Proof.
  induction s as [| c s IH]; [reflexivity |].
  rewrite all_chars_cons. intros H.
  apply andb_true_iff in H. destruct H as [Hc Hs].
  apply negb_true_iff in Hc. cbn [replace_runs].
  now rewrite Hc, (IH Hs).
Qed.

Lemma takes_dash c : takes false (Chr "-") c = Ascii.eqb c "-".
Proof.
  cbn [takes variants existsb]. now rewrite orb_false_r, Ascii.eqb_sym.
Qed.

Lemma no_double_cons c a r :
  no_double c (String a r)
  = match r with
    | String b _ => negb (Ascii.eqb a c && Ascii.eqb b c)
    | EmptyString => true
    end && no_double c r.
Proof. reflexivity. Qed.

(** Collapsing the runs of hyphens leaves no two in a row. *)
Lemma collapsed_no_double s :
  no_double "-" (replace_runs (Chr "-") "-" s) = true.
Proof.
  induction s as [| c s IH]; [reflexivity |].
  cbn [replace_runs]. rewrite takes_dash.
  destruct (Ascii.eqb c "-") eqn:Hc.
  - destruct s as [| d s]; [reflexivity |].
    rewrite takes_dash. destruct (Ascii.eqb d "-") eqn:Hd; [exact IH |].
    cbn [append]. rewrite no_double_cons, IH, andb_true_r.
    cbn [replace_runs]. rewrite takes_dash, Hd, Hd.
    now rewrite andb_false_r.
  - rewrite no_double_cons, IH, andb_true_r, Hc.
    destruct (replace_runs (Chr "-") "-" s); reflexivity.
Qed.

Lemma collapse_same s :
  no_double "-" s = true -> replace_runs (Chr "-") "-" s = s.
Proof.
  induction s as [| c s IH]; [reflexivity |].
  cbn [no_double]. intros H. apply andb_true_iff in H.
  destruct H as [Hc Hs]. specialize (IH Hs).
  cbn [replace_runs]. rewrite takes_dash.
  destruct (Ascii.eqb c "-") eqn:Hcd.
  - apply Ascii.eqb_eq in Hcd. subst c.
    destruct s as [| d s]; [reflexivity |].
    rewrite takes_dash. cbn [andb] in Hc. apply negb_true_iff in Hc.
    rewrite Hc. cbn [append]. now rewrite IH.
  - now rewrite IH.
Qed.

Lemma drop_last_facts c s :
  (forall p, all_chars p s = true -> all_chars p (drop_last c s) = true)
  /\ (no_double c s = true -> no_double c (drop_last c s) = true)
  /\ (no_double c s = true -> ends c (drop_last c s) = false)
  /\ (ends c s = false -> drop_last c s = s)
  /\ (forall d, starts (String d "") s = false ->
                starts (String d "") (drop_last c s) = false).
Proof.
  induction s as [| a s IH]; [repeat split; auto |].
  destruct IH as [IHp [IHn [IHe [IHs IHd]]]].
  destruct s as [| b s].
  - cbn [drop_last ends no_double]. repeat split.
    + intros p H. destruct (Ascii.eqb a c); [reflexivity | exact H].
    + intros _. destruct (Ascii.eqb a c); reflexivity.
    + intros _. destruct (Ascii.eqb a c) eqn:Ha; [reflexivity |].
      cbn. exact Ha.
    + intros ->. reflexivity.
    + intros d H. destruct (Ascii.eqb a c); [reflexivity | exact H].
  - change (drop_last c (String a (String b s)))
      with (String a (drop_last c (String b s))).
    repeat split.
    + intros p H. rewrite all_chars_cons in *.
      apply andb_true_iff in H. destruct H as [Ha Hs].
      now rewrite Ha, (IHp p Hs).
    + intros H. cbn [no_double] in H. apply andb_true_iff in H.
      destruct H as [Hab Hs]. specialize (IHn Hs).
      change (no_double c (String a (drop_last c (String b s))))
        with (match drop_last c (String b s) with
              | String b' _ => negb (Ascii.eqb a c && Ascii.eqb b' c)
              | EmptyString => true
              end && no_double c (drop_last c (String b s))).
      rewrite IHn, andb_true_r.
      destruct s as [| b2 s].
      * cbn [drop_last]. destruct (Ascii.eqb b c) eqn:Hb; [reflexivity |].
        rewrite ?Hb. now rewrite andb_false_r.
      * exact Hab.
    + intros H. cbn [no_double] in H. apply andb_true_iff in H.
      destruct H as [Hab Hs]. specialize (IHe Hs).
      destruct s as [| b2 s].
      * cbn [drop_last]. destruct (Ascii.eqb b c) eqn:Hb.
        -- cbn [ends]. rewrite andb_true_r in Hab.
           now apply negb_true_iff in Hab.
        -- cbn [ends]. exact Hb.
      * change (drop_last c (String b (String b2 s)))
          with (String b (drop_last c (String b2 s))) in *.
        exact IHe.
    + intros H. f_equal. apply IHs. exact H.
    + intros d H. exact H.
Qed.

Lemma lower_slug_char c : slug_char c = true -> lower_char c = c.
Proof.
  unfold slug_char, lower_char. cbn [in_class existsb in_item].
  intros H. destruct ((65 <=? nat_of_ascii c)%nat
                      && (nat_of_ascii c <=? 90)%nat) eqn:Hup;
    [| reflexivity].
  exfalso. apply andb_true_iff in Hup. destruct Hup as [H1 H2].
  apply Nat.leb_le in H1, H2.
  rewrite !orb_true_iff, !andb_true_iff, !Nat.leb_le in H.
  change (nat_of_ascii "a") with 97%nat in H.
  change (nat_of_ascii "0") with 48%nat in H.
  change (nat_of_ascii "9") with 57%nat in H.
  destruct H as [[? ?] | [[? ?] | [H | H]]]; try lia; try discriminate.
  apply Ascii.eqb_eq in H. subst c. cbn in H1. lia.
Qed.

Lemma lower_same s : all_chars slug_char s = true -> toLowerCase s = s.
Proof.
  induction s as [| c s IH]; [reflexivity |].
  rewrite all_chars_cons. intros H. apply andb_true_iff in H.
  destruct H as [Hc Hs]. cbn [toLowerCase].
  now rewrite (lower_slug_char _ Hc), (IH Hs).
Qed.

(** X14. For ASCII text, the slug is made of lower-case letters,
    digits and hyphens only, has no two hyphens in a row, neither
    begins nor ends with a hyphen, and is its own slug. *)
Theorem slug_shape (text_ : string) :
  all_chars is_ascii text_ = true ->
  let slug := generateSlug text_ in
  all_chars slug_char slug = true
  /\ no_double "-" slug = true
  /\ starts "-" slug = false
  /\ ends "-" slug = false
  /\ generateSlug slug = slug.
Proof.
  intros _. cbv zeta.
  assert (forall s,
            all_chars slug_char s = true -> no_double "-" s = true ->
            all_chars slug_char (strip_edges "-" s) = true
            /\ no_double "-" (strip_edges "-" s) = true
            /\ starts "-" (strip_edges "-" s) = false
            /\ ends "-" (strip_edges "-" s) = false) as Hstrip.
  { intros s Hs Hn. unfold strip_edges. destruct s as [| d s];
      [repeat split |].
    destruct (drop_last_facts "-" s) as [Fp [Fn [Fe [_ Fd]]]].
    destruct (drop_last_facts "-" (String d s)) as [Gp [Gn [Ge [_ Gd]]]].
    rewrite all_chars_cons in Hs. apply andb_true_iff in Hs.
    destruct Hs as [Hd Hs]. pose proof Hn as Hn'.
    cbn [no_double] in Hn. apply andb_true_iff in Hn.
    destruct Hn as [Hds Hn].
    destruct (Ascii.eqb d "-") eqn:Hdash.
    - repeat split; auto. apply Fd. destruct s as [| e s]; [reflexivity |].
      cbn [andb] in Hds. apply negb_true_iff in Hds. cbn [starts].
      now rewrite Ascii.eqb_sym, Hds.
    - repeat split; auto.
      + apply Gp. now rewrite all_chars_cons, Hd, Hs.
      + apply Gd. cbn [starts]. now rewrite Ascii.eqb_sym, Hdash. }
  set (s2 := replace_each
               (NoneOf [Range "a" "z"; Range "0" "9"; Space; Lit "-"]) ""
               (toLowerCase text_)).
  assert (all_chars (fun c => slug_char c || takes false (OneOf [Space]) c)
            s2 = true) as H2.
  { unfold s2. apply replace_each_all; [reflexivity |].
    apply all_chars_always. intros c. unfold slug_char.
    cbn [takes variants existsb in_class in_item]. rewrite !orb_false_r.
    destruct ((nat_of_ascii "a" <=? nat_of_ascii c)%nat
              && (nat_of_ascii c <=? nat_of_ascii "z")%nat),
      ((nat_of_ascii "0" <=? nat_of_ascii c)%nat
       && (nat_of_ascii c <=? nat_of_ascii "9")%nat),
      (is_space c), (Ascii.eqb c "-"); reflexivity. }
  set (s3 := replace_runs (OneOf [Space]) "-" s2).
  assert (all_chars slug_char s3 = true) as H3
    by (apply replace_runs_all; [reflexivity | exact H2]).
  set (s4 := replace_runs (Chr "-") "-" s3).
  assert (all_chars slug_char s4 = true) as H4.
  { apply replace_runs_all; [reflexivity |].
    eapply all_chars_weaken; [| exact H3]. intros c ->. reflexivity. }
  pose proof (collapsed_no_double s3) as N4. fold s4 in N4.
  change (generateSlug text_) with (strip_edges "-" s4).
  destruct (Hstrip s4 H4 N4) as [A [B [C D]]].
  split; [exact A |]. split; [exact B |]. split; [exact C |].
  split; [exact D |].
  generalize dependent (strip_edges "-" s4). clear.
  intros slug A B C D. unfold generateSlug.
  rewrite (lower_same _ A).
  rewrite replace_each_none.
  2: { eapply all_chars_weaken; [| exact A]. intros c Hc.
       unfold slug_char in Hc. cbn [takes variants existsb in_class in_item] in *.
       rewrite !orb_false_r in *. apply negb_true_iff, negb_false_iff.
       rewrite !orb_true_iff in *. tauto. }
  rewrite (replace_runs_none (OneOf [Space])).
  2: { eapply all_chars_weaken; [| exact A]. intros c Hc.
       cbn [takes variants existsb in_class in_item].
       rewrite !orb_false_r. apply negb_true_iff.
       destruct (is_space c) eqn:Hsp; [| reflexivity]. exfalso.
       revert Hc Hsp. unfold slug_char, is_space.
       cbn [in_class existsb in_item].
       change (nat_of_ascii "a") with 97%nat.
       change (nat_of_ascii "z") with 122%nat.
       change (nat_of_ascii "0") with 48%nat.
       change (nat_of_ascii "9") with 57%nat.
       rewrite !orb_true_iff, !andb_true_iff, !Nat.leb_le, Nat.eqb_eq.
       intros [[? ?] | [[? ?] | [H | H]]] Hs; try lia; try discriminate.
       apply Ascii.eqb_eq in H. subst c. cbn in Hs. lia. }
  rewrite (collapse_same _ B).
  unfold strip_edges. destruct slug as [| d s]; [reflexivity |].
  cbn [starts] in C. rewrite andb_true_r, Ascii.eqb_sym in C. rewrite C.
  now apply drop_last_facts.
Qed.

End Slug.

Lemma slug_shape_witness :
  let slug := Helpers.generateSlug " Massagem  Relaxante -- 60 min! " in
  Text.all_chars Text.slug_char slug = true
  /\ Text.no_double "-" slug = true
  /\ Text.starts "-" slug = false
  /\ Text.ends "-" slug = false
  /\ Helpers.generateSlug slug = slug.
Proof.
  exact (slug_shape " Massagem  Relaxante -- 60 min! " eq_refl).
Defined.

(** ** utils/helpers: maskSensitiveData *)

Section Mask.
Import RegExp Helpers Text.

Lemma split_plain sep s :
  all_chars (fun c => negb (Ascii.eqb c sep)) s = true ->
  split sep s = [s].
Proof.
  induction s as [| c s IH]; [reflexivity |].
  unfold all_chars. cbn [list_ascii_of_string forallb]. intros H.
  apply andb_true_iff in H. destruct H as [Hc Hs].
  apply negb_true_iff in Hc. cbn [split].
  now rewrite (IH Hs), Hc.
Qed.

Lemma split_first sep s rest :
  all_chars (fun c => negb (Ascii.eqb c sep)) s = true ->
  split sep (s ++ String sep rest)%string = s :: split sep rest.
Proof.
  induction s as [| c s IH].
  - intros _. cbn [append split].
    assert (exists piece more, split sep rest = piece :: more)
      as [piece [more ->]].
    { destruct rest as [| d rest]; cbn [split]; [eauto |].
      destruct (split sep rest) as [| p m] eqn:Hsp.
      - exfalso. clear - Hsp. revert Hsp. induction rest as [| e r IH];
          cbn [split]; [discriminate |].
        destruct (split sep r); [auto |].
        destruct (Ascii.eqb e sep); discriminate.
      - destruct (Ascii.eqb d sep); eauto. }
    now rewrite Ascii.eqb_refl.
  - unfold all_chars. cbn [list_ascii_of_string forallb]. intros H.
    apply andb_true_iff in H. destruct H as [Hc Hs].
    apply negb_true_iff in Hc. cbn [append split].
    now rewrite (IH Hs), Hc.
Qed.

(** X15. Masking an ASCII address user@domain as an e-mail keeps the
    first two characters of the user part and the whole domain, and
    nothing else of the user part; whatever follows a second at sign
    is dropped; and an ASCII text without an at sign gets the domain
    [undefined]. *)
Theorem masked_email (user domain rest : string) (type : option string) :
  all_chars is_ascii user = true ->
  all_chars is_ascii domain = true ->
  all_chars is_ascii rest = true ->
  type = None \/ type = Some "email" ->
  all_chars (fun c => negb (Ascii.eqb c "@")) user = true ->
  all_chars (fun c => negb (Ascii.eqb c "@")) domain = true ->
  maskSensitiveData (Some (user ++ "@" ++ domain)%string) type
  = (substring 0 2 user ++ "***@" ++ domain)%string
  /\ maskSensitiveData (Some (user ++ "@" ++ domain ++ "@" ++ rest)%string) type
     = (substring 0 2 user ++ "***@" ++ domain)%string
  /\ (user <> "" ->
      maskSensitiveData (Some user) type
      = (substring 0 2 user ++ "***@undefined")%string).
Proof.
  intros _ _ _ Htype Hu Hd.
  assert (forall data,
            data <> "" ->
            maskSensitiveData (Some data) type
            = (substring 0 2 (interpolate (nth_error (split "@" data) 0))
               ++ "***@" ++ interpolate (nth_error (split "@" data) 1))%string)
    as Hmask.
  { intros data Hne. unfold maskSensitiveData, truthy.
    apply String.eqb_neq in Hne. rewrite Hne. cbn [negb text].
    destruct Htype as [-> | ->]; reflexivity. }
  split; [| split].
  - rewrite Hmask by (destruct user; discriminate).
    change (user ++ "@" ++ domain)%string
      with (user ++ String "@" domain)%string.
    rewrite (split_first _ _ _ Hu), (split_plain _ _ Hd). reflexivity.
  - rewrite Hmask by (destruct user; discriminate).
    change (user ++ "@" ++ domain ++ "@" ++ rest)%string
      with (user ++ String "@" (domain ++ String "@" rest))%string.
    rewrite (split_first _ _ _ Hu), (split_first _ _ _ Hd). reflexivity.
  - intros Hne. rewrite (Hmask _ Hne), (split_plain _ _ Hu). reflexivity.
Qed.

End Mask.

Lemma masked_email_witness :
  Helpers.maskSensitiveData (Some ("joana" ++ "@" ++ "example.com")%string)
    None
  = (Helpers.substring 0 2 "joana" ++ "***@" ++ "example.com")%string
  /\ Helpers.maskSensitiveData
       (Some ("joana" ++ "@" ++ "example.com" ++ "@" ++ "x")%string) None
     = (Helpers.substring 0 2 "joana" ++ "***@" ++ "example.com")%string
  /\ ("joana"%string <> ""%string ->
      Helpers.maskSensitiveData (Some "joana") None
      = (Helpers.substring 0 2 "joana" ++ "***@undefined")%string).
Proof.
  exact (masked_email "joana" "example.com" "x" None eq_refl eq_refl eq_refl
           (or_introl eq_refl) eq_refl eq_refl).
Defined.

(** ** utils/helpers: isValidPhone *)

Section Phone.
Import RegExp Helpers Text.

Lemma digits_of_append (a b : string) :
  digits_of (a ++ b)%string = digits_of a ++ digits_of b.
Proof.
  unfold digits_of. now rewrite list_ascii_append, filter_app, map_app.
Qed.

Lemma Matches_Opt r s :
  Matches false (Opt r) s <-> s = "" \/ Matches false r s.
Proof.
  unfold Opt. split.
  - intros H. inversion H as [| | | a b u Hu | a b u Hu | |]; subst;
      try discriminate; [now right |].
    inversion Hu; subst; [now left | discriminate].
  - intros [-> | H]; [apply MAltR; constructor | now apply MAltL].
Qed.

Lemma Matches_Empty s : Matches false Empty s <-> s = "".
Proof.
  split.
  - intros H. inversion H; subst; [reflexivity | discriminate].
  - intros ->. constructor.
Qed.

(** A character that is no digit adds no digit. *)
Lemma digits_of_other c :
  is_digit c = false -> digits_of (String c "") = [].
Proof. intros H. unfold digits_of. cbn. now rewrite H. Qed.

Lemma digits_of_digit c :
  is_digit c = true -> digits_of (String c "") = [digit_val c].
Proof. intros H. unfold digits_of. cbn. now rewrite H. Qed.

Lemma optional_mark d s :
  is_digit d = false ->
  Matches false (Opt (Chr d)) s -> digits_of s = [].
Proof.
  intros Hd H. apply Matches_Opt in H. destruct H as [-> | H];
    [reflexivity |].
  apply one_char in H. subst s. now apply digits_of_other.
Qed.

Lemma optional_space s :
  Matches false (Opt (OneOf [Space])) s -> digits_of s = [].
Proof.
  intros H. apply Matches_Opt in H. destruct H as [-> | H];
    [reflexivity |].
  apply Matches_OneOf in H. destruct H as [c [-> Hc]].
  apply digits_of_other. cbn [takes variants existsb in_class in_item] in Hc.
  rewrite !orb_false_r in Hc.
  destruct (is_digit c) eqn:Hd; [| reflexivity].
  now rewrite (digit_not_space _ Hd) in Hc.
Qed.

(** [n] characters of a class of digits are [n] digits. *)
Lemma digit_run (l : list Item) (lo : Z) n s :
  (forall c, in_class l c = true ->
             is_digit c = true /\ lo <= digit_val c <= 9) ->
  Matches false (Times n (OneOf l)) s ->
  List.length (digits_of s) = n
  /\ Forall (fun d => lo <= d <= 9) (digits_of s).
Proof.
  intros Hl. revert s. induction n as [| n IH]; intros s H;
    cbn [Times] in H.
  - apply Matches_Empty in H. subst s. split; [reflexivity | constructor].
  - apply Matches_Seq in H. destruct H as [u [t [-> [Hu Ht]]]].
    apply Matches_OneOf in Hu. destruct Hu as [c [-> Hc]].
    cbn [takes variants existsb] in Hc. rewrite orb_false_r in Hc.
    destruct (Hl c Hc) as [Hd Hr]. destruct (IH t Ht) as [Hlen Hall].
    rewrite digits_of_append, (digits_of_digit _ Hd).
    cbn [app List.length]. split; [now rewrite Hlen |].
    constructor; assumption.
Qed.

(** X23. A telephone number that [isValidPhone] accepts is made of
    these digits, in order, whatever stands between them: 55 if the
    country code is written, a two-digit area code without zeros, and
    eight digits, or a 9 followed by eight digits. *)
Theorem valid_phone_digits (s : string) :
  isValidPhone (Some s) = true -> phone_digits (digits_of s).
Proof.
  unfold isValidPhone, truthy. destruct (String.eqb s ""); [discriminate |].
  cbn [negb text]. rewrite matches_Matches. unfold phoneRegex. intros H.
  apply Matches_Seq in H. destruct H as [cc [r1 [-> [Hcc H]]]].
  apply Matches_Seq in H. destruct H as [ar [r2 [-> [Har H]]]].
  apply Matches_Seq in H. destruct H as [sp [r3 [-> [Hsp H]]]].
  apply Matches_Seq in H. destruct H as [nine [r4 [-> [Hnine H]]]].
  apply Matches_Seq in H. destruct H as [d4a [r5 [-> [H4a H]]]].
  apply Matches_Seq in H. destruct H as [dash [d4b [-> [Hdash H4b]]]].
  (* the area code *)
  apply Matches_Seq in Har. destruct Har as [op [r6 [-> [Hop Har]]]].
  apply Matches_Seq in Har. destruct Har as [area [cl [-> [Harea Hcl]]]].
  assert (forall c, in_class [Range "1" "9"] c = true ->
                    is_digit c = true /\ 1 <= digit_val c <= 9) as Hnz.
  { intros c Hc. cbn [in_class existsb in_item] in Hc.
    rewrite orb_false_r, andb_true_iff, !Nat.leb_le in Hc.
    change (nat_of_ascii "1") with 49%nat in Hc.
    change (nat_of_ascii "9") with 57%nat in Hc.
    unfold is_digit, digit_val. rewrite andb_true_iff, !Nat.leb_le. lia. }
  assert (forall c, in_class [Digit] c = true ->
                    is_digit c = true /\ 0 <= digit_val c <= 9) as Hdg.
  { intros c Hc. cbn [in_class existsb in_item] in Hc.
    rewrite orb_false_r in Hc. split; [assumption |].
    now apply digit_range. }
  destruct (digit_run _ 1 _ _ Hnz Harea) as [Larea Farea].
  destruct (digit_run _ 0 _ _ Hdg H4a) as [L4a F4a].
  destruct (digit_run _ 0 _ _ Hdg H4b) as [L4b F4b].
  pose proof (optional_mark "(" _ eq_refl Hop) as Dop.
  pose proof (optional_mark ")" _ eq_refl Hcl) as Dcl.
  pose proof (optional_mark "-" _ eq_refl Hdash) as Ddash.
  pose proof (optional_space _ Hsp) as Dsp.
  (* the country code *)
  assert (digits_of cc = [] \/ digits_of cc = [5; 5]) as Dcc.
  { apply Matches_Opt in Hcc. destruct Hcc as [-> | Hcc]; [now left |].
    right.
    apply Matches_Seq in Hcc. destruct Hcc as [a [r [-> [Ha Hcc]]]].
    apply Matches_Seq in Hcc. destruct Hcc as [b [r' [-> [Hb Hcc]]]].
    apply Matches_Seq in Hcc. destruct Hcc as [c [e [-> [Hc He]]]].
    apply one_char in Ha, Hb, Hc. subst a b c.
    rewrite !digits_of_append, (optional_space _ He). reflexivity. }
  (* the optional ninth digit *)
  assert (digits_of nine = [] \/ digits_of nine = [9]) as Dnine.
  { apply Matches_Opt in Hnine. destruct Hnine as [-> | Hn]; [now left |].
    right. apply Matches_OneOf in Hn. destruct Hn as [c [-> Hc]].
    cbn [takes variants existsb in_class in_item] in Hc.
    rewrite !orb_false_r in Hc. apply Ascii.eqb_eq in Hc. now subst c. }
  exists (digits_of cc), (digits_of area),
    (digits_of nine ++ digits_of d4a ++ digits_of d4b).
  rewrite !digits_of_append, Dop, Dcl, Dsp, Ddash. cbn [app].
  rewrite app_nil_r.
  split; [reflexivity |]. split; [exact Dcc |]. split; [exact Larea |].
  split; [exact Farea |].
  destruct Dnine as [-> | ->]; cbn [app].
  - split; [apply Forall_app; auto |]. left.
    rewrite length_app. lia.
  - split.
    + constructor; [lia | apply Forall_app; auto].
    + right. cbn [List.length hd_error]. rewrite length_app.
      split; [lia | reflexivity].
Qed.

End Phone.

Lemma valid_phone_digits_witness :
  Text.phone_digits (Text.digits_of "+55 (11) 98765-4321").
Proof.
  exact (valid_phone_digits "+55 (11) 98765-4321" eq_refl).
Defined.

(** ** server: what the error handler lets through *)

Section ErrorHandler.
Import RegExp Server.

(** X16. The message the application's error handler sends never
    mentions, in whatever letter case, any of the seven sensitive
    words (password, token, secret, key, connection, database, env):
    outside development it is always the generic message, and in
    development it is the error's own message only when that mentions
    none of them.
    The status is the error's own when it has one other than 0, else
    500. *)
Theorem error_message_filtered (NODE_ENV error_message : option string)
    (error_status : option Z) :
  let r := errorHandler NODE_ENV error_message error_status in
  success r = false
  /\ status r = match error_status with
                | Some 0 | None => 500
                | Some s => s
                end
  /\ exists m,
       message_of r = Some m
       /\ (forall w, In w sensitiveWords -> ~ Text.mentions w m)
       /\ (NODE_ENV <> Some "development" -> m = internal_error)
       /\ (m = Helpers.text error_message \/ m = hidden \/ m = internal_error).
Proof.
  cbv zeta. unfold errorHandler. cbn [success status message_of failure].
  split; [reflexivity |]. split; [destruct error_status as [[| |] |]; reflexivity |].
  assert (forall w m, In w sensitiveWords ->
                      test true (word w) m = false -> ~ Text.mentions w m)
    as Hword.
  { intros w m Hw Ht Hm. apply test_word_folded in Hm; [congruence |].
    cbn in Hw.
    repeat (destruct Hw as [<- | Hw]; [reflexivity |]). destruct Hw. }
  assert (forall w, In w sensitiveWords ->
                    ~ Text.mentions w hidden
                    /\ ~ Text.mentions w internal_error) as Hfixed.
  { intros w Hw. split; apply Hword; auto; cbn in Hw;
      repeat (destruct Hw as [<- | Hw]; [vm_compute; reflexivity |]);
      destruct Hw. }
  destruct NODE_ENV as [e |].
  - destruct (String.eqb e "development") eqn:He.
    + destruct (existsb _ sensitivePatterns) eqn:Hs.
      * exists hidden. repeat split; auto.
        -- intros w Hw. apply Hfixed, Hw.
        -- apply String.eqb_eq in He. subst e. congruence.
      * exists (Helpers.text error_message). repeat split; auto.
        -- intros w Hw. apply Hword; [exact Hw |].
           destruct (test true (word w) _) eqn:Ht; auto.
           assert (existsb
                     (fun pattern =>
                        test true pattern (Helpers.text error_message))
                     sensitivePatterns = true) as Hex.
           { apply existsb_exists. exists (word w). split; [| exact Ht].
             unfold sensitivePatterns. now apply in_map. }
           congruence.
        -- apply String.eqb_eq in He. subst e. congruence.
    + exists internal_error. repeat split; auto.
      intros w Hw. apply Hfixed, Hw.
  - exists internal_error. repeat split; auto.
    intros w Hw. apply Hfixed, Hw.
Qed.

End ErrorHandler.

(** ** middleware/auth: who gets through *)

Section Authentication.
Variable verify : string -> Auth.Verified.
Import Auth.

Lemma authenticateToken_run (authorization : option string)
    (users : list UserRow) :
  authenticateToken verify authorization users
  = match authorization with
    | None => Respond (failure 401 "Token de acesso requerido")
    | Some header =>
        match nth_error (Helpers.split " " header) 1 with
        | None => Respond (failure 401 "Token de acesso requerido")
        | Some token =>
            if String.eqb token ""
            then Respond (failure 401 "Token de acesso requerido")
            else
              match verify token with
              | Thrown error_name =>
                  if String.eqb error_name "JsonWebTokenError"
                  then Respond (failure 403 "Token inválido")
                  else if String.eqb error_name "TokenExpiredError"
                  then Respond (failure 403 "Token expirado")
                  else Respond (failure 500 internal_error)
              | Payload userId =>
                  match select_user_row userId users with
                  | inl _ => Respond (failure 500 internal_error)
                  | inr [] => Respond (failure 401 "Usuário não encontrado")
                  | inr (user :: _) =>
                      if negb (is_true (is_active user))
                      then Respond (failure 401 "Conta desativada")
                      else Next user
                  end
              end
        end
    end.
Proof.
  unfold authenticateToken. cbv zeta.
  destruct authorization as [header |]; [| reflexivity].
  unfold truthy. destruct (String.eqb header "") eqn:Hh.
  - apply String.eqb_eq in Hh. subst header. reflexivity.
  - cbn [negb Helpers.text].
    destruct (nth_error (Helpers.split " " header) 1) as [token |];
      [| reflexivity].
    cbn [Helpers.text]. rewrite negb_involutive.
    destruct (String.eqb token ""); reflexivity.
Qed.

(** X17. [authenticateToken] calls [next()] only for a request whose
    Authorization header has, as its second word, a token that
    [jwt.verify] accepts with the id of a stored user who is active;
    the user it attaches to the request is that row. *)
Theorem authenticated_user (authorization : option string)
    (users : list UserRow) (user : UserRow) :
  authenticateToken verify authorization users = Next user ->
  exists header token userId,
    authorization = Some header
    /\ nth_error (Helpers.split " " header) 1 = Some token
    /\ verify token = Payload (Some userId)
    /\ uuid_in userId = Some (Auth.id user)
    /\ In user users
    /\ is_active user = Some true.
Proof.
  rewrite authenticateToken_run.
  destruct authorization as [header |]; [| discriminate].
  destruct (nth_error (Helpers.split " " header) 1) as [token |] eqn:Htok;
    [| discriminate].
  destruct (String.eqb token ""); [discriminate |].
  destruct (verify token) as [userId | error_name] eqn:Hv.
  2: { destruct (String.eqb error_name "JsonWebTokenError");
       [discriminate |].
       destruct (String.eqb error_name "TokenExpiredError"); discriminate. }
  destruct (select_user_row userId users) as [e | [| found rest]] eqn:Hsel;
    try discriminate.
  destruct (is_active found) as [[|] |] eqn:Hact; cbn [is_true negb];
    try discriminate.
  intros H. injection H as <-.
  revert Hsel. unfold select_user_row, and_then, param.
  destruct userId as [uid |].
  - destruct (uuid_in uid) as [canon |] eqn:Hu; [| discriminate].
    intros H. injection H as H.
    pose proof (in_eq found rest) as Hin. rewrite <- H in Hin.
    apply filter_In in Hin. destruct Hin as [Hin Heq].
    apply String.eqb_eq in Heq. subst canon.
    exists header, token, uid. auto 10.
  - intros H. injection H as H.
    pose proof (in_eq found rest) as Hin. rewrite <- H in Hin.
    apply filter_In in Hin. destruct Hin as [_ Heq]. discriminate.
Qed.

(** The middleware's own responses. *)
Lemma refusal (authorization : option string) (users : list UserRow)
    (r : Response) :
  authenticateToken verify authorization users = Respond r ->
  success r = false
  /\ (status r = 401 \/ status r = 403 \/ status r = 500).
Proof.
  rewrite authenticateToken_run.
  destruct authorization as [header |].
  2: { intros H. injection H as <-. cbn. auto. }
  destruct (nth_error (Helpers.split " " header) 1) as [token |].
  2: { intros H. injection H as <-. cbn. auto. }
  destruct (String.eqb token "").
  { intros H. injection H as <-. cbn. auto. }
  destruct (verify token) as [userId | error_name].
  - destruct (select_user_row userId users) as [e | [| found rest]].
    + intros H. injection H as <-. cbn. auto.
    + intros H. injection H as <-. cbn. auto.
    + destruct (negb (is_true (is_active found))); [| discriminate].
      intros H. injection H as <-. cbn. auto.
  - destruct (String.eqb error_name "JsonWebTokenError");
      [| destruct (String.eqb error_name "TokenExpiredError")];
      intros H; injection H as <-; cbn; auto.
Qed.

(** X18. When [authenticateToken] responds instead, the response is
    unsuccessful with status 401, 403 or 500; it is 401 "Token de
    acesso requerido" whenever the header is missing or has no second
    word. *)
Theorem unauthenticated_response (authorization : option string)
    (users : list UserRow) (r : Response) :
  authenticateToken verify authorization users = Respond r ->
  success r = false
  /\ (status r = 401 \/ status r = 403 \/ status r = 500)
  /\ (match authorization with
      | Some header => nth_error (Helpers.split " " header) 1 = None
      | None => True
      end ->
      r = failure 401 "Token de acesso requerido").
Proof.
  intros H. destruct (refusal _ _ _ H) as [Hs Hst].
  split; [exact Hs |]. split; [exact Hst |].
  revert H. rewrite authenticateToken_run.
  destruct authorization as [header |].
  - intros H Hnone. rewrite Hnone in H. now injection H as <-.
  - intros H _. now injection H as <-.
Qed.

Section Routes.
Context {L : Library}.

(** X19. POST /commissions/:id/pay and POST /affiliates run their
    handler exactly when the request is authenticated as a user whose
    role is admin; any other request is answered by the middleware,
    unsuccessfully, with status 401, 403 or 500, and the connection is
    left untouched. *)
Theorem admin_routes env id (pay_body : Commissions.PayBody)
    (affiliate_body : Affiliates.CreateBody)
    (authorization : option string) (users : list UserRow) c :
  match authenticateToken verify authorization users with
  | Next user =>
      if match role user with
         | Some r => String.eqb r "admin"
         | None => false
         end
      then commissions_pay verify env id pay_body authorization users c
           = Commissions.pay env id pay_body c
           /\ affiliates_create verify env affiliate_body authorization users c
              = Affiliates.create env affiliate_body c
      else commissions_pay verify env id pay_body authorization users c
           = (failure 403 "Permissão negada", c)
           /\ affiliates_create verify env affiliate_body authorization users c
              = (failure 403 "Permissão negada", c)
  | Respond r =>
      commissions_pay verify env id pay_body authorization users c = (r, c)
      /\ affiliates_create verify env affiliate_body authorization users c
         = (r, c)
      /\ success r = false
      /\ (status r = 401 \/ status r = 403 \/ status r = 500)
  end.
Proof.
  unfold commissions_pay, affiliates_create, route.
  destruct (authenticateToken verify authorization users) as [user | r] eqn:Ha.
  - unfold requireRole. cbn [existsb].
    destruct (role user) as [r |]; [| split; reflexivity].
    rewrite orb_false_r. destruct (String.eqb r "admin"); split; reflexivity.
  - destruct (refusal _ _ _ Ha) as [Hs Hst]. auto.
Qed.

End Routes.

End Authentication.

Lemma authenticated_user_witness :
  exists header token userId,
    Some "Bearer token-of-ana"%string = Some header
    /\ nth_error (Helpers.split " " header) 1 = Some token
    /\ Callers.verify token = Auth.Payload (Some userId)
    /\ uuid_in userId = Some (Auth.id Callers.ana)
    /\ In Callers.ana Callers.users
    /\ Auth.is_active Callers.ana = Some true.
Proof.
  exact (authenticated_user Callers.verify (Some "Bearer token-of-ana")
           Callers.users Callers.ana eq_refl).
Defined.

Lemma unauthenticated_response_witness :
  success (failure 403 "Token expirado") = false
  /\ (status (failure 403 "Token expirado") = 401
      \/ status (failure 403 "Token expirado") = 403
      \/ status (failure 403 "Token expirado") = 500)
  /\ (nth_error (Helpers.split " " "Bearer old-token") 1 = None ->
      failure 403 "Token expirado" = failure 401 "Token de acesso requerido").
Proof.
  exact (unauthenticated_response Callers.verify (Some "Bearer old-token")
           Callers.users (failure 403 "Token expirado") eq_refl).
Defined.

(** ** DELETE /services/:id, and POST /bookings after and before it *)

Section ServiceRemoval.
Context {L : Library}.
Import Bookings Services Spec.

Lemma uuid_shape_long s i : (36 < i)%nat -> uuid_shape i s = false.
Proof.
  revert i. induction s as [| c r IH]; intros i Hi; cbn [uuid_shape].
  - apply Nat.eqb_neq. lia.
  - rewrite (IH (S i)) by lia. apply andb_false_r.
Qed.

Lemma hex_not c x : is_hex c = true -> is_hex x = false -> Ascii.eqb c x = false.
Proof.
  intros Hc Hx. apply Ascii.eqb_neq. intros ->. congruence.
Qed.

Ltac uuid_char H :=
  match type of H with
  | uuid_shape ?i ?s = true =>
      destruct s as [| ?c s];
      [ discriminate H
      | cbn [uuid_shape] in H; apply andb_prop in H;
        let Hc := fresh "Hc" in destruct H as [Hc H];
        cbn [dash_position Nat.eqb orb] in Hc ]
  end.

(** What [isUUID] accepts, the store reads as a [uuid]. *)
Lemma isUUID_uuid_in s : isUUID s = true -> exists v, uuid_in s = Some v.
Proof.
  unfold isUUID. intros H.
  do 36 uuid_char H.
  destruct s as [| ? s];
    [| cbn [uuid_shape] in H; rewrite uuid_shape_long in H by lia;
       rewrite andb_false_r in H; discriminate H].
  clear H.
  repeat match goal with
         | Hc : Ascii.eqb ?c "-" = true |- _ =>
             apply Ascii.eqb_eq in Hc; subst c
         end.
  repeat match goal with
         | Hc : is_hex ?c = true |- _ =>
             let Hd := fresh "Hd" in
             let Hb := fresh "Hb" in
             assert (Ascii.eqb c "-" = false) as Hd
               by (apply (hex_not _ _ Hc); reflexivity);
             assert (Ascii.eqb c "{" = false) as Hb
               by (apply (hex_not _ _ Hc); reflexivity);
             revert Hc Hd Hb
         end.
  intros.
  unfold uuid_in.
  repeat first
    [ progress cbn [uuid_bytes Nat.odd Nat.even Nat.ltb Nat.leb andb negb
                    Ascii.eqb Bool.eqb String.eqb]
    | match goal with
      | Hx : _ = _ |- _ => rewrite Hx
      end
    | rewrite andb_false_r ].
  eexists. reflexivity.
Qed.

Lemma delete_run id d :
  delete id d
  = match uuid_in id with
    | None => (failure 500 internal_error, d)
    | Some sid =>
        if existsb (fun b => eq_sql String.eqb (b_service_id b) (Some sid)
                             && active (b_status b))
                   (bookings d)
        then (failure 400
                "Não é possível excluir serviço com agendamentos ativos", d)
        else if existsb (fun s => String.eqb (s_id s) sid) (services d)
        then ({| status := 200; success := true;
                 message_of := Some "Serviço desativado com sucesso";
                 data := NoData |},
              with_services d
                (map (fun s => if String.eqb (s_id s) sid
                               then deactivated s else s)
                     (services d)))
        else (failure 404 "Serviço não encontrado", d)
    end.
Proof.
  unfold delete, count_active_bookings, update_service_inactive, and_then,
    param.
  destruct (uuid_in id) as [sid |]; [| reflexivity].
  set (busy := fun b : Booking => _).
  assert ((0 <? Z.of_nat (List.length (filter busy (bookings d))))
          = existsb busy (bookings d)) as ->.
  { induction (bookings d) as [| b l IH]; [reflexivity |].
    cbn [filter existsb]. destruct (busy b); [| exact IH].
    cbn [List.length orb]. apply Z.ltb_lt. lia. }
  destruct (existsb busy (bookings d)); [reflexivity |].
  unfold update_where. cbn [eq_sql].
  assert (forall l : list Service,
            existsb (fun s => String.eqb (s_id s) sid) l = false ->
            map (fun s => if String.eqb (s_id s) sid then deactivated s else s)
                l = l) as Hsame.
  { induction l as [| s l IH]; [reflexivity |]. cbn [existsb map].
    intros H. apply orb_false_iff in H. destruct H as [-> H].
    now rewrite (IH H). }
  destruct (existsb (fun s => String.eqb (s_id s) sid) (services d)) eqn:Hex.
  - destruct (map deactivated _) as [| r rs] eqn:Hmap; [| reflexivity].
    exfalso. apply existsb_exists in Hex. destruct Hex as [s [Hin Hs]].
    assert (In (deactivated s)
              (map deactivated
                 (filter (fun s0 => String.eqb (s_id s0) sid) (services d))))
      as Hd by (apply in_map, filter_In; auto).
    rewrite Hmap in Hd. destruct Hd.
  - assert (filter (fun s => String.eqb (s_id s) sid) (services d) = [])
      as ->.
    { revert Hex. induction (services d) as [| s l IH]; [reflexivity |].
      cbn [existsb filter]. intros H. apply orb_false_iff in H.
      destruct H as [-> H]. now apply IH. }
    cbn [map]. rewrite (Hsame _ Hex). destruct d; reflexivity.
Qed.

Lemma delete_ok id d :
  status (fst (delete id d)) = 200 ->
  exists sid,
    uuid_in id = Some sid
    /\ snd (delete id d)
       = with_services d
           (map (fun s => if String.eqb (s_id s) sid then deactivated s else s)
                (services d)).
Proof.
  rewrite delete_run. destruct (uuid_in id) as [sid |]; [| discriminate].
  destruct (existsb _ (bookings d)); [discriminate |].
  destruct (existsb _ (services d)); [| discriminate].
  intros _. exists sid. split; reflexivity.
Qed.

(** X20. The handler of DELETE /services/:id never removes a row.  It
    answers 200 exactly when the id is a uuid as the store reads one
    (hyphens and braces optional), a service has it and no pending or
    confirmed booking refers to it; it then marks inactive the
    services with that id and changes nothing else.  With any other
    answer the store is as it was. *)
Theorem service_deactivated id d :
  bookings (snd (delete id d)) = bookings d
  /\ map s_id (services (snd (delete id d))) = map s_id (services d)
  /\ (status (fst (delete id d)) <> 200 -> snd (delete id d) = d)
  /\ (status (fst (delete id d)) = 200 <->
      exists sid,
        uuid_in id = Some sid
        /\ (exists s, In s (services d) /\ s_id s = sid)
        /\ (forall b, In b (bookings d) -> b_service_id b = Some sid ->
                      active (b_status b) = false))
  /\ (status (fst (delete id d)) = 200 ->
      exists sid,
        uuid_in id = Some sid
        /\ snd (delete id d)
           = with_services d
               (map (fun s => if String.eqb (s_id s) sid
                              then deactivated s else s)
                    (services d))).
Proof.
  rewrite delete_run.
  destruct (uuid_in id) as [sid |].
  2: { cbn. repeat split; auto; try discriminate.
       intros [sid [H _]]. discriminate. }
  destruct (existsb _ (bookings d)) eqn:Hbusy.
  { cbn [fst snd status failure]. repeat split; auto; try discriminate.
    intros [sid' [Hsid [_ Hfree]]]. injection Hsid as <-. exfalso.
    apply existsb_exists in Hbusy. destruct Hbusy as [b [Hin Hb]].
    apply andb_true_iff in Hb. destruct Hb as [Hs Ha].
    apply eq_sql_string in Hs. destruct Hs as [x [Hx1 Hx2]].
    injection Hx2 as <-. rewrite (Hfree b Hin Hx1) in Ha. discriminate. }
  destruct (existsb _ (services d)) eqn:Hex.
  - cbn [fst snd status bookings services with_services].
    split; [reflexivity |]. split.
    { rewrite map_map. apply map_ext. intros s.
      destruct (String.eqb (s_id s) sid); reflexivity. }
    split; [congruence |]. split.
    + split; [| reflexivity]. intros _. exists sid. split; [reflexivity |].
      split.
      * apply existsb_exists in Hex. destruct Hex as [s [Hin Hs]].
        apply String.eqb_eq in Hs. eauto.
      * intros b Hin Hb. destruct (active (b_status b)) eqn:Ha; auto.
        assert (existsb (fun b0 => eq_sql String.eqb (b_service_id b0)
                                     (Some sid) && active (b_status b0))
                        (bookings d) = true) as Hc.
        { apply existsb_exists. exists b. split; [assumption |].
          rewrite Hb, Ha. cbn [eq_sql]. now rewrite String.eqb_refl. }
        congruence.
    + intros _. exists sid. auto.
  - cbn [fst snd status failure]. repeat split; auto; try discriminate.
    intros [sid' [Hsid [[s [Hin Hs]] _]]]. injection Hsid as <-.
    exfalso. assert (existsb (fun s0 => String.eqb (s_id s0) sid)
                             (services d) = true) as Hc.
    { apply existsb_exists. exists s. split; [assumption |].
      now apply String.eqb_eq. }
    congruence.
Qed.

(** X21. Once DELETE /services/:id has answered 200, POST /bookings
    for that service is refused and writes nothing: a request that
    passes validation is answered 500 "Serviço não encontrado ou
    inativo". *)
Theorem deleted_service_not_bookable id d env (body : CreateBody) c sid :
  status (fst (Services.delete id d)) = 200 ->
  db c = snd (Services.delete id d) ->
  service_id body = Some sid ->
  uuid_in sid = uuid_in id ->
  success (fst (create env body c)) = false
  /\ db (snd (create env body c)) = db c
  /\ (create_errors body = [] ->
      fst (create env body c) = failure 500 service_not_found).
Proof.
  intros Hok Hdb Hsid Hsame.
  destruct (delete_ok id d Hok) as [canon [Hid Hafter]].
  rewrite Hafter in Hdb. clear Hafter.
  unfold create.
  destruct (create_errors body) as [| e es] eqn:Herr;
    cbn [List.length Nat.eqb negb fst snd success].
  2: { repeat split. discriminate. }
  (* the service lookup finds nothing *)
  assert (exists tid, therapist_id body = Some tid /\ isUUID tid = true)
    as [tid [Htid Htv]].
  { unfold create_errors in Herr. apply app_eq_nil in Herr.
    destruct Herr as [Herr _]. unfold errors_of, v_therapist_id, required in Herr.
    cbn [optional sanitizer check withMessage] in Herr.
    destruct (therapist_id body) as [t |].
    - exists t. split; [reflexivity |].
      destruct (isUUID t); [reflexivity | discriminate].
    - discriminate. }
  assert (select_service (service_id (create_sanitized body))
            (therapist_id (create_sanitized body)) (db c) = inr []) as Hnone.
  { unfold create_sanitized. cbn [service_id therapist_id].
    unfold v_service_id, v_therapist_id. rewrite !sanitized_plain.
    rewrite Hsid, Htid. unfold select_service, and_then, param.
    rewrite Hsame, Hid. destruct (isUUID_uuid_in _ Htv) as [tv ->]. f_equal.
    rewrite Hdb. cbn [services with_services].
    generalize (services d) as l. clear. intros l.
    induction l as [| s l IH]; [reflexivity |].
    cbn [map filter]. rewrite IH.
    destruct (String.eqb (s_id s) canon) eqn:Hs.
    - cbn [deactivated s_is_active is_true]. now rewrite !andb_false_r.
    - cbn [eq_sql]. rewrite Hs. reflexivity. }
  destruct (transaction (create_callback env (create_sanitized body)) c)
    as [[e | bk] c'] eqn:Htr.
  - cbn [fst snd]. rewrite (transaction_inl _ _ _ _ Htr).
    assert (e = Error service_not_found) as ->.
    { revert Htr. unfold transaction. rewrite create_callback_run.
      cbv zeta. cbn [db log]. rewrite Hnone. intros H. now injection H. }
    repeat split.
  - exfalso. revert Htr. unfold transaction. rewrite create_callback_run.
    cbv zeta. cbn [db log]. rewrite Hnone. discriminate.
Qed.

(** X22. Once POST /bookings has succeeded, DELETE /services/:id for
    the booked service answers 400 and changes nothing. *)
Theorem booked_service_kept env (body : CreateBody) c id sid :
  success (fst (create env body c)) = true ->
  service_id body = Some sid ->
  uuid_in id = uuid_in sid ->
  Services.delete id (db (snd (create env body c)))
  = (failure 400 "Não é possível excluir serviço com agendamentos ativos",
     db (snd (create env body c))).
Proof.
  intros Hok Hsid Hsame. revert Hok. unfold create.
  destruct (negb (List.length (create_errors body) =? 0)%nat);
    [discriminate |].
  destruct (transaction (create_callback env (create_sanitized body)) c)
    as [[e | bk] c'] eqn:Htr; cbn [fst snd success on_error failure];
    [destruct (runs_transaction BookingsCreate); discriminate |].
  intros _.
  destruct (transaction_inr _ _ _ _ Htr) as [c1 [Hcb [Hdb _]]].
  destruct (create_callback_inr _ _ _ _ _ Hcb)
    as [service [rest [db1 [_ [_ [Hins Hcases]]]]]].
  destruct (insert_booking_inr _ _ _ _ _ _ _ _ _ _ _ _ _ _ Hins)
    as [Hdb1 [_ [Hbs [_ [_ [_ Hst]]]]]].
  unfold create_sanitized in Hbs. cbn [service_id] in Hbs.
  unfold v_service_id in Hbs. rewrite sanitized_plain, Hsid in Hbs.
  unfold param in Hbs.
  destruct (uuid_in sid) as [canon |] eqn:Hcanon; [| discriminate].
  injection Hbs as Hbs.
  assert (bookings (db c') = bookings (db c) ++ [bk]) as Hbb.
  { rewrite Hdb. cbv zeta in Hcases. cbn [db] in Hcases.
    destruct Hcases as [[_ ->] | [[_ [_ ->]] | [_ Hc]]];
      try (subst db1; reflexivity).
    destruct Hc as [a [rest' [db2 [u [_ [Hic ->]]]]]].
    apply insert_commission_inr in Hic. destruct Hic as [cm [-> _]].
    subst db1. reflexivity. }
  rewrite delete_run, Hsame. rewrite Hbb, existsb_app.
  cbn [existsb]. rewrite <- Hbs, Hst. cbn [eq_sql active].
  now rewrite String.eqb_refl, !orb_true_r.
Qed.

End ServiceRemoval.

Lemma deleted_service_not_bookable_witness :
  let c := {| db := snd (Services.delete Sample.reiki Sample.store);
              log := [] |} in
  success (fst (Bookings.create (L := Sample.library) Sample.env
                  Requests.reiki_booking c)) = false
  /\ db (snd (Bookings.create (L := Sample.library) Sample.env
                Requests.reiki_booking c)) = db c
  /\ (Bookings.create_errors (L := Sample.library) Requests.reiki_booking
      = [] ->
      fst (Bookings.create (L := Sample.library) Sample.env
             Requests.reiki_booking c)
      = failure 500 Bookings.service_not_found).
Proof.
  exact (@deleted_service_not_bookable Sample.library Sample.reiki
           Sample.store Sample.env Requests.reiki_booking
           {| db := snd (Services.delete Sample.reiki Sample.store);
              log := [] |}
           Sample.reiki eq_refl eq_refl eq_refl eq_refl).
Defined.

Lemma booked_service_kept_witness :
  Services.delete Sample.massage
    (db (snd (Bookings.create (L := Sample.library) Sample.env
                (Sample.request None) Sample.conn)))
  = (failure 400 "Não é possível excluir serviço com agendamentos ativos",
     db (snd (Bookings.create (L := Sample.library) Sample.env
                (Sample.request None) Sample.conn))).
Proof.
  exact (@booked_service_kept Sample.library Sample.env (Sample.request None)
           Sample.conn Sample.massage Sample.massage eq_refl eq_refl eq_refl).
Defined.

(** The id of a route is read by the store, which takes the spellings
    without hyphens and in braces as well. *)
Example delete_other_spellings :
  uuid_in "{22222222222222222222222222222223}" = Some Sample.reiki
  /\ uuid_in "2222222222222222-2222-222222222223" = Some Sample.reiki
  /\ uuid_in "22222222-2222-2222-2222-22222222222" = None
  /\ Services.delete "{22222222222222222222222222222223}" Sample.store
     = Services.delete Sample.reiki Sample.store
  /\ status (fst (Services.delete "{22222222222222222222222222222223}"
                    Sample.store)) = 200.
Proof. repeat split. Qed.

(** ** scripts/fix-encoding *)

Section Encoding.
Import Scripts.

Lemma removeBOM_other (q p : string) (fs : Files) :
  q <> p -> removeBOM q fs p = fs p.
Proof.
  intros Hqp. unfold removeBOM, existsSync, readFileSync, writeFileSync.
  destruct (fs q) as [[content [|]|]|]; cbn [negb]; try reflexivity;
    destruct ((3 <=? List.length content)%nat && byte_is content 0 239
              && byte_is content 1 187 && byte_is content 2 191);
    try reflexivity.
  destruct (String.eqb p q) eqn:E; [| reflexivity].
  apply String.eqb_eq in E. congruence.
Qed.

(** What [removeBOM] makes of the file it is called on depends on that
    file only. *)
Lemma removeBOM_local (p : string) (fs fs' : Files) :
  fs p = fs' p -> removeBOM p fs p = removeBOM p fs' p.
Proof.
  intros H. unfold removeBOM, existsSync, readFileSync, writeFileSync.
  rewrite <- H.
  destruct (fs p) as [[content [|]|]|] eqn:E; cbn [negb];
    try (rewrite E, <- H; reflexivity);
    destruct ((3 <=? List.length content)%nat && byte_is content 0 239
              && byte_is content 1 187 && byte_is content 2 191);
    try (rewrite E, <- H; reflexivity); reflexivity.
Qed.

Lemma fold_removeBOM_other (l : list string) (p : string) :
  ~ In p l ->
  forall fs, fold_left (fun fs file => removeBOM file fs) l fs p = fs p.
Proof.
  induction l as [| q l IH]; intros Hp fs; [reflexivity |].
  cbn [fold_left]. rewrite IH by (intros H; apply Hp; now right).
  apply removeBOM_other. intros ->. apply Hp. now left.
Qed.

Lemma fold_removeBOM_listed (l : list string) (p : string) :
  NoDup l -> In p l ->
  forall fs,
    fold_left (fun fs file => removeBOM file fs) l fs p = removeBOM p fs p.
Proof.
  induction l as [| q l IH]; intros Hnd Hp fs; [destruct Hp |].
  inversion Hnd as [| q' l' Hq Hl]; subst. cbn [fold_left].
  destruct Hp as [-> | Hp].
  - now apply fold_removeBOM_other.
  - rewrite (IH Hl Hp). apply removeBOM_local. apply removeBOM_other.
    intros ->. contradiction.
Qed.

Lemma starts_with_BOM (content : list Z) :
  (3 <=? List.length content)%nat && byte_is content 0 239
  && byte_is content 1 187 && byte_is content 2 191 = true ->
  content = BOM ++ slice3 content.
Proof.
  destruct content as [| c0 [| c1 [| c2 r]]]; cbn; try discriminate.
  unfold byte_is. cbn [nth_error]. rewrite !andb_true_iff, !Z.eqb_eq.
  intros H. decompose [and] H. subst. reflexivity.
Qed.

Lemma removeBOM_cleaned (p : string) (fs : Files) :
  cleaned (fs p) (removeBOM p fs p).
Proof.
  unfold removeBOM, existsSync, readFileSync, writeFileSync, cleaned.
  destruct (fs p) as [[content [|]|]|] eqn:E; cbn [negb]; rewrite ?E; auto;
    destruct ((3 <=? List.length content)%nat && byte_is content 0 239
              && byte_is content 1 187 && byte_is content 2 191) eqn:B;
    rewrite ?E; auto.
  rewrite String.eqb_refl. split; [reflexivity |]. right.
  now apply starts_with_BOM.
Qed.

Lemma filesToCheck_NoDup : NoDup filesToCheck.
Proof.
  unfold filesToCheck.
  repeat (constructor;
          [cbn [In]; intros H;
           repeat (destruct H as [H | H]; [discriminate H |]); exact H |]).
  constructor.
Qed.

(** X24. [fixAllFiles] leaves every path outside [filesToCheck] as it
    was.  Whatever a path names, it creates and deletes nothing and
    turns no file into something else: a file keeps its content or
    loses one leading byte order mark, EF BB BF.  A listed writable
    file that starts with the mark loses it. *)
Theorem only_marks_removed (fs : Scripts.Files) (p : string) :
  Scripts.cleaned (fs p) (Scripts.fixAllFiles fs p)
  /\ (~ In p Scripts.filesToCheck -> Scripts.fixAllFiles fs p = fs p)
  /\ (forall content,
        In p Scripts.filesToCheck ->
        fs p = Some (Scripts.File (Scripts.BOM ++ content) true) ->
        Scripts.fixAllFiles fs p = Some (Scripts.File content true)).
Proof.
  unfold fixAllFiles. split; [| split].
  - destruct (in_dec string_dec p filesToCheck) as [Hin | Hout].
    + rewrite (fold_removeBOM_listed _ _ filesToCheck_NoDup Hin).
      apply removeBOM_cleaned.
    + rewrite (fold_removeBOM_other _ _ Hout).
      unfold cleaned. destruct (fs p) as [[content w|]|]; auto.
  - intros Hout. now apply fold_removeBOM_other.
  - intros content Hin Hfs.
    rewrite (fold_removeBOM_listed _ _ filesToCheck_NoDup Hin).
    unfold removeBOM, existsSync, readFileSync, writeFileSync.
    rewrite Hfs. cbn [negb BOM app List.length Nat.leb byte_is nth_error].
    cbn. now rewrite String.eqb_refl.
Qed.

End Encoding.

(** ** routes/auth: registering and logging in *)

Section Accounts.
Context {L : Library}.
Variable hash : string -> string.
Variable compare : string -> string -> bool.
Variable sign : uuid -> string -> option string -> Result string.
Import AuthRoutes Spec.

(** The row POST /register stores for a name, an address and a
    password. *)
Local Abbreviation stored new_id n e p body :=
  {| Auth.id := new_id; Auth.name := trim n; Auth.email := e;
     Auth.password_hash := hash p;
     Auth.role := Some match role body with
                       | Some r => r
                       | None => "affiliate"
                       end;
     Auth.is_active := Some true |}.

Lemma no_errors (a b : list string) :
  (List.length (a ++ b) =? 0)%nat = true -> a = [] /\ b = [].
Proof.
  rewrite Nat.eqb_eq, length_app.
  destruct a, b; cbn; intros H; try lia. auto.
Qed.

Lemma existsb_none {A} (f : A -> bool) (l : list A) :
  existsb f l = false -> filter f l = [].
Proof.
  induction l as [| x l IH]; [reflexivity |]. cbn [existsb filter].
  intros H. apply orb_false_iff in H. destruct H as [-> H]. auto.
Qed.

Lemma existsb_not_in (l : list Auth.UserRow) (f : Auth.UserRow -> string)
    (x : string) :
  existsb (fun u => String.eqb (f u) x) l = false -> ~ In x (map f l).
Proof.
  intros H Hin. apply in_map_iff in Hin. destruct Hin as [u [Hu Hin]].
  assert (existsb (fun u => String.eqb (f u) x) l = true) as Ht.
  { apply existsb_exists. exists u. split; [exact Hin |].
    now apply String.eqb_eq. }
  congruence.
Qed.

(** What a request that gets a row stored has gone through. *)
Lemma register_stores (new_id : uuid) (body : Body)
    (users : list Auth.UserRow) (r : Reply) (users' : list Auth.UserRow) :
  register hash sign new_id body users = (r, users') ->
  users' = users /\ session r = None /\ status (reply r) <> 201
  \/ exists n e p,
       name body = Some n /\ email body = Some e /\ password body = Some p
       /\ (6 <= String.length p)%nat
       /\ isEmail e = true
       /\ existsb (fun u => String.eqb (Auth.id u) new_id) users = false
       /\ existsb (fun u => String.eqb (Auth.email u) e) users = false
       /\ users' = users ++ [stored new_id n e p body]
       /\ r = signed_in sign 201 "Usuário criado com sucesso"
                (stored new_id n e p body)
                (refused (failure 500 internal_error)).
Proof.
  unfold register. cbv zeta.
  destruct (List.length (register_errors body) =? 0)%nat eqn:Herr;
    cbn [negb].
  2: { intros H. injection H as <- <-. left. cbn. repeat split; auto.
       discriminate. }
  unfold register_errors in Herr.
  apply no_errors in Herr. destruct Herr as [Hn Herr].
  apply app_eq_nil in Herr. destruct Herr as [He Herr].
  apply app_eq_nil in Herr. destruct Herr as [Hp Hr].
  destruct (0 <? List.length
                   (select_user_by_email (email (register_sanitized body))
                                         users))%nat eqn:Hex.
  { intros H. injection H as <- <-. left. cbn. repeat split; auto.
    discriminate. }
  unfold register_sanitized at 1. cbn [password].
  unfold v_password at 1. rewrite sanitized_plain.
  destruct (password body) as [p |] eqn:Ep.
  2: { intros H. injection H as <- <-. left. cbn. repeat split; auto.
       discriminate. }
  destruct (insert_user new_id (name (register_sanitized body))
              (email (register_sanitized body)) (Some (hash p))
              match role (register_sanitized body) with
              | Some r0 => Some r0
              | None => Some "affiliate"
              end users) as [error | [user after]] eqn:Hins.
  { intros H. injection H as <- <-. left. cbn. repeat split; auto.
    discriminate. }
  intros H. injection H as <- <-. right.
  revert Hins. unfold register_sanitized. cbn [name email role].
  unfold v_email at 1, v_role at 1, opt at 1. rewrite sanitized_plain.
  unfold sanitized at 2. cbn [sanitizer option_map].
  unfold v_name at 1, trimmed, sanitized. cbn [sanitizer].
  unfold insert_user, and_then, not_null.
  destruct (name body) as [n |] eqn:En; cbn [option_map];
    [| discriminate].
  destruct (email body) as [e |] eqn:Ee; [| discriminate].
  destruct (negb (fits (trim n) && fits e && fits (hash p)));
    [discriminate |].
  assert (option_map (fun s : string => s) (role body) = role body) as ->
    by (destruct (role body); reflexivity).
  destruct (negb match match role body with
                       | Some r0 => Some r0
                       | None => Some "affiliate"
                       end with
                 | Some r0 => isIn roles r0
                 | None => true
                 end); [discriminate |].
  destruct (existsb (fun u => String.eqb (Auth.id u) new_id) users) eqn:Hid;
    [discriminate |].
  destruct (existsb (fun u => String.eqb (Auth.email u) e) users) eqn:Hem;
    [discriminate |].
  intros H. injection H as <- <-.
  exists n, e, p.
  assert (match role body with
          | Some r0 => Some r0
          | None => Some "affiliate"
          end
          = Some match role body with
                 | Some r0 => r0
                 | None => "affiliate"
                 end) as -> by (destruct (role body); reflexivity).
  repeat split; auto.
  - revert Hp. unfold errors_of, v_password, required.
    cbn [optional check sanitizer]. unfold isLength.
    rewrite andb_true_r. destruct (6 <=? String.length p)%nat eqn:Hlen;
      [| discriminate].
    intros _. now apply Nat.leb_le.
  - revert He. unfold errors_of, v_email, required.
    cbn [optional check sanitizer].
    destruct (isEmail e); [reflexivity | discriminate].
Qed.

(** X25. POST /register changes the users table only by appending one
    row, and keeps ids and addresses distinct.  The row has the id the
    store generated, the trimmed name, the address, the hash of a
    password of at least six characters, the requested role or
    affiliate, and is active.  Any other outcome than 201 or 500 leaves
    the table as it was; a 500 may follow the insertion, when the token
    cannot be signed. *)
Theorem registered_row (new_id : uuid) (body : Body)
    (users : list Auth.UserRow) (r : Reply) (users' : list Auth.UserRow) :
  register hash sign new_id body users = (r, users') ->
  distinct (map Auth.id users) = true ->
  distinct (map Auth.email users) = true ->
  distinct (map Auth.id users') = true
  /\ distinct (map Auth.email users') = true
  /\ (users' = users
      \/ (status (reply r) = 201 \/ status (reply r) = 500)
         /\ exists n e p,
              name body = Some n /\ email body = Some e
              /\ password body = Some p /\ (6 <= String.length p)%nat
              /\ users' = users ++ [stored new_id n e p body]).
Proof.
  intros Hreg Hids Hemails.
  destruct (register_stores _ _ _ _ _ Hreg)
    as [[-> _] | [n [e [p [Hn [He [Hp [Hlen [_ [Hid [Hem [-> Hr]]]]]]]]]]]].
  - auto.
  - rewrite !map_app. cbn [map Auth.id Auth.email].
    split; [| split].
    + apply distinct_snoc; [exact Hids | now apply existsb_not_in].
    + apply distinct_snoc; [exact Hemails | now apply existsb_not_in].
    + right. split.
      * rewrite Hr. unfold signed_in.
        destruct (sign _ _ _); cbn; auto.
      * exists n, e, p. auto.
Qed.

(** X26. POST /login opens a session only for a stored user with the
    address of the request who is active and whose stored hash
    [bcrypt.compare] accepts for the password of the request; the
    session names that user and carries the token signed for that
    user.  Every answer without a session is unsuccessful. *)
Theorem login_needs_password (body : Body) (users : list Auth.UserRow) :
  match session (login compare sign body users) with
  | Some s =>
      exists u p,
        In u users
        /\ email body = Some (Auth.email u)
        /\ Auth.is_active u = Some true
        /\ password body = Some p
        /\ compare p (Auth.password_hash u) = true
        /\ user_id s = Auth.id u
        /\ sign (Auth.id u) (Auth.email u) (Auth.role u) = inr (token s)
        /\ status (reply (login compare sign body users)) = 200
  | None =>
      success (reply (login compare sign body users)) = false
  end.
Proof.
  unfold login. cbv zeta.
  destruct (negb (List.length (login_errors body) =? 0)%nat);
    [reflexivity |].
  destruct (select_user_by_email (email body) users) as [| u rest] eqn:Hsel;
    [reflexivity |].
  assert (In u users /\ email body = Some (Auth.email u)) as [Hin He].
  { pose proof (in_eq u rest) as Hin. rewrite <- Hsel in Hin.
    unfold select_user_by_email in Hin. apply filter_In in Hin.
    destruct Hin as [Hin Heq]. split; [exact Hin |].
    destruct (email body) as [e |]; [| discriminate].
    cbn [eq_sql] in Heq. apply String.eqb_eq in Heq. now subst e. }
  destruct (Auth.is_active u) as [[|] |] eqn:Hact; cbn [is_true negb];
    try reflexivity.
  destruct (password body) as [p |] eqn:Hp; [| reflexivity].
  destruct (compare p (Auth.password_hash u)) eqn:Hc; cbn [negb];
    [| reflexivity].
  unfold signed_in.
  destruct (sign (Auth.id u) (Auth.email u) (Auth.role u)) as [e | t] eqn:Hs;
    [reflexivity |].
  cbn [session reply status user_id token].
  exists u, p. auto 10.
Qed.

(** X27. An account that POST /register has answered 201 for can log
    in: with the same address and password, and a [bcrypt.compare] that
    accepts the password for its own hash, POST /login answers 200 with
    a session for the new id, whoever else is stored. *)
Theorem registered_can_login (new_id : uuid) (body : Body)
    (users : list Auth.UserRow) (r : Reply) (users' : list Auth.UserRow)
    (p : string) :
  register hash sign new_id body users = (r, users') ->
  status (reply r) = 201 ->
  password body = Some p ->
  compare p (hash p) = true ->
  status (reply (login compare sign body users')) = 200
  /\ option_map user_id (session (login compare sign body users'))
     = Some new_id
  /\ option_map token (session (login compare sign body users'))
     = option_map token (session r).
Proof.
  intros Hreg Hst Hp Hc.
  destruct (register_stores _ _ _ _ _ Hreg)
    as [[_ [_ Hno]] | [n [e [p' [Hn [He [Hp' [Hlen [Hmail [Hid [Hem [-> Hr]]]]]]]]]]]];
    [contradiction |].
  assert (p' = p) by congruence. subst p'.
  unfold login. cbv zeta.
  assert (login_errors body = []) as ->.
  { unfold login_errors, errors_of, v_email, v_login_password, required.
    cbn [optional check sanitizer]. rewrite He, Hp, Hmail.
    unfold notEmpty. destruct p; [cbn in Hlen; lia | reflexivity]. }
  cbn [List.length Nat.eqb negb].
  unfold select_user_by_email. rewrite He, filter_app.
  assert (filter (fun u => eq_sql String.eqb (Some (Auth.email u)) (Some e))
                 users = []) as ->.
  { apply existsb_none. exact Hem. }
  cbn [filter app eq_sql Auth.email]. rewrite String.eqb_refl.
  cbn [Auth.is_active is_true negb Auth.password_hash].
  rewrite Hp, Hc. cbn [negb].
  revert Hst. rewrite Hr. unfold signed_in. cbn [Auth.id Auth.email Auth.role].
  destruct (sign new_id e _) as [err | t]; [cbn; discriminate |].
  cbn. auto.
Qed.

Section Escalation.
Variable verify : string -> Auth.Verified.

(** X28. Registration is open and takes the role from the request: the
    token answered to a request that registered with role admin, sent
    as a Bearer token, passes [authenticateToken] and
    [requireRole(['admin'])], so that the handler of an administrator's
    route runs.  This needs only that [jwt.verify] reads from the token
    the id it was signed for, and that the token is one word. *)
Theorem self_registered_admin (new_id : uuid) (body : Body)
    (users : list Auth.UserRow) (r : Reply) (users' : list Auth.UserRow)
    (s : Session) :
  register hash sign new_id body users = (r, users') ->
  session r = Some s ->
  role body = Some "admin" ->
  canonical new_id = true ->
  verify (token s) = Auth.Payload (Some new_id) ->
  Text.all_chars (fun c => negb (Ascii.eqb c " ")) (token s) = true ->
  token s <> "" ->
  forall (handler : Conn -> Response * Conn) (c : Conn),
    Auth.route verify (Some ["admin"]) handler
      (Some ("Bearer " ++ token s)%string) users' c
    = handler c.
Proof.
  intros Hreg Hs Hrole Hcan Hv Hword Hne handler c.
  destruct (register_stores _ _ _ _ _ Hreg)
    as [[_ [Hno _]] | [n [e [p [Hn [He [Hp [Hlen [Hmail [Hid [Hem [-> Hr]]]]]]]]]]]];
    [congruence |].
  unfold Auth.route. rewrite authenticateToken_run.
  change ("Bearer " ++ token s)%string
    with ("Bearer" ++ String " " (token s))%string.
  rewrite (split_first " " "Bearer" (token s) eq_refl),
    (split_plain " " (token s) Hword).
  cbn [nth_error].
  apply String.eqb_neq in Hne. rewrite Hne, Hv.
  unfold Auth.select_user_row, and_then, param.
  unfold canonical in Hcan.
  destruct (uuid_in new_id) as [v |]; [| discriminate].
  apply String.eqb_eq in Hcan. subst v.
  rewrite filter_app.
  assert (filter (fun u => eq_sql String.eqb (Some (Auth.id u)) (Some new_id))
                 users = []) as ->.
  { apply existsb_none. exact Hid. }
  cbn [filter app eq_sql Auth.id]. rewrite String.eqb_refl.
  cbn [Auth.is_active is_true negb].
  unfold Auth.requireRole. cbn [Auth.role]. rewrite Hrole.
  reflexivity.
Qed.

End Escalation.

End Accounts.

Section Newcomer.
Import Sample.

Lemma registered_row_witness :
  Spec.distinct (map Auth.id (Callers.users ++ [Callers.eva_row])) = true
  /\ Spec.distinct (map Auth.email (Callers.users ++ [Callers.eva_row]))
     = true
  /\ (Callers.users ++ [Callers.eva_row] = Callers.users
      \/ (201 = 201 \/ 201 = 500)
         /\ exists n e p,
              Some " Eva "%string = Some n
              /\ Some "eva@example.com"%string = Some e
              /\ Some "eva-secret"%string = Some p
              /\ (6 <= String.length p)%nat
              /\ Callers.users ++ [Callers.eva_row]
                 = Callers.users
                   ++ [{| Auth.id := Callers.eva; Auth.name := trim n;
                          Auth.email := e;
                          Auth.password_hash := Callers.hash p;
                          Auth.role := Some "admin";
                          Auth.is_active := Some true |}]).
Proof.
  exact (@registered_row Sample.library Callers.hash Callers.sign
           Callers.eva Callers.eva_body Callers.users _ _
           eq_refl eq_refl eq_refl).
Defined.

Lemma registered_can_login_witness :
  status (AuthRoutes.reply
            (AuthRoutes.login Callers.compare Callers.sign Callers.eva_body
               (Callers.users ++ [Callers.eva_row]))) = 200
  /\ option_map AuthRoutes.user_id
       (AuthRoutes.session
          (AuthRoutes.login Callers.compare Callers.sign Callers.eva_body
             (Callers.users ++ [Callers.eva_row])))
     = Some Callers.eva
  /\ option_map AuthRoutes.token
       (AuthRoutes.session
          (AuthRoutes.login Callers.compare Callers.sign Callers.eva_body
             (Callers.users ++ [Callers.eva_row])))
     = Some "token-of-eva"%string.
Proof.
  exact (@registered_can_login Sample.library Callers.hash Callers.compare
           Callers.sign Callers.eva Callers.eva_body Callers.users _ _
           "eva-secret" eq_refl eq_refl eq_refl eq_refl).
Defined.

Lemma self_registered_admin_witness :
  Auth.route Callers.verify (Some ["admin"])
    (Commissions.pay Sample.env Sample.owed Sample.payment)
    (Some "Bearer token-of-eva"%string)
    (Callers.users ++ [Callers.eva_row]) Sample.conn
  = Commissions.pay Sample.env Sample.owed Sample.payment Sample.conn.
Proof.
  exact (@self_registered_admin Sample.library Callers.hash Callers.sign
           Callers.verify Callers.eva Callers.eva_body Callers.users _ _
           {| AuthRoutes.user_id := Callers.eva;
              AuthRoutes.user_name := "Eva";
              AuthRoutes.user_email := "eva@example.com";
              AuthRoutes.user_role := Some "admin";
              AuthRoutes.token := "token-of-eva" |}
           eq_refl eq_refl eq_refl eq_refl eq_refl eq_refl
           ltac:(discriminate)
           (Commissions.pay Sample.env Sample.owed Sample.payment)
           Sample.conn).
Defined.

End Newcomer.
